(** * ReShade FX effect compiler: SPIR-V code generator and D3D11 effect linker

    A shallow embedding of the parts of
    [source/d3d11/d3d11_effect_compiler.cpp] (the D3D11 resource builder)
    and of the SPIR-V code generator ([codegen_spirv]) that the
    specification makes statements about, followed by the theorems that
    settle those statements.

    Conventions.
    - C++ [uint32_t]/[unsigned int]/[spv::Id] values are integers in [Z];
      arithmetic that can wrap is written with [u32].
    - [std::vector] is [list]; [push_back] appends at the end.  A
      reference to an element is its position; where the source keeps one
      while the same vector grows, the model says when it dangles.
    - A [com_ptr<T>] is an [option]: [None] is the null pointer.
    - [assert] only exists in debug builds.  The build flavour is the
      section variable [NDEBUG]; a failing assertion of a debug build and
      undefined behaviour of any build end the run ([None]).
    - Calls into the D3D11 device are answered by a script of HRESULTs:
      the n-th call made on the device returns the n-th entry. *)

From Equations Require Import Equations.
From Stdlib Require Import ZArith Lia.
From Stdlib.Strings Require Import Byte.
From stdpp Require Import gmap strings list fin_maps pretty.

Set Warnings "-register-all".
Open Scope Z_scope.

(** ** Machine integers *)

Definition u32 (x : Z) : Z := x mod 2 ^ 32.

(** The four bytes of a 32-bit value in memory order (little endian). *)
Definition dword_bytes (x : Z) : list Z :=
  map (fun k => (x / 2 ^ (8 * k)) mod 256) [0; 1; 2; 3].

(** ** SPIR-V enumerants (Khronos registry values of [spirv.hpp]) *)

Module spv.
Definition MagicNumber : Z := 0x07230203.
Definition WordCountShift : Z := 16.

Definition OpNop : Z := 0.
Definition OpName : Z := 5.
Definition OpMemberName : Z := 6.
Definition OpString : Z := 7.
Definition OpLine : Z := 8.
Definition OpExtension : Z := 10.
Definition OpExtInstImport : Z := 11.
Definition OpMemoryModel : Z := 14.
Definition OpCapability : Z := 17.
Definition OpTypeVoid : Z := 19.
Definition OpTypeBool : Z := 20.
Definition OpTypeInt : Z := 21.
Definition OpTypeFloat : Z := 22.
Definition OpTypeVector : Z := 23.
Definition OpTypeMatrix : Z := 24.
Definition OpTypeImage : Z := 25.
Definition OpTypeSampledImage : Z := 27.
Definition OpTypeArray : Z := 28.
Definition OpTypeRuntimeArray : Z := 29.
Definition OpTypeStruct : Z := 30.
Definition OpTypePointer : Z := 32.
Definition OpConstantTrue : Z := 41.
Definition OpConstantFalse : Z := 42.
Definition OpConstant : Z := 43.
Definition OpConstantComposite : Z := 44.
Definition OpConstantNull : Z := 46.
Definition OpVariable : Z := 59.
Definition OpDecorate : Z := 71.
Definition OpMemberDecorate : Z := 72.

Definition CapabilityMatrix : Z := 0.
Definition CapabilityShader : Z := 1.
Definition AddressingModelLogical : Z := 0.
Definition MemoryModelGLSL450 : Z := 1.
Definition Dim2D : Z := 1.
Definition ImageFormatUnknown : Z := 0.

Definition StorageClassUniformConstant : Z := 0.
Definition StorageClassInput : Z := 1.
Definition StorageClassUniform : Z := 2.
Definition StorageClassOutput : Z := 3.
Definition StorageClassPrivate : Z := 6.
Definition StorageClassFunction : Z := 7.

Definition DecorationBlock : Z := 2.
Definition DecorationBinding : Z := 33.
Definition DecorationDescriptorSet : Z := 34.
Definition DecorationOffset : Z := 35.
End spv.

(** ** The effect IR ([reshadefx]) shared by the backends and the linker *)

Module fx.

Inductive datatype :=
| t_void | t_bool | t_int | t_uint | t_float
| t_string | t_struct | t_sampler | t_texture.

Inductive qualifier :=
| q_extern | q_static | q_uniform | q_in | q_out | q_const | q_precise
| q_noperspective | q_centroid | q_nointerpolation.

Global Instance datatype_eq_dec : EqDecision datatype.
Proof. solve_decision. Defined.
Global Instance qualifier_eq_dec : EqDecision qualifier.
Proof. solve_decision. Defined.

(** The fields in the order of the aggregate initialisers of the source,
    [{ base, rows, cols, qualifiers, is_ptr, is_input, is_output,
    array_length, definition }].  The qualifier bit set is a list of the
    flags that are set. *)
Record type := Type_ {
  base : datatype;
  rows : Z;
  cols : Z;
  qualifiers : list qualifier;
  is_ptr : bool;
  is_input : bool;
  is_output : bool;
  array_length : Z;
  definition : Z
}.

(** [{ base, rows, cols }], the short initialiser of the source. *)
Definition type3 (b : datatype) (r c : Z) : type :=
  Type_ b r c [] false false false 0 0.

Definition has (t : type) (q : qualifier) : bool :=
  bool_decide (q ∈ qualifiers t).

(** Modelled from the spec: the predicates of [struct type], declared in
    a header that is not part of the sources at hand ("scalar =
    rows=cols=1; vector = rows>1,cols=1; array length 0 = not array").
    A matrix is any type with more than one column: the generator's own
    branches for matrices with exactly one row need [is_matrix] to hold
    for them. *)
Definition is_array (t : type) : bool := negb (array_length t =? 0).
Definition is_matrix (t : type) : bool := (1 <=? rows t) && (1 <? cols t).
Definition is_vector (t : type) : bool := (1 <? rows t) && (cols t =? 1).
Definition is_scalar (t : type) : bool := (rows t =? 1) && (cols t =? 1).
Definition is_struct (t : type) : bool := bool_decide (base t = t_struct).
Definition is_boolean (t : type) : bool := bool_decide (base t = t_bool).
Definition is_texture (t : type) : bool := bool_decide (base t = t_texture).
Definition is_sampler (t : type) : bool := bool_decide (base t = t_sampler).

(** Modelled from the spec: [operator==] on types, declared in the same
    missing header: "two structurally equal types (same tag, rows, cols,
    array length, pointer/storage, and, for structs, identity)". *)
Definition type_eqb (a b : type) : bool :=
  bool_decide (base a = base b)
  && (rows a =? rows b) && (cols a =? cols b)
  && (array_length a =? array_length b)
  && Bool.eqb (is_ptr a) (is_ptr b)
  && Bool.eqb (is_input a) (is_input b)
  && Bool.eqb (is_output a) (is_output b)
  && (negb (is_struct a) || (definition a =? definition b)).

(** A constant: sixteen 32-bit lanes, a string payload and the elements
    of an array literal.  Lane [i] of a list shorter than sixteen reads
    as zero, so [[]] is the value-initialised [constant x = {}]. *)
Inductive constant := Constant {
  as_uint : list Z;
  string_data : string;
  array_data : list constant
}.

Definition lane (c : constant) (i : nat) : Z := nth i (as_uint c) 0.
Definition constant_zero : constant := Constant [] "" [].

Record location := {
  source : string;
  line : Z;
  column : Z
}.

Definition no_location : location := {| source := ""; line := 0; column := 0 |}.

Record struct_member_info := {
  member_type : type;
  member_name : string
}.

Record struct_info := {
  struct_definition : Z;
  struct_unique_name : string;
  member_list : list struct_member_info
}.

Inductive texture_format :=
| fmt_unknown
| r8 | r16f | r32f | rg8 | rg16 | rg16f | rg32f
| rgba8 | rgba16 | rgba16f | rgba32f
| dxt1 | dxt3 | dxt5 | latc1 | latc2.

Global Instance texture_format_eq_dec : EqDecision texture_format.
Proof. solve_decision. Defined.

Record texture_info := {
  texture_id : Z;
  texture_unique_name : string;
  texture_semantic : string;
  texture_width : Z;
  texture_height : Z;
  texture_levels : Z;
  texture_format_of : texture_format
}.

(** [lod_bias], [min_lod] and [max_lod] are [float]s; they are carried
    as their 32-bit patterns. *)
Record sampler_info := {
  sampler_id : Z;
  sampler_set : Z;
  sampler_binding : Z;
  sampler_unique_name : string;
  sampler_texture_name : string;
  sampler_filter : Z;
  sampler_address_u : Z;
  sampler_address_v : Z;
  sampler_address_w : Z;
  sampler_min_lod : Z;
  sampler_max_lod : Z;
  sampler_lod_bias : Z;
  sampler_srgb : bool
}.

Record uniform_info := {
  uniform_name : string;
  uniform_type : type;
  uniform_member_index : Z;
  uniform_struct_type_id : Z;
  uniform_size : Z;
  uniform_offset : Z
}.

(** Of a pass, the blend, stencil and colour-mask encodings only feed the
    descriptors handed to the device and are left out. *)
Record pass_info := {
  vs_entry_point : string;
  ps_entry_point : string;
  render_target_names : list string;
  clear_render_targets : bool;
  srgb_write_enable : bool
}.

Record technique_info := {
  technique_name : string;
  passes : list pass_info
}.

End fx.


(** ** The SPIR-V code generator ([codegen_spirv]) *)

Module spirv.
Import fx.

(** *** Instructions and the word stream *)

Record spirv_instruction := Ins {
  op : Z;
  type : Z;
  result : Z;
  operands : list Z
}.

(** The three constructors.  The two-argument one stores its second
    argument in [type] and leaves [result] zero, as the source does. *)
Definition ins_op (o : Z) : spirv_instruction := Ins o 0 0 [].
Definition ins_op_result (o r : Z) : spirv_instruction := Ins o r 0 [].
Definition ins_op_type_result (o t r : Z) : spirv_instruction := Ins o t r [].

Definition add (ins : spirv_instruction) (operand : Z) : spirv_instruction :=
  Ins (op ins) (type ins) (result ins) (operands ins ++ [operand]).

Definition add_range (ins : spirv_instruction) (l : list Z) : spirv_instruction :=
  Ins (op ins) (type ins) (result ins) (operands ins ++ l).

Definition set_type (ins : spirv_instruction) (t : Z) : spirv_instruction :=
  Ins (op ins) t (result ins) (operands ins).

Definition set_result (ins : spirv_instruction) (r : Z) : spirv_instruction :=
  Ins (op ins) (type ins) r (operands ins).

(** [*string] on the rest of a NUL-terminated buffer: the end of the list
    is the terminator, and so is a zero byte inside it. *)
Definition deref (s : list byte) : Z :=
  match s with
  | [] => 0
  | c :: _ => Z.of_N (Byte.to_N c)
  end.

(** [reinterpret_cast<uint8_t *>(&word)[i] = c] on the little-endian
    targets the program is built for. *)
Definition set_byte (word i c : Z) : Z :=
  Z.lor (Z.land word (Z.lnot (Z.shiftl 255 (8 * i)))) (Z.shiftl c (8 * i)).

(** The inner [for] loop: up to four characters, stopping at a NUL, are
    stored into bytes [i], [i+1], ... of [word]; [n] is the number of
    iterations left. *)
Fixpoint add_string_for (n : nat) (i word : Z) (s : list byte) : Z * list byte :=
  match n with
  | O => (word, s)
  | S n' =>
      if deref s =? 0 then (word, s)
      else add_string_for n' (i + 1) (set_byte word i (deref s)) (tail s)
  end.

Definition inspect {A} (a : A) : {b | a = b} := exist _ a eq_refl.

(** The [do ... while] loop, which goes on while the next character is
    not NUL or the top byte of the word just added is set; [acc] is the
    operand vector. *)
Equations? add_string_do (s : list byte) (acc : list Z) : list Z
  by wf (length s) lt :=
  add_string_do s acc with inspect (add_string_for 4 0 0 s) := {
    | exist _ (word, s') Hfor
        with inspect (negb (deref s' =? 0)
                      || negb (Z.land word 0xFF000000 =? 0)) := {
        | exist _ true Hc => add_string_do s' (acc ++ [word])
        | exist _ false Hc => acc ++ [word] } }.
Proof.
  clear add_string_do.
  assert (Ht : forall l : list byte, (length (tail l) <= length l)%nat)
    by (intros [|? ?]; simpl; lia).
  pose proof (Ht s). pose proof (Ht (tail s)). pose proof (Ht (tail (tail s))).
  pose proof (Ht (tail (tail (tail s)))).
  cbn [add_string_for] in Hfor.
  case_eq (deref s =? 0); intros Hd0; rewrite Hd0 in Hfor.
  - injection Hfor as <- <-. rewrite Hd0 in Hc. discriminate.
  - assert (Hs : (length (tail s) < length s)%nat)
      by (destruct s; [discriminate | simpl; lia]).
    repeat match type of Hfor with
           | (if ?c then _ else _) = _ => destruct c
           end; injection Hfor as <- <-; lia.
Qed.

Definition add_string (ins : spirv_instruction) (s : list byte) : spirv_instruction :=
  Ins (op ins) (type ins) (result ins) (add_string_do s (operands ins)).

(** [std::string::c_str()] *)
Definition c_str (s : string) : list byte := String.list_byte_of_string s.

Definition write_word (s : list Z) (word : Z) : list Z := s ++ [word].

Definition num_words (ins : spirv_instruction) : Z :=
  u32 (1 + (if type ins =? 0 then 0 else 1)
         + (if result ins =? 0 then 0 else 1)
         + Z.of_nat (length (operands ins))).

Definition write_ins (s : list Z) (ins : spirv_instruction) : list Z :=
  let s := write_word s
             (Z.lor (u32 (Z.shiftl (num_words ins) spv.WordCountShift)) (op ins)) in
  let s := if type ins =? 0 then s else write_word s (type ins) in
  let s := if result ins =? 0 then s else write_word s (result ins) in
  fold_left write_word (operands ins) s.

Definition write_block (s : list Z) (b : list spirv_instruction) : list Z :=
  fold_left write_ins b s.

(** [align(address, alignment)].  A zero [alignment] is a division by
    zero in the source; [Z.modulo] then leaves the address as it is. *)
Definition align (address alignment : Z) : Z :=
  if negb (address mod alignment =? 0)
  then u32 (address + alignment - address mod alignment)
  else address.

(** *** Generator state *)

Record function_blocks := {
  declaration : list spirv_instruction;
  variables : list spirv_instruction;
  definition : list spirv_instruction;
  return_type : fx.type;
  param_types : list fx.type
}.

(** The members of [codegen_spirv] and of its base class [codegen] that
    the modelled operations read or write.  [_capabilities] lists the
    unordered set in its iteration order. *)
Record codegen := Codegen {
  _next_id : Z;
  structs : list struct_info;
  textures : list texture_info;
  samplers : list sampler_info;
  uniforms : list uniform_info;
  techniques : list technique_info;
  _entries : list spirv_instruction;
  _debug_a : list spirv_instruction;
  _debug_b : list spirv_instruction;
  _annotations : list spirv_instruction;
  _types_and_constants : list spirv_instruction;
  _variables : list spirv_instruction;
  _capabilities : list Z;
  _type_lookup : list (fx.type * Z);
  _constant_lookup : list (fx.type * constant * Z);
  _string_lookup : gmap string Z;
  _current_sampler_binding : Z;
  _functions2 : list function_blocks;
  _current_function : Z;
  _global_ubo_offset : Z;
  _global_ubo_type : Z;
  _global_ubo_variable : Z;
  glsl_ext : Z
}.

Definition set_next_id (v : Z) (cg : codegen) : codegen :=
  Codegen v (structs cg) (textures cg) (samplers cg) (uniforms cg) (techniques cg) (_entries cg) (_debug_a cg) (_debug_b cg) (_annotations cg) (_types_and_constants cg) (_variables cg) (_capabilities cg) (_type_lookup cg) (_constant_lookup cg) (_string_lookup cg) (_current_sampler_binding cg) (_functions2 cg) (_current_function cg) (_global_ubo_offset cg) (_global_ubo_type cg) (_global_ubo_variable cg) (glsl_ext cg).

Definition set_structs (v : list struct_info) (cg : codegen) : codegen :=
  Codegen (_next_id cg) v (textures cg) (samplers cg) (uniforms cg) (techniques cg) (_entries cg) (_debug_a cg) (_debug_b cg) (_annotations cg) (_types_and_constants cg) (_variables cg) (_capabilities cg) (_type_lookup cg) (_constant_lookup cg) (_string_lookup cg) (_current_sampler_binding cg) (_functions2 cg) (_current_function cg) (_global_ubo_offset cg) (_global_ubo_type cg) (_global_ubo_variable cg) (glsl_ext cg).

Definition set_textures (v : list texture_info) (cg : codegen) : codegen :=
  Codegen (_next_id cg) (structs cg) v (samplers cg) (uniforms cg) (techniques cg) (_entries cg) (_debug_a cg) (_debug_b cg) (_annotations cg) (_types_and_constants cg) (_variables cg) (_capabilities cg) (_type_lookup cg) (_constant_lookup cg) (_string_lookup cg) (_current_sampler_binding cg) (_functions2 cg) (_current_function cg) (_global_ubo_offset cg) (_global_ubo_type cg) (_global_ubo_variable cg) (glsl_ext cg).

Definition set_uniforms (v : list uniform_info) (cg : codegen) : codegen :=
  Codegen (_next_id cg) (structs cg) (textures cg) (samplers cg) v (techniques cg) (_entries cg) (_debug_a cg) (_debug_b cg) (_annotations cg) (_types_and_constants cg) (_variables cg) (_capabilities cg) (_type_lookup cg) (_constant_lookup cg) (_string_lookup cg) (_current_sampler_binding cg) (_functions2 cg) (_current_function cg) (_global_ubo_offset cg) (_global_ubo_type cg) (_global_ubo_variable cg) (glsl_ext cg).

Definition set_debug_a (v : list spirv_instruction) (cg : codegen) : codegen :=
  Codegen (_next_id cg) (structs cg) (textures cg) (samplers cg) (uniforms cg) (techniques cg) (_entries cg) v (_debug_b cg) (_annotations cg) (_types_and_constants cg) (_variables cg) (_capabilities cg) (_type_lookup cg) (_constant_lookup cg) (_string_lookup cg) (_current_sampler_binding cg) (_functions2 cg) (_current_function cg) (_global_ubo_offset cg) (_global_ubo_type cg) (_global_ubo_variable cg) (glsl_ext cg).

Definition set_debug_b (v : list spirv_instruction) (cg : codegen) : codegen :=
  Codegen (_next_id cg) (structs cg) (textures cg) (samplers cg) (uniforms cg) (techniques cg) (_entries cg) (_debug_a cg) v (_annotations cg) (_types_and_constants cg) (_variables cg) (_capabilities cg) (_type_lookup cg) (_constant_lookup cg) (_string_lookup cg) (_current_sampler_binding cg) (_functions2 cg) (_current_function cg) (_global_ubo_offset cg) (_global_ubo_type cg) (_global_ubo_variable cg) (glsl_ext cg).

Definition set_annotations (v : list spirv_instruction) (cg : codegen) : codegen :=
  Codegen (_next_id cg) (structs cg) (textures cg) (samplers cg) (uniforms cg) (techniques cg) (_entries cg) (_debug_a cg) (_debug_b cg) v (_types_and_constants cg) (_variables cg) (_capabilities cg) (_type_lookup cg) (_constant_lookup cg) (_string_lookup cg) (_current_sampler_binding cg) (_functions2 cg) (_current_function cg) (_global_ubo_offset cg) (_global_ubo_type cg) (_global_ubo_variable cg) (glsl_ext cg).

Definition set_types_and_constants (v : list spirv_instruction) (cg : codegen) : codegen :=
  Codegen (_next_id cg) (structs cg) (textures cg) (samplers cg) (uniforms cg) (techniques cg) (_entries cg) (_debug_a cg) (_debug_b cg) (_annotations cg) v (_variables cg) (_capabilities cg) (_type_lookup cg) (_constant_lookup cg) (_string_lookup cg) (_current_sampler_binding cg) (_functions2 cg) (_current_function cg) (_global_ubo_offset cg) (_global_ubo_type cg) (_global_ubo_variable cg) (glsl_ext cg).

Definition set_variables (v : list spirv_instruction) (cg : codegen) : codegen :=
  Codegen (_next_id cg) (structs cg) (textures cg) (samplers cg) (uniforms cg) (techniques cg) (_entries cg) (_debug_a cg) (_debug_b cg) (_annotations cg) (_types_and_constants cg) v (_capabilities cg) (_type_lookup cg) (_constant_lookup cg) (_string_lookup cg) (_current_sampler_binding cg) (_functions2 cg) (_current_function cg) (_global_ubo_offset cg) (_global_ubo_type cg) (_global_ubo_variable cg) (glsl_ext cg).

Definition set_type_lookup (v : list (fx.type * Z)) (cg : codegen) : codegen :=
  Codegen (_next_id cg) (structs cg) (textures cg) (samplers cg) (uniforms cg) (techniques cg) (_entries cg) (_debug_a cg) (_debug_b cg) (_annotations cg) (_types_and_constants cg) (_variables cg) (_capabilities cg) v (_constant_lookup cg) (_string_lookup cg) (_current_sampler_binding cg) (_functions2 cg) (_current_function cg) (_global_ubo_offset cg) (_global_ubo_type cg) (_global_ubo_variable cg) (glsl_ext cg).

Definition set_constant_lookup (v : list (fx.type * constant * Z)) (cg : codegen) : codegen :=
  Codegen (_next_id cg) (structs cg) (textures cg) (samplers cg) (uniforms cg) (techniques cg) (_entries cg) (_debug_a cg) (_debug_b cg) (_annotations cg) (_types_and_constants cg) (_variables cg) (_capabilities cg) (_type_lookup cg) v (_string_lookup cg) (_current_sampler_binding cg) (_functions2 cg) (_current_function cg) (_global_ubo_offset cg) (_global_ubo_type cg) (_global_ubo_variable cg) (glsl_ext cg).

Definition set_string_lookup (v : gmap string Z) (cg : codegen) : codegen :=
  Codegen (_next_id cg) (structs cg) (textures cg) (samplers cg) (uniforms cg) (techniques cg) (_entries cg) (_debug_a cg) (_debug_b cg) (_annotations cg) (_types_and_constants cg) (_variables cg) (_capabilities cg) (_type_lookup cg) (_constant_lookup cg) v (_current_sampler_binding cg) (_functions2 cg) (_current_function cg) (_global_ubo_offset cg) (_global_ubo_type cg) (_global_ubo_variable cg) (glsl_ext cg).

Definition set_functions2 (v : list function_blocks) (cg : codegen) : codegen :=
  Codegen (_next_id cg) (structs cg) (textures cg) (samplers cg) (uniforms cg) (techniques cg) (_entries cg) (_debug_a cg) (_debug_b cg) (_annotations cg) (_types_and_constants cg) (_variables cg) (_capabilities cg) (_type_lookup cg) (_constant_lookup cg) (_string_lookup cg) (_current_sampler_binding cg) v (_current_function cg) (_global_ubo_offset cg) (_global_ubo_type cg) (_global_ubo_variable cg) (glsl_ext cg).

Definition set_global_ubo_offset (v : Z) (cg : codegen) : codegen :=
  Codegen (_next_id cg) (structs cg) (textures cg) (samplers cg) (uniforms cg) (techniques cg) (_entries cg) (_debug_a cg) (_debug_b cg) (_annotations cg) (_types_and_constants cg) (_variables cg) (_capabilities cg) (_type_lookup cg) (_constant_lookup cg) (_string_lookup cg) (_current_sampler_binding cg) (_functions2 cg) (_current_function cg) v (_global_ubo_type cg) (_global_ubo_variable cg) (glsl_ext cg).

Definition set_global_ubo_type (v : Z) (cg : codegen) : codegen :=
  Codegen (_next_id cg) (structs cg) (textures cg) (samplers cg) (uniforms cg) (techniques cg) (_entries cg) (_debug_a cg) (_debug_b cg) (_annotations cg) (_types_and_constants cg) (_variables cg) (_capabilities cg) (_type_lookup cg) (_constant_lookup cg) (_string_lookup cg) (_current_sampler_binding cg) (_functions2 cg) (_current_function cg) (_global_ubo_offset cg) v (_global_ubo_variable cg) (glsl_ext cg).

Definition set_global_ubo_variable (v : Z) (cg : codegen) : codegen :=
  Codegen (_next_id cg) (structs cg) (textures cg) (samplers cg) (uniforms cg) (techniques cg) (_entries cg) (_debug_a cg) (_debug_b cg) (_annotations cg) (_types_and_constants cg) (_variables cg) (_capabilities cg) (_type_lookup cg) (_constant_lookup cg) (_string_lookup cg) (_current_sampler_binding cg) (_functions2 cg) (_current_function cg) (_global_ubo_offset cg) (_global_ubo_type cg) v (glsl_ext cg).

(** *** The generator monad: state, and an end of the run *)

Definition Gen (A : Type) : Type := codegen -> option (A * codegen).

Definition ret {A} (a : A) : Gen A := fun cg => Some (a, cg).

Definition bind {A B} (m : Gen A) (k : A -> Gen B) : Gen B :=
  fun cg => match m cg with
            | Some (a, cg') => k a cg'
            | None => None
            end.

Definition fail {A} : Gen A := fun _ => None.

Definition gets {A} (f : codegen -> A) : Gen A := fun cg => Some (f cg, cg).

Definition modify (f : codegen -> codegen) : Gen unit := fun cg => Some (tt, f cg).

Notation "'let*' x ':=' m 'in' k" := (bind m (fun x => k))
  (at level 10, x pattern, m at level 100, k at level 200).

Fixpoint mapM {A B} (f : A -> Gen B) (l : list A) : Gen (list B) :=
  match l with
  | [] => ret []
  | a :: l' =>
      let* b := f a in
      let* bs := mapM f l' in
      ret (b :: bs)
  end.

Fixpoint forM_ {A} (f : A -> Gen unit) (l : list A) : Gen unit :=
  match l with
  | [] => ret tt
  | a :: l' => let* _ := f a in forM_ f l'
  end.

(** The basic blocks an operation can be pointed at
    ([spirv_basic_block &block]). *)
Inductive block_ref :=
| blk_debug_a | blk_debug_b | blk_annotations
| blk_types_and_constants | blk_variables
| blk_function_variables.

Definition set_function_variables (v : list spirv_instruction) (f : function_blocks)
  : function_blocks :=
  {| declaration := declaration f; variables := v; definition := definition f;
     return_type := return_type f; param_types := param_types f |}.

(** [_functions2[_current_function].variables] is undefined behaviour
    when no function is current. *)
Definition get_block (b : block_ref) : Gen (list spirv_instruction) :=
  fun cg =>
    match b with
    | blk_debug_a => Some (_debug_a cg, cg)
    | blk_debug_b => Some (_debug_b cg, cg)
    | blk_annotations => Some (_annotations cg, cg)
    | blk_types_and_constants => Some (_types_and_constants cg, cg)
    | blk_variables => Some (_variables cg, cg)
    | blk_function_variables =>
        match _functions2 cg !! Z.to_nat (_current_function cg) with
        | Some f => Some (variables f, cg)
        | None => None
        end
    end.

Definition put_block (b : block_ref) (l : list spirv_instruction) : Gen unit :=
  fun cg =>
    match b with
    | blk_debug_a => Some (tt, set_debug_a l cg)
    | blk_debug_b => Some (tt, set_debug_b l cg)
    | blk_annotations => Some (tt, set_annotations l cg)
    | blk_types_and_constants => Some (tt, set_types_and_constants l cg)
    | blk_variables => Some (tt, set_variables l cg)
    | blk_function_variables =>
        match _functions2 cg !! Z.to_nat (_current_function cg) with
        | Some f =>
            Some (tt, set_functions2
                        (<[Z.to_nat (_current_function cg) := set_function_variables l f]>
                           (_functions2 cg)) cg)
        | None => None
        end
    end.

(** [block.instructions.emplace_back(op)]: the new instruction is returned
    by its position, which stands for the reference the source keeps. *)
Definition emplace_back (b : block_ref) (o : Z) : Gen nat :=
  let* l := get_block b in
  let* _ := put_block b (l ++ [ins_op o]) in
  ret (length l).

(** A write through such a reference. *)
Definition patch (b : block_ref) (i : nat) (f : spirv_instruction -> spirv_instruction)
  : Gen unit :=
  let* l := get_block b in
  put_block b (alter f i l).

(** Appends a finished instruction. *)
Definition push_back (b : block_ref) (ins : spirv_instruction) : Gen unit :=
  let* l := get_block b in
  put_block b (l ++ [ins]).

(** Modelled from the spec: [make_id] of the base class [codegen], whose
    header is not among the sources: "Monotonically increasing counter
    starting at 1".  The counter of the specification never wraps. *)
Definition make_id : Gen Z :=
  fun cg => Some (_next_id cg, set_next_id (_next_id cg + 1) cg).

Section Generator.

(** [true] for a build with assertions compiled out. *)
Variable NDEBUG : bool.

Definition assert_ (b : bool) : Gen unit :=
  if NDEBUG || b then ret tt else fail.

(** [add_instruction_without_result(op, block)] followed by the operands
    the caller chains onto the returned reference. *)
Definition add_instruction_without_result (o : Z) (b : block_ref) (ops : list Z)
  : Gen unit :=
  push_back b (add_range (ins_op o) ops).

(** [add_instruction(op, type, block)] followed by the chained operands;
    the value is [.result]. *)
Definition add_instruction (o t : Z) (b : block_ref) (ops : list Z) : Gen Z :=
  let* r := make_id in
  let* _ := push_back b (add_range (ins_op_type_result o t r) ops) in
  ret r.

Definition add_location (loc : location) (b : block_ref) : Gen unit :=
  if bool_decide (source loc = "") then ret tt
  else
    let* known := gets (fun cg => default 0 (_string_lookup cg !! source loc)) in
    let* file :=
      (if known =? 0 then
         let* r := make_id in
         let* _ := push_back blk_debug_a
                     (add_string (ins_op_type_result spv.OpString 0 r)
                        (c_str (source loc))) in
         let* _ := modify (fun cg =>
                     set_string_lookup (<[source loc := r]> (_string_lookup cg)) cg) in
         ret r
       else
         let* _ := modify (fun cg =>
                     set_string_lookup (<[source loc := known]> (_string_lookup cg)) cg) in
         ret known) in
    add_instruction_without_result spv.OpLine b [file; line loc; column loc].

Definition add_name (id : Z) (name : string) : Gen unit :=
  push_back blk_debug_b (add_string (add (ins_op spv.OpName) id) (c_str name)).

Definition add_member_name (id member_index : Z) (name : string) : Gen unit :=
  push_back blk_debug_b
    (add_string (add (add (ins_op spv.OpMemberName) id) member_index) (c_str name)).

Definition add_decoration (id decoration : Z) (values : list Z) : Gen unit :=
  add_instruction_without_result spv.OpDecorate blk_annotations
    ([id; decoration] ++ values).

Definition add_member_decoration (id member_index decoration : Z) (values : list Z)
  : Gen unit :=
  add_instruction_without_result spv.OpMemberDecorate blk_annotations
    ([id; member_index; decoration] ++ values).

(** The [find_if] predicate of [convert_type]. *)
Definition type_lookup_match (info : fx.type) (x : fx.type * Z) : bool :=
  type_eqb x.1 info
  && (negb (is_ptr info)
      || (Bool.eqb (has x.1 q_static) (has info q_static)
          && Bool.eqb (has x.1 q_uniform) (has info q_uniform))).

(** [memcmp] of the sixteen lanes. *)
Definition lanes_eqb (a b : constant) : bool :=
  forallb (fun i => lane a i =? lane b i) (seq 0 16).

Fixpoint elements_eqb (xs ds : list constant) : bool :=
  match xs, ds with
  | x :: xs', d :: ds' => lanes_eqb x d && elements_eqb xs' ds'
  | _, _ => true
  end.

(** The [find_if] predicate of [emit_constant]. *)
Definition constant_lookup_match (t : fx.type) (data : constant)
    (x : fx.type * constant * Z) : bool :=
  type_eqb x.1.1 t
  && lanes_eqb x.1.2 data
  && (length (array_data x.1.2) =? length (array_data data))%nat
  && elements_eqb (array_data x.1.2) (array_data data).

Definition storage_class (info : fx.type) : Z :=
  let storage := spv.StorageClassFunction in
  let storage := if is_input info then spv.StorageClassInput else storage in
  let storage := if is_output info then spv.StorageClassOutput else storage in
  let storage := if has info q_static then spv.StorageClassPrivate else storage in
  if has info q_uniform
  then (if is_texture info || is_sampler info
        then spv.StorageClassUniformConstant else spv.StorageClassUniform)
  else storage.

Definition with_rows_cols (t : fx.type) (r c : Z) : fx.type :=
  Type_ (base t) r c (qualifiers t) (is_ptr t) (is_input t) (is_output t)
        (array_length t) (fx.definition t).

Definition with_array_length (t : fx.type) (n : Z) : fx.type :=
  Type_ (base t) (rows t) (cols t) (qualifiers t) (is_ptr t) (is_input t)
        (is_output t) n (fx.definition t).

Definition without_pointer (t : fx.type) : fx.type :=
  Type_ (base t) (rows t) (cols t) (qualifiers t) false false false
        (array_length t) (fx.definition t).

(** Lanes [first .. first + n - 1] of [data], as the lanes of a fresh
    constant. *)
Definition lanes_from (data : constant) (first n : Z) : constant :=
  Constant (map (fun k => lane data (Z.to_nat (first + k))) (seqZ 0 n)) "" [].

(** [convert_type] and [emit_constant] call each other; [fuel] bounds the
    depth of the calls. *)
Fixpoint convert_type (fuel : nat) (info : fx.type) {struct fuel} : Gen Z :=
  match fuel with
  | O => fail
  | S fuel' =>
    let* lookup := gets _type_lookup in
    match List.find (type_lookup_match info) lookup with
    | Some it => ret it.2
    | None =>
      let* result :=
        (if is_ptr info then
           let* elemtype := convert_type fuel' (without_pointer info) in
           let* r := add_instruction spv.OpTypePointer 0 blk_types_and_constants
                       [storage_class info; elemtype] in
           ret (Some r)
         else if is_array info then
           let* _ := assert_ (negb (is_ptr info)) in
           let* elemtype := convert_type fuel' (with_array_length info 0) in
           if 0 <? array_length info then
             let* length_constant :=
               emit_constant fuel' (type3 t_uint 1 1)
                 (Constant [u32 (array_length info)] "" []) in
             let* r := add_instruction spv.OpTypeArray 0 blk_types_and_constants
                         [elemtype; length_constant] in
             ret (Some r)
           else
             let* r := add_instruction spv.OpTypeRuntimeArray 0
                         blk_types_and_constants [elemtype] in
             ret (Some r)
         else if is_matrix info then
           let* elemtype := convert_type fuel' (with_rows_cols info (cols info) 1) in
           if rows info =? 1 then ret (Some elemtype)
           else
             let* r := add_instruction spv.OpTypeMatrix 0 blk_types_and_constants
                         [elemtype; rows info] in
             ret (Some r)
         else if is_vector info then
           let* elemtype := convert_type fuel' (with_rows_cols info 1 1) in
           let* r := add_instruction spv.OpTypeVector 0 blk_types_and_constants
                       [elemtype; rows info] in
           ret (Some r)
         else
           let* _ := assert_ (negb (is_input info) && negb (is_output info)) in
           match base info with
           | t_void =>
               let* _ := assert_ ((rows info =? 0) && (cols info =? 0)) in
               let* r := add_instruction spv.OpTypeVoid 0 blk_types_and_constants [] in
               ret (Some r)
           | t_bool =>
               let* _ := assert_ ((rows info =? 1) && (cols info =? 1)) in
               let* r := add_instruction spv.OpTypeBool 0 blk_types_and_constants [] in
               ret (Some r)
           | t_float =>
               let* _ := assert_ ((rows info =? 1) && (cols info =? 1)) in
               let* r := add_instruction spv.OpTypeFloat 0 blk_types_and_constants
                           [32] in
               ret (Some r)
           | t_int =>
               let* _ := assert_ ((rows info =? 1) && (cols info =? 1)) in
               let* r := add_instruction spv.OpTypeInt 0 blk_types_and_constants
                           [32; 1] in
               ret (Some r)
           | t_uint =>
               let* _ := assert_ ((rows info =? 1) && (cols info =? 1)) in
               let* r := add_instruction spv.OpTypeInt 0 blk_types_and_constants
                           [32; 0] in
               ret (Some r)
           | t_struct =>
               let* _ := assert_ ((rows info =? 0) && (cols info =? 0)
                                  && negb (fx.definition info =? 0)) in
               ret (Some (fx.definition info))
           | t_texture =>
               let* _ := assert_ ((rows info =? 0) && (cols info =? 0)) in
               let* sampled_type := convert_type fuel' (type3 t_float 1 1) in
               let* r := add_instruction spv.OpTypeImage 0 blk_types_and_constants
                           [sampled_type; spv.Dim2D; 0; 0; 0; 1;
                            spv.ImageFormatUnknown] in
               ret (Some r)
           | t_sampler =>
               let* _ := assert_ ((rows info =? 0) && (cols info =? 0)) in
               let* image_type :=
                 convert_type fuel'
                   (Type_ t_texture 0 0 [q_uniform] false false false 0 0) in
               let* r := add_instruction spv.OpTypeSampledImage 0
                           blk_types_and_constants [image_type] in
               ret (Some r)
           | t_string =>
               let* _ := assert_ false in
               ret None
           end) in
      match result with
      | None => ret 0
      | Some r =>
          let* _ := modify (fun cg =>
                      set_type_lookup (_type_lookup cg ++ [(info, r)]) cg) in
          ret r
      end
    end
  end
with emit_constant (fuel : nat) (t : fx.type) (data : constant) {struct fuel} : Gen Z :=
  match fuel with
  | O => fail
  | S fuel' =>
    let* _ := assert_ (negb (is_ptr t)) in
    let* lookup := gets _constant_lookup in
    match List.find (constant_lookup_match t data) lookup with
    | Some it => ret it.2
    | None =>
      let* result :=
        (if is_array t then
           let* _ := assert_ (0 <? array_length t) in
           if array_length t <? 0 then fail
           else
             let elem_type := with_array_length t 0 in
             let* elements := mapM (emit_constant fuel' elem_type) (array_data data) in
             let* padding :=
               mapM (emit_constant fuel' elem_type)
                 (replicate (Z.to_nat (array_length t)
                             - length (array_data data))%nat constant_zero) in
             let* type_id := convert_type fuel' t in
             add_instruction spv.OpConstantComposite type_id blk_types_and_constants
               (elements ++ padding)
         else if is_struct t then
           let* type_id := convert_type fuel' t in
           add_instruction spv.OpConstantNull type_id blk_types_and_constants []
         else if is_matrix t then
           if (4 <? rows t) || (16 <? rows t * cols t) then fail
           else
             let row_type := with_rows_cols t (cols t) 1 in
             let* row_ids :=
               mapM (fun i => emit_constant fuel' row_type
                                (lanes_from data (i * cols t) (cols t)))
                 (seqZ 0 (rows t)) in
             if rows t =? 1 then ret (nth 0 row_ids 0)
             else
               let* type_id := convert_type fuel' t in
               add_instruction spv.OpConstantComposite type_id
                 blk_types_and_constants row_ids
         else if is_vector t then
           if 4 <? rows t then fail
           else
             let scalar_type := with_rows_cols t 1 (cols t) in
             let* row_ids :=
               mapM (fun i => emit_constant fuel' scalar_type
                                (lanes_from data i 1))
                 (seqZ 0 (rows t)) in
             let* type_id := convert_type fuel' t in
             add_instruction spv.OpConstantComposite type_id
               blk_types_and_constants row_ids
         else if is_boolean t then
           let* type_id := convert_type fuel' t in
           add_instruction
             (if lane data 0 =? 0 then spv.OpConstantFalse else spv.OpConstantTrue)
             type_id blk_types_and_constants []
         else
           let* _ := assert_ (is_scalar t) in
           let* type_id := convert_type fuel' t in
           add_instruction spv.OpConstant type_id blk_types_and_constants
             [lane data 0]) in
      let* _ := modify (fun cg =>
                  set_constant_lookup (_constant_lookup cg ++ [(t, data, result)]) cg) in
      ret result
    end
  end.


(** The private [define_variable(id, loc, type, name, storage,
    initializer_value)]; a null [name] is [None]. *)
Definition define_variable_with_id (fuel : nat) (id : Z) (loc : location)
    (t : fx.type) (name : option string) (storage initializer_value : Z) : Gen unit :=
  let* _ := assert_ (is_ptr t) in
  let block := if negb (storage =? spv.StorageClassFunction)
               then blk_variables else blk_function_variables in
  let* _ := add_location loc block in
  let* instruction := emplace_back block spv.OpVariable in
  let* type_id := convert_type fuel t in
  let* _ := patch block instruction (fun ins => set_type ins type_id) in
  let* _ := patch block instruction (fun ins => set_result ins id) in
  let* _ := patch block instruction (fun ins => add ins storage) in
  let* _ := (if negb (initializer_value =? 0)
             then patch block instruction (fun ins => add ins initializer_value)
             else ret tt) in
  match name with
  | Some n => if negb (deref (c_str n) =? 0) then add_name id n else ret tt
  | None => ret tt
  end.

(** Whether the [emplace_back] that makes a vector of [n] elements one
    of [n + 1] moves the elements to new storage: the growth policy of
    the standard library, for a vector that has only grown by single
    elements, as the blocks of instructions do.  A reference to an
    element does not survive the move. *)
Variable reallocates : nat -> bool.

(** Whether the reference to the instruction at position [instruction]
    of the block of types and constants, taken when that instruction was
    the last, dangles: an instruction put after it moved the block. *)
Definition dangling (instruction : nat) : Gen bool :=
  gets (fun cg =>
          existsb reallocates
            (seq (S instruction)
               (length (_types_and_constants cg) - S instruction))).

(** [define_struct] holds a reference to its [OpTypeStruct] while
    [convert_type] adds the types of the members that are not interned
    yet to the same block; adding an operand through a dangling
    reference is undefined behaviour. *)
Definition define_struct (fuel : nat) (loc : location) (info : struct_info) : Gen Z :=
  let* _ := modify (fun cg => set_structs (structs cg ++ [info]) cg) in
  let* _ := add_location loc blk_types_and_constants in
  let* instruction := emplace_back blk_types_and_constants spv.OpTypeStruct in
  let* _ := patch blk_types_and_constants instruction
              (fun ins => set_result ins (struct_definition info)) in
  let* _ := forM_ (fun member =>
                     let* member_type_id := convert_type fuel (member_type member) in
                     let* moved := dangling instruction in
                     if moved then fail
                     else patch blk_types_and_constants instruction
                            (fun ins => add ins member_type_id))
              (member_list info) in
  let* _ := (if negb (bool_decide (struct_unique_name info = ""))
             then add_name (struct_definition info) (struct_unique_name info)
             else ret tt) in
  let* _ := forM_ (fun im : Z * struct_member_info =>
                     add_member_name (struct_definition info) im.1 (member_name im.2))
              (zip (seqZ 0 (Z.of_nat (length (member_list info)))) (member_list info)) in
  ret (struct_definition info).

Definition define_texture (info : texture_info) : Gen Z :=
  let* _ := modify (fun cg => set_textures (textures cg ++ [info]) cg) in
  ret (texture_id info).

Definition uniform_byte_size (t : fx.type) : Z :=
  u32 (4 * (if rows t =? 3 then 4 else rows t) * cols t * Z.max 1 (array_length t)).

(** [define_uniform] writes the layout into [info]; the updated
    descriptor is returned next to the id.  A size of zero makes [align]
    divide by zero. *)
Definition define_uniform (info : uniform_info) : Gen (Z * uniform_info) :=
  let* ubo_type := gets _global_ubo_type in
  let* _ := (if ubo_type =? 0
             then let* id := make_id in modify (set_global_ubo_type id)
             else ret tt) in
  let* ubo_variable := gets _global_ubo_variable in
  let* _ := (if ubo_variable =? 0
             then let* id := make_id in modify (set_global_ubo_variable id)
             else ret tt) in
  let size := uniform_byte_size (uniform_type info) in
  let alignment := size in
  if alignment =? 0 then fail
  else
    let* current := gets _global_ubo_offset in
    let offset := align current alignment in
    let* _ := modify (set_global_ubo_offset (u32 (offset + size))) in
    let* member_index := gets (fun cg => Z.of_nat (length (uniforms cg))) in
    let* struct_type_id := gets _global_ubo_type in
    let info' := {| uniform_name := uniform_name info;
                    uniform_type := uniform_type info;
                    uniform_member_index := member_index;
                    uniform_struct_type_id := struct_type_id;
                    uniform_size := uniform_size info;
                    uniform_offset := offset |} in
    let* _ := modify (fun cg => set_uniforms (uniforms cg ++ [info']) cg) in
    let* _ := add_member_decoration struct_type_id member_index
                spv.DecorationOffset [offset] in
    let* variable := gets _global_ubo_variable in
    ret (variable, info').

Definition create_global_ubo (fuel : nat) : Gen unit :=
  let* ubo_type := gets _global_ubo_type in
  let* us := gets uniforms in
  let global_ubo_type :=
    {| struct_definition := ubo_type;
       struct_unique_name := "";
       member_list :=
         map (fun u => {| member_type := uniform_type u;
                          member_name := uniform_name u |}) us |} in
  let* _ := define_struct fuel no_location global_ubo_type in
  let* _ := add_decoration ubo_type spv.DecorationBlock [] in
  let* _ := add_decoration ubo_type spv.DecorationBinding [0] in
  let* _ := add_decoration ubo_type spv.DecorationDescriptorSet [0] in
  let* ubo_variable := gets _global_ubo_variable in
  define_variable_with_id fuel ubo_variable no_location
    (Type_ t_struct 0 0 [q_uniform] true false false 0 ubo_type)
    (Some "$Globals") spv.StorageClassUniform 0.

(** The output [module]. *)
Record module := {
  spirv : list Z;
  module_samplers : list sampler_info;
  module_textures : list texture_info;
  module_uniforms : list uniform_info;
  module_techniques : list technique_info
}.

Definition OpLabel : Z := 248.

(** One iteration of the loop over [_functions2] in [write_result]. *)
Definition write_function (s : option (list Z)) (f : function_blocks)
  : option (list Z) :=
  match s with
  | None => None
  | Some s =>
      match definition f with
      | [] => Some s
      | front :: rest =>
          let s := write_block s (declaration f) in
          let s := write_ins s front in
          if NDEBUG || (op front =? OpLabel)
          then Some (write_block (write_block s (variables f)) rest)
          else None
      end
  end.

(** The version word [spv::Version] of the SPIR-V headers the program is
    built against. *)
Variable spv_Version : Z.

Definition write_result (fuel : nat) (s : module) : Gen module :=
  let* _ := create_global_ubo fuel in
  fun cg =>
    let w := spirv s in
    let w := write_word w spv.MagicNumber in
    let w := write_word w spv_Version in
    let w := write_word w 0 in
    let w := write_word w (_next_id cg) in
    let w := write_word w 0 in
    let w := write_ins w (add (ins_op spv.OpCapability) spv.CapabilityMatrix) in
    let w := write_ins w (add (ins_op spv.OpCapability) spv.CapabilityShader) in
    let w := fold_left (fun w capability =>
                          write_ins w (add (ins_op spv.OpCapability) capability))
               (_capabilities cg) w in
    let w := write_ins w (add_string (ins_op spv.OpExtension)
                            (c_str "SPV_GOOGLE_hlsl_functionality1")) in
    let w := write_ins w (add_string (ins_op_result spv.OpExtInstImport (glsl_ext cg))
                            (c_str "GLSL.std.450")) in
    let w := write_ins w (add (add (ins_op spv.OpMemoryModel)
                                 spv.AddressingModelLogical)
                            spv.MemoryModelGLSL450) in
    let w := write_block w (_entries cg) in
    let w := write_block w (_debug_a cg) in
    let w := write_block w (_debug_b cg) in
    let w := write_block w (_annotations cg) in
    let w := write_block w (_types_and_constants cg) in
    let w := write_block w (_variables cg) in
    match fold_left write_function (_functions2 cg) (Some w) with
    | None => None
    | Some w =>
        Some ({| spirv := w;
                 module_samplers := samplers cg;
                 module_textures := textures cg;
                 module_uniforms := uniforms cg;
                 module_techniques := techniques cg |}, cg)
    end.

End Generator.

(** The constructor: every member at its initialiser, then
    [glsl_ext = make_id()]. *)
Definition codegen_spirv_members : codegen :=
  {| _next_id := 1;
     structs := []; textures := []; samplers := []; uniforms := [];
     techniques := [];
     _entries := []; _debug_a := []; _debug_b := []; _annotations := [];
     _types_and_constants := []; _variables := [];
     _capabilities := [];
     _type_lookup := []; _constant_lookup := []; _string_lookup := ∅;
     _current_sampler_binding := 0;
     _functions2 := []; _current_function := 0xFFFFFFFF;
     _global_ubo_offset := 0; _global_ubo_type := 0; _global_ubo_variable := 0;
     glsl_ext := 0 |}.

Definition set_glsl_ext (v : Z) (cg : codegen) : codegen :=
  Codegen (_next_id cg) (structs cg) (textures cg) (samplers cg) (uniforms cg)
    (techniques cg) (_entries cg) (_debug_a cg) (_debug_b cg) (_annotations cg)
    (_types_and_constants cg) (_variables cg) (_capabilities cg) (_type_lookup cg)
    (_constant_lookup cg) (_string_lookup cg) (_current_sampler_binding cg)
    (_functions2 cg) (_current_function cg) (_global_ubo_offset cg)
    (_global_ubo_type cg) (_global_ubo_variable cg) v.

Definition codegen_spirv_new : codegen :=
  match make_id codegen_spirv_members with
  | Some (id, cg) => set_glsl_ext id cg
  | None => codegen_spirv_members
  end.

(** *** Notions and sample inputs of the specification *)

(** The characters of a C string: the bytes before the first NUL. *)
Fixpoint string_content (s : list byte) : list Z :=
  match s with
  | [] => []
  | c :: s' =>
      if Z.of_N (Byte.to_N c) =? 0 then []
      else Z.of_N (Byte.to_N c) :: string_content s'
  end.

(** *** The layout of the uniform block *)
Definition has_shape (info : uniform_info) (r c n : Z) : Prop :=
  rows (uniform_type info) = r /\ cols (uniform_type info) = c
  /\ array_length (uniform_type info) = n.

Definition float_uniform (n : string) (r c : Z) : uniform_info :=
  {| uniform_name := n;
     uniform_type := Type_ t_float r c [q_uniform] false false false 0 0;
     uniform_member_index := 0; uniform_struct_type_id := 0;
     uniform_size := 0; uniform_offset := 0 |}.

(** [{float a; float3 b; float c;}] *)
Definition abc : list uniform_info :=
  [float_uniform "a" 1 1; float_uniform "b" 3 1; float_uniform "c" 1 1].

(** How far [emit_constant] takes a constant of a type apart: an array
    into its elements, a matrix into its rows, a vector into its scalars. *)
Definition rank (t : fx.type) : nat :=
  if is_array t then 3 else if is_matrix t then 2 else if is_vector t then 1 else 0.

(** The constants interned between two states. *)
Definition grows (P : fx.type * constant * Z -> Prop) (cg cg' : codegen) : Prop :=
  exists new, _constant_lookup cg' = _constant_lookup cg ++ new /\ Forall P new.

(** *** The ids of a module *)
(** An instruction keeps its ids below [n]. *)
Definition ins_below (n : Z) (ins : spirv_instruction) : Prop :=
  type ins < n /\ result ins < n.





(** Every id the generator holds is below [n]. *)
Definition allocated_at (n : Z) (cg : codegen) : Prop :=
  0 < n
  /\ Forall (ins_below n) (_entries cg)
  /\ Forall (ins_below n) (_debug_a cg)
  /\ Forall (ins_below n) (_debug_b cg)
  /\ Forall (ins_below n) (_annotations cg)
  /\ Forall (ins_below n) (_types_and_constants cg)
  /\ Forall (ins_below n) (_variables cg)
  /\ Forall (fun f => Forall (ins_below n) (declaration f)
                      /\ Forall (ins_below n) (variables f)
                      /\ Forall (ins_below n) (definition f)) (_functions2 cg)
  /\ Forall (fun x => x.2 < n) (_type_lookup cg)
  /\ Forall (fun x => x.2 < n) (_constant_lookup cg)
  /\ Forall (fun x => x < n) (map snd (map_to_list (_string_lookup cg)))
  /\ glsl_ext cg < n
  /\ _global_ubo_type cg < n
  /\ _global_ubo_variable cg < n
  /\ Forall (fun u => fx.definition (uniform_type u) < n) (uniforms cg).




(** A step of the generator that returns on every state. *)
Definition returns {A} (m : Gen A) : Prop := forall cg, exists r, m cg = Some r.

(** The depth of the calls [convert_type] makes for a type. *)
Definition clevel (info : fx.type) : nat :=
  (match base info with t_sampler => 3 | t_texture => 2 | _ => 1 end
   + (if is_ptr info then 1 else 0)
   + (if is_array info then 2 else 0)
   + (if is_matrix info then 2 else if is_vector info then 1 else 0))%nat.

(** The sizes [emit_constant] has room for: an array length that is not
    negative, at most four rows and four columns. *)
Definition well_sized (t : fx.type) : Prop :=
  0 <= array_length t /\ rows t <= 4 /\ cols t <= 4.

(** Entries of the table of constants, by the rank of their type. *)
Definition scalar_rank (x : fx.type * constant * Z) : Prop := rank x.1.1 = 0%nat.

Definition rank_le (t : fx.type) (x : fx.type * constant * Z) : Prop :=
  (rank x.1.1 <= rank t)%nat.

(** What a call of [emit_constant] did to the table of constants: it
    found the constant, or it interned constants of lower rank and then
    the constant itself. *)
Definition interned (t : fx.type) (d : constant) (id : Z) (cg cg' : codegen) : Prop :=
  (cg' = cg
   /\ exists it, List.find (constant_lookup_match t d) (_constant_lookup cg) = Some it
                 /\ it.2 = id)
  \/ (List.find (constant_lookup_match t d) (_constant_lookup cg) = None
      /\ exists inner,
           _constant_lookup cg' = _constant_lookup cg ++ inner ++ [(t, d, id)]
           /\ Forall (fun x => (rank x.1.1 < rank t)%nat) inner).

(** A stored constant that stands for [(t, d)], in the words of the
    specification: the types are equal, the sixteen lanes are identical,
    and the array elements are as many and have identical lanes. *)
Definition same_constant (t : fx.type) (d : constant) (x : fx.type * constant * Z)
  : Prop :=
  type_eqb x.1.1 t = true
  /\ (forall i, (i < 16)%nat -> lane x.1.2 i = lane d i)
  /\ Forall2 (fun a b => forall i, (i < 16)%nat -> lane a i = lane b i)
       (array_data x.1.2) (array_data d).

Definition rank_lt (t : fx.type) (x : fx.type * constant * Z) : Prop :=
  (rank x.1.1 < rank t)%nat.

(** The types interned between two states are not pointer types. *)
Definition value_types_interned (cg cg' : codegen) : Prop :=
  exists new, _type_lookup cg' = _type_lookup cg ++ new
              /\ Forall (fun x => is_ptr x.1 = false) new.


(** A matrix of one row, its row vector, and lanes for both. *)
Definition float1x3 : fx.type := type3 t_float 1 3.
Definition float3 : fx.type := type3 t_float 3 1.
Definition one_two_three : constant := Constant [1; 2; 3] "" [].

(** A version word for the sample runs. *)
Definition sample_version : Z := 0x00010300.

Definition empty_module : module :=
  {| spirv := []; module_samplers := []; module_textures := [];
     module_uniforms := []; module_techniques := [] |}.





(** A vector that moves its elements with every element it is given,
    and one that never does. *)
Definition always_moves (n : nat) : bool := true.
Definition never_moves (n : nat) : bool := false.

Definition float_a : uniform_info :=
  {| uniform_name := "a";
     uniform_type := Type_ t_float 1 1 [q_uniform] false false false 0 0;
     uniform_member_index := 0; uniform_struct_type_id := 0;
     uniform_size := 0; uniform_offset := 0 |}.


(** A new generator with the uniform [float a] alone: the type [float]
    is not interned. *)
Definition uniform_alone : codegen :=
  match define_uniform float_a codegen_spirv_new with
  | Some (_, cg) => cg
  | None => codegen_spirv_new
  end.

(** *** Samplers, variables and techniques *)
Definition set_samplers (v : list sampler_info) (cg : codegen) : codegen :=
  Codegen (_next_id cg) (structs cg) (textures cg) v (uniforms cg) (techniques cg)
    (_entries cg) (_debug_a cg) (_debug_b cg) (_annotations cg)
    (_types_and_constants cg) (_variables cg) (_capabilities cg) (_type_lookup cg)
    (_constant_lookup cg) (_string_lookup cg) (_current_sampler_binding cg)
    (_functions2 cg) (_current_function cg) (_global_ubo_offset cg)
    (_global_ubo_type cg) (_global_ubo_variable cg) (glsl_ext cg).

Definition set_techniques (v : list technique_info) (cg : codegen) : codegen :=
  Codegen (_next_id cg) (structs cg) (textures cg) (samplers cg) (uniforms cg) v
    (_entries cg) (_debug_a cg) (_debug_b cg) (_annotations cg)
    (_types_and_constants cg) (_variables cg) (_capabilities cg) (_type_lookup cg)
    (_constant_lookup cg) (_string_lookup cg) (_current_sampler_binding cg)
    (_functions2 cg) (_current_function cg) (_global_ubo_offset cg)
    (_global_ubo_type cg) (_global_ubo_variable cg) (glsl_ext cg).

Definition set_current_sampler_binding (v : Z) (cg : codegen) : codegen :=
  Codegen (_next_id cg) (structs cg) (textures cg) (samplers cg) (uniforms cg)
    (techniques cg) (_entries cg) (_debug_a cg) (_debug_b cg) (_annotations cg)
    (_types_and_constants cg) (_variables cg) (_capabilities cg) (_type_lookup cg)
    (_constant_lookup cg) (_string_lookup cg) v
    (_functions2 cg) (_current_function cg) (_global_ubo_offset cg)
    (_global_ubo_type cg) (_global_ubo_variable cg) (glsl_ext cg).

(** [info.set = set; info.binding = binding;] *)
Definition with_set_binding (set binding : Z) (info : sampler_info) : sampler_info :=
  {| sampler_id := sampler_id info;
     sampler_set := set;
     sampler_binding := binding;
     sampler_unique_name := sampler_unique_name info;
     sampler_texture_name := sampler_texture_name info;
     sampler_filter := sampler_filter info;
     sampler_address_u := sampler_address_u info;
     sampler_address_v := sampler_address_v info;
     sampler_address_w := sampler_address_w info;
     sampler_min_lod := sampler_min_lod info;
     sampler_max_lod := sampler_max_lod info;
     sampler_lod_bias := sampler_lod_bias info;
     sampler_srgb := sampler_srgb info |}.

(** [define_sampler] writes the set and the binding into [info]; the
    updated descriptor is returned next to the id. *)
Definition define_sampler (NDEBUG : bool) (fuel : nat) (loc : location)
    (info : sampler_info) : Gen (Z * sampler_info) :=
  let* binding := gets _current_sampler_binding in
  let* _ := modify (set_current_sampler_binding (u32 (binding + 1))) in
  let info := with_set_binding 1 binding info in
  let* _ := define_variable_with_id NDEBUG fuel (sampler_id info) loc
              (Type_ t_sampler 0 0 [q_extern; q_uniform] true false false 0 0)
              (Some (sampler_unique_name info)) spv.StorageClassUniformConstant 0 in
  let* _ := add_decoration (sampler_id info) spv.DecorationBinding
              [sampler_binding info] in
  let* _ := add_decoration (sampler_id info) spv.DecorationDescriptorSet
              [sampler_set info] in
  let* _ := modify (fun cg => set_samplers (samplers cg ++ [info]) cg) in
  ret (sampler_id info, info).

(** The public [define_variable(loc, type, name, global,
    initializer_value)]; a null [name] is [None]. *)
Definition define_variable (NDEBUG : bool) (fuel : nat) (loc : location)
    (t : fx.type) (name : option string) (global : bool) (initializer_value : Z)
  : Gen Z :=
  let* id := make_id in
  let* _ := define_variable_with_id NDEBUG fuel id loc t name
              (if global then spv.StorageClassPrivate else spv.StorageClassFunction)
              initializer_value in
  ret id.

Definition define_technique (info : technique_info) : Gen Z :=
  let* _ := modify (fun cg => set_techniques (techniques cg ++ [info]) cg) in
  ret 0.

(** *** Notions and sample inputs of the further properties *)

(** *** The framing of the word stream *)
(** The words of an instruction after its first. *)
Definition payload (ins : spirv_instruction) : list Z :=
  (if type ins =? 0 then [] else [type ins])
  ++ (if result ins =? 0 then [] else [result ins])
  ++ operands ins.

(** *** The members of the uniform block *)
Definition uniform_bytes (u : uniform_info) : Z := uniform_byte_size (uniform_type u).

Fixpoint block_bytes (l : list uniform_info) : Z :=
  match l with
  | [] => 0
  | u :: l' => uniform_bytes u + block_bytes l'
  end.

(** The members [l] lie one after the other from [next] on, each at a
    multiple of its size and less than its size after the one before,
    numbered from [index]; [last] is the end of the last of them. *)
Fixpoint members_follow (next index : Z) (l : list uniform_info) (last : Z) : Prop :=
  match l with
  | [] => last = next
  | u :: l' =>
      next <= uniform_offset u < next + uniform_bytes u
      /\ uniform_offset u mod uniform_bytes u = 0
      /\ uniform_member_index u = index
      /\ members_follow (uniform_offset u + uniform_bytes u) (index + 1) l' last
  end.

(** *** What the interning of types and constants writes *)
(** The members of the generator other than the id counter, the section
    of types and constants and the two lookup tables. *)
Definition outside_types (cg : codegen) :=
  (structs cg, textures cg, samplers cg, uniforms cg, techniques cg,
   _entries cg, _debug_a cg, _debug_b cg, _annotations cg, _variables cg,
   _capabilities cg, _string_lookup cg, _current_sampler_binding cg,
   _functions2 cg, _current_function cg, _global_ubo_offset cg,
   _global_ubo_type cg, _global_ubo_variable cg, glsl_ext cg).

(** A table or a section of [cg'] begins with that of [cg]. *)
Definition extends {A} (f : codegen -> list A) (cg cg' : codegen) : Prop :=
  exists new, f cg' = f cg ++ new.

(** The types interned between two states have a depth of at most [n]. *)
Definition types_grow (n : nat) (cg cg' : codegen) : Prop :=
  exists new, _type_lookup cg' = _type_lookup cg ++ new
              /\ Forall (fun x : fx.type * Z => (clevel x.1 <= n)%nat) new.

(** [extends] for the section and the two tables, and the counter. *)
Definition appends (cg cg' : codegen) : Prop :=
  extends _types_and_constants cg cg'
  /\ extends _type_lookup cg cg'
  /\ extends _constant_lookup cg cg'
  /\ _next_id cg <= _next_id cg'.

Definition float4x4 : fx.type := type3 t_float 4 4.

Definition float_array (n : Z) : fx.type :=
  Type_ t_float 1 1 [] false false false n 0.

Definition one_element : constant :=
  Constant [] "" [Constant [1065353216] "" []].

(** *** Samplers *)
(** The members of the generator that [define_sampler] itself writes. *)
Definition sampler_state (cg : codegen) :=
  (samplers cg, _current_sampler_binding cg, _annotations cg).

(** The two decorations of a sampler. *)
Definition sampler_decorations (info : sampler_info) : list spirv_instruction :=
  [Ins spv.OpDecorate 0 0 [sampler_id info; spv.DecorationBinding; sampler_binding info];
   Ins spv.OpDecorate 0 0 [sampler_id info; spv.DecorationDescriptorSet; sampler_set info]].

Definition sampler_named (id : Z) (n : string) : sampler_info :=
  {| sampler_id := id; sampler_set := 0; sampler_binding := 0;
     sampler_unique_name := n; sampler_texture_name := "";
     sampler_filter := 0; sampler_address_u := 0; sampler_address_v := 0;
     sampler_address_w := 0; sampler_min_lod := 0; sampler_max_lod := 0;
     sampler_lod_bias := 0; sampler_srgb := false |}.

Definition two_samplers : list (location * sampler_info) :=
  [(no_location, sampler_named 7 "s0"); (no_location, sampler_named 8 "s1")].

Definition at_line (n : Z) : location :=
  {| source := "a.fx"; line := n; column := 1 |}.

End spirv.


(** ** The D3D11 effect linker ([d3d11_effect_compiler]) *)

Module d3d11.
Import fx.

Inductive DXGI_FORMAT :=
| DXGI_FORMAT_UNKNOWN
| DXGI_FORMAT_R8_UNORM | DXGI_FORMAT_R16_FLOAT | DXGI_FORMAT_R32_FLOAT
| DXGI_FORMAT_R8G8_UNORM | DXGI_FORMAT_R16G16_UNORM | DXGI_FORMAT_R16G16_FLOAT
| DXGI_FORMAT_R32G32_FLOAT
| DXGI_FORMAT_R8G8B8A8_TYPELESS | DXGI_FORMAT_R8G8B8A8_UNORM
| DXGI_FORMAT_R8G8B8A8_UNORM_SRGB
| DXGI_FORMAT_R16G16B16A16_UNORM | DXGI_FORMAT_R16G16B16A16_FLOAT
| DXGI_FORMAT_R32G32B32A32_FLOAT
| DXGI_FORMAT_BC1_TYPELESS | DXGI_FORMAT_BC1_UNORM | DXGI_FORMAT_BC1_UNORM_SRGB
| DXGI_FORMAT_BC2_TYPELESS | DXGI_FORMAT_BC2_UNORM | DXGI_FORMAT_BC2_UNORM_SRGB
| DXGI_FORMAT_BC3_TYPELESS | DXGI_FORMAT_BC3_UNORM | DXGI_FORMAT_BC3_UNORM_SRGB
| DXGI_FORMAT_BC4_UNORM | DXGI_FORMAT_BC5_UNORM.

Global Instance DXGI_FORMAT_eq_dec : EqDecision DXGI_FORMAT.
Proof. solve_decision. Defined.

Definition literal_to_format (value : texture_format) : DXGI_FORMAT :=
  match value with
  | r8 => DXGI_FORMAT_R8_UNORM
  | r16f => DXGI_FORMAT_R16_FLOAT
  | r32f => DXGI_FORMAT_R32_FLOAT
  | rg8 => DXGI_FORMAT_R8G8_UNORM
  | rg16 => DXGI_FORMAT_R16G16_UNORM
  | rg16f => DXGI_FORMAT_R16G16_FLOAT
  | rg32f => DXGI_FORMAT_R32G32_FLOAT
  | rgba8 => DXGI_FORMAT_R8G8B8A8_TYPELESS
  | rgba16 => DXGI_FORMAT_R16G16B16A16_UNORM
  | rgba16f => DXGI_FORMAT_R16G16B16A16_FLOAT
  | rgba32f => DXGI_FORMAT_R32G32B32A32_FLOAT
  | dxt1 => DXGI_FORMAT_BC1_TYPELESS
  | dxt3 => DXGI_FORMAT_BC2_TYPELESS
  | dxt5 => DXGI_FORMAT_BC3_TYPELESS
  | latc1 => DXGI_FORMAT_BC4_UNORM
  | latc2 => DXGI_FORMAT_BC5_UNORM
  | fmt_unknown => DXGI_FORMAT_UNKNOWN
  end.

Definition make_format_srgb (format : DXGI_FORMAT) : DXGI_FORMAT :=
  match format with
  | DXGI_FORMAT_R8G8B8A8_TYPELESS | DXGI_FORMAT_R8G8B8A8_UNORM =>
      DXGI_FORMAT_R8G8B8A8_UNORM_SRGB
  | DXGI_FORMAT_BC1_TYPELESS | DXGI_FORMAT_BC1_UNORM => DXGI_FORMAT_BC1_UNORM_SRGB
  | DXGI_FORMAT_BC2_TYPELESS | DXGI_FORMAT_BC2_UNORM => DXGI_FORMAT_BC2_UNORM_SRGB
  | DXGI_FORMAT_BC3_TYPELESS | DXGI_FORMAT_BC3_UNORM => DXGI_FORMAT_BC3_UNORM_SRGB
  | _ => format
  end.

Definition make_format_normal (format : DXGI_FORMAT) : DXGI_FORMAT :=
  match format with
  | DXGI_FORMAT_R8G8B8A8_TYPELESS | DXGI_FORMAT_R8G8B8A8_UNORM_SRGB =>
      DXGI_FORMAT_R8G8B8A8_UNORM
  | DXGI_FORMAT_BC1_TYPELESS | DXGI_FORMAT_BC1_UNORM_SRGB => DXGI_FORMAT_BC1_UNORM
  | DXGI_FORMAT_BC2_TYPELESS | DXGI_FORMAT_BC2_UNORM_SRGB => DXGI_FORMAT_BC2_UNORM
  | DXGI_FORMAT_BC3_TYPELESS | DXGI_FORMAT_BC3_UNORM_SRGB => DXGI_FORMAT_BC3_UNORM
  | _ => format
  end.

(** *** The device *)

Definition HRESULT := Z.
Definition FAILED (hr : HRESULT) : bool := hr <? 0.

(** The device answers its n-th call with the n-th HRESULT of [script]
    ([S_OK] once the script is used up) and names the object it creates
    by a fresh handle. *)
Record device := {
  script : list HRESULT;
  next_object : nat
}.

Definition device_call (d : device) : HRESULT * nat * device :=
  (hd 0 (script d), next_object d,
   {| script := tail (script d); next_object := S (next_object d) |}).

(** An [ID3D11Texture2D] with the fields of its description that the
    linker reads back through [GetDesc]. *)
Record texture2d := {
  resource_handle : nat;
  desc_Width : Z;
  desc_Height : Z;
  desc_Format : DXGI_FORMAT
}.

(** A shader-resource or render-target view; [GetResource] yields the
    identity of the resource it was created on. *)
Record view := {
  view_handle : nat;
  view_resource : nat
}.

Inductive texture_reference := ref_none | back_buffer | depth_buffer.

(** The runtime's [texture] with its [d3d11_tex_data]; annotations are
    left out. *)
Record texture := {
  name : string;
  unique_name : string;
  width : Z;
  height : Z;
  levels : Z;
  format : texture_format;
  effect_filename : string;
  impl_reference : texture_reference;
  impl_texture : option texture2d;
  srv0 : option view;
  srv1 : option view;
  rtv0 : option view;
  rtv1 : option view
}.

Definition srv (t : texture) (index : bool) : option view :=
  if index then srv1 t else srv0 t.
Definition rtv (t : texture) (index : bool) : option view :=
  if index then rtv1 t else rtv0 t.

Definition set_rtv (index : bool) (v : option view) (t : texture) : texture :=
  {| name := name t; unique_name := unique_name t; width := width t;
     height := height t; levels := levels t; format := format t;
     effect_filename := effect_filename t; impl_reference := impl_reference t;
     impl_texture := impl_texture t; srv0 := srv0 t; srv1 := srv1 t;
     rtv0 := if index then rtv0 t else v;
     rtv1 := if index then v else rtv1 t |}.

(** The width and the height of the viewport are [FLOAT]s that only
    ever hold whole numbers, which is what is kept of them. *)
Record d3d11_pass_data := {
  vertex_shader : option nat;
  pixel_shader : option nat;
  viewport_Width : Z;
  viewport_Height : Z;
  shader_resources : list (option view);
  pass_clear_render_targets : bool;
  render_targets : list (option view);
  render_target_resources : list (option view);
  depth_stencil_state : option nat;
  blend_state : option nat
}.

Record technique := {
  tech_name : string;
  tech_passes : list d3d11_pass_data;
  timestamp_query_beg : option nat;
  timestamp_query_end : option nat;
  timestamp_disjoint : option nat;
  sampler_states : list (option nat)
}.

(** The members of [d3d11_runtime] the linker touches. *)
Record runtime := {
  _device : device;
  _textures : list texture;
  _techniques : list technique;
  _effect_sampler_states : gmap Z nat;
  _backbuffer_rtv0 : option view;
  _backbuffer_rtv1 : option view;
  _backbuffer_texture_srv0 : option view;
  _backbuffer_texture_srv1 : option view;
  _depthstencil_texture_srv : option view;
  frame_width : Z;
  frame_height : Z
}.

Definition _backbuffer_rtv (r : runtime) (index : bool) : option view :=
  if index then _backbuffer_rtv1 r else _backbuffer_rtv0 r.
Definition _backbuffer_texture_srv (r : runtime) (index : bool) : option view :=
  if index then _backbuffer_texture_srv1 r else _backbuffer_texture_srv0 r.

Definition set_device (d : device) (r : runtime) : runtime :=
  {| _device := d; _textures := _textures r; _techniques := _techniques r;
     _effect_sampler_states := _effect_sampler_states r;
     _backbuffer_rtv0 := _backbuffer_rtv0 r; _backbuffer_rtv1 := _backbuffer_rtv1 r;
     _backbuffer_texture_srv0 := _backbuffer_texture_srv0 r;
     _backbuffer_texture_srv1 := _backbuffer_texture_srv1 r;
     _depthstencil_texture_srv := _depthstencil_texture_srv r;
     frame_width := frame_width r; frame_height := frame_height r |}.

Definition set_textures (l : list texture) (r : runtime) : runtime :=
  {| _device := _device r; _textures := l; _techniques := _techniques r;
     _effect_sampler_states := _effect_sampler_states r;
     _backbuffer_rtv0 := _backbuffer_rtv0 r; _backbuffer_rtv1 := _backbuffer_rtv1 r;
     _backbuffer_texture_srv0 := _backbuffer_texture_srv0 r;
     _backbuffer_texture_srv1 := _backbuffer_texture_srv1 r;
     _depthstencil_texture_srv := _depthstencil_texture_srv r;
     frame_width := frame_width r; frame_height := frame_height r |}.

Definition set_techniques (l : list technique) (r : runtime) : runtime :=
  {| _device := _device r; _textures := _textures r; _techniques := l;
     _effect_sampler_states := _effect_sampler_states r;
     _backbuffer_rtv0 := _backbuffer_rtv0 r; _backbuffer_rtv1 := _backbuffer_rtv1 r;
     _backbuffer_texture_srv0 := _backbuffer_texture_srv0 r;
     _backbuffer_texture_srv1 := _backbuffer_texture_srv1 r;
     _depthstencil_texture_srv := _depthstencil_texture_srv r;
     frame_width := frame_width r; frame_height := frame_height r |}.

Definition set_effect_sampler_states (m : gmap Z nat) (r : runtime) : runtime :=
  {| _device := _device r; _textures := _textures r; _techniques := _techniques r;
     _effect_sampler_states := m;
     _backbuffer_rtv0 := _backbuffer_rtv0 r; _backbuffer_rtv1 := _backbuffer_rtv1 r;
     _backbuffer_texture_srv0 := _backbuffer_texture_srv0 r;
     _backbuffer_texture_srv1 := _backbuffer_texture_srv1 r;
     _depthstencil_texture_srv := _depthstencil_texture_srv r;
     frame_width := frame_width r; frame_height := frame_height r |}.

(** Modelled from the spec: [find_texture] and [add_texture] of the
    runtime, which is not among the sources: "the texture registry (keyed
    by unique name)", to which "the linker only appends".  A found texture
    is handed out by its position in the registry. *)
Definition find_texture (r : runtime) (unique : string) : option (nat * texture) :=
  list_find (fun t => unique_name t = unique) (_textures r).

Definition add_texture (t : texture) (r : runtime) : runtime :=
  set_textures (_textures r ++ [t]) r.

(** Modelled from the spec: [add_technique] of the runtime; the linker
    delivers "a list of ready-to-dispatch technique objects". *)
Definition add_technique (t : technique) (r : runtime) : runtime :=
  set_techniques (_techniques r ++ [t]) r.

(** *** The linker state *)

Record compiler := {
  _runtime : runtime;
  _success : bool;
  _errors : string;
  _sampler_bindings : list (option nat);
  _texture_bindings : list (option view);
  vs_entry_points : gmap string (option nat);
  ps_entry_points : gmap string (option nat);
  _constant_buffer_size : Z;
  _uniform_storage_offset : Z
}.

Definition set_runtime (r : runtime) (c : compiler) : compiler :=
  {| _runtime := r; _success := _success c; _errors := _errors c;
     _sampler_bindings := _sampler_bindings c;
     _texture_bindings := _texture_bindings c;
     vs_entry_points := vs_entry_points c; ps_entry_points := ps_entry_points c;
     _constant_buffer_size := _constant_buffer_size c;
     _uniform_storage_offset := _uniform_storage_offset c |}.

Definition set_bindings (s : list (option nat)) (t : list (option view))
    (c : compiler) : compiler :=
  {| _runtime := _runtime c; _success := _success c; _errors := _errors c;
     _sampler_bindings := s; _texture_bindings := t;
     vs_entry_points := vs_entry_points c; ps_entry_points := ps_entry_points c;
     _constant_buffer_size := _constant_buffer_size c;
     _uniform_storage_offset := _uniform_storage_offset c |}.

Definition set_vs_entry_points (m : gmap string (option nat)) (c : compiler)
  : compiler :=
  {| _runtime := _runtime c; _success := _success c; _errors := _errors c;
     _sampler_bindings := _sampler_bindings c;
     _texture_bindings := _texture_bindings c;
     vs_entry_points := m; ps_entry_points := ps_entry_points c;
     _constant_buffer_size := _constant_buffer_size c;
     _uniform_storage_offset := _uniform_storage_offset c |}.

Definition set_ps_entry_points (m : gmap string (option nat)) (c : compiler)
  : compiler :=
  {| _runtime := _runtime c; _success := _success c; _errors := _errors c;
     _sampler_bindings := _sampler_bindings c;
     _texture_bindings := _texture_bindings c;
     vs_entry_points := vs_entry_points c; ps_entry_points := m;
     _constant_buffer_size := _constant_buffer_size c;
     _uniform_storage_offset := _uniform_storage_offset c |}.

Definition append_errors (text : string) (c : compiler) : compiler :=
  {| _runtime := _runtime c; _success := _success c;
     _errors := _errors c +:+ text;
     _sampler_bindings := _sampler_bindings c;
     _texture_bindings := _texture_bindings c;
     vs_entry_points := vs_entry_points c; ps_entry_points := ps_entry_points c;
     _constant_buffer_size := _constant_buffer_size c;
     _uniform_storage_offset := _uniform_storage_offset c |}.

Definition newline : string := String (Ascii.ascii_of_nat 10) "".

Definition error (message : string) (c : compiler) : compiler :=
  let c := {| _runtime := _runtime c; _success := false; _errors := _errors c;
              _sampler_bindings := _sampler_bindings c;
              _texture_bindings := _texture_bindings c;
              vs_entry_points := vs_entry_points c;
              ps_entry_points := ps_entry_points c;
              _constant_buffer_size := _constant_buffer_size c;
              _uniform_storage_offset := _uniform_storage_offset c |} in
  append_errors ("error: " +:+ message +:+ newline) c.

Definition warning (message : string) (c : compiler) : compiler :=
  append_errors ("warning: " +:+ message +:+ newline) c.

(** ["'<api>' failed with error code " + std::to_string(static_cast<unsigned
    long>(hr)) + "!"]; [unsigned long] has 32 bits on the target. *)
Definition failed_with (api : string) (hr : HRESULT) : string :=
  "'" +:+ api +:+ "' failed with error code " +:+ pretty (u32 hr) +:+ "!".

(** A call of a [Create...] method of the device from the linker: the
    HRESULT, the handle of the object (meaningful when the call did not
    fail) and the linker state with the device advanced. *)
Definition create (c : compiler) : HRESULT * nat * compiler :=
  let '(hr, handle, d) := device_call (_device (_runtime c)) in
  (hr, handle, set_runtime (set_device d (_runtime c)) c).

(** *** Textures *)

Definition visit_texture (info : texture_info) (c : compiler) : compiler :=
  match find_texture (_runtime c) (texture_unique_name info) with
  | Some (_, existing_texture) =>
      if bool_decide (texture_semantic info = "")
         && (negb (width existing_texture =? texture_width info)
             || negb (height existing_texture =? texture_height info)
             || negb (levels existing_texture =? texture_levels info)
             || negb (bool_decide (format existing_texture = texture_format_of info)))
      then error (effect_filename existing_texture +:+
                  " already created a texture with the same name but different dimensions; textures are shared across all effects, so either rename the variable or adjust the dimensions so they match") c
      else c
  | None =>
      let obj (w h : Z) (reference : texture_reference) (tex : option texture2d)
              (view0 view1 : option view) : texture :=
        {| name := texture_unique_name info;
           unique_name := texture_unique_name info;
           width := w; height := h;
           levels := texture_levels info;
           format := texture_format_of info;
           effect_filename := "";
           impl_reference := reference;
           impl_texture := tex;
           srv0 := view0; srv1 := view1; rtv0 := None; rtv1 := None |} in
      let texdesc_Format := literal_to_format (texture_format_of info) in
      if bool_decide (texture_semantic info = "COLOR") then
        set_runtime
          (add_texture
             (obj (frame_width (_runtime c)) (frame_height (_runtime c)) back_buffer
                  None
                  (_backbuffer_texture_srv0 (_runtime c))
                  (_backbuffer_texture_srv1 (_runtime c)))
             (_runtime c)) c
      else if bool_decide (texture_semantic info = "DEPTH") then
        set_runtime
          (add_texture
             (obj (frame_width (_runtime c)) (frame_height (_runtime c)) depth_buffer
                  None
                  (_depthstencil_texture_srv (_runtime c))
                  (_depthstencil_texture_srv (_runtime c)))
             (_runtime c)) c
      else if negb (bool_decide (texture_semantic info = "")) then
        error "invalid semantic" c
      else
        let '(hr, handle, c) := create c in
        if FAILED hr then
          error (failed_with "ID3D11Device::CreateTexture2D" hr) c
        else
          let tex := {| resource_handle := handle;
                        desc_Width := texture_width info;
                        desc_Height := texture_height info;
                        desc_Format := texdesc_Format |} in
          let '(hr, handle0, c) := create c in
          if FAILED hr then
            error (failed_with "ID3D11Device::CreateShaderResourceView" hr) c
          else
            let view0 := {| view_handle := handle0; view_resource := handle |} in
            if negb (bool_decide (make_format_srgb texdesc_Format = texdesc_Format))
            then
              let '(hr, handle1, c) := create c in
              if FAILED hr then
                error (failed_with "ID3D11Device::CreateShaderResourceView" hr) c
              else
                let view1 := {| view_handle := handle1; view_resource := handle |} in
                set_runtime
                  (add_texture
                     (obj (texture_width info) (texture_height info) ref_none
                          (Some tex) (Some view0) (Some view1))
                     (_runtime c)) c
            else
              set_runtime
                (add_texture
                   (obj (texture_width info) (texture_height info) ref_none
                        (Some tex) (Some view0) (Some view0))
                   (_runtime c)) c
  end.

(** How a part of [visit_technique] ends: it goes on with a value, it
    executes [return], or the behaviour is undefined (a null pointer is
    dereferenced, a [FLOAT] is converted to an integer type that cannot
    hold it, or an assertion of a debug build fails). *)
Inductive step (A : Type) :=
| Continue (a : A) (c : compiler)
| Returned (c : compiler)
| Crashed.
Arguments Continue {A} a c.
Arguments Returned {A} c.
Arguments Crashed {A}.

Section Linker.

(** [true] for a build with assertions compiled out. *)
Variable NDEBUG : bool.

(** The number of bits of [size_t]: 32 or 64, by the target. *)
Variable SIZE_BITS : Z.

Definition size_t (x : Z) : Z := x mod 2 ^ SIZE_BITS.

(** *** Samplers *)

(** [D3D11_SAMPLER_DESC] of the Direct3D headers: thirteen four-byte
    fields without padding. *)
Record D3D11_SAMPLER_DESC := {
  Filter : Z;
  AddressU : Z;
  AddressV : Z;
  AddressW : Z;
  MipLODBias : Z;
  MaxAnisotropy : Z;
  ComparisonFunc : Z;
  BorderColor : list Z;
  MinLOD : Z;
  MaxLOD : Z
}.

Definition D3D11_COMPARISON_NEVER : Z := 1.

(** The descriptor [visit_sampler] fills in, starting from [desc = {}]. *)
Definition sampler_desc (info : sampler_info) : D3D11_SAMPLER_DESC :=
  {| Filter := sampler_filter info;
     AddressU := sampler_address_u info;
     AddressV := sampler_address_v info;
     AddressW := sampler_address_w info;
     MipLODBias := sampler_lod_bias info;
     MaxAnisotropy := 1;
     ComparisonFunc := D3D11_COMPARISON_NEVER;
     BorderColor := [0; 0; 0; 0];
     MinLOD := sampler_min_lod info;
     MaxLOD := sampler_max_lod info |}.

(** [reinterpret_cast<const uint8_t *>(&desc)]: the raw bytes. *)
Definition desc_bytes (desc : D3D11_SAMPLER_DESC) : list Z :=
  dword_bytes (Filter desc) ++ dword_bytes (AddressU desc)
  ++ dword_bytes (AddressV desc) ++ dword_bytes (AddressW desc)
  ++ dword_bytes (MipLODBias desc) ++ dword_bytes (MaxAnisotropy desc)
  ++ dword_bytes (ComparisonFunc desc)
  ++ dword_bytes (nth 0 (BorderColor desc) 0)
  ++ dword_bytes (nth 1 (BorderColor desc) 0)
  ++ dword_bytes (nth 2 (BorderColor desc) 0)
  ++ dword_bytes (nth 3 (BorderColor desc) 0)
  ++ dword_bytes (MinLOD desc) ++ dword_bytes (MaxLOD desc).

Definition sizeof_desc : nat := 52.

(** The hashing loop, [n] iterations from index [i] on. *)
Fixpoint desc_hash_loop (n i : nat) (desc_hash : Z) (bytes : list Z) : Z :=
  match n with
  | O => desc_hash
  | S n' =>
      desc_hash_loop n' (S i)
        (Z.lxor (size_t (desc_hash * 16777619)) (nth i bytes 0)) bytes
  end.

Definition desc_hash (desc : D3D11_SAMPLER_DESC) : Z :=
  desc_hash_loop sizeof_desc 0 2166136261 (desc_bytes desc).

(** [binding + 1] is computed in 32 bits; writing to a slot the vectors
    do not have after the [resize] is undefined behaviour. *)
Definition visit_sampler (info : sampler_info) (c : compiler) : option compiler :=
  match find_texture (_runtime c) (sampler_texture_name info) with
  | None => Some c
  | Some (_, existing_texture) =>
      let desc := sampler_desc info in
      let desc_hash := desc_hash desc in
      let found :=
        match _effect_sampler_states (_runtime c) !! desc_hash with
        | Some sampler => inr (sampler, c)
        | None =>
            let '(hr, handle, c) := create c in
            if FAILED hr then
              inl (error (failed_with "ID3D11Device::CreateSamplerState" hr) c)
            else
              inr (handle,
                   set_runtime
                     (set_effect_sampler_states
                        (<[desc_hash := handle]> (_effect_sampler_states (_runtime c)))
                        (_runtime c)) c)
        end in
      match found with
      | inl c => Some c
      | inr (sampler, c) =>
          let slots := Z.to_nat (u32 (sampler_binding info + 1)) in
          let samplers :=
            resize (length (_sampler_bindings c) `max` slots) None
                   (_sampler_bindings c) in
          let textures :=
            resize (length (_texture_bindings c) `max` slots) None
                   (_texture_bindings c) in
          let slot := Z.to_nat (sampler_binding info) in
          if bool_decide (slot < length textures)%nat
             && bool_decide (slot < length samplers)%nat
          then
            Some (set_bindings
                    (<[slot := Some sampler]> samplers)
                    (<[slot := srv existing_texture (sampler_srgb info)]> textures)
                    c)
          else None
      end
  end.

(** *** Techniques *)

Definition set_viewport (w h : Z) (p : d3d11_pass_data) : d3d11_pass_data :=
  {| vertex_shader := vertex_shader p; pixel_shader := pixel_shader p;
     viewport_Width := w; viewport_Height := h;
     shader_resources := shader_resources p;
     pass_clear_render_targets := pass_clear_render_targets p;
     render_targets := render_targets p;
     render_target_resources := render_target_resources p;
     depth_stencil_state := depth_stencil_state p;
     blend_state := blend_state p |}.

Definition set_render_target (k : nat) (target resource : option view)
    (p : d3d11_pass_data) : d3d11_pass_data :=
  {| vertex_shader := vertex_shader p; pixel_shader := pixel_shader p;
     viewport_Width := viewport_Width p; viewport_Height := viewport_Height p;
     shader_resources := shader_resources p;
     pass_clear_render_targets := pass_clear_render_targets p;
     render_targets := <[k := target]> (render_targets p);
     render_target_resources := <[k := resource]> (render_target_resources p);
     depth_stencil_state := depth_stencil_state p;
     blend_state := blend_state p |}.

Definition set_states (depth_stencil blend : option nat)
    (resources : list (option view)) (p : d3d11_pass_data) : d3d11_pass_data :=
  {| vertex_shader := vertex_shader p; pixel_shader := pixel_shader p;
     viewport_Width := viewport_Width p; viewport_Height := viewport_Height p;
     shader_resources := resources;
     pass_clear_render_targets := pass_clear_render_targets p;
     render_targets := render_targets p;
     render_target_resources := render_target_resources p;
     depth_stencil_state := depth_stencil;
     blend_state := blend |}.

(** [static_cast<FLOAT>(n)] of an unsigned 32-bit [n].  A [FLOAT] has a
    significand of 24 bits: a value below 2^24 is kept, a larger one is
    rounded to the nearest value with 24 significant bits, and of two
    that are equally near to the one whose last bit is zero, which is
    the rounding of the target.  The results are whole numbers and are
    kept as such. *)
Definition to_FLOAT (n : Z) : Z :=
  let e := Z.max 0 (Z.log2 n - 23) in
  let q := n / 2 ^ e in
  let r := n mod 2 ^ e in
  let q := if (2 ^ e <? 2 * r) || ((2 ^ e =? 2 * r) && Z.odd q) then q + 1 else q in
  q * 2 ^ e.

(** [static_cast<unsigned int>(f)] of a whole [FLOAT]: the behaviour is
    undefined when the value does not fit 32 bits. *)
Definition to_unsigned (f : Z) : option Z :=
  if (0 <=? f) && (f <? 2 ^ 32) then Some f else None.

(** The test that guards the error about render targets of different
    sizes, with its conversions in the order the operators evaluate
    them; [None] is undefined behaviour. *)
Definition viewport_mismatch (pass : d3d11_pass_data) (desc : texture2d)
  : option bool :=
  if negb (viewport_Width pass =? 0) && negb (viewport_Height pass =? 0) then
    match to_unsigned (viewport_Width pass) with
    | None => None
    | Some w =>
        if negb (desc_Width desc =? w) then Some true
        else
          match to_unsigned (viewport_Height pass) with
          | None => None
          | Some h => Some (negb (desc_Height desc =? h))
          end
    end
  else Some false.

(** The body of the loop over the eight render-target slots. *)
Definition bind_render_target (pass_info : fx.pass_info) (k : nat)
    (pass : d3d11_pass_data) (c : compiler) : step d3d11_pass_data :=
  let render_target := nth k (render_target_names pass_info) "" in
  if bool_decide (render_target = "") then Continue pass c
  else
    match find_texture (_runtime c) render_target with
    | None => Returned (error "texture not found" c)
    | Some (index, texture) =>
        match impl_texture texture with
        | None => Crashed
        | Some desc =>
            match viewport_mismatch pass desc with
            | None => Crashed
            | Some true =>
              Returned
                (error "cannot use multiple rendertargets with different sized textures" c)
            | Some false =>
              let pass := set_viewport (to_FLOAT (desc_Width desc))
                            (to_FLOAT (desc_Height desc)) pass in
              let target_index := srgb_write_enable pass_info in
              let '(texture, c) :=
                match rtv texture target_index with
                | Some _ => (texture, c)
                | None =>
                    let '(hr, handle, c) := create c in
                    if FAILED hr then
                      (texture,
                       warning (failed_with "ID3D11Device::CreateRenderTargetView" hr) c)
                    else
                      let texture :=
                        set_rtv target_index
                          (Some {| view_handle := handle;
                                   view_resource := resource_handle desc |})
                          texture in
                      (texture,
                       set_runtime
                         (set_textures (<[index := texture]> (_textures (_runtime c)))
                            (_runtime c)) c)
                end in
              Continue
                (set_render_target k (rtv texture target_index)
                   (srv texture target_index) pass) c
            end
        end
    end.

Fixpoint bind_render_targets (pass_info : fx.pass_info) (ks : list nat)
    (pass : d3d11_pass_data) (c : compiler) : step d3d11_pass_data :=
  match ks with
  | [] => Continue pass c
  | k :: ks' =>
      match bind_render_target pass_info k pass c with
      | Continue pass c => bind_render_targets pass_info ks' pass c
      | Returned c => Returned c
      | Crashed => Crashed
      end
  end.

(** The inner loop over [pass.render_targets]: [true] when it ends in
    [srv.reset(); break;]. *)
Fixpoint shares_resource (res1 : nat) (targets : list (option view)) : bool :=
  match targets with
  | [] => false
  | None :: rest => shares_resource res1 rest
  | Some target :: rest =>
      if (view_resource target =? res1)%nat then true
      else shares_resource res1 rest
  end.

(** The outer loop over [pass.shader_resources]. *)
Definition reset_hazards (targets resources : list (option view))
  : list (option view) :=
  map (fun resource =>
         match resource with
         | None => None
         | Some v => if shares_resource (view_resource v) targets then None
                     else Some v
         end) resources.

(** [map[key]] of a [std::unordered_map] of [com_ptr]s: a missing key is
    inserted with a null pointer. *)
Definition subscript (m : gmap string (option nat)) (key : string)
  : option nat * gmap string (option nat) :=
  match m !! key with
  | Some v => (v, m)
  | None => (None, <[key := None]> m)
  end.

(** The pass as it stands before the loop over the render-target slots:
    slot 0 holds the views of the back buffer. *)
Definition new_pass (pass_info : fx.pass_info) (vs ps : option nat) (c : compiler)
  : d3d11_pass_data :=
  let target_index := srgb_write_enable pass_info in
  {| vertex_shader := vs; pixel_shader := ps;
     viewport_Width := 0; viewport_Height := 0;
     shader_resources := _texture_bindings c;
     pass_clear_render_targets := clear_render_targets pass_info;
     render_targets :=
       _backbuffer_rtv (_runtime c) target_index :: replicate 7 None;
     render_target_resources :=
       _backbuffer_texture_srv (_runtime c) target_index :: replicate 7 None;
     depth_stencil_state := None;
     blend_state := None |}.

(** The body of the loop over the passes of a technique. *)
Definition build_pass (pass_info : fx.pass_info) (c : compiler)
  : step d3d11_pass_data :=
  let '(vs, m) := subscript (vs_entry_points c) (vs_entry_point pass_info) in
  let c := set_vs_entry_points m c in
  if negb NDEBUG && negb (bool_decide (is_Some vs)) then Crashed
  else
    let '(ps, m) := subscript (ps_entry_points c) (ps_entry_point pass_info) in
    let c := set_ps_entry_points m c in
    if negb NDEBUG && negb (bool_decide (is_Some ps)) then Crashed
    else
      match bind_render_targets pass_info (seq 0 8) (new_pass pass_info vs ps c) c
      with
      | Returned c => Returned c
      | Crashed => Crashed
      | Continue pass c =>
          let pass :=
            if (viewport_Width pass =? 0) && (viewport_Height pass =? 0)
            then set_viewport (to_FLOAT (frame_width (_runtime c)))
                   (to_FLOAT (frame_height (_runtime c))) pass
            else pass in
          let '(hr, handle, c) := create c in
          let depth_stencil := if FAILED hr then None else Some handle in
          let c := if FAILED hr
                   then warning
                          (failed_with "ID3D11Device::CreateDepthStencilState" hr) c
                   else c in
          let '(hr, handle, c) := create c in
          let blend := if FAILED hr then None else Some handle in
          let c := if FAILED hr
                   then warning (failed_with "ID3D11Device::CreateBlendState" hr) c
                   else c in
          Continue
            (set_states depth_stencil blend
               (reset_hazards (render_targets pass) (shader_resources pass)) pass) c
      end.

Fixpoint build_passes (infos : list fx.pass_info) (built : list d3d11_pass_data)
    (c : compiler) : step (list d3d11_pass_data) :=
  match infos with
  | [] => Continue built c
  | pass_info :: rest =>
      match build_pass pass_info c with
      | Continue pass c => build_passes rest (built ++ [pass]) c
      | Returned c => Returned c
      | Crashed => Crashed
      end
  end.

(** A [CreateQuery] call, whose HRESULT the linker does not look at. *)
Definition create_query (c : compiler) : option nat * compiler :=
  let '(hr, handle, c) := create c in
  (if FAILED hr then None else Some handle, c).

Definition visit_technique (info : technique_info) (c : compiler) : option compiler :=
  let '(query_beg, c) := create_query c in
  let '(query_end, c) := create_query c in
  let '(disjoint, c) := create_query c in
  match build_passes (passes info) [] c with
  | Crashed => None
  | Returned c => Some c
  | Continue built c =>
      Some (set_runtime
              (add_technique
                 {| tech_name := technique_name info;
                    tech_passes := built;
                    timestamp_query_beg := query_beg;
                    timestamp_query_end := query_end;
                    timestamp_disjoint := disjoint;
                    sampler_states := _sampler_bindings c |}
                 (_runtime c)) c)
  end.

(** *** Entry points *)

(** The vendor compiler: from the HLSL text, the entry point and the
    stage, the HRESULT and the text of the error blob, if there is one. *)
Variable D3DCompile : string -> string -> bool -> HRESULT * option string.

Definition compile_entry_point (hlsl entry_point : string) (is_ps : bool)
    (c : compiler) : compiler :=
  let '(hr, errors) := D3DCompile hlsl entry_point is_ps in
  let c := match errors with
           | Some text => append_errors text c
           | None => c
           end in
  if FAILED hr then error "internal shader compilation failed" c
  else
    let '(hr, handle, c) := create c in
    let shader := if FAILED hr then None else Some handle in
    let c := if is_ps
             then set_ps_entry_points (<[entry_point := shader]> (ps_entry_points c)) c
             else set_vs_entry_points (<[entry_point := shader]> (vs_entry_points c)) c in
    if FAILED hr then error (failed_with "CreateShader" hr) c
    else c.

End Linker.

(** *** Notions and sample inputs of the specification *)

(** A runtime with nothing registered, a device that answers by [hrs]. *)
Definition empty_runtime (hrs : list HRESULT) : runtime :=
  {| _device := {| script := hrs; next_object := 100 |};
     _textures := []; _techniques := []; _effect_sampler_states := ∅;
     _backbuffer_rtv0 := Some {| view_handle := 1; view_resource := 0 |};
     _backbuffer_rtv1 := Some {| view_handle := 2; view_resource := 0 |};
     _backbuffer_texture_srv0 := Some {| view_handle := 3; view_resource := 5 |};
     _backbuffer_texture_srv1 := Some {| view_handle := 4; view_resource := 5 |};
     _depthstencil_texture_srv := Some {| view_handle := 6; view_resource := 7 |};
     frame_width := 1920; frame_height := 1080 |}.

Definition fresh_compiler (hrs : list HRESULT) : compiler :=
  {| _runtime := empty_runtime hrs; _success := true; _errors := "";
     _sampler_bindings := []; _texture_bindings := [];
     vs_entry_points := ∅; ps_entry_points := ∅;
     _constant_buffer_size := 0; _uniform_storage_offset := 0 |}.

Definition tex_info (n sem : string) (w h : Z) : texture_info :=
  {| texture_id := 1; texture_unique_name := n; texture_semantic := sem;
     texture_width := w; texture_height := h; texture_levels := 1;
     texture_format_of := rgba8 |}.

Definition smp_info (tex : string) (binding : Z) (srgb : bool) : sampler_info :=
  {| sampler_id := 2; sampler_set := 1; sampler_binding := binding;
     sampler_unique_name := "s"; sampler_texture_name := tex;
     sampler_filter := 0x15; sampler_address_u := 3; sampler_address_v := 3;
     sampler_address_w := 3; sampler_min_lod := 0; sampler_max_lod := 0x7f7fffff;
     sampler_lod_bias := 0; sampler_srgb := srgb |}.

(** *** Redeclared textures *)
Definition same_dimensions (existing : texture) (info : texture_info) : Prop :=
  width existing = texture_width info /\ height existing = texture_height info
  /\ levels existing = texture_levels info
  /\ format existing = texture_format_of info.

Definition redeclared_message (existing : texture) : string :=
  effect_filename existing +:+
  " already created a texture with the same name but different dimensions; textures are shared across all effects, so either rename the variable or adjust the dimensions so they match".

Definition registered_twice : compiler :=
  visit_texture (tex_info "t" "" 4 4) (fresh_compiler []).

(** *** The sampler descriptor hash *)
(** FNV-1a in 32 bits, as the specification words it: the byte is XORed
    into the hash, then the hash is multiplied by the prime. *)
Definition fnv1a_32 (bytes : list Z) : Z :=
  fold_left (fun h b => u32 (Z.lxor h b * 16777619)) bytes 2166136261.

(** FNV-1 in [bits] bits: the hash is multiplied by the prime, then the
    byte is XORed in. *)
Definition fnv1 (bits : Z) (bytes : list Z) : Z :=
  fold_left (fun h b => Z.lxor ((h * 16777619) mod 2 ^ bits) b) bytes 2166136261.

Definition interning_start : compiler :=
  visit_texture (tex_info "t" "" 4 4) (fresh_compiler []).
Definition interning_first : compiler :=
  default interning_start (visit_sampler 64 (smp_info "t" 0 false) interning_start).
Definition interning_second : compiler :=
  default interning_first (visit_sampler 64 (smp_info "t" 1 true) interning_first).

Definition failing_start : compiler :=
  visit_texture (tex_info "t" "" 4 4) (fresh_compiler [0; 0; 0; -2147467259]).

(** *** Passes *)
(** What [visit_technique] may change in a registered texture: it caches
    render-target views, each one created on the texture itself. *)
Definition texture_evolves (t t' : texture) : Prop :=
  unique_name t' = unique_name t
  /\ srv0 t' = srv0 t /\ srv1 t' = srv1 t
  /\ impl_texture t' = impl_texture t
  /\ forall index,
       rtv t' index = rtv t index
       \/ exists desc v, impl_texture t = Some desc
                         /\ rtv t' index = Some v
                         /\ view_resource v = resource_handle desc.

Definition linker_evolves (c c' : compiler) : Prop :=
  _texture_bindings c' = _texture_bindings c
  /\ _backbuffer_rtv0 (_runtime c') = _backbuffer_rtv0 (_runtime c)
  /\ _backbuffer_rtv1 (_runtime c') = _backbuffer_rtv1 (_runtime c)
  /\ _backbuffer_texture_srv0 (_runtime c') = _backbuffer_texture_srv0 (_runtime c)
  /\ _backbuffer_texture_srv1 (_runtime c') = _backbuffer_texture_srv1 (_runtime c)
  /\ _techniques (_runtime c') = _techniques (_runtime c)
  /\ Forall2 texture_evolves (_textures (_runtime c)) (_textures (_runtime c')).

(** The render target a slot that names [texture] is given by a linker
    in state [c]: the view cached on the texture, or else the view the
    device creates next on the resource of the texture, or none when
    that call fails. *)
Definition named_target (c : compiler) (texture : texture) (desc : texture2d)
    (index : bool) : option view :=
  match rtv texture index with
  | Some cached => Some cached
  | None =>
      let d := _device (_runtime c) in
      if FAILED (hd 0 (script d)) then None
      else Some {| view_handle := next_object d;
                   view_resource := resource_handle desc |}
  end.

(** Slot 0 of a pass built from [pass_info] that names no render target
    for it, [c] being the state the linker was in when [visit_technique]
    was called. *)
Definition slot0_default (c : compiler) (pass_info : fx.pass_info)
    (pass : d3d11_pass_data) : Prop :=
  let index := srgb_write_enable pass_info in
  (nth 0 (render_target_names pass_info) "" = "" ->
   render_targets pass !! 0%nat = Some (_backbuffer_rtv (_runtime c) index)
   /\ render_target_resources pass !! 0%nat
      = Some (_backbuffer_texture_srv (_runtime c) index))
  /\ ((forall k, (k < 8)%nat -> nth k (render_target_names pass_info) "" = "") ->
      render_targets pass
      = _backbuffer_rtv (_runtime c) index :: replicate 7 None).

(** Slot 0 of a pass built from [pass_info] that names a render target
    for it, [c] being the state the linker was in when it came to the
    pass. *)
Definition slot0_named (c : compiler) (pass_info : fx.pass_info)
    (pass : d3d11_pass_data) : Prop :=
  let index := srgb_write_enable pass_info in
  let name0 := nth 0 (render_target_names pass_info) "" in
  name0 <> "" ->
  exists position texture desc,
    find_texture (_runtime c) name0 = Some (position, texture)
    /\ impl_texture texture = Some desc
    /\ render_target_resources pass !! 0%nat = Some (srv texture index)
    /\ render_targets pass !! 0%nat = Some (named_target c texture desc index).

(** A pass built by a linker that started with the bindings [bindings]:
    its shader resources are those bindings, read/write hazards reset. *)
Definition hazards_reset (bindings : list (option view)) (pass : d3d11_pass_data)
  : Prop :=
  shader_resources pass = reset_hazards (render_targets pass) bindings.

Definition pass_built (c : compiler) (pass_info : fx.pass_info)
    (pass : d3d11_pass_data) : Prop :=
  hazards_reset (_texture_bindings c) pass /\ slot0_default c pass_info pass.

(** The state [visit_technique] is in when it comes to the first pass:
    the three queries have been created. *)
Definition technique_start (c : compiler) : compiler :=
  (create_query (create_query (create_query c).2).2).2.

(** The states the linker is in when it comes to each pass of [infos],
    from [c] on, as long as the passes are built. *)
Fixpoint pass_starts (NDEBUG : bool) (infos : list fx.pass_info) (c : compiler)
  : list compiler :=
  match infos with
  | [] => []
  | pass_info :: rest =>
      c :: match build_pass NDEBUG pass_info c with
           | Continue _ c' => pass_starts NDEBUG rest c'
           | _ => []
           end
  end.

(** The linker state a part of [visit_technique] ends in, whether it
    goes on or returns. *)
Definition final_state {A} (s : step A) : option compiler :=
  match s with
  | Continue _ c => Some c
  | Returned c => Some c
  | Crashed => None
  end.

Definition rt_pass (names : list string) (srgb : bool) : pass_info :=
  {| vs_entry_point := "VS"; ps_entry_point := "PS";
     render_target_names := names;
     clear_render_targets := false; srgb_write_enable := srgb |}.

(** A texture, a sampler on it, and a technique whose only pass renders
    into that texture. *)
Definition hazard_start : compiler :=
  default (fresh_compiler [])
    (visit_sampler 64 (smp_info "t" 0 false)
       (visit_texture (tex_info "t" "" 4 4) (fresh_compiler []))).

Definition hazard_technique : technique_info :=
  {| technique_name := "T"; passes := [rt_pass ["t"] false] |}.

Definition hazard_end : compiler :=
  default hazard_start (visit_technique true hazard_technique hazard_start).

(** A technique with a pass that names no render target and a pass that
    renders into the registered texture. *)
Definition default_technique : technique_info :=
  {| technique_name := "T"; passes := [rt_pass [] true; rt_pass ["t"] false] |}.

Definition default_end : compiler :=
  default hazard_start (visit_technique true default_technique hazard_start).

(** *** Helpers of the linker *)
(** [(size + 15) & ~15] on [size_t]; [~15] is the [int] -16, converted to
    [size_t] for the conjunction. *)
Definition roundto16 (SIZE_BITS : Z) (size : Z) : Z :=
  Z.land ((size + 15) mod 2 ^ SIZE_BITS) (Z.lnot 15 mod 2 ^ SIZE_BITS).

Inductive D3D11_BLEND :=
| D3D11_BLEND_ZERO | D3D11_BLEND_ONE
| D3D11_BLEND_SRC_COLOR | D3D11_BLEND_INV_SRC_COLOR
| D3D11_BLEND_SRC_ALPHA | D3D11_BLEND_INV_SRC_ALPHA
| D3D11_BLEND_DEST_ALPHA | D3D11_BLEND_INV_DEST_ALPHA
| D3D11_BLEND_DEST_COLOR | D3D11_BLEND_INV_DEST_COLOR.

Global Instance D3D11_BLEND_eq_dec : EqDecision D3D11_BLEND.
Proof. solve_decision. Defined.

Definition literal_to_blend_func (value : Z) : D3D11_BLEND :=
  if value =? 0 then D3D11_BLEND_ZERO
  else if value =? 1 then D3D11_BLEND_ONE
  else if value =? 2 then D3D11_BLEND_SRC_COLOR
  else if value =? 4 then D3D11_BLEND_INV_SRC_COLOR
  else if value =? 3 then D3D11_BLEND_SRC_ALPHA
  else if value =? 5 then D3D11_BLEND_INV_SRC_ALPHA
  else if value =? 6 then D3D11_BLEND_DEST_ALPHA
  else if value =? 7 then D3D11_BLEND_INV_DEST_ALPHA
  else if value =? 8 then D3D11_BLEND_DEST_COLOR
  else if value =? 9 then D3D11_BLEND_INV_DEST_COLOR
  else D3D11_BLEND_ONE.

Inductive D3D11_STENCIL_OP :=
| D3D11_STENCIL_OP_KEEP | D3D11_STENCIL_OP_ZERO | D3D11_STENCIL_OP_REPLACE
| D3D11_STENCIL_OP_INCR_SAT | D3D11_STENCIL_OP_DECR_SAT
| D3D11_STENCIL_OP_INVERT | D3D11_STENCIL_OP_INCR | D3D11_STENCIL_OP_DECR.

Global Instance D3D11_STENCIL_OP_eq_dec : EqDecision D3D11_STENCIL_OP.
Proof. solve_decision. Defined.

Definition literal_to_stencil_op (value : Z) : D3D11_STENCIL_OP :=
  if value =? 1 then D3D11_STENCIL_OP_KEEP
  else if value =? 0 then D3D11_STENCIL_OP_ZERO
  else if value =? 3 then D3D11_STENCIL_OP_REPLACE
  else if value =? 4 then D3D11_STENCIL_OP_INCR_SAT
  else if value =? 5 then D3D11_STENCIL_OP_DECR_SAT
  else if value =? 6 then D3D11_STENCIL_OP_INVERT
  else if value =? 7 then D3D11_STENCIL_OP_INCR
  else if value =? 8 then D3D11_STENCIL_OP_DECR
  else D3D11_STENCIL_OP_KEEP.

Definition make_format_typeless (format : DXGI_FORMAT) : DXGI_FORMAT :=
  match format with
  | DXGI_FORMAT_R8G8B8A8_UNORM | DXGI_FORMAT_R8G8B8A8_UNORM_SRGB =>
      DXGI_FORMAT_R8G8B8A8_TYPELESS
  | DXGI_FORMAT_BC1_UNORM | DXGI_FORMAT_BC1_UNORM_SRGB => DXGI_FORMAT_BC1_TYPELESS
  | DXGI_FORMAT_BC2_UNORM | DXGI_FORMAT_BC2_UNORM_SRGB => DXGI_FORMAT_BC2_TYPELESS
  | DXGI_FORMAT_BC3_UNORM | DXGI_FORMAT_BC3_UNORM_SRGB => DXGI_FORMAT_BC3_TYPELESS
  | _ => format
  end.

(** *** Uniforms *)
Inductive uniform_datatype := signed_integer | unsigned_integer | floating_point.

(** The value of an annotation as the runtime keeps it: a [float] is
    carried as its 32-bit pattern. *)
Inductive variant :=
| variant_int (value : Z)
| variant_uint (value : Z)
| variant_float (bits : Z)
| variant_string (text : string).

(** Lane [i] of a constant read as [int]. *)
Definition as_int (c : constant) (i : nat) : Z :=
  if lane c i <? 2 ^ 31 then lane c i else lane c i - 2 ^ 32.

(** [target.insert] keeps an entry that is already there; an annotation
    of any other base type is not copied. *)
Definition copy_annotations (source : gmap string (fx.type * constant))
    (target : gmap string variant) : gmap string variant :=
  target ∪ omap (fun annotation : fx.type * constant =>
                   match base annotation.1 with
                   | t_int => Some (variant_int (as_int annotation.2 0))
                   | t_bool | t_uint => Some (variant_uint (lane annotation.2 0))
                   | t_float => Some (variant_float (lane annotation.2 0))
                   | t_string => Some (variant_string (string_data annotation.2))
                   | _ => None
                   end) source.

(** Modelled from the spec: [uniform] of the runtime, whose header is
    not among the sources: "offsets in uniform descriptors index into"
    the "uniform byte arena".  The two data types are [None] where
    [visit_uniform] leaves them at their initialisers. *)
Record uniform := {
  uniform_obj_name : string;
  uniform_rows : Z;
  uniform_columns : Z;
  uniform_elements : Z;
  storage_size : Z;
  storage_offset : Z;
  uniform_annotations : gmap string variant;
  basetype : option uniform_datatype;
  displaytype : option uniform_datatype
}.

(** A uniform as the frontend declares it: the descriptor, its
    annotations and its initialiser. *)
Record uniform_declaration := {
  declared : uniform_info;
  declared_annotations : gmap string (fx.type * constant);
  has_initializer_value : bool;
  initializer_value : constant
}.

(** Modelled from the spec: the linker together with the members of the
    runtime that only [visit_uniform] and [run] touch: the "uniform
    byte arena", the uniforms and the "constant-buffer list". *)
Record linker := {
  state : compiler;
  uniform_value_storage : list Z;
  _uniforms : list uniform;
  _constant_buffers : list (option nat)
}.

Definition set_state (c : compiler) (l : linker) : linker :=
  {| state := c; uniform_value_storage := uniform_value_storage l;
     _uniforms := _uniforms l; _constant_buffers := _constant_buffers l |}.

Definition set_uniform_value_storage (storage : list Z) (l : linker) : linker :=
  {| state := state l; uniform_value_storage := storage;
     _uniforms := _uniforms l; _constant_buffers := _constant_buffers l |}.

Definition add_uniform (obj : uniform) (l : linker) : linker :=
  {| state := state l; uniform_value_storage := uniform_value_storage l;
     _uniforms := _uniforms l ++ [obj]; _constant_buffers := _constant_buffers l |}.

Definition add_constant_buffer (buffer : option nat) (l : linker) : linker :=
  {| state := state l; uniform_value_storage := uniform_value_storage l;
     _uniforms := _uniforms l; _constant_buffers := _constant_buffers l ++ [buffer] |}.

Definition set_constant_buffer_size (size : Z) (c : compiler) : compiler :=
  {| _runtime := _runtime c; _success := _success c; _errors := _errors c;
     _sampler_bindings := _sampler_bindings c;
     _texture_bindings := _texture_bindings c;
     vs_entry_points := vs_entry_points c; ps_entry_points := ps_entry_points c;
     _constant_buffer_size := size;
     _uniform_storage_offset := _uniform_storage_offset c |}.

Definition set_uniform_storage_offset (offset : Z) (c : compiler) : compiler :=
  {| _runtime := _runtime c; _success := _success c; _errors := _errors c;
     _sampler_bindings := _sampler_bindings c;
     _texture_bindings := _texture_bindings c;
     vs_entry_points := vs_entry_points c; ps_entry_points := ps_entry_points c;
     _constant_buffer_size := _constant_buffer_size c;
     _uniform_storage_offset := offset |}.

(** The sixty-four bytes of the lanes of a constant, in memory order. *)
Definition lane_bytes (c : constant) : list Z :=
  concat (map (fun i => dword_bytes (lane c i)) (seq 0 16)).

(** [memcpy] and [memset] into a byte vector: [bytes] are written from
    [offset] on. *)
Definition write_bytes (offset : nat) (bytes storage : list Z) : list Z :=
  take offset storage ++ bytes ++ drop (offset + length bytes) storage.

(** The sizes and offsets are [size_t]s.  A write that leaves the
    storage, or a read of more than the sixty-four bytes of the lanes,
    is undefined behaviour. *)
Definition visit_uniform (SIZE_BITS : Z) (info : uniform_declaration) (l : linker)
  : option linker :=
  let c := state l in
  let obj_storage_size := size_t SIZE_BITS (uniform_size (declared info)) in
  let obj_storage_offset :=
    size_t SIZE_BITS (_uniform_storage_offset c + uniform_offset (declared info)) in
  let datatype :=
    match base (uniform_type (declared info)) with
    | t_int => Some signed_integer
    | t_uint => Some unsigned_integer
    | t_float => Some floating_point
    | _ => None
    end in
  let obj :=
    {| uniform_obj_name := uniform_name (declared info);
       uniform_rows := rows (uniform_type (declared info));
       uniform_columns := cols (uniform_type (declared info));
       uniform_elements := Z.max 1 (array_length (uniform_type (declared info)));
       storage_size := obj_storage_size;
       storage_offset := obj_storage_offset;
       uniform_annotations := copy_annotations (declared_annotations info) ∅;
       basetype := datatype;
       displaytype := datatype |} in
  let c := set_constant_buffer_size
             (Z.max (_constant_buffer_size c)
                (size_t SIZE_BITS
                   (obj_storage_offset + obj_storage_size
                    - _uniform_storage_offset c))) c in
  let uniform_storage := uniform_value_storage l in
  let uniform_storage :=
    if Z.of_nat (length uniform_storage)
       <=? size_t SIZE_BITS (obj_storage_offset + obj_storage_size)
    then uniform_storage ++ replicate 128 0
    else uniform_storage in
  if Z.of_nat (length uniform_storage) <? obj_storage_offset + obj_storage_size
  then None
  else if has_initializer_value info && (64 <? obj_storage_size) then None
  else
    let bytes :=
      if has_initializer_value info
      then take (Z.to_nat obj_storage_size) (lane_bytes (initializer_value info))
      else replicate (Z.to_nat obj_storage_size) 0 in
    Some (add_uniform obj
            (set_uniform_value_storage
               (write_bytes (Z.to_nat obj_storage_offset) bytes uniform_storage)
               (set_state c l))).

(** *** The entry of the linker *)
(** The members of [module] that [run] reads. *)
Record effect_module := {
  hlsl : string;
  entry_points : list (string * bool);
  effect_textures : list texture_info;
  effect_samplers : list sampler_info;
  effect_uniforms : list uniform_declaration;
  effect_techniques : list technique_info
}.

(** A loop whose body may have undefined behaviour. *)
Fixpoint for_each {A S} (f : A -> S -> option S) (l : list A) (s : S) : option S :=
  match l with
  | [] => Some s
  | a :: l' =>
      match f a s with
      | Some s => for_each f l' s
      | None => None
      end
  end.

Definition unable_to_load : string :=
  "Unable to load D3DCompiler library. Make sure you have the DirectX end-user runtime (June 2010) installed or a newer version of the library in the application directory."
  +:+ newline.

(** [d3dcompiler_47] and [d3dcompiler_43] tell whether [LoadLibraryW]
    finds the library of that version; the value is what [run] returns
    next to the state it leaves. *)
Definition run (NDEBUG : bool) (SIZE_BITS : Z)
    (D3DCompile : string -> string -> bool -> HRESULT * option string)
    (d3dcompiler_47 d3dcompiler_43 : bool) (m : effect_module) (l : linker)
  : option (bool * linker) :=
  if negb d3dcompiler_47 && negb d3dcompiler_43
  then Some (false, set_state (append_errors unable_to_load (state l)) l)
  else
    let c := fold_left (fun c entry =>
                          compile_entry_point D3DCompile (hlsl m) entry.1 entry.2 c)
               (entry_points m) (state l) in
    if negb (_success c) then Some (false, set_state c l)
    else
      let c := set_uniform_storage_offset
                 (Z.of_nat (length (uniform_value_storage l))) c in
      let c := fold_left (fun c texture => visit_texture texture c)
                 (effect_textures m) c in
      match for_each (visit_sampler SIZE_BITS) (effect_samplers m) c with
      | None => None
      | Some c =>
          match for_each (visit_uniform SIZE_BITS) (effect_uniforms m)
                  (set_state c l) with
          | None => None
          | Some l =>
              match for_each (visit_technique NDEBUG) (effect_techniques m)
                      (state l) with
              | None => None
              | Some c =>
                  let l := set_state c l in
                  let l :=
                    if negb (_constant_buffer_size c =? 0) then
                      let size := roundto16 SIZE_BITS (_constant_buffer_size c) in
                      let c := set_constant_buffer_size size c in
                      let storage :=
                        resize (Z.to_nat (size_t SIZE_BITS
                                            (_uniform_storage_offset c + size)))
                          0 (uniform_value_storage l) in
                      let '(hr, handle, c) := create c in
                      add_constant_buffer (if FAILED hr then None else Some handle)
                        (set_uniform_value_storage storage (set_state c l))
                    else l in
                  Some (_success (state l), l)
              end
          end
      end.

(** *** Notions and sample inputs of the further properties *)

(** The linker state [c] with its device advanced. *)
Definition only_device (c c' : compiler) : Prop :=
  c' = set_runtime (set_device (_device (_runtime c')) (_runtime c)) c.

(** The formats for which [make_format_srgb] has a variant of its own. *)
Definition has_srgb_variant (value : texture_format) : bool :=
  bool_decide (value ∈ [rgba8; dxt1; dxt3; dxt5]).

(** *** The failure flag and the error text *)
(** From [c] to [c'] the failure flag is not taken back and the error
    text only grows. *)
Definition reports (c c' : compiler) : Prop :=
  (_success c = false -> _success c' = false)
  /\ exists more, _errors c' = _errors c +:+ more.

(** *** Techniques *)
(** What a part of [visit_technique] does to the failure flag and the
    error text: it goes on with the flag as it was, or it returns with the
    flag cleared. *)
Definition outcome {A} (c : compiler) (s : step A) : Prop :=
  match s with
  | Continue _ c' => _success c' = _success c /\ reports c c'
  | Returned c' => _success c' = false /\ reports c c'
  | Crashed => True
  end.

(** The render targets a pass names are registered textures with a
    resource. *)
Definition targets_found (c : compiler) (pass_info : fx.pass_info) (ks : list nat)
  : Prop :=
  forall k, k ∈ ks ->
    nth k (render_target_names pass_info) "" = ""
    \/ exists position texture desc,
         find_texture (_runtime c) (nth k (render_target_names pass_info) "")
         = Some (position, texture)
         /\ impl_texture texture = Some desc.

(** A technique whose pass renders into a texture that was never
    declared. *)
Definition missing_technique : technique_info :=
  {| technique_name := "T"; passes := [rt_pass ["u"] false] |}.

Definition missing_end : compiler :=
  default hazard_start (visit_technique true missing_technique hazard_start).

(** The size of the frame, which no step of the linker writes. *)
Definition frame (c : compiler) : Z * Z :=
  (frame_width (_runtime c), frame_height (_runtime c)).

(** The viewport of a pass. *)
Definition viewport (pass : d3d11_pass_data) : Z * Z :=
  (viewport_Width pass, viewport_Height pass).

(** The size of a texture. *)
Definition extent (desc : texture2d) : Z * Z := (desc_Width desc, desc_Height desc).

(** A size with both numbers converted to [FLOAT]. *)
Definition as_FLOAT (size : Z * Z) : Z * Z := (to_FLOAT size.1, to_FLOAT size.2).

(** The viewport of a built pass: the size of the frame when the pass
    names no render target, the size of a named render target that has
    a width and a height, both as [FLOAT]s. *)
Definition viewport_chosen (c : compiler) (pass_info : fx.pass_info)
    (pass : d3d11_pass_data) : Prop :=
  ((forall k, (k < 8)%nat -> nth k (render_target_names pass_info) "" = "") ->
   viewport pass = as_FLOAT (frame c))
  /\ (forall k position texture desc,
        (k < 8)%nat ->
        nth k (render_target_names pass_info) "" <> "" ->
        find_texture (_runtime c) (nth k (render_target_names pass_info) "")
        = Some (position, texture) ->
        impl_texture texture = Some desc ->
        desc_Width desc <> 0 -> desc_Height desc <> 0 ->
        viewport pass = as_FLOAT (extent desc)).

(** The shader registered for an entry point: null when there is
    none. *)
Definition entry (m : gmap string (option nat)) (key : string) : option nat :=
  default None (m !! key).

(** The entry points of both stages are the same in [c] and [c']. *)
Definition same_entries (c c' : compiler) : Prop :=
  forall key, entry (vs_entry_points c') key = entry (vs_entry_points c) key
              /\ entry (ps_entry_points c') key = entry (ps_entry_points c) key.

(** The shaders of a built pass: those registered for the entry points
    the pass names, which a build with assertions has checked. *)
Definition shaders_bound (NDEBUG : bool) (c : compiler) (pass_info : fx.pass_info)
    (pass : d3d11_pass_data) : Prop :=
  vertex_shader pass = entry (vs_entry_points c) (vs_entry_point pass_info)
  /\ pixel_shader pass = entry (ps_entry_points c) (ps_entry_point pass_info)
  /\ (NDEBUG = false ->
      is_Some (vertex_shader pass) /\ is_Some (pixel_shader pass)).

(** The entry points of a stage. *)
Definition stage_entry_points (is_ps : bool) (c : compiler)
  : gmap string (option nat) :=
  if is_ps then ps_entry_points c else vs_entry_points c.

(** *** The entry of the linker *)
(** What the linker has registered with the runtime and bound to
    slots. *)
Definition registered (c : compiler) :=
  (_textures (_runtime c), _techniques (_runtime c),
   _effect_sampler_states (_runtime c), _sampler_bindings c, _texture_bindings c).

(** The loop of [run] over the entry points. *)
Definition compile_entry_points
    (D3DCompile : string -> string -> bool -> HRESULT * option string)
    (hlsl : string) (entries : list (string * bool)) (c : compiler) : compiler :=
  fold_left (fun c entry => compile_entry_point D3DCompile hlsl entry.1 entry.2 c)
    entries c.

(** A vendor compiler that fails for the entry point [PS]. *)
Definition failing_compile (text entry : string) (is_ps : bool)
  : HRESULT * option string :=
  if bool_decide (entry = "PS") then (-2147467259, Some "error X3000") else (0, None).

Definition new_linker : linker :=
  {| state := fresh_compiler []; uniform_value_storage := [];
     _uniforms := []; _constant_buffers := [] |}.

Definition failing_module : effect_module :=
  {| hlsl := ""; entry_points := [("VS", false); ("PS", true)];
     effect_textures := [tex_info "t" "" 4 4]; effect_samplers := [];
     effect_uniforms := []; effect_techniques := [] |}.

(** *** Uniforms *)
(** The first byte of a uniform in the storage. *)
Definition first_byte (info : uniform_declaration) (l : linker) : Z :=
  _uniform_storage_offset (state l) + uniform_offset (declared info).

(** The storage after [visit_uniform] has made room. *)
Definition grown_storage (info : uniform_declaration) (l : linker) : list Z :=
  if Z.of_nat (length (uniform_value_storage l))
     <=? first_byte info l + uniform_size (declared info)
  then uniform_value_storage l ++ replicate 128 0
  else uniform_value_storage l.

(** A [float4] with an initialiser, first in its block. *)
Definition float4_uniform : uniform_declaration :=
  {| declared :=
       {| uniform_name := "c";
          uniform_type := Type_ t_float 4 1 [q_uniform] false false false 0 0;
          uniform_member_index := 0; uniform_struct_type_id := 0;
          uniform_size := 16; uniform_offset := 0 |};
     declared_annotations := ∅;
     has_initializer_value := true;
     initializer_value := Constant [1065353216; 0; 0; 1065353216] "" [] |}.

(** *** The arena of the uniforms *)
(** The two sizes that only [visit_uniform] and [run] write. *)
Definition sizes (c : compiler) : Z * Z :=
  (_constant_buffer_size c, _uniform_storage_offset c).

(** A uniform of the runtime is the declared one, placed from [base] on
    and inside the [size] bytes after it. *)
Definition placed (base size : Z) (info : uniform_declaration) (u : uniform) : Prop :=
  storage_offset u = base + uniform_offset (declared info)
  /\ storage_size u = uniform_size (declared info)
  /\ storage_offset u + storage_size u <= base + size.

(** The declared offset and size are not negative, and the end of the
    uniform, rounded up, fits [size_t]. *)
Definition fits_arena (bits base : Z) (info : uniform_declaration) : Prop :=
  0 <= uniform_offset (declared info)
  /\ 0 <= uniform_size (declared info)
  /\ base + uniform_offset (declared info) + uniform_size (declared info) + 15
     < 2 ^ bits.

(** A vendor compiler that compiles every entry point. *)
Definition working_compile (text entry : string) (is_ps : bool)
  : HRESULT * option string := (0, None).

Definition uniform_module : effect_module :=
  {| hlsl := ""; entry_points := [("VS", false); ("PS", true)];
     effect_textures := []; effect_samplers := [];
     effect_uniforms := [float4_uniform]; effect_techniques := [] |}.

End d3d11.


(** ** The HLSL code generator *)

Module hlsl.
Import fx.

(** *** Strings *)
(** [s.back()], which is undefined on an empty string, and
    [s.pop_back()]. *)
Fixpoint back (s : string) : option Ascii.ascii :=
  match s with
  | EmptyString => None
  | String c EmptyString => Some c
  | String _ rest => back rest
  end.

Fixpoint pop_back (s : string) : string :=
  match s with
  | EmptyString => EmptyString
  | String _ EmptyString => EmptyString
  | String c rest => String c (pop_back rest)
  end.

Definition newline : string := String (Ascii.ascii_of_nat 10) "".
Definition quote : string := String (Ascii.ascii_of_nat 34) "".
Definition comma : Ascii.ascii := Ascii.ascii_of_nat 44.
Definition space : Ascii.ascii := Ascii.ascii_of_nat 32.

(** *** Generator state *)
(** Of [function_info], the members the generator reads. *)
Record function_info := {
  function_definition : Z;
  function_name : string
}.

(** The members of [codegen_hlsl] and of its base class [codegen]. *)
Record codegen := Codegen {
  _next_id : Z;
  _current_block : Z;
  _current_function : Z;
  _last_block : Z;
  _names : gmap Z string;
  _blocks : gmap Z string;
  structs : list struct_info;
  textures : list texture_info;
  samplers : list sampler_info;
  uniforms : list uniform_info;
  techniques : list technique_info;
  functions : list function_info
}.

Definition set_next_id (v : Z) (cg : codegen) : codegen :=
  Codegen v (_current_block cg) (_current_function cg) (_last_block cg) (_names cg)
    (_blocks cg) (structs cg) (textures cg) (samplers cg) (uniforms cg)
    (techniques cg) (functions cg).

Definition set_current_block (v : Z) (cg : codegen) : codegen :=
  Codegen (_next_id cg) v (_current_function cg) (_last_block cg) (_names cg)
    (_blocks cg) (structs cg) (textures cg) (samplers cg) (uniforms cg)
    (techniques cg) (functions cg).

Definition set_current_function (v : Z) (cg : codegen) : codegen :=
  Codegen (_next_id cg) (_current_block cg) v (_last_block cg) (_names cg)
    (_blocks cg) (structs cg) (textures cg) (samplers cg) (uniforms cg)
    (techniques cg) (functions cg).

Definition set_last_block (v : Z) (cg : codegen) : codegen :=
  Codegen (_next_id cg) (_current_block cg) (_current_function cg) v (_names cg)
    (_blocks cg) (structs cg) (textures cg) (samplers cg) (uniforms cg)
    (techniques cg) (functions cg).

Definition set_names (v : gmap Z string) (cg : codegen) : codegen :=
  Codegen (_next_id cg) (_current_block cg) (_current_function cg) (_last_block cg) v
    (_blocks cg) (structs cg) (textures cg) (samplers cg) (uniforms cg)
    (techniques cg) (functions cg).

Definition set_blocks (v : gmap Z string) (cg : codegen) : codegen :=
  Codegen (_next_id cg) (_current_block cg) (_current_function cg) (_last_block cg)
    (_names cg) v (structs cg) (textures cg) (samplers cg) (uniforms cg)
    (techniques cg) (functions cg).

Definition set_textures (v : list texture_info) (cg : codegen) : codegen :=
  Codegen (_next_id cg) (_current_block cg) (_current_function cg) (_last_block cg)
    (_names cg) (_blocks cg) (structs cg) v (samplers cg) (uniforms cg)
    (techniques cg) (functions cg).

Definition set_samplers (v : list sampler_info) (cg : codegen) : codegen :=
  Codegen (_next_id cg) (_current_block cg) (_current_function cg) (_last_block cg)
    (_names cg) (_blocks cg) (structs cg) (textures cg) v (uniforms cg)
    (techniques cg) (functions cg).

Definition set_uniforms (v : list uniform_info) (cg : codegen) : codegen :=
  Codegen (_next_id cg) (_current_block cg) (_current_function cg) (_last_block cg)
    (_names cg) (_blocks cg) (structs cg) (textures cg) (samplers cg) v
    (techniques cg) (functions cg).

Definition set_techniques (v : list technique_info) (cg : codegen) : codegen :=
  Codegen (_next_id cg) (_current_block cg) (_current_function cg) (_last_block cg)
    (_names cg) (_blocks cg) (structs cg) (textures cg) (samplers cg) (uniforms cg)
    v (functions cg).

Definition set_functions (v : list function_info) (cg : codegen) : codegen :=
  Codegen (_next_id cg) (_current_block cg) (_current_function cg) (_last_block cg)
    (_names cg) (_blocks cg) (structs cg) (textures cg) (samplers cg) (uniforms cg)
    (techniques cg) v.

(** Modelled from the spec: the members of the base class [codegen],
    whose header is not among the sources, at their initialisers: the
    id counter is a "monotonically increasing counter starting at 1",
    no block and no function is current. *)
Definition codegen_hlsl_new : codegen :=
  {| _next_id := 1; _current_block := 0; _current_function := 0xFFFFFFFF;
     _last_block := 0; _names := ∅; _blocks := ∅;
     structs := []; textures := []; samplers := []; uniforms := [];
     techniques := []; functions := [] |}.

Definition make_id (cg : codegen) : Z * codegen :=
  (_next_id cg, set_next_id (_next_id cg + 1) cg).

(** [_blocks[id]], which creates the block if there is none. *)
Definition block (id : Z) (cg : codegen) : string := default "" (_blocks cg !! id).

(** [_blocks[id] += text] *)
Definition append_block (id : Z) (text : string) (cg : codegen) : codegen :=
  set_blocks (<[id := block id cg +:+ text]> (_blocks cg)) cg.

(** [code() += text] *)
Definition append_code (text : string) (cg : codegen) : codegen :=
  append_block (_current_block cg) text cg.

(** [code()] *)
Definition code (cg : codegen) : string := block (_current_block cg) cg.

(** *** Types, constants, locations and names *)
Definition write_type (t : fx.type) : string :=
  let s := match base t with
           | t_void => "void"
           | t_bool => "bool"
           | t_int => "int"
           | t_uint => "uint"
           | t_float => "float"
           | t_sampler => "__sampler"
           | _ => ""
           end in
  let s := if 1 <? rows t then s +:+ pretty (rows t) else s in
  if 1 <? cols t then s +:+ "x" +:+ pretty (cols t) else s.

Section Generator.

(** [std::to_string] of a [float], from its 32-bit pattern. *)
Variable float_to_string : Z -> string.

(** Lane [i] of a constant read as [int]. *)
Definition lane_as_int (c : constant) (i : nat) : Z :=
  if lane c i <? 2 ^ 31 then lane c i else lane c i - 2 ^ 32.

(** The [switch] in the loops of [write_constant]; reading a lane past
    the sixteenth is undefined behaviour. *)
Definition write_lane (t : fx.type) (data : constant) (i : nat) : option string :=
  match base t with
  | t_int => if (i <? 16)%nat then Some (pretty (lane_as_int data i)) else None
  | t_uint => if (i <? 16)%nat then Some (pretty (lane data i)) else None
  | t_float => if (i <? 16)%nat then Some (float_to_string (lane data i)) else None
  | _ => Some ""
  end.

(** The inner loop, over the rows [rs] of column [c]. *)
Fixpoint write_rows (t : fx.type) (data : constant) (c : nat) (rs : list nat)
    (s : string) : option string :=
  match rs with
  | [] => Some s
  | r :: rs' =>
      match write_lane t data (c * Z.to_nat (rows t) + r) with
      | Some text => write_rows t data c rs' (s +:+ text +:+ ",")
      | None => None
      end
  end.

(** The outer loop, over the columns [cs]. *)
Fixpoint write_columns (t : fx.type) (data : constant) (cs : list nat) (s : string)
  : option string :=
  match cs with
  | [] => Some s
  | c :: cs' =>
      match write_rows t data c (seq 0 (Z.to_nat (rows t))) s with
      | Some s => write_columns t data cs' s
      | None => None
      end
  end.

Definition write_constant (t : fx.type) (data : constant) : option string :=
  let s := if negb (is_scalar t) then write_type t else "" in
  let s := s +:+ "(" in
  match write_columns t data (seq 0 (Z.to_nat (cols t))) s with
  | None => None
  | Some s =>
      let s := if bool_decide (back s = Some comma) then pop_back s else s in
      Some (s +:+ ")")
  end.

Definition write_location (loc : location) : string :=
  if bool_decide (source loc = "") then ""
  else "#line " +:+ pretty (line loc) +:+ " " +:+ quote +:+ source loc +:+ quote
       +:+ newline.

Definition id_to_name (cg : codegen) (id : Z) : string :=
  match _names cg !! id with
  | Some name => name
  | None => "_" +:+ pretty id
  end.

(** *** Declarations *)
Definition define_texture (info : texture_info) (cg : codegen) : Z * codegen :=
  (texture_id info, set_textures (textures cg ++ [info]) cg).

Definition define_sampler (loc : location) (info : sampler_info) (cg : codegen)
  : Z * codegen :=
  let cg := set_samplers (samplers cg ++ [info]) cg in
  let cg := append_code (write_location loc) cg in
  let cg := append_code ("__sampler " +:+ sampler_unique_name info +:+ ";" +:+ newline)
              cg in
  let cg := set_names (<[sampler_id info := sampler_unique_name info]> (_names cg)) cg in
  (sampler_id info, cg).

(** [define_uniform] writes the member index into [info]; the updated
    descriptor is returned next to the id. *)
Definition define_uniform (loc : location) (info : uniform_info) (cg : codegen)
  : Z * uniform_info * codegen :=
  let info := {| uniform_name := uniform_name info;
                 uniform_type := uniform_type info;
                 uniform_member_index := Z.of_nat (length (uniforms cg));
                 uniform_struct_type_id := uniform_struct_type_id info;
                 uniform_size := uniform_size info;
                 uniform_offset := uniform_offset info |} in
  let cg := set_uniforms (uniforms cg ++ [info]) cg in
  let cg := append_code (write_location loc) cg in
  let cg := append_code (write_type (uniform_type info) +:+ " " +:+ uniform_name info
                         +:+ ";" +:+ newline) cg in
  let cg := set_names (<[0xFFFFFFFF := "_Globals"]> (_names cg)) cg in
  (0xFFFFFFFF, info, cg).

(** A null [name] is [None]. *)
Definition define_variable (loc : location) (t : fx.type) (name : option string)
    (initializer_value : Z) (cg : codegen) : Z * codegen :=
  let '(id, cg) := make_id cg in
  let cg := match name with
            | Some n => set_names (<[id := n]> (_names cg)) cg
            | None => cg
            end in
  let cg := append_code (write_location loc) cg in
  let cg := append_code (write_type t +:+ " " +:+ id_to_name cg id) cg in
  let cg := if negb (initializer_value =? 0)
            then append_code (" = " +:+ id_to_name cg initializer_value) cg
            else cg in
  let cg := append_code (";" +:+ newline) cg in
  (id, cg).

(** [code().back()] on an empty string is undefined behaviour. *)
Definition define_function (info : function_info) (cg : codegen)
  : option (Z * codegen) :=
  match back (code cg) with
  | None => None
  | Some last =>
      let cg := if bool_decide (last = comma)
                then set_blocks (<[_current_block cg := pop_back (code cg)]> (_blocks cg))
                       cg
                else cg in
      let cg := append_code (")" +:+ newline) cg in
      let cg := set_functions (functions cg ++ [info]) cg in
      Some (function_definition info, cg)
  end.

Definition define_parameter (loc : location) (info : struct_member_info) (cg : codegen)
  : Z * codegen :=
  let '(id, cg) := make_id cg in
  let cg := set_names (<[id := member_name info]> (_names cg)) cg in
  let cg := append_code (newline +:+ write_location loc) cg in
  let cg := append_code (write_type (member_type info) +:+ " " +:+ id_to_name cg id
                         +:+ ",") cg in
  (id, cg).

Definition define_technique (info : technique_info) (cg : codegen) : Z * codegen :=
  (0, set_techniques (techniques cg ++ [info]) cg).

Definition create_entry_point (func : function_info) (is_ps : bool) (cg : codegen)
  : Z * codegen :=
  (function_definition func, cg).

(** *** Expressions *)
Definition emit_constant (t : fx.type) (data : constant) (cg : codegen)
  : option (Z * codegen) :=
  let '(id, cg) := make_id cg in
  match write_constant t data with
  | None => None
  | Some text =>
      Some (id, append_code ("const " +:+ write_type t +:+ " " +:+ id_to_name cg id
                             +:+ " = " +:+ text +:+ ";" +:+ newline) cg)
  end.

(** [emit_call]: of an argument only [base] is read. *)
Definition emit_call (loc : location) (function : Z) (res_type : fx.type)
    (args : list Z) (cg : codegen) : Z * codegen :=
  let '(res, cg) := make_id cg in
  let cg := append_code (write_location loc) cg in
  let cg := append_code ("const " +:+ write_type res_type +:+ " " +:+ id_to_name cg res
                         +:+ " = " +:+ id_to_name cg function +:+ "(") cg in
  let cg := fold_left (fun cg arg => append_code (id_to_name cg arg) cg) args cg in
  let cg := append_code (");" +:+ newline) cg in
  (res, cg).

(** *** Blocks and functions *)
Definition set_block (id : Z) (cg : codegen) : codegen := set_current_block id cg.

Definition enter_block (id : Z) (cg : codegen) : codegen := set_current_block id cg.

Definition leave_block (cg : codegen) : codegen :=
  set_current_block 0 (set_last_block (_current_block cg) cg).

Definition leave_block_and_kill (cg : codegen) : codegen :=
  leave_block (append_code ("discard;" +:+ newline) cg).

Definition leave_block_and_return (value : Z) (cg : codegen) : codegen :=
  leave_block
    (append_code ("return"
                  +:+ (if negb (value =? 0) then " " +:+ id_to_name cg value else "")
                  +:+ ";" +:+ newline) cg).

Definition leave_block_and_switch (value : Z) (cg : codegen) : codegen :=
  leave_block cg.

Definition leave_block_and_branch (target : Z) (cg : codegen) : codegen :=
  leave_block cg.

Definition leave_block_and_branch_conditional (condition true_target false_target : Z)
    (cg : codegen) : codegen :=
  leave_block cg.

Definition enter_function (id : Z) (ret_type : fx.type) (cg : codegen) : codegen :=
  let cg := append_code (write_type ret_type +:+ " " +:+ id_to_name cg id +:+ "(") cg in
  set_current_function (Z.of_nat (length (functions cg))) cg.

(** [_blocks[_last_block]] is read with the subscript operator, which
    creates the block if there is none. *)
Definition leave_function (cg : codegen) : codegen :=
  let cg := append_block (_last_block cg) "" cg in
  let cg := append_code ("{" +:+ newline +:+ block (_last_block cg) cg +:+ "}"
                         +:+ newline) cg in
  set_current_function 0xFFFFFFFF cg.

(** *** The result *)
(** The output [module]. *)
Record module := {
  hlsl : string;
  module_samplers : list sampler_info;
  module_textures : list texture_info;
  module_uniforms : list uniform_info;
  module_techniques : list technique_info
}.

(** [_blocks.at(0)] throws [std::out_of_range] when there is no block 0:
    [None]. *)
Definition write_result (s : module) (cg : codegen) : option module :=
  match _blocks cg !! 0 with
  | None => None
  | Some text =>
      Some {| hlsl := text;
              module_samplers := samplers cg;
              module_textures := textures cg;
              module_uniforms := uniforms cg;
              module_techniques := techniques cg |}
  end.

End Generator.

(** *** Notions and sample inputs of the properties *)

(** *** Strings *)
(** The texts [l] with [sep] between them. *)
Fixpoint join (sep : string) (l : list string) : string :=
  match l with
  | [] => ""
  | [x] => x
  | x :: rest => x +:+ sep +:+ join sep rest
  end.

(** The texts [l], each followed by [sep]. *)
Fixpoint each_followed (sep : string) (l : list string) : string :=
  match l with
  | [] => ""
  | x :: rest => x +:+ sep +:+ each_followed sep rest
  end.

(** *** Constants *)
(** The text of lane [i], empty for a base type that has none. *)
Definition lane_text (float_to_string : Z -> string) (t : fx.type) (data : constant)
    (i : nat) : string :=
  match base t with
  | t_int => pretty (lane_as_int data i)
  | t_uint => pretty (lane data i)
  | t_float => float_to_string (lane data i)
  | _ => ""
  end.

Definition int3 : fx.type := type3 t_int 3 1.

(** *** Function headers *)
(** What [define_parameter] writes for a parameter, without the comma
    after it. *)
Definition parameter_text (p : location * struct_member_info) : string :=
  newline +:+ write_location p.1 +:+ write_type (member_type p.2) +:+ " "
  +:+ member_name p.2.

(** [define_parameter] for each parameter in turn. *)
Fixpoint define_parameters (ps : list (location * struct_member_info)) (cg : codegen)
  : list Z * codegen :=
  match ps with
  | [] => ([], cg)
  | p :: rest =>
      let '(id, cg) := define_parameter p.1 p.2 cg in
      let '(ids, cg) := define_parameters rest cg in
      (id :: ids, cg)
  end.

(** The header of a function: [enter_function], its parameters, then
    [define_function]. *)
Definition function_header (id : Z) (ret_type : fx.type)
    (ps : list (location * struct_member_info)) (info : function_info) (cg : codegen)
  : option (list Z * codegen) :=
  let cg := enter_function id ret_type cg in
  let '(ids, cg) := define_parameters ps cg in
  match define_function info cg with
  | Some (_, cg) => Some (ids, cg)
  | None => None
  end.

(** A vertex shader entry with two parameters. *)
Definition main_parameters : list (location * struct_member_info) :=
  [(no_location, Build_struct_member_info (type3 t_float 4 1) "pos");
   (no_location, Build_struct_member_info (type3 t_float 2 1) "tex")].

Definition main_named : codegen := set_names {[5 := "main"]} codegen_hlsl_new.

End hlsl.


(** * Theorems *)

(** ** The SPIR-V code generator *)

Module spirv_spec.
Import fx spirv.

(** *** String operands *)
Lemma add_string_do_unfold s acc :
  add_string_do s acc
  = let '(word, s') := add_string_for 4 0 0 s in
    if negb (deref s' =? 0) || negb (Z.land word 0xFF000000 =? 0)
    then add_string_do s' (acc ++ [word])
    else acc ++ [word].
Proof.
  funelim (add_string_do s acc); rewrite Hfor, Hc; reflexivity.
Qed.

Lemma byte_range (b : byte) : 0 <= Z.of_N (Byte.to_N b) < 256.
Proof. pose proof (Byte.to_N_bounded b). lia. Qed.

Lemma testbit_above word k n :
  0 <= word < 2 ^ k -> 0 <= k <= n -> Z.testbit word n = false.
Proof.
  intros Hword Hk. destruct (Z.eq_dec word 0) as [->|Hnz]; [apply Z.bits_0|].
  apply Z.bits_above_log2; [lia|].
  apply Z.log2_lt_pow2; [lia|].
  pose proof (Z.pow_le_mono_r 2 k n). lia.
Qed.

(** On a word whose bytes from [i] on are still zero, storing a byte is
    an addition. *)
Lemma set_byte_add word i c :
  0 <= i -> 0 <= word < 2 ^ (8 * i) -> 0 <= c < 256 ->
  set_byte word i c = word + c * 2 ^ (8 * i).
Proof.
  intros Hi Hword Hc. unfold set_byte.
  assert (Hkeep : Z.land word (Z.lnot (Z.shiftl 255 (8 * i))) = word).
  { apply Z.bits_inj'. intros n Hn.
    rewrite Z.land_spec, Z.lnot_spec by assumption.
    rewrite Z.shiftl_spec by assumption.
    destruct (Z.lt_ge_cases n (8 * i)) as [Hlt|Hge].
    - rewrite (Z.testbit_neg_r 255) by lia. apply andb_true_r.
    - rewrite (testbit_above word (8 * i) n) by lia. reflexivity. }
  rewrite Hkeep, Z.shiftl_mul_pow2 by lia.
  assert (Hdisjoint : Z.land word (c * 2 ^ (8 * i)) = 0).
  { apply Z.bits_inj'. intros n Hn. rewrite Z.land_spec, Z.bits_0.
    destruct (Z.lt_ge_cases n (8 * i)) as [Hlt|Hge].
    - rewrite Z.mul_pow2_bits_low by lia. apply andb_false_r.
    - rewrite (testbit_above word (8 * i) n) by lia. reflexivity. }
  rewrite <- Z.lxor_lor, <- Z.add_nocarry_lxor by assumption. reflexivity.
Qed.

Lemma top_byte word :
  0 <= word < 2 ^ 32 ->
  Z.land word 0xFF000000 = (word / 2 ^ 24) * 2 ^ 24.
Proof.
  intros Hword. apply Z.bits_inj'. intros n Hn.
  rewrite Z.land_spec.
  change 0xFF000000 with (Z.shiftl (Z.ones 8) 24).
  rewrite Z.shiftl_spec by assumption.
  destruct (Z.lt_ge_cases n 24) as [Hlt|Hge].
  - rewrite (Z.testbit_neg_r (Z.ones 8)) by lia.
    rewrite Z.mul_pow2_bits_low by lia. apply andb_false_r.
  - rewrite Z.mul_pow2_bits, Z.div_pow2_bits by lia.
    replace (n - 24 + 24) with n by lia.
    destruct (Z.lt_ge_cases n 32) as [Hlt|Hhigh].
    + rewrite Z.ones_spec_low by lia. apply andb_true_r.
    + rewrite Z.ones_spec_high by lia. rewrite andb_false_r.
      symmetry. apply (testbit_above word 32 n); lia.
Qed.

Lemma dword_bytes_pack c0 c1 c2 c3 :
  0 <= c0 < 256 -> 0 <= c1 < 256 -> 0 <= c2 < 256 -> 0 <= c3 < 256 ->
  dword_bytes (c0 + c1 * 2 ^ 8 + c2 * 2 ^ 16 + c3 * 2 ^ 24) = [c0; c1; c2; c3].
Proof.
  intros H0 H1 H2 H3. unfold dword_bytes. cbn [map].
  change (2 ^ (8 * 0)) with 1. change (2 ^ (8 * 1)) with 256.
  change (2 ^ (8 * 2)) with 65536. change (2 ^ (8 * 3)) with 16777216.
  change (2 ^ 8) with 256. change (2 ^ 16) with 65536.
  change (2 ^ 24) with 16777216.
  f_equal; [|f_equal; [|f_equal; [|f_equal]]];
    Z.div_mod_to_equations; lia.
Qed.

(** One round of the outer loop: the word it adds and where it leaves
    the string. *)
Lemma add_string_round s :
  exists c0 c1 c2 c3 s',
    add_string_for 4 0 0 s
    = (c0 + c1 * 2 ^ 8 + c2 * 2 ^ 16 + c3 * 2 ^ 24, s')
    /\ 0 <= c0 < 256 /\ 0 <= c1 < 256 /\ 0 <= c2 < 256 /\ 0 <= c3 < 256
    /\ (c3 = 0 ->
        deref s' = 0
        /\ (length (string_content s) < 4)%nat
        /\ [c0; c1; c2; c3]
           = string_content s ++ replicate (4 - length (string_content s)) 0)
    /\ (c3 <> 0 ->
        string_content s = [c0; c1; c2; c3] ++ string_content s'
        /\ (length s' < length s)%nat).
Proof.
  assert (Hstop : forall n i w l, deref l = 0 -> add_string_for n i w l = (w, l)).
  { intros [|n] i w l Hl; cbn; [reflexivity|]. rewrite Hl. reflexivity. }
  assert (Hstep : forall n i w l, deref l <> 0 ->
            add_string_for (S n) i w l
            = add_string_for n (i + 1) (set_byte w i (deref l)) (tail l)).
  { intros n i w l Hl. cbn. rewrite (proj2 (Z.eqb_neq _ _) Hl). reflexivity. }
  assert (Hnil : forall l, deref l = 0 -> string_content l = []).
  { intros [|b l] Hl; cbn in *; [reflexivity|]. rewrite Hl. reflexivity. }
  assert (Hcons : forall l, deref l <> 0 ->
            exists b l', l = b :: l' /\ deref l = Z.of_N (Byte.to_N b)
                         /\ 0 <= deref l < 256
                         /\ string_content l = deref l :: string_content l').
  { intros [|b l] Hl; cbn in *; [contradiction|].
    exists b, l. pose proof (byte_range b).
    destruct (Z.eqb_spec (Z.of_N (Byte.to_N b)) 0); [contradiction|]. auto. }
  destruct (Z.eq_dec (deref s) 0) as [Hz0|Hn0].
  { exists 0, 0, 0, 0, s. rewrite Hstop, (Hnil s) by assumption.
    repeat split; cbn; try lia; assumption. }
  destruct (Hcons s Hn0) as (b0 & s1 & -> & Hd0 & Hr0 & Hc0).
  rewrite Hstep by assumption. cbn [tail].
  rewrite Hc0. generalize dependent (deref (b0 :: s1)). intros c0 _ _ Hr0 _.
  rewrite set_byte_add by (cbn; lia).
  destruct (Z.eq_dec (deref s1) 0) as [Hz1|Hn1].
  { exists c0, 0, 0, 0, s1. rewrite Hstop, (Hnil s1) by assumption.
    split; [f_equal; cbn; lia|]. repeat split; cbn; try lia; assumption. }
  destruct (Hcons s1 Hn1) as (b1 & s2 & -> & Hd1 & Hr1 & Hc1).
  rewrite Hstep by assumption. cbn [tail].
  rewrite Hc1. generalize dependent (deref (b1 :: s2)). intros c1 _ _ Hr1 _.
  rewrite set_byte_add by (cbn; lia).
  destruct (Z.eq_dec (deref s2) 0) as [Hz2|Hn2].
  { exists c0, c1, 0, 0, s2. rewrite Hstop, (Hnil s2) by assumption.
    split; [f_equal; cbn; lia|]. repeat split; cbn; try lia; assumption. }
  destruct (Hcons s2 Hn2) as (b2 & s3 & -> & Hd2 & Hr2 & Hc2).
  rewrite Hstep by assumption. cbn [tail].
  rewrite Hc2. generalize dependent (deref (b2 :: s3)). intros c2 _ _ Hr2 _.
  rewrite set_byte_add by (cbn; lia).
  destruct (Z.eq_dec (deref s3) 0) as [Hz3|Hn3].
  { exists c0, c1, c2, 0, s3. rewrite Hstop, (Hnil s3) by assumption.
    split; [f_equal; cbn; lia|]. repeat split; cbn; try lia; assumption. }
  destruct (Hcons s3 Hn3) as (b3 & s4 & -> & Hd3 & Hr3 & Hc3).
  rewrite Hstep by assumption. cbn [tail].
  rewrite Hc3. generalize dependent (deref (b3 :: s4)). intros c3 Hn3 _ Hr3 _.
  rewrite set_byte_add by (cbn; lia).
  exists c0, c1, c2, c3, s4.
  split; [f_equal; cbn; lia|].
  repeat split; cbn; try lia; try contradiction.
Qed.

Lemma add_string_do_spec n : forall s acc,
  (length s <= n)%nat ->
  exists words,
    add_string_do s acc = acc ++ words
    /\ length words = (length (string_content s) / 4 + 1)%nat
    /\ Forall (fun w => 0 <= w < 2 ^ 32) words
    /\ concat (map dword_bytes words)
       = string_content s
         ++ replicate (4 - length (string_content s) mod 4) 0.
Proof.
  induction n as [|n IH]; intros s acc Hlen;
    rewrite add_string_do_unfold;
    destruct (add_string_round s)
      as (c0 & c1 & c2 & c3 & s' & -> & H0 & H1 & H2 & H3 & Hlast & Hmore);
    (assert (Hword : 0 <= c0 + c1 * 2 ^ 8 + c2 * 2 ^ 16 + c3 * 2 ^ 24 < 2 ^ 32)
       by lia);
    rewrite (top_byte _ Hword);
    (assert (Htop : (c0 + c1 * 2 ^ 8 + c2 * 2 ^ 16 + c3 * 2 ^ 24) / 2 ^ 24 = c3)
       by (change (2 ^ 8) with 256; change (2 ^ 16) with 65536;
           change (2 ^ 24) with 16777216; Z.div_mod_to_equations; lia));
    rewrite Htop;
    destruct (Z.eq_dec c3 0) as [Hz|Hnz].
  1,3: destruct (Hlast Hz) as (Hend & Hshort & Hbytes);
    (assert (Hcond : negb (c3 * 2 ^ 24 =? 0) = false)
       by (rewrite Hz; reflexivity));
    rewrite Hend, Hcond; cbn [Z.eqb negb orb];
    eexists [_]; (split; [reflexivity|]);
    (split; [rewrite Nat.div_small by assumption; reflexivity|]);
    (split; [apply Forall_cons_2; [cbn beta; lia|apply Forall_nil_2]|]);
    cbn [map concat]; rewrite app_nil_r, dword_bytes_pack by assumption;
    rewrite Nat.mod_small by assumption; exact Hbytes.
  - destruct (Hmore Hnz) as (_ & Hshorter). lia.
  - destruct (Hmore Hnz) as (Hcontent & Hshorter).
    assert (Hcond : negb (c3 * 2 ^ 24 =? 0) = true)
      by (apply negb_true_iff, Z.eqb_neq; lia).
    rewrite Hcond, orb_true_r.
    destruct (IH s' (acc ++ [c0 + c1 * 2 ^ 8 + c2 * 2 ^ 16 + c3 * 2 ^ 24]))
      as (words & -> & Hcount & Hrange & Hflat); [lia|].
    eexists (_ :: words). split; [rewrite <- app_assoc; reflexivity|].
    rewrite Hcontent.
    split.
    { cbn [length app]. rewrite Hcount.
      change (S (S (S (S (length (string_content s'))))))
        with (4 + length (string_content s'))%nat.
      replace (4 + length (string_content s'))%nat
        with (length (string_content s') + 1 * 4)%nat by lia.
      rewrite Nat.div_add by lia. lia. }
    split; [apply Forall_cons_2; [cbn beta; lia|assumption]|].
    cbn [map concat]. rewrite dword_bytes_pack, Hflat by assumption.
    cbn [length app].
    change (S (S (S (S (length (string_content s'))))))
      with (4 + length (string_content s'))%nat.
    replace (4 + length (string_content s'))%nat
      with (length (string_content s') + 1 * 4)%nat by lia.
    rewrite Nat.Div0.mod_add. reflexivity.
Qed.

(** C8.  [add_string] appends to the operands the characters of the
    string, four per word in little-endian order, followed by NUL bytes up
    to the next word boundary: at least one word and at least one NUL
    byte, also for the empty string. *)
Theorem add_string_encoding (ins : spirv_instruction) (s : list byte) :
  exists words,
    operands (add_string ins s) = operands ins ++ words
    /\ length words = (length (string_content s) / 4 + 1)%nat
    /\ Forall (fun w => 0 <= w < 2 ^ 32) words
    /\ concat (map dword_bytes words)
       = string_content s
         ++ replicate (4 - length (string_content s) mod 4) 0
    /\ (1 <= 4 - length (string_content s) mod 4 <= 4)%nat
    /\ (length (string_content s)
        + (4 - length (string_content s) mod 4) = 4 * length words)%nat.
Proof.
  destruct (add_string_do_spec (length s) s (operands ins) (le_n _))
    as (words & Hops & Hcount & Hrange & Hflat).
  exists words. split; [exact Hops|]. split; [exact Hcount|].
  split; [exact Hrange|]. split; [exact Hflat|].
  pose proof (Nat.mod_upper_bound (length (string_content s)) 4).
  pose proof (Nat.div_mod_eq (length (string_content s)) 4).
  split; lia.
Qed.

(** *** Offsets in the uniform block *)
(** What a call of [define_uniform] does to the layout. *)
Lemma define_uniform_offset info cg :
  uniform_byte_size (uniform_type info) <> 0 ->
  exists variable info' cg',
    define_uniform info cg = Some ((variable, info'), cg')
    /\ uniform_offset info'
       = align (_global_ubo_offset cg) (uniform_byte_size (uniform_type info))
    /\ _global_ubo_offset cg'
       = u32 (uniform_offset info' + uniform_byte_size (uniform_type info))
    /\ uniform_type info' = uniform_type info
    /\ uniform_member_index info' = Z.of_nat (length (uniforms cg))
    /\ uniforms cg' = uniforms cg ++ [info'].
Proof.
  intros Hsize. unfold define_uniform.
  apply Z.eqb_neq in Hsize.
  unfold bind, gets, modify, make_id, add_member_decoration,
    add_instruction_without_result, push_back, get_block, put_block.
  destruct (_global_ubo_type cg =? 0) eqn:Htype,
           (_global_ubo_variable cg =? 0) eqn:Hvariable;
    cbn; rewrite ?Htype, ?Hvariable; cbn; rewrite Hsize; cbn;
    eexists _, _, _; repeat split; reflexivity.
Qed.

Lemma define_uniform_layout_is_not_0_16_28 :
  exists defined cg',
    mapM define_uniform abc codegen_spirv_new = Some (defined, cg')
    /\ map (fun d => uniform_offset d.2) defined = [0; 16; 32]
    /\ map (fun d => uniform_offset d.2) defined <> [0; 16; 28]
    /\ _global_ubo_offset cg' = 36
    /\ _global_ubo_offset cg' <> 32.
Proof.
  eexists _, _. split; [vm_compute; reflexivity|].
  repeat split; vm_compute; congruence.
Qed.

(** C1, amended.  For [float a; float3 b; float c], defined in this order
    on a generator whose block is still empty, the member offsets are 0,
    16 and 32 and the running offset of the block ends at 36: the size of
    a uniform is [4 * (rows == 3 ? 4 : rows) * cols * max(1,
    array_length)], its offset is [align(current, size)], and the running
    offset advances to offset + size. *)
Theorem define_uniform_layout (a b c : uniform_info) (cg : codegen)
    (Ha : has_shape a 1 1 0) (Hb : has_shape b 3 1 0) (Hc : has_shape c 1 1 0)
    (Hempty : _global_ubo_offset cg = 0) :
  exists defined cg',
    mapM define_uniform [a; b; c] cg = Some (defined, cg')
    /\ map (fun d => uniform_offset d.2) defined = [0; 16; 32]
    /\ map (fun d => uniform_byte_size (uniform_type d.2)) defined = [4; 16; 4]
    /\ _global_ubo_offset cg' = 36.
Proof.
  destruct Ha as (Ha1 & Ha2 & Ha3), Hb as (Hb1 & Hb2 & Hb3), Hc as (Hc1 & Hc2 & Hc3).
  assert (Hsa : uniform_byte_size (uniform_type a) = 4)
    by (unfold uniform_byte_size; rewrite Ha1, Ha2, Ha3; reflexivity).
  assert (Hsb : uniform_byte_size (uniform_type b) = 16)
    by (unfold uniform_byte_size; rewrite Hb1, Hb2, Hb3; reflexivity).
  assert (Hsc : uniform_byte_size (uniform_type c) = 4)
    by (unfold uniform_byte_size; rewrite Hc1, Hc2, Hc3; reflexivity).
  destruct (define_uniform_offset a cg) as (va & a' & cg1 & Hda & Hoa & Hna & Hta & _);
    [lia|].
  destruct (define_uniform_offset b cg1) as (vb & b' & cg2 & Hdb & Hob & Hnb & Htb & _);
    [lia|].
  destruct (define_uniform_offset c cg2) as (vc & c' & cg3 & Hdc & Hoc & Hnc & Htc & _);
    [lia|].
  rewrite Hempty, Hsa in Hoa. rewrite Hsa, Hoa in Hna.
  rewrite Hna, Hsb in Hob. rewrite Hsb, Hob in Hnb.
  rewrite Hnb, Hsc in Hoc. rewrite Hsc, Hoc in Hnc.
  exists [(va, a'); (vb, b'); (vc, c')], cg3.
  split.
  { cbn [mapM]. unfold bind at 1. rewrite Hda.
    unfold bind at 1. unfold bind at 1. rewrite Hdb.
    unfold bind at 1. unfold bind at 1. rewrite Hdc. reflexivity. }
  split; [cbn; rewrite Hoa, Hob, Hoc; reflexivity|].
  split; [|exact Hnc].
  cbn. rewrite Hta, Htb, Htc, Hsa, Hsb, Hsc. reflexivity.
Qed.

Lemma define_uniform_layout_witness :
  exists defined cg',
    mapM define_uniform abc codegen_spirv_new = Some (defined, cg')
    /\ map (fun d => uniform_offset d.2) defined = [0; 16; 32]
    /\ map (fun d => uniform_byte_size (uniform_type d.2)) defined = [4; 16; 4]
    /\ _global_ubo_offset cg' = 36.
Proof.
  apply (define_uniform_layout (float_uniform "a" 1 1) (float_uniform "b" 3 1)
           (float_uniform "c" 1 1) codegen_spirv_new);
    repeat split; reflexivity.
Defined.

(** *** Runs of the generator *)
Lemma bind_Some {A B} (m : Gen A) (k : A -> Gen B) cg r :
  bind m k cg = Some r <-> exists a cg1, m cg = Some (a, cg1) /\ k a cg1 = Some r.
Proof.
  unfold bind. split.
  - destruct (m cg) as [[a cg1]|]; [|discriminate]. eauto.
  - intros (a & cg1 & -> & Hk). exact Hk.
Qed.

Lemma grows_refl P cg : grows P cg cg.
Proof. exists []. rewrite app_nil_r. split; [reflexivity|constructor]. Qed.

Lemma grows_trans P cg1 cg2 cg3 :
  grows P cg1 cg2 -> grows P cg2 cg3 -> grows P cg1 cg3.
Proof.
  intros (n1 & H1 & F1) (n2 & H2 & F2). exists (n1 ++ n2).
  rewrite H2, H1, app_assoc. split; [reflexivity|]. apply Forall_app; auto.
Qed.

Lemma grows_weaken (P Q : fx.type * constant * Z -> Prop) cg cg' :
  (forall x, P x -> Q x) -> grows P cg cg' -> grows Q cg cg'.
Proof.
  intros HPQ (new & Hnew & Hall). exists new. split; [assumption|].
  eapply Forall_impl; eassumption.
Qed.

Lemma grows_same P cg cg' :
  _constant_lookup cg' = _constant_lookup cg -> grows P cg cg'.
Proof. intros H. exists []. rewrite app_nil_r. split; [assumption|constructor]. Qed.

Lemma grows_nothing cg cg' :
  grows (fun _ => False) cg cg' -> _constant_lookup cg' = _constant_lookup cg.
Proof.
  intros ([|x new] & Hnew & Hall); [rewrite app_nil_r in Hnew; assumption|].
  apply Forall_cons in Hall as [[] _].
Qed.

Lemma mapM_grows {A B} P (f : A -> Gen B) l :
  (forall a cg b cg', f a cg = Some (b, cg') -> grows P cg cg') ->
  forall cg bs cg', mapM f l cg = Some (bs, cg') -> grows P cg cg'.
Proof.
  intros Hf. induction l as [|a l IH]; intros cg bs cg' H; cbn in H.
  - unfold ret in H. simplify_eq. apply grows_refl.
  - apply bind_Some in H as (b & cg1 & Hb & H).
    apply bind_Some in H as (bs' & cg2 & Hbs & H).
    unfold ret in H. simplify_eq.
    eapply grows_trans; [eapply Hf|eapply IH]; eassumption.
Qed.

Lemma add_instruction_types o t ops cg :
  add_instruction o t blk_types_and_constants ops cg
  = Some (_next_id cg,
          set_types_and_constants
            (_types_and_constants cg ++ [Ins o t (_next_id cg) ops])
            (set_next_id (_next_id cg + 1) cg)).
Proof. reflexivity. Qed.

Lemma type_eqb_refl t : type_eqb t t = true.
Proof.
  unfold type_eqb.
  rewrite !Z.eqb_refl, !eqb_reflx, bool_decide_eq_true_2 by reflexivity.
  destruct (is_struct t); reflexivity.
Qed.

Lemma type_eqb_rank a b : type_eqb a b = true -> rank a = rank b.
Proof.
  unfold type_eqb. rewrite !andb_true_iff, !Z.eqb_eq.
  intros (((((((_ & Hr) & Hc) & Hn) & _) & _) & _) & _).
  unfold rank, is_array, is_matrix, is_vector. rewrite Hr, Hc, Hn. reflexivity.
Qed.

Lemma lanes_eqb_refl d : lanes_eqb d d = true.
Proof. unfold lanes_eqb. apply forallb_forall. intros i _. apply Z.eqb_refl. Qed.

Lemma elements_eqb_refl l : elements_eqb l l = true.
Proof.
  induction l as [|x l IH]; cbn [elements_eqb]; [reflexivity|].
  rewrite lanes_eqb_refl. exact IH.
Qed.

Lemma constant_lookup_match_refl t d id : constant_lookup_match t d (t, d, id) = true.
Proof.
  unfold constant_lookup_match. cbn [fst snd].
  rewrite type_eqb_refl, lanes_eqb_refl, Nat.eqb_refl, elements_eqb_refl. reflexivity.
Qed.







(** *** Termination in release builds *)
Lemma returns_bind {A B} (m : Gen A) (k : A -> Gen B) :
  returns m -> (forall a, returns (k a)) -> returns (bind m k).
Proof.
  intros Hm Hk cg. destruct (Hm cg) as [[a cg1] H1]. unfold bind. rewrite H1. apply Hk.
Qed.

Lemma returns_ret {A} (a : A) : returns (ret a).
Proof. intros cg. eexists. reflexivity. Qed.

Lemma returns_gets {A} (f : codegen -> A) : returns (gets f).
Proof. intros cg. eexists. reflexivity. Qed.

Lemma returns_modify f : returns (modify f).
Proof. intros cg. eexists. reflexivity. Qed.

Lemma returns_assert b : returns (assert_ true b).
Proof. intros cg. eexists. reflexivity. Qed.

Lemma returns_add_instruction o t ops :
  returns (add_instruction o t blk_types_and_constants ops).
Proof. intros cg. eexists. reflexivity. Qed.

Lemma returns_mapM {A B} (f : A -> Gen B) l :
  (forall a, a ∈ l -> returns (f a)) -> returns (mapM f l).
Proof.
  induction l as [|a l IH]; intros Hf; cbn [mapM]; [apply returns_ret|].
  apply returns_bind; [apply Hf; left|]. intros b.
  apply returns_bind; [apply IH; intros x Hx; apply Hf; right; exact Hx|].
  intros bs. apply returns_ret.
Qed.

Ltac returns_step :=
  first
    [ apply returns_ret | apply returns_gets | apply returns_modify
    | apply returns_assert | apply returns_add_instruction
    | apply returns_bind; [|intros ?]
    | apply returns_mapM; intros ? ?
    | match goal with
      | |- returns (if ?b then _ else _) => destruct b eqn:?
      | |- returns (match ?x with _ => _ end) => destruct x eqn:?
      end ].

Ltac level_arith :=
  unfold clevel, well_sized, is_array, is_matrix, is_vector in *;
  cbn [base rows cols is_ptr array_length with_rows_cols with_array_length
       without_pointer type3] in *;
  repeat match goal with
    | H : ?b = true |- context [if ?b then _ else _] => rewrite H
    | H : ?b = false |- context [if ?b then _ else _] => rewrite H
    | H : ?b = true, H' : context [if ?b then _ else _] |- _ => rewrite H in H'
    | H : ?b = false, H' : context [if ?b then _ else _] |- _ => rewrite H in H'
    end;
  repeat match goal with
    | |- context [if ?b then _ else _] => destruct b eqn:?
    | H : context [if ?b then _ else _] |- _ => destruct b eqn:?
    | |- context [match ?b with _ => _ end] => destruct b eqn:?
    | H : context [match ?b with _ => _ end] |- _ => destruct b eqn:?
    end;
  rewrite ?negb_true_iff, ?negb_false_iff, ?andb_true_iff, ?andb_false_iff,
    ?orb_false_iff, ?orb_true_iff, ?Z.eqb_eq, ?Z.eqb_neq, ?Z.ltb_lt, ?Z.ltb_ge, ?Z.leb_le, ?Z.leb_gt
    in *;
  try congruence; try lia; try nia.

Lemma generator_returns fuel :
  (forall info, (clevel info <= fuel)%nat -> returns (convert_type true fuel info))
  /\ (forall t d, well_sized t -> (S (clevel t) <= fuel)%nat ->
                  returns (emit_constant true fuel t d)).
Proof.
  induction fuel as [|fuel [IHc IHe]].
  - split; [intros info Hl|intros t d _ Hl; lia].
    exfalso. unfold clevel in Hl. destruct (base info); lia.
  - split.
    + intros info Hl. cbn [convert_type]. repeat returns_step.
      all: try (apply IHc; level_arith; fail).
      apply IHe; [repeat split; cbn; lia|level_arith].
    + intros t d Hs Hl. cbn [emit_constant]. repeat returns_step.
      all: try (apply IHc; level_arith; fail).
      all: try (apply IHe; [level_arith|level_arith]; fail).
      all: exfalso; level_arith.
Qed.

(** In a release build [emit_constant] returns for every type of these
    sizes once the fuel covers the depth of the calls. *)
Lemma emit_constant_returns fuel t d cg :
  (9 <= fuel)%nat -> well_sized t ->
  exists id cg', emit_constant true fuel t d cg = Some (id, cg').
Proof.
  intros Hfuel Hs.
  destruct (proj2 (generator_returns fuel) t d Hs) with (cg := cg) as [[id cg'] H].
  - unfold clevel.
    destruct (base t), (is_ptr t), (is_array t), (is_matrix t), (is_vector t); lia.
  - exists id, cg'. exact H.
Qed.















Section Generator_facts.
Variable NDEBUG : bool.
Variable reallocates : nat -> bool.

Lemma assert_Some b cg r : assert_ NDEBUG b cg = Some r -> r = (tt, cg).
Proof.
  unfold assert_. destruct (NDEBUG || b); unfold ret, fail; congruence.
Qed.

(** Takes a run of the generator apart into the runs of its steps. *)
Ltac gen_inv :=
  repeat match goal with
    | H : bind _ _ _ = Some _ |- _ =>
        let a := fresh "a" in
        let cg := fresh "cg" in
        let Hm := fresh "Hm" in
        apply bind_Some in H; destruct H as (a & cg & Hm & H)
    | H : ret _ _ = Some _ |- _ => unfold ret in H; simplify_eq
    | H : gets _ _ = Some _ |- _ => unfold gets in H; simplify_eq
    | H : modify _ _ = Some _ |- _ => unfold modify in H; simplify_eq
    | H : fail _ = Some _ |- _ => discriminate H
    | H : assert_ _ _ _ = Some _ |- _ => apply assert_Some in H; simplify_eq
    | H : add_instruction _ _ blk_types_and_constants _ _ = Some _ |- _ =>
        rewrite add_instruction_types in H; simplify_eq
    | H : (if ?b then _ else _) _ = Some _ |- _ => destruct b eqn:?
    | H : match ?x with _ => _ end _ = Some _ |- _ => destruct x eqn:?
    end.

(** *** The table of constants *)
Lemma interned_grows t d id cg cg' :
  interned t d id cg cg' -> grows (rank_le t) cg cg'.
Proof.
  intros [[-> _] | (_ & inner & Hnew & Hinner)]; [apply grows_refl|].
  exists (inner ++ [(t, d, id)]). split; [assumption|].
  apply Forall_app. split.
  - eapply Forall_impl; [eassumption|]. unfold rank_le. intros x Hx. lia.
  - repeat constructor.
Qed.

Lemma interned_miss t d id cg cgN cg' :
  List.find (constant_lookup_match t d) (_constant_lookup cg) = None ->
  grows (rank_lt t) cg cgN ->
  _constant_lookup cg' = _constant_lookup cgN ++ [(t, d, id)] ->
  interned t d id cg cg'.
Proof.
  intros Hmiss (inner & Hinner & Hall) Hlast. right. split; [assumption|].
  exists inner. rewrite Hlast, Hinner, app_assoc. split; [reflexivity|assumption].
Qed.

Lemma grows_lt_of_le t et cg cg' :
  (rank et < rank t)%nat -> grows (rank_le et) cg cg' -> grows (rank_lt t) cg cg'.
Proof.
  intros Hlt. apply grows_weaken. unfold rank_le, rank_lt. intros x Hx. lia.
Qed.

Lemma grows_lt_of_scalar t cg cg' :
  (0 < rank t)%nat -> grows scalar_rank cg cg' -> grows (rank_lt t) cg cg'.
Proof.
  intros Hlt. apply grows_weaken. unfold scalar_rank, rank_lt. intros x Hx. lia.
Qed.

Lemma not_array_length t : is_array t = false -> array_length t = 0.
Proof. unfold is_array. intros H. apply negb_false_iff, Z.eqb_eq in H. exact H. Qed.

Lemma rank_array t : is_array t = true -> rank t = 3%nat.
Proof. unfold rank. intros ->. reflexivity. Qed.

Lemma rank_array_elem t :
  is_array t = true -> (rank (with_array_length t 0) < rank t)%nat.
Proof.
  intros H. rewrite (rank_array t H). unfold rank, is_array. cbn.
  repeat match goal with
         | |- context [if ?b then _ else _] => destruct b
         end; lia.
Qed.

Lemma rank_matrix_row t :
  is_array t = false -> is_matrix t = true ->
  (rank (with_rows_cols t (cols t) 1) < rank t)%nat.
Proof.
  intros Ha Hm. unfold rank. rewrite Ha, Hm.
  unfold is_array in *. unfold is_matrix, is_vector. cbn. rewrite Ha.
  rewrite andb_false_r.
  repeat match goal with
         | |- context [if ?b then _ else _] => destruct b
         end; lia.
Qed.

Lemma rank_vector_scalar t :
  is_array t = false -> is_matrix t = false -> is_vector t = true ->
  (rank (with_rows_cols t 1 (cols t)) < rank t)%nat.
Proof.
  intros Ha Hm Hv. unfold rank. rewrite Ha, Hm, Hv.
  unfold is_array in *. unfold is_vector in Hv. unfold is_matrix, is_vector. cbn.
  rewrite Ha. apply andb_prop in Hv as [_ Hc]. apply Z.eqb_eq in Hc. rewrite Hc.
  cbn. lia.
Qed.

Ltac grows_fold :=
  unfold grows;
  cbn [_constant_lookup set_type_lookup set_types_and_constants set_next_id
       set_constant_lookup];
  match goal with
  | |- exists new, _constant_lookup ?c' = _constant_lookup ?c ++ new /\ Forall ?P new =>
      change (grows P c c')
  end.

Lemma lookup_constants fuel :
  (forall info cg id cg',
      convert_type NDEBUG fuel info cg = Some (id, cg') ->
      grows scalar_rank cg cg'
      /\ (array_length info = 0 -> _constant_lookup cg' = _constant_lookup cg))
  /\ (forall t d cg id cg',
      emit_constant NDEBUG fuel t d cg = Some (id, cg') -> interned t d id cg cg').
Proof.
  induction fuel as [|fuel [IHc IHe]]; [split; intros; discriminate|].
  assert (IHs : forall d cg id cg',
             emit_constant NDEBUG fuel (type3 t_uint 1 1) d cg = Some (id, cg') ->
             grows scalar_rank cg cg').
  { intros d cg id cg' H. apply IHe, interned_grows in H.
    eapply grows_weaken; [|exact H]. unfold rank_le, scalar_rank. cbn. lia. }
  split.
  - intros info cg id cg' H. cbn [convert_type] in H.
    gen_inv;
      repeat match goal with
        | H : convert_type _ _ _ _ = Some _ |- _ =>
            let G := fresh "G" in
            let E := fresh "E" in
            destruct (IHc _ _ _ _ H) as [G E]; clear H;
            cbn [array_length without_pointer with_array_length with_rows_cols
                 type3] in E;
            try specialize (E eq_refl)
        | H : emit_constant _ _ _ _ _ = Some _ |- _ => apply IHs in H
        end;
      (split;
       [ first [ apply grows_refl
               | grows_fold; eauto using grows_refl, grows_trans ]
       | intros Hlen;
         cbn [_constant_lookup set_type_lookup set_types_and_constants
              set_next_id set_constant_lookup];
         repeat match goal with
           | E : array_length info = 0 -> _ |- _ => specialize (E Hlen)
           end;
         try congruence;
         exfalso;
         match goal with
         | H : is_array info = true |- _ =>
             unfold is_array in H; rewrite Hlen in H; discriminate H
         end ]).
  - intros t d cg id cg' H. cbn [emit_constant] in H.
    gen_inv;
      [ left; split; [reflexivity|]; eexists; split; [eassumption|reflexivity]
      | .. ];
      (eapply interned_miss;
       [ eassumption
       |
       | cbn [_constant_lookup set_type_lookup set_types_and_constants
              set_next_id set_constant_lookup]; reflexivity ]);
      repeat match goal with
        | H : convert_type _ _ _ _ = Some _ |- _ =>
            let G := fresh "G" in
            let E := fresh "E" in
            destruct (IHc _ _ _ _ H) as [G E]; clear H;
            first [ apply (grows_lt_of_scalar t) in G;
                    [clear E | rewrite rank_array by assumption; lia]
                  | clear G;
                    apply (grows_same (rank_lt t)) in E;
                    [| apply not_array_length; assumption] ]
        | H : mapM _ _ _ = Some _ |- _ =>
            eapply mapM_grows in H;
            [| intros ? ? ? ? Hcall; cbn beta in Hcall;
               eapply interned_grows, IHe; exact Hcall ];
            apply (grows_lt_of_le t) in H;
            [| first [ apply rank_array_elem
                     | apply rank_matrix_row
                     | apply rank_vector_scalar ]; assumption ]
        end;
      eauto using grows_refl, grows_trans.
Qed.

Lemma find_app {A} (p : A -> bool) l1 l2 :
  List.find p (l1 ++ l2)
  = match List.find p l1 with
    | Some x => Some x
    | None => List.find p l2
    end.
Proof.
  induction l1 as [|x l1 IH]; cbn; [reflexivity|]. destruct (p x); auto.
Qed.

Lemma find_none {A} (p : A -> bool) l :
  Forall (fun x => p x = false) l -> List.find p l = None.
Proof. induction 1 as [|x l Hx _ IH]; cbn; [reflexivity|]. rewrite Hx. exact IH. Qed.

Lemma lower_rank_no_match t d x :
  (rank x.1.1 < rank t)%nat -> constant_lookup_match t d x = false.
Proof.
  intros Hlt. unfold constant_lookup_match.
  destruct (type_eqb x.1.1 t) eqn:Heq; [|reflexivity].
  apply type_eqb_rank in Heq. lia.
Qed.

Lemma assert_state b cg cg' r :
  assert_ NDEBUG b cg = Some r -> assert_ NDEBUG b cg' = Some (tt, cg').
Proof. unfold assert_. destruct (NDEBUG || b); [reflexivity|discriminate]. Qed.

Lemma lanes_eqb_spec a b :
  lanes_eqb a b = true <-> forall i, (i < 16)%nat -> lane a i = lane b i.
Proof.
  unfold lanes_eqb. rewrite forallb_forall. split.
  - intros H i Hi. apply Z.eqb_eq, H, in_seq. lia.
  - intros H i Hi. apply Z.eqb_eq, H. apply in_seq in Hi. lia.
Qed.

Lemma elements_eqb_spec xs ds :
  length xs = length ds ->
  elements_eqb xs ds = true
  <-> Forall2 (fun x d => forall i, (i < 16)%nat -> lane x i = lane d i) xs ds.
Proof.
  revert ds. induction xs as [|x xs IH]; intros [|d ds] Hlen; try discriminate.
  - split; [constructor|reflexivity].
  - cbn [elements_eqb]. rewrite andb_true_iff, lanes_eqb_spec, IH by (cbn in Hlen; lia).
    split.
    + intros [Hx Hxs]. constructor; assumption.
    + intros H. apply Forall2_cons_1 in H. exact H.
Qed.

(** The [find_if] predicate of [emit_constant] holds of the stored
    constants that stand for [(t, d)]. *)
Lemma constant_lookup_match_spec t d x :
  constant_lookup_match t d x = true <-> same_constant t d x.
Proof.
  unfold constant_lookup_match, same_constant.
  rewrite !andb_true_iff. split.
  - intros [[[Ht Hl] Hn] He]. apply Nat.eqb_eq in Hn.
    split; [assumption|]. split; [apply lanes_eqb_spec; assumption|].
    apply elements_eqb_spec; assumption.
  - intros (Ht & Hl & He).
    pose proof (Forall2_length _ _ _ He) as Hn.
    repeat split; [assumption|apply lanes_eqb_spec; assumption
                  |apply Nat.eqb_eq; assumption
                  |apply elements_eqb_spec; assumption].
Qed.

Lemma no_constant_found t d l :
  Forall (fun y => ~ same_constant t d y) l ->
  List.find (constant_lookup_match t d) l = None.
Proof.
  intros Hl. apply find_none. eapply Forall_impl; [exact Hl|].
  intros y Hy. destruct (constant_lookup_match t d y) eqn:Hm; [|reflexivity].
  exfalso. apply Hy, constant_lookup_match_spec, Hm.
Qed.

Lemma first_constant_found t d before x after :
  Forall (fun y => ~ same_constant t d y) before ->
  same_constant t d x ->
  List.find (constant_lookup_match t d) (before ++ x :: after) = Some x.
Proof.
  intros Hbefore Hx. rewrite find_app, (no_constant_found _ _ _ Hbefore).
  cbn [List.find]. rewrite (proj2 (constant_lookup_match_spec t d x) Hx). reflexivity.
Qed.

(** C7, amended.  Whenever [emit_constant] returns for [(t, d)], as it does
    in a release build for every type with at most four rows and columns
    and an array length that is not negative, a second call returns the
    same id and leaves the generator as it is.  A stored constant is
    reused for [(t, d)] exactly when the types are equal, the sixteen
    lanes are identical, and the array elements are as many and have
    identical lanes: when the table of constants holds such an entry,
    [emit_constant] returns the id of the first one and leaves the
    generator as it is, and when it holds none, [emit_constant] stores
    [(t, d)] with the id it returns at the end of the table, after the
    constants it is made of.  What lies below the elements is not
    compared. *)
Theorem emit_constant_interning (fuel : nat) (t : fx.type) (d : constant)
    (cg : codegen)
    (Hreturns : (NDEBUG = true /\ (9 <= fuel)%nat /\ well_sized t)
                \/ exists r, emit_constant NDEBUG fuel t d cg = Some r) :
  exists id cg',
    emit_constant NDEBUG fuel t d cg = Some (id, cg')
    /\ emit_constant NDEBUG fuel t d cg' = Some (id, cg')
    /\ (forall before x after,
          _constant_lookup cg = before ++ x :: after ->
          Forall (fun y => ~ same_constant t d y) before ->
          same_constant t d x ->
          cg' = cg /\ id = x.2)
    /\ (Forall (fun y => ~ same_constant t d y) (_constant_lookup cg) ->
        exists inner,
          _constant_lookup cg' = _constant_lookup cg ++ inner ++ [(t, d, id)]
          /\ Forall (fun y => (rank y.1.1 < rank t)%nat) inner).
Proof.
  assert (Hfirst : exists id cg', emit_constant NDEBUG fuel t d cg = Some (id, cg')).
  { destruct Hreturns as [(Hrelease & Hfuel & Hsized) | [[id cg'] Hr]].
    - rewrite Hrelease. apply emit_constant_returns; assumption.
    - exists id, cg'. exact Hr. }
  destruct Hfirst as (id & cg' & Hfirst). exists id, cg'.
  split; [exact Hfirst|].
  pose proof (proj2 (lookup_constants fuel) t d cg id cg' Hfirst) as Hinterned.
  split; [|split].
  - destruct Hinterned as [[-> _] | (Hmiss & inner & Hnew & Hinner)]; [exact Hfirst|].
    destruct fuel as [|fuel']; [discriminate|].
    cbn [emit_constant] in Hfirst |- *.
    apply bind_Some in Hfirst as (u & cg1 & Hassert & _).
    unfold bind at 1. rewrite (assert_state _ _ cg' _ Hassert).
    unfold bind at 1. unfold gets.
    rewrite Hnew, find_app, Hmiss, find_app, find_none.
    + cbn [List.find]. rewrite constant_lookup_match_refl. reflexivity.
    + eapply Forall_impl; [exact Hinner|]. intros x. apply lower_rank_no_match.
  - intros before x after Htable Hbefore Hx.
    pose proof (first_constant_found t d before x after Hbefore Hx) as Hfound.
    rewrite <- Htable in Hfound.
    destruct Hinterned as [(-> & it & Hit & <-) | (Hmiss & _)]; [|congruence].
    split; [reflexivity|]. congruence.
  - intros Hnone. apply no_constant_found in Hnone.
    destruct Hinterned as [(_ & it & Hit & _) | (_ & inner & Hnew & Hinner)];
      [congruence|].
    exists inner. split; [exact Hnew|exact Hinner].
Qed.


Lemma value_types_interned_trans cg1 cg2 cg3 :
  value_types_interned cg1 cg2 -> value_types_interned cg2 cg3 ->
  value_types_interned cg1 cg3.
Proof.
  intros (n1 & H1 & F1) (n2 & H2 & F2). exists (n1 ++ n2).
  rewrite H2, H1, app_assoc. split; [reflexivity|]. apply Forall_app; auto.
Qed.

Lemma value_types_interned_push cg1 cg2 cg3 info id :
  value_types_interned cg1 cg2 ->
  is_ptr info = false ->
  _type_lookup cg3 = _type_lookup cg2 ++ [(info, id)] ->
  value_types_interned cg1 cg3.
Proof.
  intros H12 Hptr H3. eapply value_types_interned_trans; [exact H12|].
  exists [(info, id)]. split; [assumption|]. repeat constructor. assumption.
Qed.

Lemma value_types_interned_same cg1 cg2 cg3 :
  value_types_interned cg1 cg2 ->
  _type_lookup cg3 = _type_lookup cg2 ->
  value_types_interned cg1 cg3.
Proof.
  intros H12 H3. eapply value_types_interned_trans; [exact H12|].
  exists []. rewrite app_nil_r. split; [assumption|constructor].
Qed.


















Lemma alloc_set_structs n l cg : allocated_at n cg -> allocated_at n (set_structs l cg).
Proof. intros H. exact H. Qed.







Lemma ins_below_add n ins operand : ins_below n ins -> ins_below n (add ins operand).
Proof. intros H. exact H. Qed.








(** *** The words [write_result] writes *)
Lemma write_words_app ops s : fold_left write_word ops s = s ++ ops.
Proof.
  revert s. induction ops as [|o ops IH]; intros s; cbn [fold_left].
  - rewrite app_nil_r. reflexivity.
  - rewrite IH. unfold write_word. rewrite <- app_assoc. reflexivity.
Qed.



















Variable spv_Version : Z.


End Generator_facts.

(** C7, as stated, fails: the constant of a matrix with one row takes the
    id of its row vector, so two constants of different types share an
    id. *)
Lemma one_row_matrix_shares_the_id_of_its_row :
  exists m cg1 v cg2,
    emit_constant false 8 float1x3 one_two_three codegen_spirv_new = Some (m, cg1)
    /\ emit_constant false 8 float3 one_two_three cg1 = Some (v, cg2)
    /\ m = v
    /\ type_eqb float1x3 float3 = false.
Proof.
  eexists _, _, _, _.
  split; [vm_compute; reflexivity|].
  split; [vm_compute; reflexivity|].
  split; reflexivity.
Qed.

Lemma emit_constant_interning_witness :
  exists id cg',
    emit_constant true 9 float3 one_two_three codegen_spirv_new = Some (id, cg')
    /\ emit_constant true 9 float3 one_two_three cg' = Some (id, cg').
Proof.
  destruct (emit_constant_interning true 9 float3 one_two_three codegen_spirv_new)
    as (id & cg' & Hfirst & Hsecond & _).
  - left. split; [reflexivity|]. split; [lia|]. repeat split; cbn; lia.
  - exists id, cg'. split; [exact Hfirst|exact Hsecond].
Defined.


(** On the generator with the uniform [float a] alone the type [float]
    is added after the [OpTypeStruct] that [define_struct] holds a
    reference to: with a vector that moves as it grows the behaviour of
    [write_result] is undefined, with one that does not the module is
    written. *)
Lemma uniform_alone_dangles :
  write_result true always_moves sample_version 8 empty_module uniform_alone = None
  /\ is_Some (write_result true never_moves sample_version 8 empty_module
                uniform_alone).
Proof. split; [vm_compute; reflexivity|]. vm_compute. eexists. reflexivity. Qed.

End spirv_spec.

(** ** The D3D11 effect linker *)

Module d3d11_spec.
Import fx d3d11.

(** *** Textures declared again *)
Lemma same_dimensions_test existing info :
  negb (width existing =? texture_width info)
  || negb (height existing =? texture_height info)
  || negb (levels existing =? texture_levels info)
  || negb (bool_decide (format existing = texture_format_of info)) = false
  <-> same_dimensions existing info.
Proof.
  unfold same_dimensions.
  rewrite !orb_false_iff, !negb_false_iff, !Z.eqb_eq, bool_decide_eq_true.
  tauto.
Qed.

(** C4, as stated, fails for a texture declared with a semantic: the call
    returns before the dimensions are compared, so a redeclaration with
    another width reports no error. *)
Lemma visit_texture_redeclared_with_semantic_silent :
  exists index existing,
    find_texture (_runtime registered_twice) "t" = Some (index, existing)
    /\ width existing <> texture_width (tex_info "t" "COLOR" 8 4)
    /\ _success (visit_texture (tex_info "t" "COLOR" 8 4) registered_twice) = true
    /\ _errors (visit_texture (tex_info "t" "COLOR" 8 4) registered_twice) = "".
Proof.
  eexists _, _. split; [vm_compute; reflexivity|].
  split; [vm_compute; discriminate|].
  split; vm_compute; reflexivity.
Qed.

(** C4, amended.  When the unique name already names a registered texture,
    [visit_texture] adds no texture.  It returns the compiler unchanged when
    width, height, levels and format match, and also when the declaration
    carries a semantic; it reports the mismatch with [error], which clears
    the success flag, only for a declaration without semantic of which one
    of the four differs. *)
Theorem visit_texture_redeclared (info : texture_info) (c : compiler)
    (index : nat) (existing : texture)
    (Hfound : find_texture (_runtime c) (texture_unique_name info)
              = Some (index, existing)) :
  (same_dimensions existing info -> visit_texture info c = c)
  /\ (texture_semantic info <> "" -> visit_texture info c = c)
  /\ (texture_semantic info = "" -> ~ same_dimensions existing info ->
      visit_texture info c = error (redeclared_message existing) c
      /\ _success (visit_texture info c) = false)
  /\ _textures (_runtime (visit_texture info c)) = _textures (_runtime c).
Proof.
  pose proof (same_dimensions_test existing info) as Htest.
  unfold visit_texture. rewrite Hfound. fold (redeclared_message existing).
  destruct (negb (width existing =? texture_width info)
            || negb (height existing =? texture_height info)
            || negb (levels existing =? texture_levels info)
            || negb (bool_decide (format existing = texture_format_of info))).
  - assert (Hnot : ~ same_dimensions existing info).
    { intros Hsame. apply Htest in Hsame. discriminate. }
    rewrite andb_true_r.
    split; [intros Hsame; contradiction|].
    split; [intros Hsem; rewrite bool_decide_eq_false_2 by assumption; reflexivity|].
    split.
    + intros Hsem _. rewrite bool_decide_eq_true_2 by assumption.
      split; reflexivity.
    + case_bool_decide; reflexivity.
  - rewrite andb_false_r.
    assert (Hsame : same_dimensions existing info) by (apply Htest; reflexivity).
    split; [reflexivity|]. split; [reflexivity|].
    split; [intros _ Hnot; contradiction | reflexivity].
Qed.

Lemma visit_texture_redeclared_witness :
  visit_texture (tex_info "t" "" 4 4) registered_twice = registered_twice.
Proof.
  refine (proj1 (visit_texture_redeclared (tex_info "t" "" 4 4) registered_twice
                   0%nat _ _) _).
  - vm_compute. reflexivity.
  - vm_compute. repeat split; reflexivity.
Defined.

(** *** Samplers on unregistered textures *)
(** C9.  [visit_sampler] on a texture name that is not registered returns
    the compiler as it was: no sampler state is created, no binding slot is
    written, no error or warning is reported. *)
Theorem visit_sampler_unregistered_texture (SIZE_BITS : Z) (info : sampler_info)
    (c : compiler)
    (Hmissing : find_texture (_runtime c) (sampler_texture_name info) = None) :
  visit_sampler SIZE_BITS info c = Some c.
Proof. unfold visit_sampler. rewrite Hmissing. reflexivity. Qed.

Lemma visit_sampler_unregistered_texture_witness :
  visit_sampler 64 (smp_info "missing" 0 false) (fresh_compiler [])
  = Some (fresh_compiler []).
Proof.
  apply (visit_sampler_unregistered_texture 64 (smp_info "missing" 0 false)
           (fresh_compiler [])).
  vm_compute. reflexivity.
Defined.

(** *** The key of a sampler state *)
Lemma desc_bytes_length desc : length (desc_bytes desc) = sizeof_desc.
Proof. reflexivity. Qed.

Lemma desc_hash_loop_fold bits bytes n i h :
  (i + n <= length bytes)%nat ->
  desc_hash_loop bits n i h bytes
  = fold_left (fun h b => Z.lxor ((h * 16777619) mod 2 ^ bits) b)
      (take n (drop i bytes)) h.
Proof.
  revert i h. induction n as [|n IH]; intros i h Hlen; [reflexivity|].
  destruct (lookup_lt_is_Some_2 bytes i) as [b Hb]; [lia|].
  rewrite (drop_S _ _ _ Hb). cbn [desc_hash_loop take fold_left].
  rewrite (nth_lookup_Some _ _ _ _ Hb). unfold size_t.
  apply IH. lia.
Qed.

Lemma desc_hash_is_fnv1 bits desc :
  desc_hash bits desc = fnv1 bits (desc_bytes desc).
Proof.
  unfold desc_hash, fnv1. rewrite desc_hash_loop_fold.
  - rewrite drop_0, <- (desc_bytes_length desc), firstn_all. reflexivity.
  - rewrite desc_bytes_length. lia.
Qed.

(** C2, as stated, fails: the key of a sampler descriptor is not the 32-bit
    FNV-1a hash of its bytes, neither with a 32-bit nor with a 64-bit
    [size_t]. *)
Lemma desc_hash_is_not_fnv1a :
  let desc := sampler_desc (smp_info "t" 0 false) in
  desc_hash 32 desc <> fnv1a_32 (desc_bytes desc)
  /\ desc_hash 64 desc <> fnv1a_32 (desc_bytes desc)
  /\ u32 (desc_hash 64 desc) <> fnv1a_32 (desc_bytes desc).
Proof. vm_compute. repeat split; discriminate. Qed.

Lemma append_same (s t : string) : s +:+ t = s -> t = "".
Proof.
  induction s as [|x s IH]; [auto|].
  intros H. injection H as H. auto.
Qed.

(** C2, amended.  The interning key of [visit_sampler] is the FNV-1 hash of
    the descriptor bytes (multiply by the prime, then xor the byte) in
    [size_t] arithmetic, and two samplers with byte-identical descriptors
    are bound to one sampler-state object once the visit of the first has
    reported no error, whatever was reported before it: the second visit
    creates nothing. *)
Theorem visit_sampler_interning (SIZE_BITS : Z) (a b : sampler_info)
    (c c1 c2 : compiler) (ta tb : nat * texture)
    (Hbytes : desc_bytes (sampler_desc a) = desc_bytes (sampler_desc b))
    (Hta : find_texture (_runtime c) (sampler_texture_name a) = Some ta)
    (Htb : find_texture (_runtime c) (sampler_texture_name b) = Some tb)
    (Hfirst : visit_sampler SIZE_BITS a c = Some c1)
    (Hsecond : visit_sampler SIZE_BITS b c1 = Some c2)
    (Hok : _errors c1 = _errors c) :
  desc_hash SIZE_BITS (sampler_desc a) = fnv1 SIZE_BITS (desc_bytes (sampler_desc a))
  /\ exists sampler,
       _effect_sampler_states (_runtime c1) !! desc_hash SIZE_BITS (sampler_desc a)
       = Some sampler
       /\ _sampler_bindings c1 !! Z.to_nat (sampler_binding a) = Some (Some sampler)
       /\ _sampler_bindings c2 !! Z.to_nat (sampler_binding b) = Some (Some sampler)
       /\ _effect_sampler_states (_runtime c2) = _effect_sampler_states (_runtime c1)
       /\ _device (_runtime c2) = _device (_runtime c1).
Proof.
  split; [apply desc_hash_is_fnv1|].
  assert (Hhash : desc_hash SIZE_BITS (sampler_desc b)
                  = desc_hash SIZE_BITS (sampler_desc a)).
  { unfold desc_hash. rewrite Hbytes. reflexivity. }
  destruct ta as [ia ta], tb as [ib tb].
  unfold visit_sampler in Hfirst, Hsecond.
  rewrite Hhash in Hsecond. clear Hhash Hbytes.
  generalize dependent (desc_hash SIZE_BITS (sampler_desc a)). intros h Hfirst Hsecond.
  rewrite Hta in Hfirst.
  assert (Hstep : exists sampler,
             _effect_sampler_states (_runtime c1) !! h = Some sampler
             /\ _sampler_bindings c1 !! Z.to_nat (sampler_binding a)
                = Some (Some sampler)
             /\ _textures (_runtime c1) = _textures (_runtime c)).
  { destruct (_effect_sampler_states (_runtime c) !! h) as [s|] eqn:Hcache.
    - match type of Hfirst with
      | (if ?g then _ else _) = _ => destruct g eqn:Hguard; [|discriminate]
      end.
      injection Hfirst as <-. exists s. cbn [_runtime set_bindings _sampler_bindings].
      split; [assumption|]. split; [|reflexivity].
      apply andb_prop in Hguard as [_ Hslot]. apply bool_decide_eq_true in Hslot.
      apply list_lookup_insert_eq. assumption.
    - unfold create, device_call in Hfirst.
      destruct (FAILED (hd 0 (script (_device (_runtime c))))).
      + injection Hfirst as <-.
        pose proof (append_same (_errors c) _ Hok) as Hempty. discriminate Hempty.
      + match type of Hfirst with
        | (if ?g then _ else _) = _ => destruct g eqn:Hguard; [|discriminate]
        end.
        injection Hfirst as <-. eexists.
        cbn [_runtime set_bindings set_runtime _sampler_bindings
             _effect_sampler_states set_effect_sampler_states _textures set_device].
        split; [apply lookup_insert_eq|]. split; [|reflexivity].
        apply andb_prop in Hguard as [_ Hslot]. apply bool_decide_eq_true in Hslot.
        apply list_lookup_insert_eq. assumption. }
  destruct Hstep as (sampler & Hcached & Hbound & Htextures).
  exists sampler. split; [assumption|]. split; [assumption|].
  unfold find_texture in Hsecond, Htb. rewrite Htextures, Htb, Hcached in Hsecond.
  match type of Hsecond with
  | (if ?g then _ else _) = _ => destruct g eqn:Hguard; [|discriminate]
  end.
  injection Hsecond as <-. cbn [_runtime set_bindings _sampler_bindings].
  split; [|split; reflexivity].
  apply andb_prop in Hguard as [_ Hslot]. apply bool_decide_eq_true in Hslot.
  apply list_lookup_insert_eq. assumption.
Qed.

Lemma visit_sampler_interning_witness :
  exists sampler,
    _effect_sampler_states (_runtime interning_first)
      !! desc_hash 64 (sampler_desc (smp_info "t" 0 false)) = Some sampler
    /\ _sampler_bindings interning_first !! 0%nat = Some (Some sampler)
    /\ _sampler_bindings interning_second !! 1%nat = Some (Some sampler)
    /\ _effect_sampler_states (_runtime interning_second)
       = _effect_sampler_states (_runtime interning_first)
    /\ _device (_runtime interning_second) = _device (_runtime interning_first).
Proof.
  refine (proj2 (visit_sampler_interning 64 (smp_info "t" 0 false)
                   (smp_info "t" 1 true) interning_start interning_first
                   interning_second _ _ _ _ _ _ _ _)).
  - reflexivity.
  - vm_compute. reflexivity.
  - vm_compute. reflexivity.
  - vm_compute. reflexivity.
  - vm_compute. reflexivity.
  - vm_compute. reflexivity.
Defined.

(** *** Failing device calls *)
Lemma create_next c :
  create c
  = (hd 0 (script (_device (_runtime c))), next_object (_device (_runtime c)),
     (create c).2).
Proof. reflexivity. Qed.

(** C3, as stated, fails for sampler states: a failing
    [CreateSamplerState] is reported with [error] and clears the success
    flag. *)
Lemma sampler_state_failure_is_an_error :
  exists t,
    find_texture (_runtime failing_start) "t" = Some t
    /\ FAILED (hd 0 (script (_device (_runtime failing_start)))) = true
    /\ _success failing_start = true
    /\ exists c',
         visit_sampler 64 (smp_info "t" 0 false) failing_start = Some c'
         /\ _success c' = false
         /\ _errors c'
            = _errors failing_start +:+
              "error: 'ID3D11Device::CreateSamplerState' failed with error code 2147500037!"
              +:+ newline.
Proof.
  eexists. split; [vm_compute; reflexivity|].
  split; [vm_compute; reflexivity|]. split; [reflexivity|].
  eexists. split; [vm_compute; reflexivity|].
  split; vm_compute; reflexivity.
Qed.

(** C3, amended.  When the next device call fails: a failing
    render-target-view creation is a warning, and the pass goes on with
    that slot left empty; a failing sampler-state, texture,
    shader-resource-view (the first view or the sRGB view of a texture) or
    shader creation is reported with [error].  [error] clears the success
    flag, [warning] leaves it as it is. *)
Theorem device_failure_reporting (SIZE_BITS : Z)
    (D3DCompile : string -> string -> bool -> HRESULT * option string)
    (c : compiler) (hr : HRESULT)
    (Hnext : hd 0 (script (_device (_runtime c))) = hr)
    (Hfailed : FAILED hr = true) :
  let after := (create c).2 in
  (forall pass_info k pass index texture desc,
      nth k (render_target_names pass_info) "" <> "" ->
      find_texture (_runtime c) (nth k (render_target_names pass_info) "")
      = Some (index, texture) ->
      impl_texture texture = Some desc ->
      viewport_mismatch pass desc = Some false ->
      rtv texture (srgb_write_enable pass_info) = None ->
      bind_render_target pass_info k pass c
      = Continue
          (set_render_target k None (srv texture (srgb_write_enable pass_info))
             (set_viewport (to_FLOAT (desc_Width desc)) (to_FLOAT (desc_Height desc))
                pass))
          (warning (failed_with "ID3D11Device::CreateRenderTargetView" hr) after))
  /\ (forall info t,
      find_texture (_runtime c) (sampler_texture_name info) = Some t ->
      _effect_sampler_states (_runtime c) !! desc_hash SIZE_BITS (sampler_desc info)
      = None ->
      visit_sampler SIZE_BITS info c
      = Some (error (failed_with "ID3D11Device::CreateSamplerState" hr) after))
  /\ (forall info,
      find_texture (_runtime c) (texture_unique_name info) = None ->
      texture_semantic info = "" ->
      visit_texture info c
      = error (failed_with "ID3D11Device::CreateTexture2D" hr) after)
  /\ (forall info before,
      find_texture (_runtime before) (texture_unique_name info) = None ->
      texture_semantic info = "" ->
      FAILED (hd 0 (script (_device (_runtime before)))) = false ->
      (create before).2 = c ->
      visit_texture info before
      = error (failed_with "ID3D11Device::CreateShaderResourceView" hr) after)
  /\ (forall info before,
      find_texture (_runtime before) (texture_unique_name info) = None ->
      texture_semantic info = "" ->
      make_format_srgb (literal_to_format (texture_format_of info))
      <> literal_to_format (texture_format_of info) ->
      FAILED (hd 0 (script (_device (_runtime before)))) = false ->
      FAILED (hd 0 (script (_device (_runtime (create before).2)))) = false ->
      (create (create before).2).2 = c ->
      visit_texture info before
      = error (failed_with "ID3D11Device::CreateShaderResourceView" hr) after)
  /\ (forall hlsl entry_point is_ps hr0 errors,
      D3DCompile hlsl entry_point is_ps = (hr0, errors) ->
      FAILED hr0 = false ->
      exists shaders,
        compile_entry_point D3DCompile hlsl entry_point is_ps c
        = error (failed_with "CreateShader" hr) shaders
        /\ _success shaders = _success c)
  /\ (forall message x,
      _success (error message x) = false
      /\ _success (warning message x) = _success x
      /\ _errors (error message x) = _errors x +:+ "error: " +:+ message +:+ newline
      /\ _errors (warning message x)
         = _errors x +:+ "warning: " +:+ message +:+ newline).
Proof.
  intros after. subst hr.
  split; [|split; [|split; [|split; [|split; [|split]]]]].
  - intros pass_info k pass index texture desc Hname Hfound Hdesc Hview Hrtv.
    unfold bind_render_target.
    rewrite bool_decide_eq_false_2 by assumption.
    rewrite Hfound, Hdesc, Hview, Hrtv, create_next, Hfailed, Hrtv. reflexivity.
  - intros info [index texture] Hfound Hcache.
    unfold visit_sampler. rewrite Hfound, Hcache, create_next, Hfailed. reflexivity.
  - intros info Hfound Hsem.
    unfold visit_texture. rewrite Hfound, Hsem.
    cbn [bool_decide decide_rel negb]. rewrite create_next, Hfailed. reflexivity.
  - intros info before Hfound Hsem Hok Hstate.
    unfold visit_texture. rewrite Hfound, Hsem.
    cbn [bool_decide decide_rel negb]. rewrite (create_next before), Hok, Hstate.
    rewrite create_next, Hfailed. reflexivity.
  - intros info before Hfound Hsem Hsrgb Hok1 Hok2 Hstate.
    unfold visit_texture. rewrite Hfound, Hsem.
    cbn [bool_decide decide_rel negb]. rewrite (create_next before), Hok1.
    rewrite (create_next (create before).2), Hok2.
    rewrite (bool_decide_eq_false_2 _ Hsrgb). cbn [negb].
    rewrite Hstate, create_next, Hfailed. reflexivity.
  - intros hlsl entry_point is_ps hr0 errors Hcompile Hok.
    unfold compile_entry_point. rewrite Hcompile, Hok.
    destruct errors as [text|]; rewrite create_next;
      cbn [append_errors _runtime]; rewrite Hfailed;
      destruct is_ps; eexists; (split; [reflexivity|reflexivity]).
  - intros message x. repeat split.
Qed.

Lemma device_failure_reporting_witness :
  visit_sampler 64 (smp_info "t" 0 false) failing_start
  = Some (error (failed_with "ID3D11Device::CreateSamplerState" (-2147467259))
            (create failing_start).2).
Proof.
  refine (proj1 (proj2 (device_failure_reporting 64 (fun _ _ _ => (0, None))
                          failing_start (-2147467259) _ _))
            (smp_info "t" 0 false) (0%nat, _) _ _);
    vm_compute; reflexivity.
Defined.

(** *** Passes of a technique *)
Lemma texture_evolves_refl t : texture_evolves t t.
Proof. repeat split; auto. Qed.

Lemma texture_evolves_trans t1 t2 t3 :
  texture_evolves t1 t2 -> texture_evolves t2 t3 -> texture_evolves t1 t3.
Proof.
  intros (Hn & H0 & H1 & Hi & Hr) (Hn' & H0' & H1' & Hi' & Hr').
  repeat split; try congruence.
  intros index. destruct (Hr' index) as [Heq | (desc & v & Hd & Hv & Hres)].
  - rewrite Heq. apply Hr.
  - right. exists desc, v. rewrite <- Hi. auto.
Qed.

Lemma registry_evolves_refl l : Forall2 texture_evolves l l.
Proof.
  apply Forall2_same_length_lookup_2; [reflexivity|].
  intros i x y Hx Hy. simplify_eq. apply texture_evolves_refl.
Qed.

Lemma linker_evolves_refl c : linker_evolves c c.
Proof. repeat split; auto. apply registry_evolves_refl. Qed.

Lemma linker_evolves_trans c1 c2 c3 :
  linker_evolves c1 c2 -> linker_evolves c2 c3 -> linker_evolves c1 c3.
Proof.
  intros (Ha & Hb & Hc & Hd & He & Hf & Hg) (Ha' & Hb' & Hc' & Hd' & He' & Hf' & Hg').
  repeat split; try congruence.
  eapply Forall2_trans; [|eassumption..].
  intros x y z. apply texture_evolves_trans.
Qed.

Lemma find_texture_evolves r r' n :
  Forall2 texture_evolves (_textures r) (_textures r') ->
  match find_texture r n with
  | Some (i, t) => exists t', find_texture r' n = Some (i, t') /\ texture_evolves t t'
  | None => find_texture r' n = None
  end.
Proof.
  unfold find_texture. generalize (_textures r) (_textures r').
  induction 1 as [|t t' l l' Ht Hl IH]; [reflexivity|].
  cbn [list_find]. destruct Ht as (Hn & Hrest).
  destruct (decide (unique_name t = n)) as [Heq|Hne].
  - rewrite decide_True by congruence. exists t'. split; [reflexivity|].
    split; assumption.
  - rewrite decide_False by congruence.
    destruct (list_find _ l) as [[i x]|]; cbn.
    + destruct IH as (x' & -> & Hx). exists x'. auto.
    + rewrite IH. reflexivity.
Qed.

Lemma find_texture_lookup r n i t :
  find_texture r n = Some (i, t) -> _textures r !! i = Some t.
Proof. unfold find_texture. intros H. apply list_find_Some in H. tauto. Qed.

Lemma linker_evolves_create c : linker_evolves c (create c).2.
Proof. repeat split; auto. apply registry_evolves_refl. Qed.

Lemma linker_evolves_find c c' n i t :
  linker_evolves c c' ->
  find_texture (_runtime c') n = Some (i, t) ->
  exists t0, find_texture (_runtime c) n = Some (i, t0) /\ texture_evolves t0 t.
Proof.
  intros (_ & _ & _ & _ & _ & _ & Hreg) Hfound.
  pose proof (find_texture_evolves (_runtime c) (_runtime c') n Hreg) as H.
  destruct (find_texture (_runtime c) n) as [[j t0]|].
  - destruct H as (t' & Ht' & Hev). rewrite Hfound in Ht'. simplify_eq.
    exists t0. auto.
  - congruence.
Qed.

(** What one slot of the loop over the render targets does. *)
Lemma bind_render_target_Continue pass_info k pass c pass' c' :
  bind_render_target pass_info k pass c = Continue pass' c' ->
  linker_evolves c c'
  /\ shader_resources pass' = shader_resources pass
  /\ ((nth k (render_target_names pass_info) "" = ""
       /\ pass' = pass /\ c' = c)
      \/ (nth k (render_target_names pass_info) "" <> ""
          /\ exists position texture desc,
               find_texture (_runtime c) (nth k (render_target_names pass_info) "")
               = Some (position, texture)
               /\ impl_texture texture = Some desc
               /\ render_targets pass'
                  = <[k := named_target c texture desc (srgb_write_enable pass_info)]>
                      (render_targets pass)
               /\ render_target_resources pass'
                  = <[k := srv texture (srgb_write_enable pass_info)]>
                      (render_target_resources pass))).
Proof.
  unfold bind_render_target. intros H.
  case_bool_decide as Hname.
  { simplify_eq. split; [apply linker_evolves_refl|]. split; [reflexivity|].
    left. auto. }
  destruct (find_texture _ _) as [[position texture]|] eqn:Hfound; [|discriminate].
  destruct (impl_texture texture) as [desc|] eqn:Hdesc; [|discriminate].
  destruct (viewport_mismatch pass desc) as [[|]|]; try discriminate.
  unfold named_target.
  destruct (rtv texture (srgb_write_enable pass_info)) as [cached|] eqn:Hrtv.
  - rewrite Hrtv in H. simplify_eq.
    split; [apply linker_evolves_refl|]. split; [reflexivity|].
    right. split; [assumption|]. exists position, texture, desc.
    split; [reflexivity|]. split; [assumption|].
    split; [rewrite Hrtv; reflexivity|reflexivity].
  - rewrite create_next in H.
    destruct (FAILED _).
    + rewrite Hrtv in H. simplify_eq.
      split; [repeat split; auto; apply registry_evolves_refl|].
      split; [reflexivity|].
      right. split; [assumption|]. exists position, texture, desc.
      split; [reflexivity|]. split; [assumption|].
      split; [rewrite Hrtv; reflexivity|reflexivity].
    + simplify_eq. split.
      * repeat split; try reflexivity. cbn.
        rewrite <- (list_insert_id _ _ _ (find_texture_lookup _ _ _ _ Hfound)) at 1.
        apply Forall2_insert.
        -- apply registry_evolves_refl.
        -- repeat split; try (destruct (srgb_write_enable pass_info); reflexivity).
           intros index.
           destruct index, (srgb_write_enable pass_info) eqn:Hs; cbn;
             try (left; reflexivity);
             right; eexists _, _; (split; [eassumption|]); split; reflexivity.
      * split; [reflexivity|].
        right. split; [assumption|]. exists position, texture, desc.
        split; [reflexivity|]. split; [assumption|].
        rewrite Hrtv. split.
        -- destruct (srgb_write_enable pass_info); reflexivity.
        -- destruct (srgb_write_enable pass_info); reflexivity.
Qed.

Lemma bind_render_targets_Continue pass_info ks pass c pass' c' :
  bind_render_targets pass_info ks pass c = Continue pass' c' ->
  linker_evolves c c'
  /\ shader_resources pass' = shader_resources pass
  /\ (forall j, j ∉ ks ->
        render_targets pass' !! j = render_targets pass !! j
        /\ render_target_resources pass' !! j = render_target_resources pass !! j)
  /\ ((forall k, k ∈ ks -> nth k (render_target_names pass_info) "" = "") ->
      pass' = pass).
Proof.
  revert pass c. induction ks as [|k ks IH]; intros pass c H; cbn in H.
  - simplify_eq. split; [apply linker_evolves_refl|]. auto.
  - destruct (bind_render_target pass_info k pass c) as [p1 c1| |] eqn:Hstep;
      try discriminate.
    apply bind_render_target_Continue in Hstep as (Hev1 & Hres1 & Hslot).
    apply IH in H as (Hev & Hres & Hother & Hempty).
    split; [eapply linker_evolves_trans; eassumption|].
    split; [congruence|]. split.
    + intros j Hj. apply not_elem_of_cons in Hj as [Hjk Hj].
      destruct (Hother j Hj) as [-> ->].
      destruct Hslot as [(_ & -> & _) | (_ & ? & ? & ? & _ & _ & -> & ->)];
        [auto|].
      rewrite !list_lookup_insert_ne by congruence. auto.
    + intros Hall.
      rewrite Hempty by (intros; apply Hall; rewrite elem_of_cons; auto).
      destruct Hslot as [(_ & -> & _) | (Hne & _)]; [reflexivity|].
      exfalso. apply Hne, Hall. rewrite elem_of_cons. auto.
Qed.

(** The inner loop finds exactly the render targets on the same
    resource. *)
Lemma shares_resource_spec res1 targets :
  shares_resource res1 targets = true
  <-> exists target, Some target ∈ targets /\ view_resource target = res1.
Proof.
  induction targets as [|[t|] targets IH]; cbn.
  - split; [discriminate|]. intros (t & Ht & _). inversion Ht.
  - destruct (Nat.eqb_spec (view_resource t) res1) as [Heq|Hne].
    + split; [|reflexivity]. intros _. exists t. split; [left|assumption].
    + rewrite IH. split.
      * intros (t' & Ht' & Hres). exists t'. split; [right; assumption|assumption].
      * intros (t' & Ht' & Hres). apply elem_of_cons in Ht' as [Heq|Hin].
        -- simplify_eq; try contradiction.
        -- exists t'. auto.
  - rewrite IH. split.
    + intros (t' & Ht' & Hres). exists t'. split; [right; assumption|assumption].
    + intros (t' & Ht' & Hres). apply elem_of_cons in Ht' as [Heq|Hin];
        [discriminate|]. exists t'. auto.
Qed.

Lemma slot0_default_evolves c0 c pass_info pass :
  linker_evolves c0 c -> slot0_default c pass_info pass ->
  slot0_default c0 pass_info pass.
Proof.
  intros Hev (Hdefault & Hall).
  pose proof Hev as (_ & Hr0 & Hr1 & Hs0 & Hs1 & _ & _).
  assert (Hrtv : _backbuffer_rtv (_runtime c) (srgb_write_enable pass_info)
                 = _backbuffer_rtv (_runtime c0) (srgb_write_enable pass_info))
    by (unfold _backbuffer_rtv; destruct (srgb_write_enable pass_info); assumption).
  assert (Hsrv : _backbuffer_texture_srv (_runtime c) (srgb_write_enable pass_info)
                 = _backbuffer_texture_srv (_runtime c0)
                     (srgb_write_enable pass_info))
    by (unfold _backbuffer_texture_srv; destruct (srgb_write_enable pass_info);
        assumption).
  unfold slot0_default. rewrite <- Hrtv, <- Hsrv.
  split; assumption.
Qed.

Lemma build_pass_Continue NDEBUG pass_info c pass c' :
  build_pass NDEBUG pass_info c = Continue pass c' ->
  linker_evolves c c' /\ pass_built c pass_info pass.
Proof.
  unfold build_pass. intros H.
  destruct (subscript (vs_entry_points c) (vs_entry_point pass_info)) as [vs m1].
  destruct (negb NDEBUG && negb (bool_decide (is_Some vs))); [discriminate|].
  destruct (subscript _ (ps_entry_point pass_info)) as [ps m2].
  destruct (negb NDEBUG && negb (bool_decide (is_Some ps))); [discriminate|].
  set (c1 := set_ps_entry_points m2 (set_vs_entry_points m1 c)) in *.
  assert (Hc1 : linker_evolves c c1)
    by (repeat split; auto; apply registry_evolves_refl).
  destruct (bind_render_targets _ _ _ _) as [p2 c2| |] eqn:Hloop; try discriminate.
  rewrite (create_next c2) in H.
  set (c3 := if FAILED (hd 0 (script (_device (_runtime c2))))
             then warning _ (create c2).2 else (create c2).2) in *.
  rewrite (create_next c3) in H.
  assert (Hc3 : linker_evolves c2 c3)
    by (subst c3; destruct (FAILED _); repeat split; auto;
        apply registry_evolves_refl).
  injection H as <- <-.
  pose proof Hloop as Hloop'.
  apply bind_render_targets_Continue in Hloop' as (Hev & Hres & Hother & Hempty).
  split.
  { eapply linker_evolves_trans; [exact Hc1|].
    eapply linker_evolves_trans; [exact Hev|].
    eapply linker_evolves_trans; [exact Hc3|].
    destruct (FAILED (hd 0 (script (_device (_runtime c3)))));
      repeat split; auto; apply registry_evolves_refl. }
  set (pv := if (viewport_Width p2 =? 0) && (viewport_Height p2 =? 0)
             then set_viewport (to_FLOAT (frame_width (_runtime c2)))
                    (to_FLOAT (frame_height (_runtime c2))) p2
             else p2).
  assert (Hpv : render_targets pv = render_targets p2
                /\ render_target_resources pv = render_target_resources p2
                /\ shader_resources pv = shader_resources p2)
    by (subst pv; destruct (_ && _); auto).
  destruct Hpv as (Hpv1 & Hpv2 & Hpv3).
  split.
  - unfold hazards_reset. cbn [shader_resources render_targets set_states].
    rewrite Hpv1, Hpv3, Hres. reflexivity.
  - apply (slot0_default_evolves c c1); [assumption|].
    unfold slot0_default.
    cbn [render_targets render_target_resources set_states].
    rewrite Hpv1, Hpv2. clear pv Hpv1 Hpv2 Hpv3.
    change (seq 0 8) with (0%nat :: seq 1 7) in Hloop. cbn [bind_render_targets] in Hloop.
    destruct (bind_render_target pass_info 0 _ c1) as [p1 c1'| |] eqn:Hslot;
      try discriminate.
    apply bind_render_target_Continue in Hslot as (_ & _ & Hslot).
    apply bind_render_targets_Continue in Hloop as (_ & _ & Hrest & _).
    assert (Hnot : 0%nat ∉ seq 1 7) by (rewrite elem_of_seq; lia).
    destruct (Hrest 0%nat Hnot) as [-> ->].
    split.
    + intros Hname.
      destruct Hslot as [(_ & -> & _) | (Hne & _)]; [|contradiction].
      split; reflexivity.
    + intros Hall. rewrite Hempty; [reflexivity|].
      intros k Hk. apply Hall. apply elem_of_seq in Hk. lia.
Qed.

(** Slot 0 of a pass that names a render target for it. *)
Lemma build_pass_slot0 NDEBUG pass_info c pass c' :
  build_pass NDEBUG pass_info c = Continue pass c' -> slot0_named c pass_info pass.
Proof.
  unfold build_pass. intros H.
  destruct (subscript (vs_entry_points c) (vs_entry_point pass_info)) as [vs m1].
  destruct (negb NDEBUG && negb (bool_decide (is_Some vs))); [discriminate|].
  destruct (subscript _ (ps_entry_point pass_info)) as [ps m2].
  destruct (negb NDEBUG && negb (bool_decide (is_Some ps))); [discriminate|].
  set (c1 := set_ps_entry_points m2 (set_vs_entry_points m1 c)) in *.
  destruct (bind_render_targets _ _ _ _) as [p2 c2| |] eqn:Hloop; try discriminate.
  rewrite (create_next c2) in H.
  set (c3 := if FAILED (hd 0 (script (_device (_runtime c2))))
             then warning _ (create c2).2 else (create c2).2) in *.
  rewrite (create_next c3) in H.
  injection H as <- <-.
  set (pv := if (viewport_Width p2 =? 0) && (viewport_Height p2 =? 0)
             then set_viewport (to_FLOAT (frame_width (_runtime c2)))
                    (to_FLOAT (frame_height (_runtime c2))) p2
             else p2).
  assert (Hpv : render_targets pv = render_targets p2
                /\ render_target_resources pv = render_target_resources p2)
    by (subst pv; destruct (_ && _); auto).
  destruct Hpv as (Hpv1 & Hpv2).
  unfold slot0_named.
  cbn [render_targets render_target_resources set_states].
  rewrite Hpv1, Hpv2. clear pv Hpv1 Hpv2.
  change (seq 0 8) with (0%nat :: seq 1 7) in Hloop. cbn [bind_render_targets] in Hloop.
  destruct (bind_render_target pass_info 0 _ c1) as [p1 c1'| |] eqn:Hslot;
    try discriminate.
  apply bind_render_target_Continue in Hslot as (_ & _ & Hslot).
  apply bind_render_targets_Continue in Hloop as (_ & _ & Hrest & _).
  assert (Hnot : 0%nat ∉ seq 1 7) by (rewrite elem_of_seq; lia).
  destruct (Hrest 0%nat Hnot) as [-> ->].
  intros Hname.
  destruct Hslot as [(Hnone & _) | (_ & position & texture & desc & Hfound
                                     & Hdesc & -> & ->)];
    [contradiction|].
  exists position, texture, desc.
  split; [exact Hfound|]. split; [exact Hdesc|].
  split; reflexivity.
Qed.

Lemma build_passes_slot0 NDEBUG infos :
  forall built c built' c',
    build_passes NDEBUG infos built c = Continue built' c' ->
    exists new,
      built' = built ++ new
      /\ Forall2 (fun x pass => slot0_named x.1 x.2 pass)
           (zip (pass_starts NDEBUG infos c) infos) new.
Proof.
  induction infos as [|pass_info infos IH]; intros built c built' c' H;
    cbn [build_passes pass_starts] in *.
  - injection H as <- <-. exists []. rewrite app_nil_r. split; [reflexivity|constructor].
  - destruct (build_pass NDEBUG pass_info c) as [pass c1| |] eqn:Hpass;
      try discriminate.
    apply build_pass_slot0 in Hpass.
    apply IH in H as (new & -> & Hnew).
    exists (pass :: new). rewrite <- app_assoc. split; [reflexivity|].
    cbn [zip zip_with]. constructor; [exact Hpass|exact Hnew].
Qed.

Lemma pass_built_evolves c0 c pass_info pass :
  linker_evolves c0 c -> pass_built c pass_info pass -> pass_built c0 pass_info pass.
Proof.
  intros Hev [Hreset Hslot]. split.
  - unfold hazards_reset in *. destruct Hev as (<- & _). assumption.
  - eapply slot0_default_evolves; eassumption.
Qed.

Lemma build_passes_Continue NDEBUG infos built c built' c' :
  build_passes NDEBUG infos built c = Continue built' c' ->
  linker_evolves c c'
  /\ exists new, built' = built ++ new /\ Forall2 (pass_built c) infos new.
Proof.
  revert built c. induction infos as [|pass_info infos IH]; intros built c H;
    cbn in H.
  - simplify_eq. split; [apply linker_evolves_refl|].
    exists []. rewrite app_nil_r. split; [reflexivity|constructor].
  - destruct (build_pass NDEBUG pass_info c) as [pass c1| |] eqn:Hpass;
      try discriminate.
    apply build_pass_Continue in Hpass as [Hev1 Hbuilt].
    apply IH in H as (Hev & new & -> & Hnew).
    split; [eapply linker_evolves_trans; eassumption|].
    exists (pass :: new). rewrite <- app_assoc. split; [reflexivity|].
    constructor; [assumption|].
    eapply Forall2_impl; [exact Hnew|].
    intros x y. apply pass_built_evolves. assumption.
Qed.

Lemma bind_render_target_techniques pass_info k pass c c' :
  final_state (bind_render_target pass_info k pass c) = Some c' ->
  _techniques (_runtime c') = _techniques (_runtime c).
Proof.
  unfold bind_render_target. intros Hfinal.
  case_bool_decide as Hname; [cbn in Hfinal; simplify_eq; reflexivity|].
  destruct (find_texture _ _) as [[position texture]|];
    [|cbn in Hfinal; simplify_eq; reflexivity].
  destruct (impl_texture texture) as [desc|]; [|discriminate].
  destruct (viewport_mismatch pass desc) as [[|]|];
    [cbn in Hfinal; simplify_eq; reflexivity| |discriminate].
  destruct (rtv texture (srgb_write_enable pass_info)) as [cached|].
  - cbn in Hfinal. simplify_eq. reflexivity.
  - rewrite create_next in Hfinal.
    destruct (FAILED _); cbn in Hfinal; simplify_eq; reflexivity.
Qed.

Lemma bind_render_targets_techniques pass_info ks pass c c' :
  final_state (bind_render_targets pass_info ks pass c) = Some c' ->
  _techniques (_runtime c') = _techniques (_runtime c).
Proof.
  revert pass c. induction ks as [|k ks IH]; intros pass c H; cbn in H.
  - simplify_eq. reflexivity.
  - pose proof (bind_render_target_techniques pass_info k pass c) as Hstep.
    destruct (bind_render_target pass_info k pass c) as [p1 c1|c1|]; cbn in *.
    + rewrite (IH _ _ H). apply Hstep. reflexivity.
    + simplify_eq. apply Hstep. reflexivity.
    + discriminate.
Qed.

Lemma build_pass_techniques NDEBUG pass_info c c' :
  final_state (build_pass NDEBUG pass_info c) = Some c' ->
  _techniques (_runtime c') = _techniques (_runtime c).
Proof.
  unfold build_pass.
  destruct (subscript (vs_entry_points c) (vs_entry_point pass_info)) as [vs m1].
  destruct (negb NDEBUG && negb (bool_decide (is_Some vs))); [discriminate|].
  destruct (subscript _ (ps_entry_point pass_info)) as [ps m2].
  destruct (negb NDEBUG && negb (bool_decide (is_Some ps))); [discriminate|].
  match goal with
  | |- context [bind_render_targets ?pi ?ks ?p ?c0] =>
      pose proof (bind_render_targets_techniques pi ks p c0) as Hloop;
      destruct (bind_render_targets pi ks p c0) as [p2 c2|c2|]; cbn in Hloop
  end.
  - rewrite (create_next c2).
    match goal with
    | |- context [create ?c3] => rewrite (create_next c3)
    end.
    cbn. intros H. simplify_eq. rewrite <- (Hloop c2 eq_refl).
    repeat match goal with
           | |- context [FAILED ?hr] => destruct (FAILED hr)
           end; reflexivity.
  - cbn. intros H. simplify_eq. apply Hloop. reflexivity.
  - discriminate.
Qed.

Lemma build_passes_techniques NDEBUG infos built c c' :
  final_state (build_passes NDEBUG infos built c) = Some c' ->
  _techniques (_runtime c') = _techniques (_runtime c).
Proof.
  revert built c. induction infos as [|pass_info infos IH]; intros built c H;
    cbn in H.
  - simplify_eq. reflexivity.
  - pose proof (build_pass_techniques NDEBUG pass_info c) as Hpass.
    destruct (build_pass NDEBUG pass_info c) as [p1 c1|c1|]; cbn in *.
    + rewrite (IH _ _ H). apply Hpass. reflexivity.
    + simplify_eq. apply Hpass. reflexivity.
    + discriminate.
Qed.

(** Every pass of a technique that [visit_technique] hands to the runtime
    was built from its descriptor. *)
Lemma visit_technique_passes NDEBUG info c c' t :
  visit_technique NDEBUG info c = Some c' ->
  _techniques (_runtime c') = _techniques (_runtime c) ++ [t] ->
  Forall2 (pass_built c) (passes info) (tech_passes t).
Proof.
  unfold visit_technique, create_query. intros H Hadded.
  rewrite (create_next c) in H.
  set (c1 := (create c).2) in *. rewrite (create_next c1) in H.
  set (c2 := (create c1).2) in *. rewrite (create_next c2) in H.
  set (c3 := (create c2).2) in *.
  assert (Hc3 : linker_evolves c c3).
  { eapply linker_evolves_trans; [apply (linker_evolves_create c)|].
    eapply linker_evolves_trans; [apply (linker_evolves_create c1)|].
    apply (linker_evolves_create c2). }
  destruct (build_passes NDEBUG (passes info) [] c3) as [built c4|c4|] eqn:Hpasses;
    [| |discriminate].
  - apply build_passes_Continue in Hpasses as (Hev & new & -> & Hnew).
    injection H as <-. cbn in Hadded.
    destruct Hev as (_ & _ & _ & _ & _ & Htech & _).
    destruct Hc3 as (Hb & Hr0 & Hr1 & Hs0 & Hs1 & Htech3 & Hreg).
    rewrite Htech, Htech3 in Hadded. apply app_inv_head in Hadded.
    injection Hadded as <-. cbn.
    eapply Forall2_impl; [exact Hnew|].
    intros x y. apply pass_built_evolves. repeat split; assumption.
  - exfalso. injection H as <-.
    assert (Hlen : length (_techniques (_runtime c4))
                   = S (length (_techniques (_runtime c))))
      by (rewrite Hadded, length_app; cbn; lia).
    enough (Hsame : _techniques (_runtime c4) = _techniques (_runtime c))
      by (rewrite Hsame in Hlen; lia).
    destruct Hc3 as (_ & _ & _ & _ & _ & <- & _).
    apply (build_passes_techniques NDEBUG (passes info) [] c3).
    rewrite Hpasses. reflexivity.
Qed.

Lemma reset_hazards_lookup targets bindings i :
  reset_hazards targets bindings !! i
  = (fun resource =>
       match resource with
       | None => None
       | Some v => if shares_resource (view_resource v) targets then None
                   else Some v
       end) <$> bindings !! i.
Proof. unfold reset_hazards. apply list_lookup_fmap. Qed.

(** C5.  In every pass of the technique that [visit_technique] adds, the
    shader-resource list is the list of texture bindings in which every
    entry is null whose resource is the resource of a non-null render
    target of that pass; the other entries are kept. *)
Theorem visit_technique_resets_hazards (NDEBUG : bool) (info : technique_info)
    (c c' : compiler) (t : technique) (pass : d3d11_pass_data)
    (Hrun : visit_technique NDEBUG info c = Some c')
    (Hadded : _techniques (_runtime c') = _techniques (_runtime c) ++ [t])
    (Hpass : pass ∈ tech_passes t) :
  length (shader_resources pass) = length (_texture_bindings c)
  /\ (forall i v,
        shader_resources pass !! i = Some (Some v) ->
        _texture_bindings c !! i = Some (Some v)
        /\ forall target, Some target ∈ render_targets pass ->
                          view_resource target <> view_resource v)
  /\ (forall i v target,
        _texture_bindings c !! i = Some (Some v) ->
        Some target ∈ render_targets pass ->
        view_resource target = view_resource v ->
        shader_resources pass !! i = Some None).
Proof.
  pose proof (visit_technique_passes NDEBUG info c c' t Hrun Hadded) as Hall.
  assert (Hreset : hazards_reset (_texture_bindings c) pass).
  { apply list_elem_of_lookup in Hpass as [n Hn].
    destruct (Forall2_lookup_r _ _ _ _ _ Hall Hn) as (pass_info & _ & [Hr _]).
    exact Hr. }
  unfold hazards_reset in Hreset. rewrite Hreset.
  split; [unfold reset_hazards; apply length_fmap|].
  split.
  - intros i v Hi. rewrite reset_hazards_lookup in Hi.
    destruct (_texture_bindings c !! i) as [[w|]|]; cbn in Hi; try discriminate.
    destruct (shares_resource (view_resource w) (render_targets pass)) eqn:Hshare;
      [discriminate|].
    injection Hi as <-. split; [reflexivity|].
    intros target Hin Hres.
    assert (shares_resource (view_resource w) (render_targets pass) = true)
      by (apply shares_resource_spec; eauto).
    congruence.
  - intros i v target Hi Hin Hres. rewrite reset_hazards_lookup, Hi. cbn.
    rewrite (proj2 (shares_resource_spec _ _)) by eauto. reflexivity.
Qed.

Lemma visit_technique_resets_hazards_witness :
  exists t pass,
    _techniques (_runtime hazard_end) = [t]
    /\ tech_passes t = [pass]
    /\ _texture_bindings hazard_start !! 0%nat
       = Some (Some {| view_handle := 101; view_resource := 100 |})
    /\ shader_resources pass !! 0%nat = Some None.
Proof.
  eexists _, _.
  split; [vm_compute; reflexivity|].
  split; [vm_compute; reflexivity|].
  split; [vm_compute; reflexivity|].
  refine (proj2 (proj2 (visit_technique_resets_hazards true hazard_technique
                          hazard_start hazard_end _ _ _ _ _))
            0%nat {| view_handle := 101; view_resource := 100 |}
            {| view_handle := 107; view_resource := 100 |} _ _ _).
  - vm_compute. reflexivity.
  - vm_compute. reflexivity.
  - left.
  - vm_compute. reflexivity.
  - vm_compute. left.
  - reflexivity.
Defined.

(** C10.  For every pass that [visit_technique] builds, slot 0 holds the
    backbuffer view and resource chosen by [srgb_write_enable] unless the
    pass names a render target for slot 0, and a pass that names no
    render target at all has the backbuffer view as its only target.  A
    render target named for slot 0 takes the slot: the slot holds the
    view of that texture for the chosen index, which is the cached view,
    or else the view the device creates when the linker comes to the
    pass, or null when that call fails, and the shader-resource view of
    the texture. *)
Theorem visit_technique_default_render_target (NDEBUG : bool)
    (info : technique_info) (c c' : compiler) (t : technique)
    (Hrun : visit_technique NDEBUG info c = Some c')
    (Hadded : _techniques (_runtime c') = _techniques (_runtime c) ++ [t]) :
  Forall2 (slot0_default c) (passes info) (tech_passes t)
  /\ Forall2 (fun x pass => slot0_named x.1 x.2 pass)
       (zip (pass_starts NDEBUG (passes info) (technique_start c)) (passes info))
       (tech_passes t).
Proof.
  split.
  { eapply Forall2_impl;
      [exact (visit_technique_passes NDEBUG info c c' t Hrun Hadded)|].
    intros pass_info pass [_ Hslot]. exact Hslot. }
  unfold visit_technique, create_query in Hrun.
  rewrite (create_next c) in Hrun.
  set (c1 := (create c).2) in *. rewrite (create_next c1) in Hrun.
  set (c2 := (create c1).2) in *. rewrite (create_next c2) in Hrun.
  set (c3 := (create c2).2) in *.
  change (technique_start c) with c3.
  assert (Htech3 : _techniques (_runtime c3) = _techniques (_runtime c)) by reflexivity.
  destruct (build_passes NDEBUG (passes info) [] c3) as [built c4|c4|] eqn:Hpasses;
    [| |discriminate]; injection Hrun as <-.
  - pose proof (build_passes_techniques NDEBUG (passes info) [] c3 c4) as Htech.
    rewrite Hpasses in Htech. specialize (Htech eq_refl).
    apply build_passes_slot0 in Hpasses as (new & -> & Hnew).
    cbn in Hadded. rewrite Htech, Htech3 in Hadded. apply app_inv_head in Hadded.
    injection Hadded as <-. exact Hnew.
  - exfalso.
    assert (Hlen : length (_techniques (_runtime c4))
                   = S (length (_techniques (_runtime c))))
      by (rewrite Hadded, length_app; cbn; lia).
    enough (Hsame : _techniques (_runtime c4) = _techniques (_runtime c))
      by (rewrite Hsame in Hlen; lia).
    rewrite <- Htech3.
    apply (build_passes_techniques NDEBUG (passes info) [] c3).
    rewrite Hpasses. reflexivity.
Qed.

Lemma visit_technique_default_render_target_witness :
  exists t,
    _techniques (_runtime default_end) = [t]
    /\ Forall2 (slot0_default hazard_start) (passes default_technique) (tech_passes t)
    /\ Forall2 (fun x pass => slot0_named x.1 x.2 pass)
         (zip (pass_starts true (passes default_technique)
                 (technique_start hazard_start))
            (passes default_technique))
         (tech_passes t).
Proof.
  eexists. split; [vm_compute; reflexivity|].
  apply (visit_technique_default_render_target true default_technique
           hazard_start default_end); vm_compute; reflexivity.
Defined.

End d3d11_spec.

(** ** Further properties of the SPIR-V code generator *)

Module spirv_props.
Import fx spirv spirv_spec.

Lemma write_ins_payload s ins :
  write_ins s ins
  = s ++ Z.lor (u32 (Z.shiftl (num_words ins) spv.WordCountShift)) (op ins)
         :: payload ins.
Proof.
  unfold write_ins, payload, write_word.
  destruct (type ins =? 0), (result ins =? 0); rewrite write_words_app;
    rewrite <- ?app_assoc; reflexivity.
Qed.

(** X1.  [write] puts an instruction into the stream as one word that
    holds the number of words of the instruction in its upper half and
    the opcode in its lower half, then the type, if it is not 0, the
    result, if it is not 0, and the operands. *)
Theorem write_ins_framing (s : list Z) (ins : spirv_instruction)
    (Hop : 0 <= op ins < 2 ^ 16)
    (Hsize : Z.of_nat (length (operands ins)) < 65533) :
  exists header,
    write_ins s ins = s ++ header :: payload ins
    /\ Z.shiftr header 16 = Z.of_nat (length (header :: payload ins))
    /\ Z.land header 65535 = op ins.
Proof.
  eexists. split; [apply write_ins_payload|].
  assert (Hn : num_words ins = Z.of_nat (length (payload ins)) + 1
               /\ 0 <= num_words ins < 2 ^ 16).
  { unfold num_words, payload, u32. rewrite !length_app.
    destruct (type ins =? 0), (result ins =? 0); cbn [length];
      rewrite Z.mod_small by lia; lia. }
  destruct Hn as [Hn Hrange].
  assert (Hshift : u32 (Z.shiftl (num_words ins) spv.WordCountShift)
                   = num_words ins * 2 ^ 16).
  { unfold u32, spv.WordCountShift. rewrite Z.shiftl_mul_pow2 by lia.
    apply Z.mod_small. lia. }
  rewrite Hshift. split.
  - rewrite Z.shiftr_lor, !Z.shiftr_div_pow2 by lia.
    rewrite Z.div_mul by lia. rewrite (Z.div_small (op ins)) by lia.
    rewrite Z.lor_0_r. cbn [length]. lia.
  - change 65535 with (Z.ones 16). rewrite Z.land_lor_distr_l, !Z.land_ones by lia.
    rewrite Z.mod_mul by lia. rewrite (Z.mod_small (op ins)) by lia.
    apply Z.lor_0_l.
Qed.

Lemma write_ins_framing_witness :
  exists header,
    write_ins [] (add (ins_op spv.OpCapability) spv.CapabilityShader)
    = [header; spv.CapabilityShader]
    /\ Z.shiftr header 16 = 2 /\ Z.land header 65535 = spv.OpCapability.
Proof.
  destruct (write_ins_framing [] (add (ins_op spv.OpCapability) spv.CapabilityShader))
    as (header & Hw & Hcount & Hop).
  - vm_compute. split; [discriminate|reflexivity].
  - cbn. lia.
  - exists header. auto.
Defined.

(** *** Alignment *)
Lemma align_bounds address alignment :
  0 <= address -> 0 < alignment -> address + alignment <= 2 ^ 32 ->
  align address alignment mod alignment = 0
  /\ address <= align address alignment < address + alignment
  /\ forall k, address <= k * alignment -> align address alignment <= k * alignment.
Proof.
  intros Haddress Halignment Hfits.
  pose proof (Z.mod_pos_bound address alignment Halignment) as Hr.
  pose proof (Z.div_mod address alignment ltac:(lia)) as Hdiv.
  assert (Hq : 0 <= address / alignment) by (apply Z.div_pos; lia).
  unfold align, u32.
  destruct (address mod alignment =? 0) eqn:Hzero; cbv beta iota delta [negb].
  - apply Z.eqb_eq in Hzero. split; [exact Hzero|]. split; [lia|]. intros k Hk. exact Hk.
  - apply Z.eqb_neq in Hzero.
    rewrite (Z.mod_small (address + alignment - address mod alignment)) by lia.
    assert (Hnext : address + alignment - address mod alignment
                    = (address / alignment + 1) * alignment) by lia.
    split; [rewrite Hnext; apply Z.mod_mul; lia|]. split; [lia|].
    intros k Hk. rewrite Hnext.
    apply Z.mul_le_mono_nonneg_r; [lia|].
    assert (address / alignment < k); [|lia].
    apply Z.div_lt_upper_bound; [lia|].
    destruct (Z.eq_dec address (k * alignment)) as [Heq|Hne]; [|lia].
    exfalso. apply Hzero. rewrite Heq. apply Z.mod_mul. lia.
Qed.

(** X2.  [align] returns the least multiple of the alignment that is not
    below the address, as long as that multiple fits 32 bits. *)
Theorem align_least_multiple (address alignment : Z)
    (Haddress : 0 <= address) (Halignment : 0 < alignment)
    (Hfits : address + alignment <= 2 ^ 32) :
  align address alignment mod alignment = 0
  /\ address <= align address alignment < address + alignment
  /\ forall k, address <= k * alignment -> align address alignment <= k * alignment.
Proof. apply align_bounds; assumption. Qed.

Lemma align_least_multiple_witness :
  align 20 16 mod 16 = 0 /\ 20 <= align 20 16 < 20 + 16
  /\ forall k, 20 <= k * 16 -> align 20 16 <= k * 16.
Proof. apply (align_least_multiple 20 16); lia. Defined.

Lemma uniform_bytes_range u : 0 <= uniform_bytes u < 2 ^ 32.
Proof. unfold uniform_bytes, uniform_byte_size, u32. apply Z.mod_pos_bound. lia. Qed.

Lemma block_bytes_nonneg l : 0 <= block_bytes l.
Proof.
  induction l as [|u l IH]; cbn [block_bytes]; [lia|].
  pose proof (uniform_bytes_range u). lia.
Qed.

Lemma define_uniform_sized info cg r :
  define_uniform info cg = Some r -> uniform_byte_size (uniform_type info) <> 0.
Proof.
  intros H Hsize. apply Z.eqb_eq in Hsize. revert H.
  unfold define_uniform.
  unfold bind, gets, modify, make_id.
  destruct (_global_ubo_type cg =? 0) eqn:Htype,
           (_global_ubo_variable cg =? 0) eqn:Hvariable;
    cbn; rewrite ?Htype, ?Hvariable; cbn; rewrite Hsize; discriminate.
Qed.

(** X3.  the uniforms that [define_uniform] adds to the block lie one
    after the other without overlap, each at a multiple of its size and
    with less than its size of padding before it, and are numbered in
    the order of their definition, as long as the block fits 32 bits. *)
Theorem define_uniform_members (infos : list uniform_info) (cg : codegen)
    (defined : list (Z * uniform_info)) (cg' : codegen)
    (Hrun : mapM define_uniform infos cg = Some (defined, cg'))
    (Hstart : 0 <= _global_ubo_offset cg)
    (Hfits : _global_ubo_offset cg + 2 * block_bytes infos <= 2 ^ 32) :
  members_follow (_global_ubo_offset cg) (Z.of_nat (length (uniforms cg)))
    (map snd defined) (_global_ubo_offset cg')
  /\ uniforms cg' = uniforms cg ++ map snd defined
  /\ map (fun d => uniform_type d.2) defined = map uniform_type infos.
Proof.
  revert cg defined Hrun Hstart Hfits.
  induction infos as [|info infos IH]; intros cg defined Hrun Hstart Hfits;
    cbn [mapM] in Hrun.
  - injection Hrun as <- <-. cbn. rewrite app_nil_r. auto.
  - apply bind_Some in Hrun as ([variable info'] & cg1 & Hfirst & Hrun).
    apply bind_Some in Hrun as (rest & cg2 & Hrest & Hrun).
    injection Hrun as <- <-.
    pose proof (define_uniform_sized _ _ _ Hfirst) as Hsize.
    destruct (define_uniform_offset info cg Hsize)
      as (v & i & c & Hdef & Hoff & Hend & Htype & Hindex & Hlist).
    rewrite Hfirst in Hdef. injection Hdef as <- <- <-.
    cbn [block_bytes] in Hfits.
    pose proof (uniform_bytes_range info) as Hrange.
    pose proof (block_bytes_nonneg infos) as Hrest_bytes.
    unfold uniform_bytes in Hrange, Hfits.
    destruct (align_bounds (_global_ubo_offset cg)
                (uniform_byte_size (uniform_type info)))
      as (Hmul & Hbounds & _); [lia..|].
    rewrite <- Hoff in Hmul, Hbounds.
    assert (Hend' : _global_ubo_offset cg1
                    = uniform_offset info' + uniform_byte_size (uniform_type info)).
    { rewrite Hend. apply Z.mod_small. lia. }
    destruct (IH cg1 rest Hrest) as (Hfollow & Huniforms & Htypes); [lia..|].
    cbn [map snd members_follow]. unfold uniform_bytes at 1 2 3.
    rewrite Htype. split; [|split].
    + split; [exact Hbounds|]. split; [exact Hmul|]. split; [exact Hindex|].
      rewrite Hend', Hlist, length_app in Hfollow. cbn [length] in Hfollow.
      replace (Z.of_nat (length (uniforms cg)) + 1)
        with (Z.of_nat (length (uniforms cg) + 1)) by lia.
      exact Hfollow.
    + rewrite Huniforms, Hlist, <- app_assoc. reflexivity.
    + cbn. f_equal. exact Htypes.
Qed.

Lemma define_uniform_members_witness :
  exists defined cg',
    mapM define_uniform abc codegen_spirv_new = Some (defined, cg')
    /\ members_follow 0 0 (map snd defined) (_global_ubo_offset cg').
Proof.
  eexists _, _. split; [vm_compute; reflexivity|].
  refine (proj1 (define_uniform_members abc codegen_spirv_new _ _ _ _ _)).
  - vm_compute. reflexivity.
  - vm_compute. discriminate.
  - vm_compute. discriminate.
Defined.

Lemma extends_refl {A} (f : codegen -> list A) cg : extends f cg cg.
Proof. exists []. rewrite app_nil_r. reflexivity. Qed.

Lemma extends_trans {A} (f : codegen -> list A) cg1 cg2 cg3 :
  extends f cg1 cg2 -> extends f cg2 cg3 -> extends f cg1 cg3.
Proof.
  intros [n1 H1] [n2 H2]. exists (n1 ++ n2). rewrite H2, H1, app_assoc. reflexivity.
Qed.

Lemma extends_step {A} (f : codegen -> list A) cg1 cg2 cg3 new :
  extends f cg1 cg2 -> f cg3 = f cg2 ++ new -> extends f cg1 cg3.
Proof. intros H12 H3. eapply extends_trans; [exact H12|]. exists new. exact H3. Qed.

Lemma types_grow_refl n cg : types_grow n cg cg.
Proof. exists []. rewrite app_nil_r. split; [reflexivity|constructor]. Qed.

Lemma types_grow_trans n cg1 cg2 cg3 :
  types_grow n cg1 cg2 -> types_grow n cg2 cg3 -> types_grow n cg1 cg3.
Proof.
  intros (n1 & H1 & F1) (n2 & H2 & F2). exists (n1 ++ n2).
  rewrite H2, H1, app_assoc. split; [reflexivity|]. apply Forall_app; auto.
Qed.

Lemma types_grow_weaken n m cg cg' :
  (n <= m)%nat -> types_grow n cg cg' -> types_grow m cg cg'.
Proof.
  intros Hle (new & Hnew & Hall). exists new. split; [assumption|].
  eapply Forall_impl; [exact Hall|]. cbn beta. intros x Hx. lia.
Qed.

Lemma types_grow_push n cg1 cg2 cg3 info id :
  types_grow n cg1 cg2 -> (clevel info <= n)%nat ->
  _type_lookup cg3 = _type_lookup cg2 ++ [(info, id)] ->
  types_grow n cg1 cg3.
Proof.
  intros H12 Hle H3. eapply types_grow_trans; [exact H12|].
  exists [(info, id)]. split; [assumption|]. repeat constructor. assumption.
Qed.

Lemma types_grow_same n cg1 cg2 cg3 :
  types_grow n cg1 cg2 -> _type_lookup cg3 = _type_lookup cg2 -> types_grow n cg1 cg3.
Proof.
  intros H12 H3. eapply types_grow_trans; [exact H12|].
  exists []. rewrite app_nil_r. split; [assumption|constructor].
Qed.

Lemma mapM_kept {A B C} (g : codegen -> C) (f : A -> Gen B) l :
  (forall a cg b cg', f a cg = Some (b, cg') -> g cg' = g cg) ->
  forall cg bs cg', mapM f l cg = Some (bs, cg') -> g cg' = g cg.
Proof.
  intros Hf. induction l as [|a l IH]; intros cg bs cg' H; cbn [mapM] in H.
  - injection H as <- <-. reflexivity.
  - apply bind_Some in H as (b & cg1 & Hb & H).
    apply bind_Some in H as (bs' & cg2 & Hbs & H).
    injection H as <- <-. rewrite (IH _ _ _ Hbs). eapply Hf. exact Hb.
Qed.

Lemma mapM_related {A B} (R : codegen -> codegen -> Prop) (f : A -> Gen B) l :
  (forall cg, R cg cg) ->
  (forall cg1 cg2 cg3, R cg1 cg2 -> R cg2 cg3 -> R cg1 cg3) ->
  (forall a cg b cg', f a cg = Some (b, cg') -> R cg cg') ->
  forall cg bs cg', mapM f l cg = Some (bs, cg') -> R cg cg'.
Proof.
  intros Hrefl Htrans Hf. induction l as [|a l IH]; intros cg bs cg' H; cbn [mapM] in H.
  - injection H as <- <-. apply Hrefl.
  - apply bind_Some in H as (b & cg1 & Hb & H).
    apply bind_Some in H as (bs' & cg2 & Hbs & H).
    injection H as <- <-. eapply Htrans; [eapply Hf; exact Hb|eapply IH; exact Hbs].
Qed.

Lemma mapM_length {A B} (f : A -> Gen B) l :
  forall cg bs cg', mapM f l cg = Some (bs, cg') -> length bs = length l.
Proof.
  induction l as [|a l IH]; intros cg bs cg' H; cbn [mapM] in H.
  - injection H as <- <-. reflexivity.
  - apply bind_Some in H as (b & cg1 & Hb & H).
    apply bind_Some in H as (bs' & cg2 & Hbs & H).
    injection H as <- <-. cbn [length]. f_equal. eapply IH. exact Hbs.
Qed.

(** The depth of the types the generator takes a type apart into. *)
Lemma clevel_pointer info :
  is_ptr info = true -> (clevel (without_pointer info) < clevel info)%nat.
Proof.
  intros H. unfold clevel, is_array, is_matrix, is_vector.
  cbn [base rows cols is_ptr array_length without_pointer]. rewrite H.
  destruct (base info); lia.
Qed.

Lemma clevel_array info :
  is_array info = true -> (clevel (with_array_length info 0) < clevel info)%nat.
Proof.
  intros H. unfold clevel. rewrite H. unfold is_array, is_matrix, is_vector.
  cbn [base rows cols is_ptr array_length with_array_length].
  destruct (base info); cbn; lia.
Qed.

Lemma clevel_length info :
  is_array info = true -> (clevel (type3 t_uint 1 1) < clevel info)%nat.
Proof. intros H. unfold clevel. rewrite H. cbn. destruct (base info); lia. Qed.

Lemma clevel_matrix info :
  is_matrix info = true ->
  (clevel (with_rows_cols info (cols info) 1) < clevel info)%nat.
Proof.
  intros H. unfold clevel. rewrite H. unfold is_array, is_matrix, is_vector in *.
  cbn [base rows cols is_ptr array_length with_rows_cols].
  apply andb_true_iff in H as [_ H]. rewrite H. cbn.
  rewrite andb_false_r. destruct (base info); lia.
Qed.

Lemma clevel_vector info c :
  is_matrix info = false -> is_vector info = true -> c = 1 \/ c = cols info ->
  (clevel (with_rows_cols info 1 c) < clevel info)%nat.
Proof.
  intros Hm Hv Hc. unfold clevel. rewrite Hm, Hv.
  assert (c = 1) as ->.
  { destruct Hc as [->| ->]; [reflexivity|].
    unfold is_vector in Hv. apply andb_true_iff in Hv as [_ Hv].
    apply Z.eqb_eq in Hv. exact Hv. }
  unfold is_array, is_matrix, is_vector.
  cbn [base rows cols is_ptr array_length with_rows_cols]. cbn.
  destruct (base info); lia.
Qed.

Lemma clevel_texture info :
  base info = t_texture -> (clevel (type3 t_float 1 1) < clevel info)%nat.
Proof. intros H. unfold clevel. rewrite H. cbn. lia. Qed.

Lemma clevel_sampler info :
  base info = t_sampler ->
  (clevel (Type_ t_texture 0 0 [q_uniform] false false false 0 0) < clevel info)%nat.
Proof. intros H. unfold clevel. rewrite H. cbn. lia. Qed.

Lemma type_eqb_clevel a b : type_eqb a b = true -> clevel a = clevel b.
Proof.
  unfold type_eqb, clevel, is_array, is_matrix, is_vector. rewrite !andb_true_iff.
  intros [[[[[[[Hb Hr] Hc] Hn] Hp] _] _] _].
  apply bool_decide_eq_true in Hb. apply Z.eqb_eq in Hr, Hc, Hn.
  apply Bool.eqb_prop in Hp. rewrite Hb, Hr, Hc, Hn, Hp. reflexivity.
Qed.

Lemma lower_level_no_match info x :
  (clevel x.1 < clevel info)%nat -> type_lookup_match info x = false.
Proof.
  intros Hlt. unfold type_lookup_match.
  destruct (type_eqb x.1 info) eqn:Heq; [|reflexivity].
  apply type_eqb_clevel in Heq. lia.
Qed.

Lemma type_lookup_match_refl info id : type_lookup_match info (info, id) = true.
Proof.
  unfold type_lookup_match. cbn [fst]. rewrite type_eqb_refl, !Bool.eqb_reflx.
  rewrite orb_true_r. reflexivity.
Qed.

(** Takes a run of the generator apart into the runs of its steps. *)
Ltac run_inv :=
  repeat match goal with
    | H : bind _ _ _ = Some _ |- _ =>
        let a := fresh "a" in
        let cg := fresh "cg" in
        let Hm := fresh "Hm" in
        apply bind_Some in H; destruct H as (a & cg & Hm & H)
    | H : ret _ _ = Some _ |- _ => unfold ret in H; simplify_eq
    | H : gets _ _ = Some _ |- _ => unfold gets in H; simplify_eq
    | H : modify _ _ = Some _ |- _ => unfold modify in H; simplify_eq
    | H : fail _ = Some _ |- _ => discriminate H
    | H : assert_ false false _ = Some _ |- _ => discriminate H
    | H : assert_ _ _ _ = Some _ |- _ => apply assert_Some in H; simplify_eq
    | H : add_instruction _ _ blk_types_and_constants _ _ = Some _ |- _ =>
        rewrite add_instruction_types in H; simplify_eq
    | H : (if ?b then _ else _) _ = Some _ |- _ => destruct b eqn:?
    | H : match ?x with _ => _ end _ = Some _ |- _ => destruct x eqn:?
    end.

Ltac fields :=
  cbn [structs textures samplers uniforms techniques _entries _debug_a _debug_b
       _annotations _variables _capabilities _string_lookup
       _current_sampler_binding _functions2 _current_function _global_ubo_offset
       _global_ubo_type _global_ubo_variable glsl_ext
       _next_id _types_and_constants _type_lookup _constant_lookup
       set_next_id set_types_and_constants set_type_lookup set_constant_lookup]
    in *.

Lemma types_only NDEBUG fuel :
  (forall info cg id cg',
      convert_type NDEBUG fuel info cg = Some (id, cg') ->
      outside_types cg' = outside_types cg)
  /\ (forall t d cg id cg',
      emit_constant NDEBUG fuel t d cg = Some (id, cg') ->
      outside_types cg' = outside_types cg).
Proof.
  induction fuel as [|fuel [IHc IHe]]; [split; intros; discriminate|].
  split.
  - intros info cg id cg' H. cbn [convert_type] in H.
    run_inv;
      repeat match goal with
        | H : convert_type _ _ _ _ = Some _ |- _ => apply IHc in H
        | H : emit_constant _ _ _ _ _ = Some _ |- _ => apply IHe in H
        end;
      unfold outside_types in *; fields; congruence.
  - intros t d cg id cg' H. cbn [emit_constant] in H.
    run_inv;
      repeat match goal with
        | H : convert_type _ _ _ _ = Some _ |- _ => apply IHc in H
        | H : mapM _ _ _ = Some _ |- _ =>
            apply (mapM_kept outside_types) in H;
            [|intros ? ? ? ? Hcall; cbn beta in Hcall; eapply IHe; exact Hcall]
        end;
      unfold outside_types in *; fields; congruence.
Qed.

Ltac grow_done :=
  repeat match goal with
    | H : types_grow ?n _ _ |- types_grow ?m _ _ =>
        lazymatch n with
        | m => fail
        | _ => apply (types_grow_weaken n m) in H; [|lia]
        end
    end;
  repeat (eapply types_grow_trans; [eassumption|]);
  first
    [ apply types_grow_refl
    | eexists []; split; [fields; rewrite app_nil_r; reflexivity | constructor]
    | eexists [_]; split; [fields; reflexivity | repeat constructor; cbn [fst]; lia] ].

Lemma type_levels NDEBUG fuel :
  (forall info cg id cg',
      convert_type NDEBUG fuel info cg = Some (id, cg') ->
      types_grow (clevel info) cg cg')
  /\ (forall t d cg id cg',
      emit_constant NDEBUG fuel t d cg = Some (id, cg') ->
      types_grow (clevel t) cg cg').
Proof.
  induction fuel as [|fuel [IHc IHe]]; [split; intros; discriminate|].
  split.
  - intros info cg id cg' H. cbn [convert_type] in H.
    run_inv;
      repeat match goal with
        | H : convert_type _ _ _ _ = Some _ |- _ => apply IHc in H
        | H : emit_constant _ _ _ _ _ = Some _ |- _ => apply IHe in H
        end;
      try (pose proof (clevel_pointer info ltac:(assumption)));
      try (pose proof (clevel_array info ltac:(assumption)));
      try (pose proof (clevel_length info ltac:(assumption)));
      try (pose proof (clevel_matrix info ltac:(assumption)));
      try (pose proof (clevel_vector info 1 ltac:(assumption) ltac:(assumption)
                         ltac:(left; reflexivity)));
      try (pose proof (clevel_texture info ltac:(assumption)));
      try (pose proof (clevel_sampler info ltac:(assumption)));
      grow_done.
  - intros t d cg id cg' H. cbn [emit_constant] in H.
    run_inv;
      try (pose proof (clevel_array t ltac:(assumption)));
      try (pose proof (clevel_matrix t ltac:(assumption)));
      try (pose proof (clevel_vector t (cols t) ltac:(assumption) ltac:(assumption)
                         ltac:(right; reflexivity)));
      repeat match goal with
        | H : convert_type _ _ _ _ = Some _ |- _ => apply IHc in H
        | H : mapM _ _ _ = Some _ |- _ =>
            apply (mapM_related (types_grow (clevel t))) in H;
            [| apply types_grow_refl | apply types_grow_trans
             | intros ? ? ? ? Hcall; cbn beta in Hcall; apply IHe in Hcall;
               eapply types_grow_weaken; [|exact Hcall]; lia ]
        end;
      grow_done.
Qed.

Lemma appends_refl cg : appends cg cg.
Proof. repeat split; try apply extends_refl. lia. Qed.

Lemma appends_trans cg1 cg2 cg3 : appends cg1 cg2 -> appends cg2 cg3 -> appends cg1 cg3.
Proof.
  intros (Ha & Hb & Hc & Hd) (Ha' & Hb' & Hc' & Hd').
  repeat split; try (eapply extends_trans; eassumption). lia.
Qed.

Lemma appends_instruction cg ins :
  appends cg (set_types_and_constants (_types_and_constants cg ++ [ins])
                (set_next_id (_next_id cg + 1) cg)).
Proof.
  unfold appends, extends. cbn. repeat split;
    try (eexists; reflexivity);
    try (exists []; rewrite app_nil_r; reflexivity); lia.
Qed.

Lemma appends_type cg x :
  appends cg (set_type_lookup (_type_lookup cg ++ [x]) cg).
Proof.
  unfold appends, extends. cbn. repeat split;
    try (eexists; reflexivity);
    try (exists []; rewrite app_nil_r; reflexivity); lia.
Qed.

Lemma appends_constant cg x :
  appends cg (set_constant_lookup (_constant_lookup cg ++ [x]) cg).
Proof.
  unfold appends, extends. cbn. repeat split;
    try (eexists; reflexivity);
    try (exists []; rewrite app_nil_r; reflexivity); lia.
Qed.

Ltac appends_done :=
  repeat (eapply appends_trans; [eassumption|]);
  repeat first
    [ apply appends_refl
    | apply appends_type
    | apply appends_constant
    | apply appends_instruction
    | eapply appends_trans; [|apply appends_constant]
    | eapply appends_trans; [|apply appends_type] ].

Lemma only_appends NDEBUG fuel :
  (forall info cg id cg',
      convert_type NDEBUG fuel info cg = Some (id, cg') -> appends cg cg')
  /\ (forall t d cg id cg',
      emit_constant NDEBUG fuel t d cg = Some (id, cg') -> appends cg cg').
Proof.
  induction fuel as [|fuel [IHc IHe]]; [split; intros; discriminate|].
  split.
  - intros info cg id cg' H. cbn [convert_type] in H.
    run_inv;
      repeat match goal with
        | H : convert_type _ _ _ _ = Some _ |- _ => apply IHc in H
        | H : emit_constant _ _ _ _ _ = Some _ |- _ => apply IHe in H
        end;
      appends_done.
  - intros t d cg id cg' H. cbn [emit_constant] in H.
    run_inv;
      repeat match goal with
        | H : convert_type _ _ _ _ = Some _ |- _ => apply IHc in H
        | H : mapM _ _ _ = Some _ |- _ =>
            apply (mapM_related appends) in H;
            [| apply appends_refl | apply appends_trans
             | intros ? ? ? ? Hcall; cbn beta in Hcall; eapply IHe; exact Hcall ]
        end;
      appends_done.
Qed.

(** X4.  interning a type or a constant writes nothing but the id
    counter, the section of types and constants and the two lookup
    tables; the counter does not go back, and the section and the tables
    keep what they held and grow at their end. *)
Theorem interning_appends (NDEBUG : bool) (fuel : nat) :
  (forall info cg id cg',
      convert_type NDEBUG fuel info cg = Some (id, cg') ->
      outside_types cg' = outside_types cg /\ appends cg cg')
  /\ (forall t d cg id cg',
      emit_constant NDEBUG fuel t d cg = Some (id, cg') ->
      outside_types cg' = outside_types cg /\ appends cg cg').
Proof.
  split.
  - intros info cg id cg' H. split.
    + exact (proj1 (types_only NDEBUG fuel) info cg id cg' H).
    + exact (proj1 (only_appends NDEBUG fuel) info cg id cg' H).
  - intros t d cg id cg' H. split.
    + exact (proj2 (types_only NDEBUG fuel) t d cg id cg' H).
    + exact (proj2 (only_appends NDEBUG fuel) t d cg id cg' H).
Qed.

(** *** The interning of types *)
Lemma clevel_pos info : (1 <= clevel info)%nat.
Proof. unfold clevel. destruct (base info); lia. Qed.

Lemma find_after_lower info l new r :
  List.find (type_lookup_match info) l = None ->
  Forall (fun x : fx.type * Z => (clevel x.1 <= pred (clevel info))%nat) new ->
  List.find (type_lookup_match info) ((l ++ new) ++ [(info, r)]) = Some (info, r).
Proof.
  intros Hl Hnew. pose proof (clevel_pos info).
  rewrite !find_app, Hl, find_none.
  - cbn [List.find]. rewrite type_lookup_match_refl. reflexivity.
  - eapply Forall_impl; [exact Hnew|]. cbn beta. intros x Hx.
    apply lower_level_no_match. lia.
Qed.

Lemma convert_type_found NDEBUG fuel info cg x :
  List.find (type_lookup_match info) (_type_lookup cg) = Some x ->
  convert_type NDEBUG (S fuel) info cg = Some (x.2, cg).
Proof. intros H. cbn [convert_type]. unfold bind, gets. rewrite H. reflexivity. Qed.

Lemma convert_type_again NDEBUG fuel info cg id cg' :
  convert_type NDEBUG fuel info cg = Some (id, cg') ->
  forall fuel', convert_type NDEBUG (S fuel') info cg' = Some (id, cg').
Proof.
  intros H fuel'. destruct fuel as [|fuel]; [discriminate|].
  cbn [convert_type] in H.
  apply bind_Some in H as (lookup & cg0 & Hgets & H).
  unfold gets in Hgets. injection Hgets as <- <-.
  destruct (List.find (type_lookup_match info) (_type_lookup cg)) as [it|] eqn:Hfind.
  { unfold ret in H. injection H as <- <-. apply convert_type_found. exact Hfind. }
  pose proof (clevel_pos info) as Hpos.
  destruct NDEBUG;
    run_inv;
    repeat match goal with
      | H : convert_type _ _ _ _ = Some _ |- _ =>
          apply (proj1 (type_levels _ _)) in H
      | H : emit_constant _ _ _ _ _ = Some _ |- _ =>
          apply (proj2 (type_levels _ _)) in H
      end;
    try (pose proof (clevel_pointer info ltac:(assumption)));
    try (pose proof (clevel_array info ltac:(assumption)));
    try (pose proof (clevel_length info ltac:(assumption)));
    try (pose proof (clevel_matrix info ltac:(assumption)));
    try (pose proof (clevel_vector info 1 ltac:(assumption) ltac:(assumption)
                       ltac:(left; reflexivity)));
    try (pose proof (clevel_texture info ltac:(assumption)));
    try (pose proof (clevel_sampler info ltac:(assumption)));
    try (apply (convert_type_found _ fuel' info _ (info, _));
         fields;
         match goal with
         | |- List.find _ (_type_lookup ?c ++ _) = _ =>
             let G := fresh "G" in
             assert (G : types_grow (pred (clevel info)) cg c) by grow_done;
             destruct G as (new & -> & Hall)
         end;
         apply find_after_lower; assumption).
  cbn [convert_type]. unfold bind at 1. unfold gets at 1. rewrite Hfind.
  repeat match goal with
    | H : ?b = false |- context [if ?b then _ else _] => rewrite H
    end.
  match goal with
  | H : base info = _ |- _ => rewrite H
  end.
  reflexivity.
Qed.

(** X5.  a type that [convert_type] has converted converts again to the
    same id, and the second conversion leaves the generator as it is. *)
Theorem convert_type_interning (NDEBUG : bool) (fuel : nat) (info : fx.type)
    (cg : codegen) (id : Z) (cg' : codegen)
    (Hrun : convert_type NDEBUG fuel info cg = Some (id, cg')) :
  forall fuel', convert_type NDEBUG (S fuel') info cg' = Some (id, cg').
Proof. exact (convert_type_again NDEBUG fuel info cg id cg' Hrun). Qed.

Lemma convert_type_interning_witness :
  exists id cg',
    convert_type true 9 float4x4 codegen_spirv_new = Some (id, cg')
    /\ convert_type true 1 float4x4 cg' = Some (id, cg').
Proof.
  eexists _, _. split; [vm_compute; reflexivity|].
  apply (convert_type_interning true 9 float4x4 codegen_spirv_new).
  vm_compute. reflexivity.
Defined.

(** *** Array constants *)
(** X6.  the constant that [emit_constant] emits for an array that is not
    interned yet is an [OpConstantComposite] with one operand for each
    element of the literal, and one more for each element that the
    literal is short of the length of the array: it has as many
    operands as the longer of the two. *)
Theorem emit_constant_array_operands (NDEBUG : bool) (fuel : nat) (t : fx.type)
    (d : constant) (cg : codegen) (id : Z) (cg' : codegen)
    (Hrun : emit_constant NDEBUG fuel t d cg = Some (id, cg'))
    (Harray : is_array t = true)
    (Hnew : List.find (constant_lookup_match t d) (_constant_lookup cg) = None) :
  exists type_id elements,
    last (_types_and_constants cg')
    = Some (Ins spv.OpConstantComposite type_id id elements)
    /\ length elements
       = Nat.max (length (array_data d)) (Z.to_nat (array_length t))
    /\ last (_constant_lookup cg') = Some (t, d, id).
Proof.
  destruct fuel as [|fuel]; [discriminate|]. cbn [emit_constant] in Hrun.
  run_inv; try congruence.
  all: eexists _, _; fields; rewrite !last_snoc; split; [reflexivity|];
    (split; [|reflexivity]);
    rewrite length_app;
    repeat match goal with
      | H : mapM _ _ _ = Some _ |- _ => apply mapM_length in H; rewrite H
      end;
    rewrite length_replicate; lia.
Qed.

Lemma emit_constant_array_operands_witness :
  exists id cg' type_id elements,
    emit_constant true 9 (float_array 3) one_element codegen_spirv_new
    = Some (id, cg')
    /\ last (_types_and_constants cg')
       = Some (Ins spv.OpConstantComposite type_id id elements)
    /\ length elements = 3%nat.
Proof.
  destruct (emit_constant true 9 (float_array 3) one_element codegen_spirv_new)
    as [[id cg']|] eqn:Hrun; [|vm_compute in Hrun; discriminate Hrun].
  destruct (emit_constant_array_operands true 9 (float_array 3) one_element
              codegen_spirv_new id cg' Hrun)
    as (type_id & elements & Hlast & Hlen & _).
  - reflexivity.
  - vm_compute. reflexivity.
  - exists id, cg', type_id, elements. split; [reflexivity|].
    split; [exact Hlast|exact Hlen].
Defined.

Lemma get_block_state b cg l cg' : get_block b cg = Some (l, cg') -> cg' = cg.
Proof.
  destruct b; cbn; try (intros H; injection H as <- <-; reflexivity).
  destruct (_functions2 cg !! _); [|discriminate].
  intros H; injection H as <- <-; reflexivity.
Qed.

Lemma put_block_samplers b l cg u cg' :
  b <> blk_annotations ->
  put_block b l cg = Some (u, cg') -> sampler_state cg' = sampler_state cg.
Proof.
  intros Hb. destruct b; cbn; try contradiction;
    try (intros H; injection H as <- <-; reflexivity).
  destruct (_functions2 cg !! _); [|discriminate].
  intros H; injection H as <- <-; reflexivity.
Qed.

Ltac block_inv :=
  repeat match goal with
    | H : get_block _ _ = Some _ |- _ => apply get_block_state in H; subst
    | H : put_block _ _ _ = Some _ |- _ =>
        apply put_block_samplers in H; [|discriminate]
    | H : make_id _ = Some _ |- _ => unfold make_id in H; simplify_eq
    | H : convert_type _ _ _ _ = Some _ |- _ =>
        apply (proj1 (types_only _ _)) in H
    end.

Lemma define_variable_samplers NDEBUG fuel id loc t name storage value cg u cg' :
  define_variable_with_id NDEBUG fuel id loc t name storage value cg = Some (u, cg') ->
  sampler_state cg' = sampler_state cg.
Proof.
  unfold define_variable_with_id, add_location, emplace_back, patch, add_name,
    add_instruction_without_result, push_back.
  intros H. destruct (negb (storage =? spv.StorageClassFunction));
    run_inv; block_inv;
    unfold sampler_state, outside_types in *; cbn in *; congruence.
Qed.

Lemma define_sampler_step NDEBUG fuel loc info cg id info' cg' :
  define_sampler NDEBUG fuel loc info cg = Some ((id, info'), cg') ->
  info' = with_set_binding 1 (_current_sampler_binding cg) info
  /\ id = sampler_id info
  /\ samplers cg' = samplers cg ++ [info']
  /\ _current_sampler_binding cg' = u32 (_current_sampler_binding cg + 1)
  /\ _annotations cg' = _annotations cg ++ sampler_decorations info'.
Proof.
  unfold define_sampler, add_decoration, add_instruction_without_result, push_back.
  intros H. run_inv.
  match goal with
  | H : define_variable_with_id _ _ _ _ _ _ _ _ _ = Some _ |- _ =>
      apply define_variable_samplers in H; unfold sampler_state in H; cbn in H;
      injection H as Hs Hb Ha
  end.
  cbn in *. repeat match goal with
    | H : Some _ = Some _ |- _ => injection H as <- <-
    end.
  cbn. rewrite Hs, Hb, Ha, <- app_assoc. auto.
Qed.

(** X7.  the samplers that [define_sampler] defines take the bindings
    from the current one on, one after the other in the order of their
    definition, all in descriptor set 1; each is decorated with its
    binding and its set, and is returned by the id it came with. *)
Theorem define_sampler_bindings (NDEBUG : bool) (fuel : nat)
    (decls : list (location * sampler_info)) (cg : codegen)
    (defined : list (Z * sampler_info)) (cg' : codegen)
    (Hrun : mapM (fun x => define_sampler NDEBUG fuel x.1 x.2) decls cg
            = Some (defined, cg'))
    (Hstart : 0 <= _current_sampler_binding cg)
    (Hfits : _current_sampler_binding cg + Z.of_nat (length decls) < 2 ^ 32) :
  map (fun d => sampler_binding d.2) defined
  = seqZ (_current_sampler_binding cg) (Z.of_nat (length decls))
  /\ Forall (fun d => sampler_set d.2 = 1) defined
  /\ map fst defined = map (fun x => sampler_id x.2) decls
  /\ samplers cg' = samplers cg ++ map snd defined
  /\ _annotations cg'
     = _annotations cg ++ concat (map (fun d => sampler_decorations d.2) defined).
Proof.
  revert cg defined Hrun Hstart Hfits.
  induction decls as [|[loc info] decls IH]; intros cg defined Hrun Hstart Hfits;
    cbn [mapM] in Hrun.
  - injection Hrun as <- <-. cbn. rewrite !app_nil_r. auto.
  - apply bind_Some in Hrun as ([id info'] & cg1 & Hfirst & Hrun).
    apply bind_Some in Hrun as (rest & cg2 & Hrest & Hrun).
    injection Hrun as <- <-. cbn [fst snd] in Hfirst.
    apply define_sampler_step in Hfirst as (Hinfo & Hid & Hs & Hb & Ha).
    cbn [length] in Hfits.
    assert (Hb' : _current_sampler_binding cg1 = _current_sampler_binding cg + 1).
    { rewrite Hb. apply Z.mod_small. lia. }
    destruct (IH cg1 rest Hrest) as (Hbind & Hset & Hids & Hsamplers & Hann); [lia..|].
    split; [|split; [|split; [|split]]].
    + cbn [map snd length]. rewrite Hbind, Hb'.
      rewrite (seqZ_cons (_current_sampler_binding cg)) by lia.
      rewrite Hinfo. cbn [sampler_binding with_set_binding]. f_equal. f_equal; lia.
    + constructor; [rewrite Hinfo; reflexivity|exact Hset].
    + cbn [map fst snd]. rewrite Hids, Hid. reflexivity.
    + rewrite Hsamplers, Hs, <- app_assoc. reflexivity.
    + rewrite Hann, Ha, <- app_assoc. reflexivity.
Qed.

Lemma define_sampler_bindings_witness :
  exists defined cg',
    mapM (fun x => define_sampler true 9 x.1 x.2) two_samplers codegen_spirv_new
    = Some (defined, cg')
    /\ map (fun d => sampler_binding d.2) defined = [0; 1].
Proof.
  eexists _, _. split; [vm_compute; reflexivity|].
  refine (proj1 (define_sampler_bindings true 9 two_samplers codegen_spirv_new
                   _ _ _ _ _)).
  - vm_compute. reflexivity.
  - vm_compute. discriminate.
  - vm_compute. reflexivity.
Defined.

(** *** Source locations *)
Lemma put_get_block b l cg u cg' :
  put_block b l cg = Some (u, cg') -> get_block b cg' = Some (l, cg').
Proof.
  destruct b; cbn; try (intros H; injection H as <- <-; reflexivity).
  destruct (_functions2 cg !! Z.to_nat (_current_function cg)) as [f|] eqn:Hf;
    [|discriminate].
  intros H; injection H as <- <-. cbn.
  rewrite list_lookup_insert_eq by (eapply lookup_lt_Some; exact Hf). reflexivity.
Qed.

Lemma put_block_strings b l cg u cg' :
  put_block b l cg = Some (u, cg') ->
  _string_lookup cg' = _string_lookup cg
  /\ _next_id cg' = _next_id cg
  /\ (b <> blk_debug_a -> _debug_a cg' = _debug_a cg).
Proof.
  destruct b; cbn;
    try (intros H; injection H as <- <-; repeat split; congruence).
  destruct (_functions2 cg !! _); [|discriminate].
  intros H; injection H as <- <-. auto.
Qed.

Lemma add_location_file loc b cg u cg' :
  add_location loc b cg = Some (u, cg') ->
  source loc <> "" ->
  _next_id cg <> 0 ->
  exists file, file <> 0 /\ _string_lookup cg' !! source loc = Some file.
Proof.
  unfold add_location, add_instruction_without_result, push_back.
  intros H Hsource Hid. rewrite bool_decide_eq_false_2 in H by exact Hsource.
  run_inv;
    repeat match goal with
      | H : get_block _ _ = Some _ |- _ => apply get_block_state in H; subst
      | H : make_id _ = Some _ |- _ => unfold make_id in H; simplify_eq
      | H : put_block _ _ _ = Some _ |- _ =>
          apply put_block_strings in H; destruct H as (Hstrings & _ & _);
          cbn in Hstrings
      end.
  all: eexists; (split; [|rewrite Hstrings; apply lookup_insert_eq]);
    first [assumption | apply Z.eqb_neq; assumption].
Qed.

Lemma add_location_known loc b cg u cg' file :
  add_location loc b cg = Some (u, cg') ->
  source loc <> "" ->
  file <> 0 ->
  _string_lookup cg !! source loc = Some file ->
  _string_lookup cg' = _string_lookup cg
  /\ _next_id cg' = _next_id cg
  /\ (b <> blk_debug_a -> _debug_a cg' = _debug_a cg)
  /\ exists l, get_block b cg = Some (l, cg)
               /\ get_block b cg'
                  = Some (l ++ [Ins spv.OpLine 0 0 [file; line loc; column loc]], cg').
Proof.
  unfold add_location, add_instruction_without_result, push_back.
  intros H Hsource Hfile Hknown.
  rewrite bool_decide_eq_false_2 in H by exact Hsource.
  apply bind_Some in H as (known & cg0 & Hgets & H).
  unfold gets in Hgets. injection Hgets as <- <-.
  rewrite Hknown in H. change (default 0 (Some file)) with file in H.
  apply Z.eqb_neq in Hfile. rewrite Hfile in H.
  run_inv.
  rewrite (insert_id _ _ _ Hknown) in *.
  assert (Hsame : set_string_lookup (_string_lookup cg) cg = cg) by (destruct cg; reflexivity).
  rewrite Hsame in *.
  match goal with
  | H : get_block _ _ = Some _ |- _ =>
      pose proof (get_block_state _ _ _ _ H); subst; rename H into Hget
  end.
  match goal with
  | H : put_block _ _ _ = Some _ |- _ =>
      pose proof (put_get_block _ _ _ _ _ H) as Hput;
      apply put_block_strings in H; destruct H as (Hs & Hn & Hd)
  end.
  split; [exact Hs|]. split; [exact Hn|]. split; [exact Hd|].
  eexists. split; [exact Hget|exact Hput].
Qed.

(** X8.  [add_location] creates the [OpString] of a source file once: a
    second location in a file that a first one was in gets no new id
    and no new string, and its [OpLine], which goes to the end of its
    block, names the id the file already has. *)
Theorem add_location_interning (first second : location) (b1 b2 : block_ref)
    (cg cg1 cg2 : codegen)
    (Hfirst : add_location first b1 cg = Some (tt, cg1))
    (Hsecond : add_location second b2 cg1 = Some (tt, cg2))
    (Hsame : source second = source first)
    (Hsource : source first <> "")
    (Hid : _next_id cg <> 0)
    (Hblock : b2 <> blk_debug_a) :
  exists file,
    file <> 0
    /\ _string_lookup cg1 !! source first = Some file
    /\ _string_lookup cg2 = _string_lookup cg1
    /\ _next_id cg2 = _next_id cg1
    /\ _debug_a cg2 = _debug_a cg1
    /\ exists l, get_block b2 cg1 = Some (l, cg1)
                 /\ get_block b2 cg2
                    = Some (l ++ [Ins spv.OpLine 0 0 [file; line second; column second]],
                            cg2).
Proof.
  destruct (add_location_file _ _ _ _ _ Hfirst Hsource Hid) as (file & Hfile & Hknown).
  exists file. split; [exact Hfile|]. split; [exact Hknown|].
  rewrite <- Hsame in Hknown, Hsource.
  destruct (add_location_known _ _ _ _ _ file Hsecond Hsource Hfile Hknown)
    as (Hs & Hn & Hd & Hline).
  split; [exact Hs|]. split; [exact Hn|]. split; [exact (Hd Hblock)|]. exact Hline.
Qed.

Lemma add_location_interning_witness :
  exists cg1 cg2 file,
    add_location (at_line 1) blk_variables codegen_spirv_new = Some (tt, cg1)
    /\ add_location (at_line 2) blk_variables cg1 = Some (tt, cg2)
    /\ file <> 0
    /\ _debug_a cg2 = _debug_a cg1
    /\ last (_variables cg2) = Some (Ins spv.OpLine 0 0 [file; 2; 1]).
Proof.
  destruct (add_location (at_line 1) blk_variables codegen_spirv_new)
    as [[[] cg1]|] eqn:H1; [|vm_compute in H1; discriminate H1].
  destruct (add_location (at_line 2) blk_variables cg1)
    as [[[] cg2]|] eqn:H2.
  - destruct (add_location_interning (at_line 1) (at_line 2) blk_variables
                blk_variables codegen_spirv_new cg1 cg2 H1 H2)
      as (file & Hfile & _ & _ & _ & Hdebug & l & Hl & Hl2);
      [reflexivity|discriminate|vm_compute; discriminate|discriminate|].
    exists cg1, cg2, file. split; [reflexivity|]. split; [exact H2|].
    split; [exact Hfile|]. split; [exact Hdebug|].
    cbn in Hl2. injection Hl2 as ->. apply last_snoc.
  - exfalso. vm_compute in H1. injection H1 as <-. vm_compute in H2. discriminate H2.
Defined.

End spirv_props.

(** ** Further properties of the D3D11 effect linker *)

Module d3d11_props.
Import fx d3d11 d3d11_spec.

(** *** Rounding and formats *)
Lemma land_clear_low x : 0 <= x -> Z.land x (Z.lnot 15) = 16 * (x / 16).
Proof.
  intros Hx. change 15 with (Z.ones 4).
  rewrite <- Z.ldiff_land, Z.ldiff_ones_r by lia.
  rewrite Z.shiftl_mul_pow2, Z.shiftr_div_pow2 by lia.
  change (2 ^ 4) with 16. lia.
Qed.

Lemma roundto16_eq bits size :
  4 <= bits -> 0 <= size ->
  roundto16 bits size = 16 * (((size + 15) mod 2 ^ bits) / 16).
Proof.
  intros Hbits Hsize. unfold roundto16.
  assert (Hpos : 0 < 2 ^ bits) by (apply Z.pow_pos_nonneg; lia).
  pose proof (Z.mod_pos_bound (size + 15) (2 ^ bits) Hpos) as Hx.
  rewrite <- (Z.land_ones (Z.lnot 15)) by lia.
  rewrite Z.land_assoc, land_clear_low by lia.
  rewrite Z.land_ones by lia.
  apply Z.mod_small.
  pose proof (Z.mul_div_le ((size + 15) mod 2 ^ bits) 16 ltac:(lia)).
  pose proof (Z.div_pos ((size + 15) mod 2 ^ bits) 16 ltac:(lia) ltac:(lia)). lia.
Qed.

(** X9.  [roundto16] yields the least multiple of 16 that is not below
    [size], as long as [size + 15] fits [size_t]; where it does not fit,
    the sum wraps and the result is 0. *)
Theorem roundto16_least_multiple (bits size : Z)
    (Hbits : 4 <= bits) (Hsize : 0 <= size < 2 ^ bits) :
  (size + 15 < 2 ^ bits ->
   roundto16 bits size mod 16 = 0
   /\ size <= roundto16 bits size < size + 16)
  /\ (2 ^ bits <= size + 15 -> roundto16 bits size = 0).
Proof.
  rewrite roundto16_eq by lia.
  assert (H16 : 2 ^ bits = 16 * 2 ^ (bits - 4)).
  { replace bits with (4 + (bits - 4)) at 1 by lia.
    rewrite Z.pow_add_r by lia. reflexivity. }
  split.
  - intros Hfit. rewrite (Z.mod_small (size + 15)) by lia.
    split; [rewrite Z.mul_comm; apply Z.mod_mul; lia|].
    pose proof (Z.mod_pos_bound (size + 15) 16 ltac:(lia)).
    pose proof (Z.div_mod (size + 15) 16 ltac:(lia)). lia.
  - intros Hwrap.
    replace ((size + 15) mod 2 ^ bits) with (size + 15 - 2 ^ bits).
    + rewrite Z.div_small by lia. reflexivity.
    + symmetry. rewrite <- (Z.mod_small (size + 15 - 2 ^ bits) (2 ^ bits)) by lia.
      replace (size + 15 - 2 ^ bits) with (size + 15 + (-1) * 2 ^ bits) by lia.
      rewrite Z.mod_add by lia. reflexivity.
Qed.

Lemma roundto16_least_multiple_witness :
  roundto16 32 17 mod 16 = 0 /\ 17 <= roundto16 32 17 < 17 + 16.
Proof.
  apply (roundto16_least_multiple 32 17); [lia | lia | reflexivity].
Defined.

(** X10.  the three format conversions stay inside a format's family: the
    typeless format of the sRGB and of the normal variant is that of the
    format itself, the sRGB variant of the normal variant is the sRGB
    variant (and the other way round), and converting twice is converting
    once. *)
Theorem make_format_family (format : DXGI_FORMAT) :
  make_format_typeless (make_format_srgb format) = make_format_typeless format
  /\ make_format_typeless (make_format_normal format) = make_format_typeless format
  /\ make_format_srgb (make_format_normal format) = make_format_srgb format
  /\ make_format_normal (make_format_srgb format) = make_format_normal format
  /\ make_format_srgb (make_format_typeless format) = make_format_srgb format
  /\ make_format_normal (make_format_typeless format) = make_format_normal format
  /\ make_format_srgb (make_format_srgb format) = make_format_srgb format
  /\ make_format_normal (make_format_normal format) = make_format_normal format
  /\ make_format_typeless (make_format_typeless format) = make_format_typeless format.
Proof. destruct format; repeat split. Qed.

(** X11.  the literals 0 to 9 name ten different blend factors and the
    literals 0, 1 and 3 to 8 name eight different stencil operations;
    every other literal stands for [ONE] and for [KEEP]. *)
Theorem literal_to_state (a b : Z) :
  (0 <= a <= 9 -> 0 <= b <= 9 ->
   literal_to_blend_func a = literal_to_blend_func b -> a = b)
  /\ (a < 0 \/ 9 < a -> literal_to_blend_func a = D3D11_BLEND_ONE)
  /\ (0 <= a <= 8 -> 0 <= b <= 8 -> a <> 2 -> b <> 2 ->
      literal_to_stencil_op a = literal_to_stencil_op b -> a = b)
  /\ (a < 0 \/ a = 2 \/ 8 < a -> literal_to_stencil_op a = D3D11_STENCIL_OP_KEEP).
Proof.
  repeat split.
  - intros Ha Hb.
    assert (Hcases : forall x, 0 <= x <= 9 ->
              x = 0 \/ x = 1 \/ x = 2 \/ x = 3 \/ x = 4 \/ x = 5 \/ x = 6 \/ x = 7
              \/ x = 8 \/ x = 9) by lia.
    destruct (Hcases a Ha) as [->|[->|[->|[->|[->|[->|[->|[->|[->| ->]]]]]]]]];
      destruct (Hcases b Hb) as [->|[->|[->|[->|[->|[->|[->|[->|[->| ->]]]]]]]]];
      cbn; congruence.
  - intros Ha. unfold literal_to_blend_func.
    repeat match goal with |- context [?x =? ?y] => destruct (Z.eqb_spec x y); [lia|] end.
    reflexivity.
  - intros Ha Hb Ha2 Hb2.
    assert (Hcases : forall x, 0 <= x <= 8 -> x <> 2 ->
              x = 0 \/ x = 1 \/ x = 3 \/ x = 4 \/ x = 5 \/ x = 6 \/ x = 7 \/ x = 8)
      by lia.
    destruct (Hcases a Ha Ha2) as [->|[->|[->|[->|[->|[->|[->| ->]]]]]]];
      destruct (Hcases b Hb Hb2) as [->|[->|[->|[->|[->|[->|[->| ->]]]]]]];
      cbn; congruence.
  - intros Ha. unfold literal_to_stencil_op.
    repeat match goal with |- context [?x =? ?y] => destruct (Z.eqb_spec x y); [lia|] end.
    reflexivity.
Qed.

(** *** Textures that are new *)
Lemma find_texture_add r n t :
  find_texture r n = None -> unique_name t = n ->
  find_texture (add_texture t r) n = Some (length (_textures r), t).
Proof.
  unfold find_texture, add_texture. cbn [_textures set_textures].
  intros Hnone Hname. apply list_find_Some. split; [|split].
  - rewrite lookup_app_r, Nat.sub_diag by lia. reflexivity.
  - exact Hname.
  - intros j y Hj Hlt. rewrite lookup_app_l in Hj by lia.
    rewrite list_find_None, Forall_forall in Hnone.
    apply Hnone. eapply list_elem_of_lookup_2. exact Hj.
Qed.

Lemma visit_texture_found info c i t :
  find_texture (_runtime c) (texture_unique_name info) = Some (i, t) ->
  texture_semantic info <> "" \/ same_dimensions t info ->
  visit_texture info c = c.
Proof.
  intros Hfound Hsame. unfold visit_texture. rewrite Hfound.
  destruct Hsame as [Hsem | Hdim].
  - rewrite bool_decide_eq_false_2 by exact Hsem. reflexivity.
  - apply same_dimensions_test in Hdim. rewrite Hdim, andb_false_r. reflexivity.
Qed.

Lemma only_device_refl c : only_device c c.
Proof. unfold only_device. destruct c as [[]]; reflexivity. Qed.

Lemma only_device_create c : only_device c (create c).2.
Proof. unfold only_device. destruct c as [[]]; reflexivity. Qed.

Lemma only_device_trans c1 c2 c3 :
  only_device c1 c2 -> only_device c2 c3 -> only_device c1 c3.
Proof.
  unfold only_device. intros H12 H23. rewrite H23 at 1. rewrite H12 at 1 2.
  destruct c1 as [[]]; reflexivity.
Qed.

(** The two ways [visit_texture] ends on a name that is not registered. *)
Lemma visit_texture_new_cases info c :
  find_texture (_runtime c) (texture_unique_name info) = None ->
  exists c0,
    only_device c c0
    /\ ((exists message, visit_texture info c = error message c0)
        \/ (exists t,
               visit_texture info c = set_runtime (add_texture t (_runtime c0)) c0
               /\ unique_name t = texture_unique_name info
               /\ levels t = texture_levels info
               /\ format t = texture_format_of info
               /\ (texture_semantic info = "" ->
                   width t = texture_width info
                   /\ height t = texture_height info))).
Proof.
  intros Hnew. unfold visit_texture. rewrite Hnew.
  destruct (bool_decide (texture_semantic info = "COLOR")) eqn:Hcolor.
  { apply bool_decide_eq_true in Hcolor.
    exists c. split; [apply only_device_refl|]. right. eexists. split; [reflexivity|].
    do 3 (split; [reflexivity|]). intros Hsem. rewrite Hsem in Hcolor. discriminate. }
  destruct (bool_decide (texture_semantic info = "DEPTH")) eqn:Hdepth.
  { apply bool_decide_eq_true in Hdepth.
    exists c. split; [apply only_device_refl|]. right. eexists. split; [reflexivity|].
    do 3 (split; [reflexivity|]). intros Hsem. rewrite Hsem in Hdepth. discriminate. }
  destruct (bool_decide (texture_semantic info = "")) eqn:Hempty; cbn [negb].
  2: { exists c. split; [apply only_device_refl|]. left. eexists. reflexivity. }
  pose proof (only_device_create c) as H1.
  destruct (create c) as [[hr1 h1] c1] eqn:E1. cbn [snd] in H1.
  destruct (FAILED hr1).
  { exists c1. split; [exact H1|]. left. eexists. reflexivity. }
  pose proof (only_device_create c1) as H2.
  destruct (create c1) as [[hr2 h2] c2] eqn:E2. cbn [snd] in H2.
  pose proof (only_device_trans _ _ _ H1 H2) as H12.
  destruct (FAILED hr2).
  { exists c2. split; [exact H12|]. left. eexists. reflexivity. }
  destruct (negb _).
  - pose proof (only_device_create c2) as H3.
    destruct (create c2) as [[hr3 h3] c3] eqn:E3. cbn [snd] in H3.
    pose proof (only_device_trans _ _ _ H12 H3) as H123.
    destruct (FAILED hr3).
    { exists c3. split; [exact H123|]. left. eexists. reflexivity. }
    exists c3. split; [exact H123|]. right. eexists. split; [reflexivity|].
    repeat split.
  - exists c2. split; [exact H12|]. right. eexists. split; [reflexivity|].
    repeat split.
Qed.

Lemma only_device_textures c c0 :
  only_device c c0 -> _textures (_runtime c0) = _textures (_runtime c).
Proof. intros ->. reflexivity. Qed.

(** X12.  [visit_texture] on a name that is not registered either reports
    an error and leaves the registry as it is, or appends one texture of
    that name: the texture is then found under the name, the failure flag
    and the error text are untouched, and declaring it once more changes
    nothing. *)
Theorem visit_texture_registers (info : texture_info) (c : compiler)
    (Hnew : find_texture (_runtime c) (texture_unique_name info) = None) :
  let c' := visit_texture info c in
  (_success c' = false /\ _textures (_runtime c') = _textures (_runtime c))
  \/ (exists t,
         _textures (_runtime c') = _textures (_runtime c) ++ [t]
         /\ unique_name t = texture_unique_name info
         /\ levels t = texture_levels info
         /\ format t = texture_format_of info
         /\ find_texture (_runtime c') (texture_unique_name info)
            = Some (length (_textures (_runtime c)), t)
         /\ _success c' = _success c
         /\ _errors c' = _errors c
         /\ visit_texture info c' = c').
Proof.
  intros c'. subst c'.
  destruct (visit_texture_new_cases info c Hnew)
    as (c0 & Hdev & [[message ->] | (t & -> & Hname & Hlevels & Hformat & Hdims)]).
  - left. split; [reflexivity|]. cbn. apply only_device_textures, Hdev.
  - right. exists t.
    pose proof (only_device_textures _ _ Hdev) as Htex.
    assert (Hfind : find_texture (add_texture t (_runtime c0)) (texture_unique_name info)
                    = Some (length (_textures (_runtime c)), t)).
    { rewrite <- Htex. apply find_texture_add; [|exact Hname].
      unfold find_texture in *. rewrite Htex. exact Hnew. }
    cbn [_runtime set_runtime _success _errors].
    split; [cbn; rewrite Htex; reflexivity|].
    split; [exact Hname|]. split; [exact Hlevels|]. split; [exact Hformat|].
    split; [exact Hfind|].
    split; [rewrite Hdev; reflexivity|]. split; [rewrite Hdev; reflexivity|].
    eapply visit_texture_found; [exact Hfind|].
    destruct (decide (texture_semantic info = "")) as [Hsem|Hsem]; [right|left; exact Hsem].
    destruct (Hdims Hsem) as [Hw Hh]. repeat split; assumption.
Qed.

Lemma visit_texture_registers_witness :
  let c' := visit_texture (tex_info "t" "" 4 4) (fresh_compiler []) in
  (_success c' = false
   /\ _textures (_runtime c') = _textures (_runtime (fresh_compiler [])))
  \/ (exists t,
         _textures (_runtime c') = _textures (_runtime (fresh_compiler [])) ++ [t]
         /\ unique_name t = "t"
         /\ levels t = 1
         /\ format t = rgba8
         /\ find_texture (_runtime c') "t"
            = Some (length (_textures (_runtime (fresh_compiler []))), t)
         /\ _success c' = _success (fresh_compiler [])
         /\ _errors c' = _errors (fresh_compiler [])
         /\ visit_texture (tex_info "t" "" 4 4) c' = c').
Proof.
  apply (visit_texture_registers (tex_info "t" "" 4 4) (fresh_compiler [])).
  reflexivity.
Defined.

(** X13.  a texture declared with a semantic is registered without a call
    of the device: for [COLOR] and [DEPTH] it takes the size of the frame
    and the views of the back buffer or of the depth buffer and has no
    resource of its own; any other semantic is the error "invalid
    semantic", and nothing is registered. *)
Theorem visit_texture_semantic (info : texture_info) (c : compiler)
    (Hnew : find_texture (_runtime c) (texture_unique_name info) = None)
    (Hsemantic : texture_semantic info <> "") :
  let by_reference reference view0 view1 :=
    set_runtime
      (add_texture
         {| name := texture_unique_name info;
            unique_name := texture_unique_name info;
            width := frame_width (_runtime c);
            height := frame_height (_runtime c);
            levels := texture_levels info;
            format := texture_format_of info;
            effect_filename := "";
            impl_reference := reference;
            impl_texture := None;
            srv0 := view0; srv1 := view1; rtv0 := None; rtv1 := None |}
         (_runtime c)) c in
  _device (_runtime (visit_texture info c)) = _device (_runtime c)
  /\ (texture_semantic info = "COLOR" ->
      visit_texture info c
      = by_reference back_buffer (_backbuffer_texture_srv0 (_runtime c))
          (_backbuffer_texture_srv1 (_runtime c)))
  /\ (texture_semantic info = "DEPTH" ->
      visit_texture info c
      = by_reference depth_buffer (_depthstencil_texture_srv (_runtime c))
          (_depthstencil_texture_srv (_runtime c)))
  /\ (texture_semantic info <> "COLOR" -> texture_semantic info <> "DEPTH" ->
      visit_texture info c = error "invalid semantic" c).
Proof.
  intros by_reference. subst by_reference. unfold visit_texture. rewrite Hnew.
  rewrite (bool_decide_eq_false_2 (texture_semantic info = "")) by exact Hsemantic.
  cbn [negb].
  destruct (decide (texture_semantic info = "COLOR")) as [Hc|Hc].
  { rewrite (bool_decide_eq_true_2 _ Hc).
    split; [reflexivity|]. split; [reflexivity|].
    split; [rewrite Hc; discriminate|]. intros Hn. contradiction. }
  rewrite (bool_decide_eq_false_2 _ Hc).
  destruct (decide (texture_semantic info = "DEPTH")) as [Hd|Hd].
  { rewrite (bool_decide_eq_true_2 _ Hd).
    split; [reflexivity|]. split; [intros Hn; contradiction|].
    split; [reflexivity|]. intros _ Hn. contradiction. }
  rewrite (bool_decide_eq_false_2 _ Hd).
  split; [reflexivity|]. split; [intros Hn; contradiction|].
  split; [intros Hn; contradiction|]. reflexivity.
Qed.

Lemma visit_texture_semantic_witness :
  visit_texture (tex_info "t" "NORMAL" 4 4) (fresh_compiler [])
  = error "invalid semantic" (fresh_compiler []).
Proof.
  apply (visit_texture_semantic (tex_info "t" "NORMAL" 4 4) (fresh_compiler []));
    [reflexivity|discriminate|discriminate|discriminate].
Defined.

(** X14.  a texture declared without a semantic, on a device that does not
    fail, gets a resource of its own and a view for linear reads; it gets a
    second view for sRGB reads exactly when its format is [rgba8], [dxt1],
    [dxt3] or [dxt5], and otherwise the one view serves both. *)
Theorem visit_texture_views (info : texture_info) (c : compiler)
    (Hnew : find_texture (_runtime c) (texture_unique_name info) = None)
    (Hsemantic : texture_semantic info = "")
    (Hdevice : forall i, (i < 3)%nat ->
                 FAILED (nth i (script (_device (_runtime c))) 0) = false) :
  let handle := next_object (_device (_runtime c)) in
  let separate := has_srgb_variant (texture_format_of info) in
  exists t,
    _textures (_runtime (visit_texture info c)) = _textures (_runtime c) ++ [t]
    /\ impl_texture t
       = Some {| resource_handle := handle;
                 desc_Width := texture_width info;
                 desc_Height := texture_height info;
                 desc_Format := literal_to_format (texture_format_of info) |}
    /\ srv0 t = Some {| view_handle := S handle; view_resource := handle |}
    /\ srv1 t = (if separate
                 then Some {| view_handle := S (S handle); view_resource := handle |}
                 else srv0 t)
    /\ next_object (_device (_runtime (visit_texture info c)))
       = (if separate then 3 + handle else 2 + handle)%nat
    /\ _success (visit_texture info c) = _success c.
Proof.
  intros handle separate. subst handle separate.
  unfold visit_texture. rewrite Hnew, Hsemantic. cbn [bool_decide negb].
  change (bool_decide ("" = "COLOR")) with false.
  change (bool_decide ("" = "DEPTH")) with false.
  change (bool_decide ("" = "")) with true. cbn [negb].
  pose proof (Hdevice 0%nat ltac:(lia)) as H0.
  pose proof (Hdevice 1%nat ltac:(lia)) as H1.
  pose proof (Hdevice 2%nat ltac:(lia)) as H2.
  destruct c as [[[script next] textures] ok]. cbn in *.
  destruct script as [|hr0 [|hr1 [|hr2 script]]]; cbn in *;
    rewrite ?H0, ?H1, ?H2; cbn;
    destruct (texture_format_of info); cbn; eexists; repeat split.
Qed.

Lemma visit_texture_views_witness :
  exists t,
    _textures (_runtime (visit_texture (tex_info "t" "" 4 4) (fresh_compiler [])))
    = [t]
    /\ srv1 t = Some {| view_handle := 102; view_resource := 100 |}.
Proof.
  destruct (visit_texture_views (tex_info "t" "" 4 4) (fresh_compiler []))
    as (t & Htextures & _ & _ & Hsrv1 & _).
  - reflexivity.
  - reflexivity.
  - intros [|[|[|i]]] Hi; reflexivity.
  - exists t. split; [exact Htextures|exact Hsrv1].
Defined.

(** *** Binding slots *)
Lemma slot_insert {A} (l : list A) (d x : A) (slot : nat) :
  let l' := <[slot := x]> (resize (length l `max` S slot) d l) in
  length l' = (length l `max` S slot)%nat
  /\ l' !! slot = Some x
  /\ forall j, j <> slot ->
       ((j < length l)%nat -> l' !! j = l !! j)
       /\ ((length l <= j < length l')%nat -> l' !! j = Some d).
Proof.
  intros l'. subst l'.
  assert (Hlen : length (<[slot := x]> (resize (length l `max` S slot) d l))
                 = (length l `max` S slot)%nat)
    by (rewrite length_insert; apply length_resize).
  split; [exact Hlen|]. split.
  - apply list_lookup_insert_eq. rewrite length_resize. lia.
  - intros j Hj. rewrite Hlen. split; intros Hlt.
    + rewrite list_lookup_insert_ne by congruence.
      rewrite lookup_resize by lia. reflexivity.
    + rewrite list_lookup_insert_ne by congruence.
      rewrite lookup_resize_new by lia. reflexivity.
Qed.

(** X15.  [visit_sampler] on a registered texture, with a binding below
    2^32 - 1, has defined behaviour.  Unless the sampler state cannot be
    created, which is an error that leaves the slots alone, both slot
    vectors grow to hold the binding, the slot of the binding takes the
    sampler state and the view of the texture chosen by [srgb], the slots
    that were there keep their entries and the slots in between are
    null. *)
Theorem visit_sampler_slots (SIZE_BITS : Z) (info : sampler_info) (c : compiler)
    (position : nat) (t : texture)
    (Hfound : find_texture (_runtime c) (sampler_texture_name info)
              = Some (position, t))
    (Hbinding : 0 <= sampler_binding info < 2 ^ 32 - 1) :
  let slot := Z.to_nat (sampler_binding info) in
  exists c',
    visit_sampler SIZE_BITS info c = Some c'
    /\ ((_success c' = false
         /\ _sampler_bindings c' = _sampler_bindings c
         /\ _texture_bindings c' = _texture_bindings c)
        \/ (_success c' = _success c
            /\ length (_sampler_bindings c')
               = (length (_sampler_bindings c) `max` S slot)%nat
            /\ length (_texture_bindings c')
               = (length (_texture_bindings c) `max` S slot)%nat
            /\ _texture_bindings c' !! slot = Some (srv t (sampler_srgb info))
            /\ (exists sampler,
                   _sampler_bindings c' !! slot = Some (Some sampler)
                   /\ _effect_sampler_states (_runtime c')
                        !! desc_hash SIZE_BITS (sampler_desc info)
                      = Some sampler)
            /\ (forall j, j <> slot ->
                  ((j < length (_sampler_bindings c))%nat ->
                   _sampler_bindings c' !! j = _sampler_bindings c !! j)
                  /\ ((length (_sampler_bindings c) <= j
                       < length (_sampler_bindings c'))%nat ->
                      _sampler_bindings c' !! j = Some None)
                  /\ ((j < length (_texture_bindings c))%nat ->
                      _texture_bindings c' !! j = _texture_bindings c !! j)
                  /\ ((length (_texture_bindings c) <= j
                       < length (_texture_bindings c'))%nat ->
                      _texture_bindings c' !! j = Some None)))).
Proof.
  intros slot. unfold visit_sampler. rewrite Hfound.
  generalize (desc_hash SIZE_BITS (sampler_desc info)). intros key.
  assert (Hslots : Z.to_nat (u32 (sampler_binding info + 1)) = S slot).
  { unfold u32. rewrite Z.mod_small by lia. subst slot. lia. }
  rewrite Hslots.
  assert (Hbound : forall {A} (l : list A) (d : A),
            bool_decide (Z.to_nat (sampler_binding info)
                         < length (resize (length l `max` S slot) d l))%nat = true).
  { intros A l d. apply bool_decide_eq_true. rewrite length_resize. subst slot. lia. }
  assert (Hbind : forall sampler c0,
            _sampler_bindings c0 = _sampler_bindings c ->
            _texture_bindings c0 = _texture_bindings c ->
            _success c0 = _success c ->
            _effect_sampler_states (_runtime c0) !! key = Some sampler ->
            exists c',
              (if bool_decide
                    (Z.to_nat (sampler_binding info)
                     < length (resize (length (_texture_bindings c0) `max` S slot)
                                 None (_texture_bindings c0)))%nat
                  && bool_decide
                       (Z.to_nat (sampler_binding info)
                        < length (resize (length (_sampler_bindings c0) `max` S slot)
                                    None (_sampler_bindings c0)))%nat
               then Some (set_bindings
                            (<[Z.to_nat (sampler_binding info) := Some sampler]>
                               (resize (length (_sampler_bindings c0) `max` S slot)
                                  None (_sampler_bindings c0)))
                            (<[Z.to_nat (sampler_binding info)
                               := srv t (sampler_srgb info)]>
                               (resize (length (_texture_bindings c0) `max` S slot)
                                  None (_texture_bindings c0)))
                            c0)
               else None) = Some c'
              /\ _success c' = _success c
              /\ length (_sampler_bindings c')
                 = (length (_sampler_bindings c) `max` S slot)%nat
              /\ length (_texture_bindings c')
                 = (length (_texture_bindings c) `max` S slot)%nat
              /\ _texture_bindings c' !! slot = Some (srv t (sampler_srgb info))
              /\ (exists sampler,
                     _sampler_bindings c' !! slot = Some (Some sampler)
                     /\ _effect_sampler_states (_runtime c') !! key = Some sampler)
              /\ (forall j, j <> slot ->
                    ((j < length (_sampler_bindings c))%nat ->
                     _sampler_bindings c' !! j = _sampler_bindings c !! j)
                    /\ ((length (_sampler_bindings c) <= j
                         < length (_sampler_bindings c'))%nat ->
                        _sampler_bindings c' !! j = Some None)
                    /\ ((j < length (_texture_bindings c))%nat ->
                        _texture_bindings c' !! j = _texture_bindings c !! j)
                    /\ ((length (_texture_bindings c) <= j
                         < length (_texture_bindings c'))%nat ->
                        _texture_bindings c' !! j = Some None))).
  { intros sampler c0 Hs Ht Hok Hstate. rewrite !Hbound. cbn [andb].
    eexists. split; [reflexivity|].
    cbn [_success _sampler_bindings _texture_bindings set_bindings _runtime].
    rewrite Hs, Ht. fold slot.
    destruct (slot_insert (_sampler_bindings c) None (Some sampler) slot)
      as (Hl1 & Hx1 & Hj1).
    destruct (slot_insert (_texture_bindings c) None (srv t (sampler_srgb info)) slot)
      as (Hl2 & Hx2 & Hj2).
    split; [exact Hok|]. split; [exact Hl1|]. split; [exact Hl2|].
    split; [exact Hx2|]. split; [exists sampler; split; [exact Hx1|exact Hstate]|].
    intros j Hj. destruct (Hj1 j Hj) as [Ha Hb]. destruct (Hj2 j Hj) as [Hc Hd].
    repeat split; assumption. }
  destruct (_effect_sampler_states (_runtime c) !! key) as [sampler|] eqn:Hstate.
  - destruct (Hbind sampler c eq_refl eq_refl eq_refl Hstate) as (c' & Hrun & Hfacts).
    exists c'. split; [exact Hrun|]. right. exact Hfacts.
  - destruct (create c) as [[hr handle] c0] eqn:Hcreate.
    assert (Hdev : only_device c c0).
    { pose proof (only_device_create c) as H. rewrite Hcreate in H. exact H. }
    destruct (FAILED hr).
    + eexists. split; [reflexivity|]. left. rewrite Hdev. repeat split.
    + match goal with
      | |- context [set_runtime ?r c0] =>
          destruct (Hbind handle (set_runtime r c0)) as (c' & Hrun & Hfacts)
      end.
      * rewrite Hdev. reflexivity.
      * rewrite Hdev. reflexivity.
      * rewrite Hdev. reflexivity.
      * cbn. apply lookup_insert_eq.
      * exists c'. split; [exact Hrun|]. right. exact Hfacts.
Qed.

Lemma visit_sampler_slots_witness :
  exists c',
    visit_sampler 64 (smp_info "t" 2 true) registered_twice = Some c'
    /\ length (_texture_bindings c') = 3%nat.
Proof.
  assert (Hfound : exists t, find_texture (_runtime registered_twice) "t" = Some (0%nat, t))
    by (eexists; vm_compute; reflexivity).
  destruct Hfound as [t Hfound].
  destruct (visit_sampler_slots 64 (smp_info "t" 2 true) registered_twice 0%nat t Hfound)
    as (c' & Hrun & [(Hfail & _) | (_ & _ & Hlen & _)]).
  - vm_compute. split; [discriminate|reflexivity].
  - exfalso. vm_compute in Hrun. injection Hrun as <-. discriminate Hfail.
  - exists c'. split; [exact Hrun|exact Hlen].
Defined.

Lemma append_assoc (a b d : string) : (a +:+ b) +:+ d = a +:+ (b +:+ d).
Proof.
  induction a as [|x a IH]; [reflexivity|].
  change (String x ((a +:+ b) +:+ d) = String x (a +:+ (b +:+ d))).
  f_equal. exact IH.
Qed.

Lemma append_nil_r (a : string) : a +:+ "" = a.
Proof.
  induction a as [|x a IH]; [reflexivity|].
  change (String x (a +:+ "") = String x a). f_equal. exact IH.
Qed.

Lemma reports_same c c' :
  _success c' = _success c -> _errors c' = _errors c -> reports c c'.
Proof.
  intros Hs He. split; [congruence|]. exists "". rewrite append_nil_r. exact He.
Qed.

Lemma reports_refl c : reports c c.
Proof. apply reports_same; reflexivity. Qed.

Lemma reports_trans c1 c2 c3 : reports c1 c2 -> reports c2 c3 -> reports c1 c3.
Proof.
  intros [Hs1 [m1 He1]] [Hs2 [m2 He2]]. split; [auto|].
  exists (m1 +:+ m2). rewrite He2, He1. apply append_assoc.
Qed.

Lemma reports_error message c : reports c (error message c).
Proof. split; [reflexivity|]. eexists. reflexivity. Qed.

Lemma reports_warning message c : reports c (warning message c).
Proof. split; [intros H; exact H|]. eexists. reflexivity. Qed.

Lemma reports_append text c : reports c (append_errors text c).
Proof. split; [intros H; exact H|]. eexists. reflexivity. Qed.

Lemma reports_only_device c c' : only_device c c' -> reports c c'.
Proof. intros ->. apply reports_same; reflexivity. Qed.

Lemma reports_create c : reports c (create c).2.
Proof. apply reports_only_device, only_device_create. Qed.

Lemma visit_texture_reports info c : reports c (visit_texture info c).
Proof.
  destruct (find_texture (_runtime c) (texture_unique_name info)) as [[i t]|] eqn:Hfind.
  - unfold visit_texture. rewrite Hfind.
    destruct (_ && _); [apply reports_error|apply reports_refl].
  - destruct (visit_texture_new_cases info c Hfind)
      as (c0 & Hdev & [[message ->] | (t & -> & _)]).
    + eapply reports_trans; [apply reports_only_device, Hdev|apply reports_error].
    + eapply reports_trans; [apply reports_only_device, Hdev|].
      apply reports_same; reflexivity.
Qed.

Lemma visit_sampler_reports bits info c c' :
  visit_sampler bits info c = Some c' -> reports c c'.
Proof.
  unfold visit_sampler.
  destruct (find_texture _ _) as [[i t]|]; [|intros [= <-]; apply reports_refl].
  generalize (desc_hash bits (sampler_desc info)). intros key.
  destruct (_effect_sampler_states (_runtime c) !! key) as [sampler|].
  - destruct (_ && _); [|discriminate]. intros [= <-].
    apply reports_same; reflexivity.
  - pose proof (reports_create c) as Hcreate.
    destruct (create c) as [[hr handle] c0]. cbn [snd] in Hcreate.
    destruct (FAILED hr).
    + intros [= <-]. eapply reports_trans; [exact Hcreate|apply reports_error].
    + destruct (_ && _); [|discriminate]. intros [= <-].
      eapply reports_trans; [exact Hcreate|]. apply reports_same; reflexivity.
Qed.

Lemma compile_entry_point_reports D3DCompile hlsl entry is_ps c :
  reports c (compile_entry_point D3DCompile hlsl entry is_ps c).
Proof.
  unfold compile_entry_point. destruct (D3DCompile hlsl entry is_ps) as [hr errors].
  assert (H1 : reports c match errors with
                         | Some text => append_errors text c
                         | None => c
                         end)
    by (destruct errors; [apply reports_append|apply reports_refl]).
  eapply reports_trans; [exact H1|]. clear H1.
  generalize (match errors with Some text => append_errors text c | None => c end).
  intros c1. destruct (FAILED hr); [apply reports_error|].
  pose proof (reports_create c1) as Hcreate.
  destruct (create c1) as [[hr1 handle] c2]. cbn [snd] in Hcreate.
  eapply reports_trans; [exact Hcreate|].
  destruct is_ps, (FAILED hr1);
    first [ apply reports_same; reflexivity
          | eapply reports_trans; [|apply reports_error]; apply reports_same; reflexivity ].
Qed.

Lemma outcome_create c :
  _success (create c).2 = _success c /\ reports c (create c).2.
Proof. split; [reflexivity|apply reports_create]. Qed.

Lemma bind_render_target_outcome pass_info k pass c :
  outcome c (bind_render_target pass_info k pass c).
Proof.
  unfold bind_render_target.
  case_bool_decide; [split; [reflexivity|apply reports_refl]|].
  destruct (find_texture _ _) as [[position texture]|];
    [|split; [reflexivity|apply reports_error]].
  destruct (impl_texture texture) as [desc|]; [|exact I].
  destruct (viewport_mismatch pass desc) as [[|]|];
    [split; [reflexivity|apply reports_error]| |exact I].
  destruct (rtv texture (srgb_write_enable pass_info)).
  - split; [reflexivity|apply reports_refl].
  - destruct (outcome_create c) as [Hs Hr].
    destruct (create c) as [[hr handle] c1]. cbn [snd] in Hs, Hr.
    destruct (FAILED hr); cbn [outcome].
    + split; [exact Hs|]. eapply reports_trans; [exact Hr|apply reports_warning].
    + split; [exact Hs|]. eapply reports_trans; [exact Hr|].
      apply reports_same; reflexivity.
Qed.

Lemma outcome_then {B} c c1 (s : step B) :
  _success c1 = _success c -> reports c c1 -> outcome c1 s -> outcome c s.
Proof.
  intros Hs Hr. destruct s as [b c2|c2|]; cbn; [| |auto].
  - intros [Hs2 Hr2]. split; [congruence|eapply reports_trans; eassumption].
  - intros [Hs2 Hr2]. split; [assumption|eapply reports_trans; eassumption].
Qed.

Lemma bind_render_targets_outcome pass_info ks :
  forall pass c, outcome c (bind_render_targets pass_info ks pass c).
Proof.
  induction ks as [|k ks IH]; intros pass c; cbn [bind_render_targets].
  - split; [reflexivity|apply reports_refl].
  - pose proof (bind_render_target_outcome pass_info k pass c) as Hstep.
    destruct (bind_render_target pass_info k pass c) as [p1 c1|c1|];
      [|exact Hstep|exact I].
    destruct Hstep as [Hs Hr]. eapply outcome_then; [exact Hs|exact Hr|].
    apply IH.
Qed.

Lemma build_pass_outcome NDEBUG pass_info c :
  outcome c (build_pass NDEBUG pass_info c).
Proof.
  unfold build_pass.
  destruct (subscript (vs_entry_points c) (vs_entry_point pass_info)) as [vs m1].
  destruct (negb NDEBUG && negb (bool_decide (is_Some vs))); [exact I|].
  destruct (subscript _ (ps_entry_point pass_info)) as [ps m2].
  destruct (negb NDEBUG && negb (bool_decide (is_Some ps))); [exact I|].
  set (c1 := set_ps_entry_points m2 (set_vs_entry_points m1 c)).
  eapply (outcome_then c c1);
    [reflexivity|apply reports_same; reflexivity|].
  pose proof (bind_render_targets_outcome pass_info (seq 0 8)
                (new_pass pass_info vs ps c1) c1) as Hloop.
  change (set_ps_entry_points m2 (set_vs_entry_points m1 c)) with c1.
  destruct (bind_render_targets _ _ _ c1) as [p2 c2|c2|]; [|exact Hloop|exact I].
  destruct Hloop as [Hs2 Hr2].
  eapply (outcome_then c1 c2); [exact Hs2|exact Hr2|].
  destruct (outcome_create c2) as [Hs3 Hr3].
  destruct (create c2) as [[hr3 handle3] c3]. cbn [snd] in Hs3, Hr3.
  set (c3' := if FAILED hr3 then warning _ c3 else c3).
  assert (H3 : _success c3' = _success c2 /\ reports c2 c3').
  { subst c3'. destruct (FAILED hr3).
    - split; [exact Hs3|eapply reports_trans; [exact Hr3|apply reports_warning]].
    - split; assumption. }
  destruct H3 as [Hs3' Hr3'].
  destruct (outcome_create c3') as [Hs4 Hr4].
  destruct (create c3') as [[hr4 handle4] c4]. cbn [snd] in Hs4, Hr4.
  cbn [outcome]. destruct (FAILED hr4).
  - split; [cbn; congruence|].
    eapply reports_trans; [exact Hr3'|].
    eapply reports_trans; [exact Hr4|apply reports_warning].
  - split; [congruence|]. eapply reports_trans; eassumption.
Qed.

Lemma build_passes_outcome NDEBUG infos :
  forall built c, outcome c (build_passes NDEBUG infos built c).
Proof.
  induction infos as [|pass_info infos IH]; intros built c; cbn [build_passes].
  - split; [reflexivity|apply reports_refl].
  - pose proof (build_pass_outcome NDEBUG pass_info c) as Hstep.
    destruct (build_pass NDEBUG pass_info c) as [p1 c1|c1|]; [|exact Hstep|exact I].
    destruct Hstep as [Hs Hr]. eapply outcome_then; [exact Hs|exact Hr|].
    apply IH.
Qed.

Lemma build_passes_length NDEBUG infos :
  forall built c built' c',
    build_passes NDEBUG infos built c = Continue built' c' ->
    length built' = (length built + length infos)%nat.
Proof.
  induction infos as [|pass_info infos IH]; intros built c built' c' H;
    cbn [build_passes] in H.
  - injection H as <- <-. cbn. lia.
  - destruct (build_pass NDEBUG pass_info c) as [p1 c1|c1|]; try discriminate.
    apply IH in H. rewrite H, length_app. cbn. lia.
Qed.

(** X16.  [visit_technique], when its behaviour is defined, either adds
    the technique, with one pass for each pass of the description and the
    failure flag as it was, or marks the module as failed and leaves the
    list of techniques as it is: a technique is never added in part. *)
Theorem visit_technique_all_or_nothing (NDEBUG : bool) (info : technique_info)
    (c c' : compiler)
    (Hrun : visit_technique NDEBUG info c = Some c') :
  (exists t,
      _techniques (_runtime c') = _techniques (_runtime c) ++ [t]
      /\ tech_name t = technique_name info
      /\ length (tech_passes t) = length (passes info)
      /\ _success c' = _success c)
  \/ (_techniques (_runtime c') = _techniques (_runtime c)
      /\ _success c' = false).
Proof.
  unfold visit_technique, create_query in Hrun.
  rewrite (create_next c) in Hrun.
  set (c1 := (create c).2) in *. rewrite (create_next c1) in Hrun.
  set (c2 := (create c1).2) in *. rewrite (create_next c2) in Hrun.
  set (c3 := (create c2).2) in *.
  pose proof (build_passes_outcome NDEBUG (passes info) [] c3) as Hout.
  destruct (build_passes NDEBUG (passes info) [] c3) as [built c4|c4|] eqn:Hpasses;
    [| |discriminate]; injection Hrun as <-.
  - left. eexists. split.
    { cbn [_techniques _runtime set_runtime add_technique set_techniques].
      rewrite (build_passes_techniques NDEBUG (passes info) [] c3 c4)
        by (rewrite Hpasses; reflexivity).
      reflexivity. }
    split; [reflexivity|]. split.
    + cbn. apply build_passes_length in Hpasses. exact Hpasses.
    + destruct Hout as [Hs _]. cbn. exact Hs.
  - right. destruct Hout as [Hs _]. split; [|exact Hs].
    apply (build_passes_techniques NDEBUG (passes info) [] c3).
    rewrite Hpasses. reflexivity.
Qed.

Lemma visit_technique_reports NDEBUG info c c' :
  visit_technique NDEBUG info c = Some c' -> reports c c'.
Proof.
  unfold visit_technique, create_query. intros Hrun.
  rewrite (create_next c) in Hrun.
  set (c1 := (create c).2) in *. rewrite (create_next c1) in Hrun.
  set (c2 := (create c1).2) in *. rewrite (create_next c2) in Hrun.
  set (c3 := (create c2).2) in *.
  assert (H3 : reports c c3).
  { eapply reports_trans; [apply (reports_create c)|].
    eapply reports_trans; [apply (reports_create c1)|apply (reports_create c2)]. }
  pose proof (build_passes_outcome NDEBUG (passes info) [] c3) as Hout.
  destruct (build_passes NDEBUG (passes info) [] c3) as [built c4|c4|];
    [| |discriminate]; injection Hrun as <-; destruct Hout as [_ Hr].
  - apply (reports_trans _ _ _ H3). apply (reports_trans _ _ _ Hr).
    apply reports_same; reflexivity.
  - exact (reports_trans _ _ _ H3 Hr).
Qed.

(** X17.  no step of the linker takes the failure flag back or drops text
    from the error log: after [visit_texture], [visit_sampler],
    [visit_technique] or [compile_entry_point] a module that had failed
    has still failed, and the error text begins with what it was. *)
Theorem linker_reports (NDEBUG : bool) (SIZE_BITS : Z)
    (D3DCompile : string -> string -> bool -> HRESULT * option string) :
  (forall info c, reports c (visit_texture info c))
  /\ (forall info c c', visit_sampler SIZE_BITS info c = Some c' -> reports c c')
  /\ (forall info c c', visit_technique NDEBUG info c = Some c' -> reports c c')
  /\ (forall hlsl entry_point is_ps c,
        reports c (compile_entry_point D3DCompile hlsl entry_point is_ps c)).
Proof.
  split; [exact visit_texture_reports|].
  split; [exact (visit_sampler_reports SIZE_BITS)|].
  split; [exact (visit_technique_reports NDEBUG)|].
  exact (compile_entry_point_reports D3DCompile).
Qed.

Lemma targets_found_evolves c0 c pass_info ks :
  linker_evolves c0 c -> targets_found c pass_info ks -> targets_found c0 pass_info ks.
Proof.
  intros Hev Hfound k Hk.
  destruct (Hfound k Hk) as [Hempty | (position & texture & desc & Hf & Hd)];
    [left; exact Hempty|right].
  destruct (linker_evolves_find _ _ _ _ _ Hev Hf) as (t0 & Hf0 & Hev0).
  exists position, t0, desc. split; [exact Hf0|].
  destruct Hev0 as (_ & _ & _ & Himpl & _). congruence.
Qed.

Lemma bind_render_targets_found pass_info ks :
  forall pass c pass' c',
    bind_render_targets pass_info ks pass c = Continue pass' c' ->
    targets_found c pass_info ks.
Proof.
  induction ks as [|k ks IH]; intros pass c pass' c' H; cbn [bind_render_targets] in H.
  - intros k Hk. apply elem_of_nil in Hk. contradiction.
  - destruct (bind_render_target pass_info k pass c) as [p1 c1| |] eqn:Hstep;
      try discriminate.
    apply bind_render_target_Continue in Hstep as (Hev1 & _ & Hslot).
    apply IH in H. apply (targets_found_evolves _ _ _ _ Hev1) in H.
    intros j Hj. apply elem_of_cons in Hj as [-> | Hj]; [|apply H, Hj].
    destruct Hslot as [(Hempty & _) | (_ & position & texture & desc & Hf
                                        & Hd & _)];
      [left; exact Hempty|right].
    exists position, texture, desc. auto.
Qed.

Lemma build_pass_found NDEBUG pass_info c pass c' :
  build_pass NDEBUG pass_info c = Continue pass c' ->
  targets_found c pass_info (seq 0 8).
Proof.
  unfold build_pass. intros H.
  destruct (subscript (vs_entry_points c) (vs_entry_point pass_info)) as [vs m1].
  destruct (negb NDEBUG && negb (bool_decide (is_Some vs))); [discriminate|].
  destruct (subscript _ (ps_entry_point pass_info)) as [ps m2].
  destruct (negb NDEBUG && negb (bool_decide (is_Some ps))); [discriminate|].
  set (c1 := set_ps_entry_points m2 (set_vs_entry_points m1 c)) in *.
  destruct (bind_render_targets _ _ _ _) as [p2 c2| |] eqn:Hloop; try discriminate.
  apply bind_render_targets_found in Hloop.
  apply (targets_found_evolves c c1); [|exact Hloop].
  repeat split; auto. apply registry_evolves_refl.
Qed.

Lemma build_passes_found NDEBUG infos :
  forall built c built' c',
    build_passes NDEBUG infos built c = Continue built' c' ->
    Forall (fun pass_info => targets_found c pass_info (seq 0 8)) infos.
Proof.
  induction infos as [|pass_info infos IH]; intros built c built' c' H;
    cbn [build_passes] in H; [constructor|].
  destruct (build_pass NDEBUG pass_info c) as [pass c1| |] eqn:Hpass; try discriminate.
  pose proof (build_pass_found _ _ _ _ _ Hpass) as Hfound.
  apply build_pass_Continue in Hpass as [Hev _].
  apply IH in H. constructor; [exact Hfound|].
  eapply Forall_impl; [exact H|]. intros x. apply targets_found_evolves. exact Hev.
Qed.

(** X18.  a technique with a pass that names, in one of its eight slots, a
    render target that is not a registered texture is not added, and the
    module is marked failed. *)
Theorem visit_technique_missing_target (NDEBUG : bool) (info : technique_info)
    (c c' : compiler) (pass_info : fx.pass_info) (k : nat)
    (Hrun : visit_technique NDEBUG info c = Some c')
    (Hpass : pass_info ∈ passes info)
    (Hslot : (k < 8)%nat)
    (Hnamed : nth k (render_target_names pass_info) "" <> "")
    (Hmissing : find_texture (_runtime c) (nth k (render_target_names pass_info) "")
                = None) :
  _techniques (_runtime c') = _techniques (_runtime c) /\ _success c' = false.
Proof.
  unfold visit_technique, create_query in Hrun.
  rewrite (create_next c) in Hrun.
  set (c1 := (create c).2) in *. rewrite (create_next c1) in Hrun.
  set (c2 := (create c1).2) in *. rewrite (create_next c2) in Hrun.
  set (c3 := (create c2).2) in *.
  pose proof (build_passes_outcome NDEBUG (passes info) [] c3) as Hout.
  destruct (build_passes NDEBUG (passes info) [] c3) as [built c4|c4|] eqn:Hpasses;
    [| |discriminate]; injection Hrun as <-.
  - exfalso. apply build_passes_found in Hpasses.
    rewrite Forall_forall in Hpasses. specialize (Hpasses pass_info Hpass k).
    destruct Hpasses as [Hempty | (position & texture & desc & Hf & _)].
    + apply elem_of_seq. lia.
    + contradiction.
    + unfold find_texture in *. cbn in Hf. congruence.
  - destruct Hout as [Hs _]. split; [|exact Hs].
    apply (build_passes_techniques NDEBUG (passes info) [] c3).
    rewrite Hpasses. reflexivity.
Qed.

Lemma visit_technique_all_or_nothing_witness :
  exists t,
    _techniques (_runtime hazard_end) = _techniques (_runtime hazard_start) ++ [t]
    /\ tech_name t = "T" /\ length (tech_passes t) = 1%nat.
Proof.
  destruct (visit_technique_all_or_nothing true hazard_technique hazard_start
              hazard_end) as [(t & Hadded & Hname & Hlen & _) | [Hsame _]].
  - vm_compute. reflexivity.
  - exists t. auto.
  - vm_compute in Hsame. discriminate Hsame.
Defined.

Lemma visit_technique_missing_target_witness :
  _techniques (_runtime missing_end) = _techniques (_runtime hazard_start)
  /\ _success missing_end = false.
Proof.
  apply (visit_technique_missing_target true missing_technique hazard_start
           missing_end (rt_pass ["u"] false) 0%nat).
  - vm_compute. reflexivity.
  - left.
  - lia.
  - discriminate.
  - vm_compute. reflexivity.
Defined.

Lemma to_FLOAT_small n : n < 2 ^ 24 -> to_FLOAT n = n.
Proof.
  intros Hn. unfold to_FLOAT.
  assert (He : Z.max 0 (Z.log2 n - 23) = 0).
  { destruct (Z.le_gt_cases n 0) as [Hle|Hpos].
    - rewrite Z.log2_nonpos by exact Hle. reflexivity.
    - apply Z.log2_lt_pow2 in Hn; lia. }
  rewrite He. change (2 ^ 0) with 1. rewrite Z.div_1_r, Z.mod_1_r.
  change (2 * 0) with 0. change (1 <? 0) with false. change (1 =? 0) with false.
  cbn [orb andb]. lia.
Qed.

Lemma to_FLOAT_exponent n e q :
  Z.max 0 (Z.log2 n - 23) = e -> n = q * 2 ^ e -> 0 <= e -> to_FLOAT n = n.
Proof.
  intros He Hn Hpos. unfold to_FLOAT. rewrite He.
  assert (Hpow : 0 < 2 ^ e) by (apply Z.pow_pos_nonneg; lia).
  rewrite Hn, Z.div_mul, Z.mod_mul by lia.
  change (2 * 0) with 0.
  rewrite (proj2 (Z.ltb_ge _ _)) by lia. rewrite (proj2 (Z.eqb_neq _ _)) by lia.
  reflexivity.
Qed.

Lemma to_FLOAT_scaled q e :
  0 <= e -> 2 ^ 23 <= q <= 2 ^ 24 -> to_FLOAT (q * 2 ^ e) = q * 2 ^ e.
Proof.
  intros He Hq.
  assert (Hpow : 0 < 2 ^ e) by (apply Z.pow_pos_nonneg; lia).
  assert (Hlog : Z.log2 (q * 2 ^ e) = e + Z.log2 q) by (apply Z.log2_mul_pow2; lia).
  destruct (Z.eq_dec q (2 ^ 24)) as [->|Hne].
  - change (Z.log2 (2 ^ 24)) with 24 in Hlog.
    apply (to_FLOAT_exponent _ (e + 1) (2 ^ 23)); [lia| |lia].
    rewrite Z.pow_add_r by lia. change (2 ^ 1) with 2.
    change (2 ^ 24) with (2 ^ 23 * 2). lia.
  - assert (Hq23 : Z.log2 q = 23) by (apply Z.log2_unique; lia).
    apply (to_FLOAT_exponent _ e q); [lia|reflexivity|lia].
Qed.

Lemma to_FLOAT_large n :
  2 ^ 24 <= n ->
  exists q e, 0 <= e /\ 2 ^ 23 <= q <= 2 ^ 24 /\ to_FLOAT n = q * 2 ^ e.
Proof.
  intros Hn.
  assert (Hpos : 0 < n) by lia.
  pose proof (Z.log2_spec n Hpos) as [Hlow Hhigh].
  assert (Hlog : 24 <= Z.log2 n) by (apply Z.log2_le_pow2; lia).
  unfold to_FLOAT.
  replace (Z.max 0 (Z.log2 n - 23)) with (Z.log2 n - 23) by lia.
  set (e := Z.log2 n - 23) in *.
  assert (Hpow : 0 < 2 ^ e) by (apply Z.pow_pos_nonneg; lia).
  assert (Hsplit : 2 ^ Z.log2 n = 2 ^ 23 * 2 ^ e)
    by (rewrite <- Z.pow_add_r by lia; f_equal; lia).
  assert (Hsplit' : 2 ^ Z.succ (Z.log2 n) = 2 ^ 24 * 2 ^ e)
    by (rewrite <- Z.pow_add_r by lia; f_equal; lia).
  assert (Hq : 2 ^ 23 <= n / 2 ^ e < 2 ^ 24).
  { split.
    - apply Z.div_le_lower_bound; lia.
    - apply Z.div_lt_upper_bound; lia. }
  eexists _, e. split; [lia|]. split; [|reflexivity].
  destruct (_ || _); lia.
Qed.

Lemma to_FLOAT_idem n : to_FLOAT (to_FLOAT n) = to_FLOAT n.
Proof.
  destruct (Z.lt_ge_cases n (2 ^ 24)) as [Hsmall|Hlarge].
  - rewrite (to_FLOAT_small n Hsmall). apply to_FLOAT_small. exact Hsmall.
  - destruct (to_FLOAT_large n Hlarge) as (q & e & He & Hq & ->).
    apply to_FLOAT_scaled; assumption.
Qed.

Lemma to_FLOAT_zero n : to_FLOAT n = 0 <-> n = 0.
Proof.
  destruct (Z.lt_ge_cases n (2 ^ 24)) as [Hsmall|Hlarge].
  - rewrite (to_FLOAT_small n Hsmall). reflexivity.
  - destruct (to_FLOAT_large n Hlarge) as (q & e & He & Hq & ->).
    assert (Hpow : 0 < 2 ^ e) by (apply Z.pow_pos_nonneg; lia).
    split; [nia|lia].
Qed.

Lemma bind_render_target_viewport pass_info k pass c pass' c' :
  bind_render_target pass_info k pass c = Continue pass' c' ->
  frame c' = frame c
  /\ ((nth k (render_target_names pass_info) "" = "" /\ pass' = pass)
      \/ (nth k (render_target_names pass_info) "" <> ""
          /\ exists position texture desc,
               find_texture (_runtime c) (nth k (render_target_names pass_info) "")
               = Some (position, texture)
               /\ impl_texture texture = Some desc
               /\ viewport_mismatch pass desc = Some false
               /\ viewport pass' = as_FLOAT (extent desc))).
Proof.
  unfold bind_render_target. intros H.
  case_bool_decide as Hname.
  { injection H as <- <-. split; [reflexivity|]. left. auto. }
  destruct (find_texture _ _) as [[position texture]|] eqn:Hfound; [|discriminate].
  destruct (impl_texture texture) as [desc|] eqn:Hdesc; [|discriminate].
  destruct (viewport_mismatch pass desc) as [[|]|] eqn:Hmis; try discriminate.
  enough (Hboth : frame c' = frame c /\ viewport pass' = as_FLOAT (extent desc)).
  { destruct Hboth as [Hf Hv]. split; [exact Hf|]. right. split; [exact Hname|].
    exists position, texture, desc. auto. }
  destruct (rtv texture (srgb_write_enable pass_info)) as [cached|] eqn:Hrtv.
  - rewrite Hrtv in H. injection H as <- <-. split; reflexivity.
  - rewrite create_next in H.
    destruct (FAILED _).
    + rewrite Hrtv in H. injection H as <- <-. split; reflexivity.
    + injection H as <- <-. split; reflexivity.
Qed.

Lemma viewport_mismatch_false pass desc :
  viewport_mismatch pass desc = Some false ->
  viewport_Width pass <> 0 -> viewport_Height pass <> 0 ->
  extent desc = viewport pass.
Proof.
  unfold viewport_mismatch, to_unsigned, extent, viewport. intros H Hw Hh.
  apply Z.eqb_neq in Hw, Hh. rewrite Hw, Hh in H. cbn [negb andb] in H.
  destruct ((0 <=? viewport_Width pass) && (viewport_Width pass <? 2 ^ 32));
    [|discriminate].
  destruct (desc_Width desc =? viewport_Width pass) eqn:H1; [|discriminate].
  cbn [negb] in H.
  destruct ((0 <=? viewport_Height pass) && (viewport_Height pass <? 2 ^ 32));
    [|discriminate].
  injection H as H2. apply negb_false_iff in H2.
  apply Z.eqb_eq in H1, H2. congruence.
Qed.

Lemma bind_render_targets_viewport pass_info ks :
  forall pass c pass' c',
    bind_render_targets pass_info ks pass c = Continue pass' c' ->
    frame c' = frame c
    /\ (viewport_Width pass <> 0 -> viewport_Height pass <> 0 ->
        as_FLOAT (viewport pass) = viewport pass ->
        viewport pass' = viewport pass)
    /\ (forall k position texture desc,
          k ∈ ks ->
          nth k (render_target_names pass_info) "" <> "" ->
          find_texture (_runtime c) (nth k (render_target_names pass_info) "")
          = Some (position, texture) ->
          impl_texture texture = Some desc ->
          desc_Width desc <> 0 -> desc_Height desc <> 0 ->
          viewport pass' = as_FLOAT (extent desc)).
Proof.
  induction ks as [|k0 ks IH]; intros pass c pass' c' H; cbn [bind_render_targets] in H.
  - injection H as <- <-. split; [reflexivity|]. split; [reflexivity|].
    intros k ? ? ? Hk. apply elem_of_nil in Hk. contradiction.
  - destruct (bind_render_target pass_info k0 pass c) as [p1 c1| |] eqn:Hstep;
      try discriminate.
    pose proof (bind_render_target_Continue _ _ _ _ _ _ Hstep) as (Hev & _).
    apply bind_render_target_viewport in Hstep as (Hframe1 & Hslot).
    apply IH in H as (Hframe & Hsticky & Hnamed).
    split; [congruence|]. split.
    + intros Hw Hh Hfixed.
      destruct Hslot as [(_ & ->) | (_ & position & texture & desc & _ & _ & Hmis & Hv)];
        [auto|].
      pose proof (viewport_mismatch_false _ _ Hmis Hw Hh) as Hsame.
      rewrite Hsame, Hfixed in Hv. rewrite <- Hv. apply Hsticky.
      * unfold viewport in Hv. congruence.
      * unfold viewport in Hv. congruence.
      * rewrite Hv. exact Hfixed.
    + intros k position texture desc Hk Hname Hfound Hdesc Hw Hh.
      apply elem_of_cons in Hk as [-> | Hk].
      * destruct Hslot as [(Hempty & _)
                          | (_ & position1 & texture1 & desc1 & Hfound1 & Hdesc1 & _ & Hv)];
          [contradiction|].
        assert (desc1 = desc) as -> by congruence.
        rewrite <- Hv. unfold viewport, as_FLOAT, extent in Hv. cbn [fst snd] in Hv.
        injection Hv as Hvw Hvh.
        apply Hsticky.
        -- rewrite Hvw. rewrite to_FLOAT_zero. exact Hw.
        -- rewrite Hvh. rewrite to_FLOAT_zero. exact Hh.
        -- unfold as_FLOAT, viewport. cbn [fst snd].
           rewrite Hvw, Hvh, !to_FLOAT_idem. reflexivity.
      * destruct Hev as (_ & _ & _ & _ & _ & _ & Hreg).
        pose proof (find_texture_evolves (_runtime c) (_runtime c1)
                      (nth k (render_target_names pass_info) "") Hreg) as Hlater.
        rewrite Hfound in Hlater. destruct Hlater as (texture' & Hfound' & Htex).
        destruct Htex as (_ & _ & _ & Himpl & _).
        apply (Hnamed k position texture' desc); auto. congruence.
Qed.

Lemma build_pass_viewport NDEBUG pass_info c pass c' :
  build_pass NDEBUG pass_info c = Continue pass c' ->
  frame c' = frame c /\ viewport_chosen c pass_info pass.
Proof.
  unfold build_pass. intros H.
  destruct (subscript (vs_entry_points c) (vs_entry_point pass_info)) as [vs m1].
  destruct (negb NDEBUG && negb (bool_decide (is_Some vs))); [discriminate|].
  destruct (subscript _ (ps_entry_point pass_info)) as [ps m2].
  destruct (negb NDEBUG && negb (bool_decide (is_Some ps))); [discriminate|].
  set (c1 := set_ps_entry_points m2 (set_vs_entry_points m1 c)) in *.
  destruct (bind_render_targets _ _ _ _) as [p2 c2| |] eqn:Hloop; try discriminate.
  rewrite (create_next c2) in H.
  set (c3 := if FAILED (hd 0 (script (_device (_runtime c2))))
             then warning _ (create c2).2 else (create c2).2) in *.
  rewrite (create_next c3) in H.
  assert (Hc3 : frame c3 = frame c2) by (subst c3; destruct (FAILED _); reflexivity).
  injection H as <- <-.
  pose proof (bind_render_targets_Continue _ _ _ _ _ _ Hloop) as (_ & _ & _ & Hempty).
  apply bind_render_targets_viewport in Hloop as (Hframe & _ & Hnamed).
  split.
  { destruct (FAILED (hd 0 (script (_device (_runtime c3)))));
      (transitivity (frame c2); [exact Hc3|exact Hframe]). }
  change (viewport (set_states ?d ?b ?r ?p)) with (viewport p).
  split.
  - intros Hall. rewrite Hempty by (intros k Hk; apply Hall; apply elem_of_seq in Hk; lia).
    cbn. unfold frame in Hframe. injection Hframe as -> ->. reflexivity.
  - intros k position texture desc Hk Hname Hfound Hdesc Hw Hh.
    assert (Hv : viewport p2 = as_FLOAT (extent desc)).
    { apply (Hnamed k position texture desc); auto. apply elem_of_seq. lia. }
    unfold viewport, as_FLOAT, extent in Hv. cbn [fst snd] in Hv.
    injection Hv as Hvw Hvh.
    assert (Hnz : (viewport_Width p2 =? 0) = false).
    { apply Z.eqb_neq. rewrite Hvw. intros Hz.
      exact (Hw (proj1 (to_FLOAT_zero _) Hz)). }
    rewrite Hnz. cbn [andb]. unfold viewport, as_FLOAT, extent.
    cbn [fst snd viewport_Width viewport_Height set_states].
    rewrite Hvw, Hvh. reflexivity.
Qed.

Lemma viewport_chosen_evolves c0 c pass_info pass :
  linker_evolves c0 c -> frame c = frame c0 ->
  viewport_chosen c pass_info pass -> viewport_chosen c0 pass_info pass.
Proof.
  intros Hev Hframe [Hnone Hnamed]. split.
  - intros Hall. rewrite <- Hframe. auto.
  - intros k position texture desc Hk Hname Hfound Hdesc Hw Hh.
    destruct Hev as (_ & _ & _ & _ & _ & _ & Hreg).
    pose proof (find_texture_evolves (_runtime c0) (_runtime c)
                  (nth k (render_target_names pass_info) "") Hreg) as Hlater.
    rewrite Hfound in Hlater. destruct Hlater as (texture' & Hfound' & Htex).
    destruct Htex as (_ & _ & _ & Himpl & _).
    apply (Hnamed k position texture' desc); auto. congruence.
Qed.

Lemma build_passes_viewport NDEBUG infos :
  forall built c built' c',
    build_passes NDEBUG infos built c = Continue built' c' ->
    exists new, built' = built ++ new /\ Forall2 (viewport_chosen c) infos new.
Proof.
  induction infos as [|pass_info infos IH]; intros built c built' c' H;
    cbn [build_passes] in H.
  - injection H as <- <-. exists []. rewrite app_nil_r. split; [reflexivity|constructor].
  - destruct (build_pass NDEBUG pass_info c) as [pass c1| |] eqn:Hpass;
      try discriminate.
    pose proof (build_pass_Continue _ _ _ _ _ Hpass) as [Hev _].
    apply build_pass_viewport in Hpass as [Hframe Hchosen].
    apply IH in H as (new & -> & Hnew).
    exists (pass :: new). rewrite <- app_assoc. split; [reflexivity|].
    constructor; [assumption|].
    eapply Forall2_impl; [exact Hnew|].
    intros x y. apply viewport_chosen_evolves; assumption.
Qed.

(** X19.  every pass of a technique that [visit_technique] adds has for
    viewport the size of the frame when it names no render target, and
    the size of any render-target texture it names that has a width and
    a height, each number converted to [FLOAT]: kept when it is below
    2^24, rounded to 24 significant bits otherwise.  All render targets
    of a pass that have a width and a height therefore have one size as
    [FLOAT]s. *)
Theorem visit_technique_viewport (NDEBUG : bool) (info : technique_info)
    (c c' : compiler) (t : technique)
    (Hrun : visit_technique NDEBUG info c = Some c')
    (Hadded : _techniques (_runtime c') = _techniques (_runtime c) ++ [t]) :
  Forall2 (viewport_chosen c) (passes info) (tech_passes t)
  /\ (forall n, n < 2 ^ 24 -> to_FLOAT n = n)
  /\ (forall n, 2 ^ 24 <= n ->
        exists q e, 0 <= e /\ 2 ^ 23 <= q <= 2 ^ 24 /\ to_FLOAT n = q * 2 ^ e).
Proof.
  split; [|split; [exact to_FLOAT_small|exact to_FLOAT_large]].
  unfold visit_technique, create_query in Hrun.
  rewrite (create_next c) in Hrun.
  set (c1 := (create c).2) in *. rewrite (create_next c1) in Hrun.
  set (c2 := (create c1).2) in *. rewrite (create_next c2) in Hrun.
  set (c3 := (create c2).2) in *.
  assert (Hc3 : linker_evolves c c3).
  { eapply linker_evolves_trans; [apply (linker_evolves_create c)|].
    eapply linker_evolves_trans; [apply (linker_evolves_create c1)|].
    apply (linker_evolves_create c2). }
  assert (Hf3 : frame c3 = frame c) by reflexivity.
  destruct (build_passes NDEBUG (passes info) [] c3) as [built c4|c4|] eqn:Hpasses;
    [| |discriminate]; injection Hrun as <-.
  - pose proof (build_passes_techniques NDEBUG (passes info) [] c3 c4) as Htech.
    rewrite Hpasses in Htech. specialize (Htech eq_refl).
    apply build_passes_viewport in Hpasses as (new & -> & Hnew).
    cbn in Hadded. rewrite Htech in Hadded.
    destruct Hc3 as (Hb & Hr0 & Hr1 & Hs0 & Hs1 & Htech3 & Hreg).
    rewrite Htech3 in Hadded. apply app_inv_head in Hadded.
    injection Hadded as <-. cbn.
    eapply Forall2_impl; [exact Hnew|].
    intros x y. apply viewport_chosen_evolves; [repeat split; assumption|exact Hf3].
  - exfalso.
    assert (Hlen : length (_techniques (_runtime c4))
                   = S (length (_techniques (_runtime c))))
      by (rewrite Hadded, length_app; cbn; lia).
    enough (Hsame : _techniques (_runtime c4) = _techniques (_runtime c))
      by (rewrite Hsame in Hlen; lia).
    destruct Hc3 as (_ & _ & _ & _ & _ & <- & _).
    apply (build_passes_techniques NDEBUG (passes info) [] c3).
    rewrite Hpasses. reflexivity.
Qed.

Lemma visit_technique_viewport_witness :
  exists t,
    _techniques (_runtime default_end) = [t]
    /\ Forall2 (viewport_chosen hazard_start) (passes default_technique)
         (tech_passes t).
Proof.
  eexists. split; [vm_compute; reflexivity|].
  apply (visit_technique_viewport true default_technique hazard_start default_end);
    vm_compute; reflexivity.
Defined.

Lemma subscript_entry m key :
  (subscript m key).1 = entry m key
  /\ forall k, entry (subscript m key).2 k = entry m k.
Proof.
  unfold subscript, entry. destruct (m !! key) as [v|] eqn:Hm; cbn.
  - auto.
  - split; [reflexivity|]. intros k.
    destruct (decide (key = k)) as [<-|Hne].
    + rewrite lookup_insert_eq, Hm. reflexivity.
    + rewrite lookup_insert_ne by exact Hne. reflexivity.
Qed.

Lemma same_entries_refl c : same_entries c c.
Proof. intros key. auto. Qed.

Lemma same_entries_trans c1 c2 c3 :
  same_entries c1 c2 -> same_entries c2 c3 -> same_entries c1 c3.
Proof.
  intros H12 H23 key. destruct (H12 key) as [<- <-]. apply H23.
Qed.

Lemma bind_render_target_shaders pass_info k pass c pass' c' :
  bind_render_target pass_info k pass c = Continue pass' c' ->
  vertex_shader pass' = vertex_shader pass
  /\ pixel_shader pass' = pixel_shader pass
  /\ same_entries c c'.
Proof.
  unfold bind_render_target. intros H.
  case_bool_decide as Hname.
  { injection H as <- <-. split; [reflexivity|]. split; [reflexivity|].
    apply same_entries_refl. }
  destruct (find_texture _ _) as [[position texture]|] eqn:Hfound; [|discriminate].
  destruct (impl_texture texture) as [desc|] eqn:Hdesc; [|discriminate].
  destruct (viewport_mismatch pass desc) as [[|]|] eqn:Hmis; try discriminate.
  destruct (rtv texture (srgb_write_enable pass_info)) as [cached|] eqn:Hrtv.
  - rewrite Hrtv in H. injection H as <- <-. split; [reflexivity|].
    split; [reflexivity|]. apply same_entries_refl.
  - rewrite create_next in H.
    destruct (FAILED _).
    + rewrite Hrtv in H. injection H as <- <-. split; [reflexivity|].
      split; [reflexivity|]. intros key. auto.
    + injection H as <- <-. split; [reflexivity|].
      split; [reflexivity|]. intros key. auto.
Qed.

Lemma bind_render_targets_shaders pass_info ks :
  forall pass c pass' c',
    bind_render_targets pass_info ks pass c = Continue pass' c' ->
    vertex_shader pass' = vertex_shader pass
    /\ pixel_shader pass' = pixel_shader pass
    /\ same_entries c c'.
Proof.
  induction ks as [|k ks IH]; intros pass c pass' c' H; cbn [bind_render_targets] in H.
  - injection H as <- <-. split; [reflexivity|]. split; [reflexivity|].
    apply same_entries_refl.
  - destruct (bind_render_target pass_info k pass c) as [p1 c1| |] eqn:Hstep;
      try discriminate.
    apply bind_render_target_shaders in Hstep as (Hv1 & Hp1 & He1).
    apply IH in H as (Hv & Hp & He).
    split; [congruence|]. split; [congruence|].
    eapply same_entries_trans; eassumption.
Qed.

Lemma build_pass_shaders NDEBUG pass_info c pass c' :
  build_pass NDEBUG pass_info c = Continue pass c' ->
  same_entries c c' /\ shaders_bound NDEBUG c pass_info pass.
Proof.
  unfold build_pass. intros H.
  pose proof (subscript_entry (vs_entry_points c) (vs_entry_point pass_info))
    as [Hvs Hm1].
  destruct (subscript (vs_entry_points c) (vs_entry_point pass_info)) as [vs m1].
  destruct (negb NDEBUG && negb (bool_decide (is_Some vs))) eqn:Hassert1;
    [discriminate|].
  cbn [ps_entry_points set_vs_entry_points] in H.
  pose proof (subscript_entry (ps_entry_points c) (ps_entry_point pass_info))
    as [Hps Hm2].
  destruct (subscript (ps_entry_points c) (ps_entry_point pass_info)) as [ps m2].
  destruct (negb NDEBUG && negb (bool_decide (is_Some ps))) eqn:Hassert2;
    [discriminate|].
  set (c1 := set_ps_entry_points m2 (set_vs_entry_points m1 c)) in *.
  destruct (bind_render_targets _ _ _ _) as [p2 c2| |] eqn:Hloop; try discriminate.
  rewrite (create_next c2) in H.
  set (c3 := if FAILED (hd 0 (script (_device (_runtime c2))))
             then warning _ (create c2).2 else (create c2).2) in *.
  rewrite (create_next c3) in H.
  assert (Hc3 : same_entries c2 c3)
    by (subst c3; intros key; destruct (FAILED _); auto).
  injection H as <- <-.
  apply bind_render_targets_shaders in Hloop as (Hv & Hp & He).
  cbn [fst snd] in *. split.
  - apply (same_entries_trans c c1); [intros key; split; [apply Hm1|apply Hm2]|].
    apply (same_entries_trans c1 c2); [exact He|].
    apply (same_entries_trans c2 c3); [exact Hc3|].
    intros key. destruct (FAILED (hd 0 (script (_device (_runtime c3))))); auto.
  - set (pv := if (viewport_Width p2 =? 0) && (viewport_Height p2 =? 0)
               then set_viewport (to_FLOAT (frame_width (_runtime c2)))
                      (to_FLOAT (frame_height (_runtime c2))) p2
               else p2).
    assert (Hpv : vertex_shader pv = vs /\ pixel_shader pv = ps)
      by (subst pv; destruct ((viewport_Width p2 =? 0) && (viewport_Height p2 =? 0));
          cbn; rewrite ?Hv, ?Hp; auto).
    destruct Hpv as [Hv' Hp'].
    unfold shaders_bound. cbn [vertex_shader pixel_shader set_states].
    rewrite Hv', Hp'. split; [congruence|]. split; [congruence|].
    intros ->. cbn in Hassert1, Hassert2.
    apply negb_false_iff in Hassert1, Hassert2.
    apply bool_decide_eq_true in Hassert1, Hassert2. auto.
Qed.

Lemma shaders_bound_entries NDEBUG c0 c pass_info pass :
  same_entries c0 c -> shaders_bound NDEBUG c pass_info pass ->
  shaders_bound NDEBUG c0 pass_info pass.
Proof.
  intros He (Hv & Hp & Hdebug). split; [|split; [|exact Hdebug]].
  - rewrite Hv. apply He.
  - rewrite Hp. apply He.
Qed.

Lemma build_passes_shaders NDEBUG infos :
  forall built c built' c',
    build_passes NDEBUG infos built c = Continue built' c' ->
    exists new, built' = built ++ new /\ Forall2 (shaders_bound NDEBUG c) infos new.
Proof.
  induction infos as [|pass_info infos IH]; intros built c built' c' H;
    cbn [build_passes] in H.
  - injection H as <- <-. exists []. rewrite app_nil_r. split; [reflexivity|constructor].
  - destruct (build_pass NDEBUG pass_info c) as [pass c1| |] eqn:Hpass;
      try discriminate.
    apply build_pass_shaders in Hpass as [He Hbound].
    apply IH in H as (new & -> & Hnew).
    exists (pass :: new). rewrite <- app_assoc. split; [reflexivity|].
    constructor; [assumption|].
    eapply Forall2_impl; [exact Hnew|].
    intros x y. apply shaders_bound_entries. exact He.
Qed.

(** X20.  every pass of a technique that [visit_technique] adds holds the
    shaders registered for the two entry points it names, null for an
    entry point that was not compiled; a build with assertions adds the
    technique only when none of them is null. *)
Theorem visit_technique_shaders (NDEBUG : bool) (info : technique_info)
    (c c' : compiler) (t : technique)
    (Hrun : visit_technique NDEBUG info c = Some c')
    (Hadded : _techniques (_runtime c') = _techniques (_runtime c) ++ [t]) :
  Forall2 (shaders_bound NDEBUG c) (passes info) (tech_passes t).
Proof.
  unfold visit_technique, create_query in Hrun.
  rewrite (create_next c) in Hrun.
  set (c1 := (create c).2) in *. rewrite (create_next c1) in Hrun.
  set (c2 := (create c1).2) in *. rewrite (create_next c2) in Hrun.
  set (c3 := (create c2).2) in *.
  assert (Hc3 : linker_evolves c c3).
  { eapply linker_evolves_trans; [apply (linker_evolves_create c)|].
    eapply linker_evolves_trans; [apply (linker_evolves_create c1)|].
    apply (linker_evolves_create c2). }
  destruct (build_passes NDEBUG (passes info) [] c3) as [built c4|c4|] eqn:Hpasses;
    [| |discriminate]; injection Hrun as <-.
  - pose proof (build_passes_techniques NDEBUG (passes info) [] c3 c4) as Htech.
    rewrite Hpasses in Htech. specialize (Htech eq_refl).
    apply build_passes_shaders in Hpasses as (new & -> & Hnew).
    cbn in Hadded. rewrite Htech in Hadded.
    destruct Hc3 as (_ & _ & _ & _ & _ & Htech3 & _).
    rewrite Htech3 in Hadded. apply app_inv_head in Hadded.
    injection Hadded as <-. cbn.
    eapply Forall2_impl; [exact Hnew|].
    intros x y. apply shaders_bound_entries. intros key. auto.
  - exfalso.
    assert (Hlen : length (_techniques (_runtime c4))
                   = S (length (_techniques (_runtime c))))
      by (rewrite Hadded, length_app; cbn; lia).
    enough (Hsame : _techniques (_runtime c4) = _techniques (_runtime c))
      by (rewrite Hsame in Hlen; lia).
    destruct Hc3 as (_ & _ & _ & _ & _ & <- & _).
    apply (build_passes_techniques NDEBUG (passes info) [] c3).
    rewrite Hpasses. reflexivity.
Qed.

Lemma visit_technique_shaders_witness :
  exists t,
    _techniques (_runtime default_end) = [t]
    /\ Forall2 (shaders_bound true hazard_start) (passes default_technique)
         (tech_passes t).
Proof.
  eexists. split; [vm_compute; reflexivity|].
  apply (visit_technique_shaders true default_technique hazard_start default_end);
    vm_compute; reflexivity.
Defined.

(** X21.  [compile_entry_point] leaves the shaders of every other entry
    point and of the other stage as they were; when the module has not
    failed afterwards, it had not failed before and the entry point
    holds a shader; when the vendor compiler fails, no entry point
    changes and the module has failed. *)
Theorem compile_entry_point_registers
    (D3DCompile : string -> string -> bool -> HRESULT * option string)
    (hlsl entry_point : string) (is_ps : bool) (c : compiler) :
  stage_entry_points (negb is_ps)
    (compile_entry_point D3DCompile hlsl entry_point is_ps c)
  = stage_entry_points (negb is_ps) c
  /\ (forall key, key <> entry_point ->
        stage_entry_points is_ps
          (compile_entry_point D3DCompile hlsl entry_point is_ps c) !! key
        = stage_entry_points is_ps c !! key)
  /\ (_success (compile_entry_point D3DCompile hlsl entry_point is_ps c) = true ->
      _success c = true
      /\ exists shader,
           stage_entry_points is_ps
             (compile_entry_point D3DCompile hlsl entry_point is_ps c) !! entry_point
           = Some (Some shader))
  /\ (FAILED (D3DCompile hlsl entry_point is_ps).1 = true ->
      stage_entry_points is_ps
        (compile_entry_point D3DCompile hlsl entry_point is_ps c)
      = stage_entry_points is_ps c
      /\ _success (compile_entry_point D3DCompile hlsl entry_point is_ps c) = false).
Proof.
  unfold compile_entry_point, stage_entry_points.
  destruct (D3DCompile hlsl entry_point is_ps) as [hr errors]. cbn [fst].
  set (c0 := match errors with Some text => append_errors text c | None => c end).
  assert (H0 : vs_entry_points c0 = vs_entry_points c
               /\ ps_entry_points c0 = ps_entry_points c
               /\ _success c0 = _success c)
    by (subst c0; destruct errors; auto).
  destruct H0 as (Hvs & Hps & Hs).
  destruct (FAILED hr) eqn:Hhr.
  - destruct is_ps; cbn; rewrite Hvs, Hps; (split; [reflexivity|]);
      (split; [reflexivity|]); (split; [discriminate|]); auto.
  - rewrite (create_next c0).
    destruct (FAILED (hd 0 (script (_device (_runtime c0))))) eqn:Hcreate;
      destruct is_ps; cbn; rewrite ?Hvs, ?Hps, ?Hs;
      (split; [reflexivity|]);
      (split; [intros key Hkey; apply lookup_insert_ne; congruence|]);
      (split; [|discriminate]); try discriminate;
      intros ->; (split; [reflexivity|]); eexists; apply lookup_insert_eq.
Qed.

Lemma compile_entry_point_registered D3DCompile hlsl entry is_ps c :
  registered (compile_entry_point D3DCompile hlsl entry is_ps c) = registered c.
Proof.
  unfold compile_entry_point. destruct (D3DCompile hlsl entry is_ps) as [hr errors].
  destruct errors, (FAILED hr); try reflexivity;
    rewrite create_next; destruct (FAILED _), is_ps; reflexivity.
Qed.

Lemma compile_entry_point_failed D3DCompile hlsl entry is_ps c :
  FAILED (D3DCompile hlsl entry is_ps).1 = true ->
  _success (compile_entry_point D3DCompile hlsl entry is_ps c) = false.
Proof.
  unfold compile_entry_point. destruct (D3DCompile hlsl entry is_ps) as [hr errors].
  cbn [fst]. intros ->. reflexivity.
Qed.

Lemma compile_entry_points_registered D3DCompile hlsl entries :
  forall c, registered (compile_entry_points D3DCompile hlsl entries c) = registered c.
Proof.
  induction entries as [|entry entries IH]; intros c; [reflexivity|].
  unfold compile_entry_points in *. cbn [fold_left].
  rewrite IH. apply compile_entry_point_registered.
Qed.

Lemma compile_entry_points_reports D3DCompile hlsl entries :
  forall c, reports c (compile_entry_points D3DCompile hlsl entries c).
Proof.
  induction entries as [|entry entries IH]; intros c; [apply reports_refl|].
  unfold compile_entry_points in *. cbn [fold_left].
  eapply reports_trans; [apply compile_entry_point_reports|apply IH].
Qed.

Lemma compile_entry_points_success D3DCompile hlsl entries :
  forall c,
    _success (compile_entry_points D3DCompile hlsl entries c) = true ->
    _success c = true
    /\ Forall (fun entry => FAILED (D3DCompile hlsl entry.1 entry.2).1 = false) entries.
Proof.
  induction entries as [|entry entries IH]; intros c Hok; [split; [exact Hok|constructor]|].
  unfold compile_entry_points in *. cbn [fold_left] in Hok.
  apply IH in Hok as [Hstep Hrest].
  split.
  - destruct (compile_entry_point_reports D3DCompile hlsl entry.1 entry.2 c) as [Hkeep _].
    destruct (_success c); [reflexivity|]. rewrite Hkeep in Hstep by reflexivity.
    discriminate.
  - constructor; [|exact Hrest].
    destruct (FAILED (D3DCompile hlsl entry.1 entry.2).1) eqn:Hfailed; [|reflexivity].
    rewrite compile_entry_point_failed in Hstep by exact Hfailed. discriminate.
Qed.

Lemma for_each_related {A S} (R : S -> S -> Prop) (f : A -> S -> option S) l :
  (forall s, R s s) ->
  (forall s1 s2 s3, R s1 s2 -> R s2 s3 -> R s1 s3) ->
  (forall a s s', f a s = Some s' -> R s s') ->
  forall s s', for_each f l s = Some s' -> R s s'.
Proof.
  intros Hrefl Htrans Hf. induction l as [|a l IH]; intros s s' H; cbn [for_each] in H.
  - injection H as <-. apply Hrefl.
  - destruct (f a s) as [s1|] eqn:Hstep; [|discriminate].
    eapply Htrans; [eapply Hf; exact Hstep|apply IH; exact H].
Qed.

Lemma fold_left_related {A S} (R : S -> S -> Prop) (f : S -> A -> S) l :
  (forall s, R s s) ->
  (forall s1 s2 s3, R s1 s2 -> R s2 s3 -> R s1 s3) ->
  (forall a s, R s (f s a)) ->
  forall s, R s (fold_left f l s).
Proof.
  intros Hrefl Htrans Hf. induction l as [|a l IH]; intros s; cbn [fold_left].
  - apply Hrefl.
  - eapply Htrans; [apply Hf|apply IH].
Qed.

Lemma visit_uniform_state bits info l l' :
  visit_uniform bits info l = Some l' ->
  _success (state l') = _success (state l) /\ _errors (state l') = _errors (state l)
  /\ _runtime (state l') = _runtime (state l)
  /\ _uniform_storage_offset (state l') = _uniform_storage_offset (state l).
Proof.
  unfold visit_uniform. intros H.
  repeat match type of H with
         | (if ?b then _ else _) = _ => destruct b; [discriminate|]
         end.
  injection H as <-. auto.
Qed.

(** The failure flag and the error text from the start of [run] to its
    end. *)
Lemma run_reports NDEBUG bits D3DCompile d47 d43 m l ok l' :
  run NDEBUG bits D3DCompile d47 d43 m l = Some (ok, l') ->
  reports (state l) (state l').
Proof.
  unfold run. intros H.
  destruct (negb d47 && negb d43).
  { injection H as <- <-. apply reports_append. }
  fold (compile_entry_points D3DCompile (hlsl m) (entry_points m) (state l)) in H.
  pose proof (compile_entry_points_reports D3DCompile (hlsl m) (entry_points m) (state l))
    as Hcompile.
  set (c1 := compile_entry_points D3DCompile (hlsl m) (entry_points m) (state l)) in *.
  destruct (negb (_success c1)).
  { injection H as <- <-. exact Hcompile. }
  set (c2 := set_uniform_storage_offset _ c1) in H.
  assert (H2 : reports c1 c2) by (apply reports_same; reflexivity).
  pose proof (fold_left_related reports (fun c texture => visit_texture texture c)
                (effect_textures m) reports_refl reports_trans
                (fun a s => visit_texture_reports a s) c2) as H3.
  set (c3 := fold_left _ (effect_textures m) c2) in *.
  destruct (for_each (visit_sampler bits) (effect_samplers m) c3) as [c4|] eqn:H4;
    [|discriminate].
  apply (for_each_related reports _ _ reports_refl reports_trans
           (visit_sampler_reports bits)) in H4.
  destruct (for_each (visit_uniform bits) (effect_uniforms m) (set_state c4 l))
    as [l5|] eqn:H5; [|discriminate].
  apply (for_each_related (fun l l' => reports (state l) (state l')) _ _
           (fun l => reports_refl (state l))
           (fun l1 l2 l3 => reports_trans (state l1) (state l2) (state l3))) in H5.
  2: { intros a s s' Hu. apply visit_uniform_state in Hu as (Hs & He & _).
       apply reports_same; assumption. }
  cbn [state set_state] in H5.
  destruct (for_each (visit_technique NDEBUG) (effect_techniques m) (state l5))
    as [c6|] eqn:H6; [|discriminate].
  apply (for_each_related reports _ _ reports_refl reports_trans
           (visit_technique_reports NDEBUG)) in H6.
  assert (Hchain : reports (state l) c6).
  { eapply reports_trans; [exact Hcompile|]. eapply reports_trans; [exact H2|].
    eapply reports_trans; [exact H3|]. eapply reports_trans; [exact H4|].
    eapply reports_trans; [exact H5|exact H6]. }
  injection H as _ <-.
  destruct (negb (_constant_buffer_size c6 =? 0)); [|exact Hchain].
  eapply reports_trans; [exact Hchain|]. apply reports_same; reflexivity.
Qed.

(** X22.  the three ways [run] ends.  Without a compiler library it
    returns false and only adds the message to the error text, the
    failure flag staying as it is.  When an entry point fails to compile
    it returns false before anything is registered: the textures, the
    techniques, the sampler states, the slots, the uniform storage, the
    uniforms and the constant buffers are what they were.  And it
    returns true only if a library was found, every entry point
    compiled, and the module had not failed before and has not failed
    after. *)
Theorem run_failures (NDEBUG : bool) (SIZE_BITS : Z)
    (D3DCompile : string -> string -> bool -> HRESULT * option string)
    (d3dcompiler_47 d3dcompiler_43 : bool) (m : effect_module) (l : linker)
    (ok : bool) (l' : linker)
    (Hrun : run NDEBUG SIZE_BITS D3DCompile d3dcompiler_47 d3dcompiler_43 m l
            = Some (ok, l')) :
  (d3dcompiler_47 = false -> d3dcompiler_43 = false ->
   ok = false
   /\ l' = set_state (append_errors unable_to_load (state l)) l
   /\ _success (state l') = _success (state l))
  /\ ((exists entry, entry ∈ entry_points m
                     /\ FAILED (D3DCompile (hlsl m) entry.1 entry.2).1 = true) ->
      ok = false
      /\ registered (state l') = registered (state l)
      /\ uniform_value_storage l' = uniform_value_storage l
      /\ _uniforms l' = _uniforms l
      /\ _constant_buffers l' = _constant_buffers l)
  /\ (ok = true ->
      (d3dcompiler_47 = true \/ d3dcompiler_43 = true)
      /\ Forall (fun entry => FAILED (D3DCompile (hlsl m) entry.1 entry.2).1 = false)
           (entry_points m)
      /\ _success (state l) = true
      /\ _success (state l') = true).
Proof.
  pose proof (run_reports _ _ _ _ _ _ _ _ _ Hrun) as [Hkeep _].
  unfold run in Hrun.
  fold (compile_entry_points D3DCompile (hlsl m) (entry_points m) (state l)) in Hrun.
  destruct d3dcompiler_47, d3dcompiler_43; cbn [negb andb] in Hrun.
  4: { injection Hrun as <- <-. split; [auto|]. split; [auto|]. discriminate. }
  all: split; [discriminate|].
  all: pose proof (compile_entry_points_success D3DCompile (hlsl m) (entry_points m)
                     (state l)) as Hsuccess;
    pose proof (compile_entry_points_registered D3DCompile (hlsl m) (entry_points m)
                  (state l)) as Hregistered;
    destruct (_success (compile_entry_points D3DCompile (hlsl m) (entry_points m)
                          (state l))) eqn:Hcompiled; cbn [negb] in Hrun.
  all: try (injection Hrun as <- <-; split; [auto|discriminate]).
  all: destruct (Hsuccess eq_refl) as [Hbefore Hall]; split;
    [ intros (entry & Hin & Hfailed); exfalso;
      rewrite Forall_forall in Hall; rewrite (Hall entry Hin) in Hfailed;
      discriminate
    | intros ->; split; [auto|]; split; [exact Hall|]; split; [exact Hbefore|] ].
  all: repeat match type of Hrun with
              | match ?x with _ => _ end = _ => destruct x; [|discriminate]
              end;
    injection Hrun as Hok <-; first [exact Hok | symmetry; exact Hok].
Qed.

Lemma run_failures_witness :
  exists l',
    run true 64 failing_compile true false failing_module new_linker = Some (false, l')
    /\ registered (state l') = registered (state new_linker).
Proof.
  destruct (run true 64 failing_compile true false failing_module new_linker)
    as [[ok l']|] eqn:Hrun; [|vm_compute in Hrun; discriminate Hrun].
  destruct (run_failures _ _ _ _ _ _ _ _ _ Hrun) as (_ & Hfail & _).
  destruct Hfail as (-> & Hregistered & _).
  - exists ("PS", true). split; [right; left|vm_compute; reflexivity].
  - exists l'. split; [reflexivity|exact Hregistered].
Defined.

Lemma lane_bytes_length c : length (lane_bytes c) = 64%nat.
Proof. reflexivity. Qed.

Lemma write_bytes_spec offset bytes storage :
  (offset + length bytes <= length storage)%nat ->
  length (write_bytes offset bytes storage) = length storage
  /\ (forall i, (i < offset \/ offset + length bytes <= i)%nat ->
                write_bytes offset bytes storage !! i = storage !! i)
  /\ (forall i, (offset <= i < offset + length bytes)%nat ->
                write_bytes offset bytes storage !! i = bytes !! (i - offset)%nat).
Proof.
  intros Hfits. unfold write_bytes.
  assert (Htake : length (take offset storage) = offset)
    by (rewrite length_take; lia).
  split; [|split].
  - rewrite !length_app, Htake, length_drop. lia.
  - intros i [Hi|Hi].
    + rewrite lookup_app_l by lia. apply lookup_take_lt. exact Hi.
    + rewrite lookup_app_r by lia. rewrite lookup_app_r by lia.
      rewrite lookup_drop, Htake. f_equal. lia.
  - intros i Hi. rewrite lookup_app_r by lia. rewrite lookup_app_l by lia.
    rewrite Htake. reflexivity.
Qed.

Lemma visit_uniform_spec SIZE_BITS info l l' :
  visit_uniform SIZE_BITS info l = Some l' ->
  0 <= uniform_size (declared info) ->
  0 <= uniform_offset (declared info) ->
  0 <= _uniform_storage_offset (state l) ->
  first_byte info l + uniform_size (declared info) < 2 ^ SIZE_BITS ->
  first_byte info l + uniform_size (declared info)
  <= Z.of_nat (length (grown_storage info l))
  /\ length (uniform_value_storage l') = length (grown_storage info l)
  /\ (forall i, (i < Z.to_nat (first_byte info l)
                 \/ Z.to_nat (first_byte info l + uniform_size (declared info)) <= i)%nat ->
                uniform_value_storage l' !! i = grown_storage info l !! i)
  /\ (forall i, (Z.to_nat (first_byte info l) <= i
                 < Z.to_nat (first_byte info l + uniform_size (declared info)))%nat ->
                uniform_value_storage l' !! i
                = Some (if has_initializer_value info
                        then nth (i - Z.to_nat (first_byte info l))
                               (lane_bytes (initializer_value info)) 0
                        else 0))
  /\ (has_initializer_value info = true -> uniform_size (declared info) <= 64)
  /\ (exists u, _uniforms l' = _uniforms l ++ [u]
                /\ storage_offset u = first_byte info l
                /\ storage_size u = uniform_size (declared info))
  /\ _constant_buffer_size (state l')
     = Z.max (_constant_buffer_size (state l))
         (uniform_offset (declared info) + uniform_size (declared info)).
Proof.
  intros Hrun Hsize Hoffset Hbase Hfits.
  unfold first_byte, grown_storage in *. unfold visit_uniform in Hrun.
  assert (Hs : size_t SIZE_BITS (uniform_size (declared info))
               = uniform_size (declared info))
    by (apply Z.mod_small; lia).
  assert (Ho : size_t SIZE_BITS (_uniform_storage_offset (state l)
                                 + uniform_offset (declared info))
               = _uniform_storage_offset (state l) + uniform_offset (declared info))
    by (apply Z.mod_small; lia).
  rewrite Hs, Ho in Hrun.
  assert (He : size_t SIZE_BITS (_uniform_storage_offset (state l)
                                 + uniform_offset (declared info)
                                 + uniform_size (declared info))
               = _uniform_storage_offset (state l) + uniform_offset (declared info)
                 + uniform_size (declared info))
    by (apply Z.mod_small; lia).
  assert (Hc : size_t SIZE_BITS (_uniform_storage_offset (state l)
                                 + uniform_offset (declared info)
                                 + uniform_size (declared info)
                                 - _uniform_storage_offset (state l))
               = uniform_offset (declared info) + uniform_size (declared info)).
  { unfold size_t.
    replace (_uniform_storage_offset (state l) + uniform_offset (declared info)
             + uniform_size (declared info) - _uniform_storage_offset (state l))
      with (uniform_offset (declared info) + uniform_size (declared info)) by lia.
    apply Z.mod_small. lia. }
  rewrite He, Hc in Hrun.
  set (grown := if Z.of_nat (length (uniform_value_storage l))
                   <=? _uniform_storage_offset (state l)
                       + uniform_offset (declared info)
                       + uniform_size (declared info)
                then uniform_value_storage l ++ replicate 128 0
                else uniform_value_storage l) in *.
  destruct (Z.of_nat (length grown)
            <? _uniform_storage_offset (state l) + uniform_offset (declared info)
               + uniform_size (declared info)) eqn:Hinside; [discriminate|].
  apply Z.ltb_ge in Hinside.
  destruct (has_initializer_value info && (64 <? uniform_size (declared info)))
    eqn:Hread; [discriminate|].
  injection Hrun as <-.
  cbn [uniform_value_storage _uniforms state add_uniform set_uniform_value_storage
       set_state _constant_buffer_size set_constant_buffer_size].
  set (bytes := if has_initializer_value info
                then take (Z.to_nat (uniform_size (declared info)))
                       (lane_bytes (initializer_value info))
                else replicate (Z.to_nat (uniform_size (declared info))) 0).
  assert (Hshort : has_initializer_value info = true ->
                   uniform_size (declared info) <= 64).
  { intros Hinit. rewrite Hinit in Hread. cbn in Hread. apply Z.ltb_ge in Hread.
    exact Hread. }
  assert (Hlen : length bytes = Z.to_nat (uniform_size (declared info))).
  { subst bytes. destruct (has_initializer_value info).
    - rewrite length_take, lane_bytes_length. specialize (Hshort eq_refl). lia.
    - apply length_replicate. }
  destruct (write_bytes_spec
              (Z.to_nat (_uniform_storage_offset (state l)
                         + uniform_offset (declared info))) bytes grown)
    as (Hlength & Hother & Hwritten); [lia|].
  split; [exact Hinside|]. split; [exact Hlength|]. split; [|split; [|split]].
  - intros i Hi. apply Hother. lia.
  - intros i Hi. rewrite Hwritten by lia. subst bytes.
    destruct (has_initializer_value info).
    + rewrite lookup_take_lt by lia. specialize (Hshort eq_refl).
      destruct (lookup_lt_is_Some_2 (lane_bytes (initializer_value info))
                  (i - Z.to_nat (_uniform_storage_offset (state l)
                                 + uniform_offset (declared info)))) as [x Hx].
      { rewrite lane_bytes_length. lia. }
      rewrite Hx. f_equal. symmetry. eapply nth_lookup_Some. exact Hx.
    + apply lookup_replicate_2. lia.
  - exact Hshort.
  - split; [|reflexivity]. eexists. split; [reflexivity|]. split; reflexivity.
Qed.

(** X23.  [visit_uniform], where its behaviour is defined and the sizes
    do not wrap, grows the storage by 128 bytes if the uniform ends at
    or after its end, and by nothing else; the uniform then lies inside
    the storage, its bytes are those of the initialiser (which has at
    most 64) or zero, every other byte is what it was, the uniform is
    added with its place in the storage, and the size of the constant
    buffer is raised to the end of the uniform. *)
Theorem visit_uniform_storage (SIZE_BITS : Z) (info : uniform_declaration)
    (l l' : linker)
    (Hrun : visit_uniform SIZE_BITS info l = Some l')
    (Hsize : 0 <= uniform_size (declared info))
    (Hoffset : 0 <= uniform_offset (declared info))
    (Hbase : 0 <= _uniform_storage_offset (state l))
    (Hfits : first_byte info l + uniform_size (declared info) < 2 ^ SIZE_BITS) :
  first_byte info l + uniform_size (declared info)
  <= Z.of_nat (length (grown_storage info l))
  /\ length (uniform_value_storage l') = length (grown_storage info l)
  /\ (forall i, (i < Z.to_nat (first_byte info l)
                 \/ Z.to_nat (first_byte info l + uniform_size (declared info)) <= i)%nat ->
                uniform_value_storage l' !! i = grown_storage info l !! i)
  /\ (forall i, (Z.to_nat (first_byte info l) <= i
                 < Z.to_nat (first_byte info l + uniform_size (declared info)))%nat ->
                uniform_value_storage l' !! i
                = Some (if has_initializer_value info
                        then nth (i - Z.to_nat (first_byte info l))
                               (lane_bytes (initializer_value info)) 0
                        else 0))
  /\ (has_initializer_value info = true -> uniform_size (declared info) <= 64)
  /\ (exists u, _uniforms l' = _uniforms l ++ [u]
                /\ storage_offset u = first_byte info l
                /\ storage_size u = uniform_size (declared info))
  /\ _constant_buffer_size (state l')
     = Z.max (_constant_buffer_size (state l))
         (uniform_offset (declared info) + uniform_size (declared info)).
Proof.
  exact (visit_uniform_spec SIZE_BITS info l l' Hrun Hsize Hoffset Hbase Hfits).
Qed.

Lemma visit_uniform_storage_witness :
  exists l',
    visit_uniform 64 float4_uniform new_linker = Some l'
    /\ length (uniform_value_storage l') = 128%nat
    /\ _constant_buffer_size (state l') = 16.
Proof.
  destruct (visit_uniform 64 float4_uniform new_linker) as [l'|] eqn:Hrun;
    [|vm_compute in Hrun; discriminate Hrun].
  destruct (visit_uniform_storage 64 float4_uniform new_linker l' Hrun)
    as (_ & Hlength & _ & _ & _ & _ & Hsize);
    [vm_compute; discriminate.. | vm_compute; reflexivity |].
  exists l'. split; [reflexivity|]. split; [exact Hlength|exact Hsize].
Defined.

Lemma only_device_sizes c c' : only_device c c' -> sizes c' = sizes c.
Proof. intros H. rewrite H. reflexivity. Qed.

Lemma compile_entry_point_sizes D3DCompile hlsl entry is_ps c :
  sizes (compile_entry_point D3DCompile hlsl entry is_ps c) = sizes c.
Proof.
  unfold compile_entry_point. destruct (D3DCompile hlsl entry is_ps) as [hr errors].
  destruct errors, (FAILED hr); try reflexivity;
    rewrite create_next; destruct (FAILED _), is_ps; reflexivity.
Qed.

Lemma compile_entry_points_sizes D3DCompile hlsl entries :
  forall c, sizes (compile_entry_points D3DCompile hlsl entries c) = sizes c.
Proof.
  induction entries as [|entry entries IH]; intros c; [reflexivity|].
  unfold compile_entry_points in *. cbn [fold_left].
  rewrite IH. apply compile_entry_point_sizes.
Qed.

Lemma visit_texture_sizes info c : sizes (visit_texture info c) = sizes c.
Proof.
  destruct (find_texture (_runtime c) (texture_unique_name info)) as [[i t]|] eqn:Hfind.
  - unfold visit_texture. rewrite Hfind. destruct (_ && _); reflexivity.
  - destruct (visit_texture_new_cases info c Hfind)
      as (c0 & Hdev & [[message ->] | (t & -> & _)]);
      apply only_device_sizes in Hdev; rewrite <- Hdev; reflexivity.
Qed.

Lemma visit_sampler_sizes bits info c c' :
  visit_sampler bits info c = Some c' -> sizes c' = sizes c.
Proof.
  unfold visit_sampler.
  destruct (find_texture _ _) as [[i t]|]; [|intros [= <-]; reflexivity].
  generalize (desc_hash bits (sampler_desc info)). intros key.
  destruct (_effect_sampler_states (_runtime c) !! key) as [sampler|].
  - destruct (_ && _); [|discriminate]. intros [= <-]. reflexivity.
  - rewrite create_next. destruct (FAILED _).
    + intros [= <-]. reflexivity.
    + destruct (_ && _); [|discriminate]. intros [= <-]. reflexivity.
Qed.

Lemma bind_render_target_sizes pass_info k pass c c' :
  final_state (bind_render_target pass_info k pass c) = Some c' ->
  sizes c' = sizes c.
Proof.
  unfold bind_render_target. intros Hfinal.
  case_bool_decide as Hname; [cbn in Hfinal; simplify_eq; reflexivity|].
  destruct (find_texture _ _) as [[position texture]|];
    [|cbn in Hfinal; simplify_eq; reflexivity].
  destruct (impl_texture texture) as [desc|]; [|discriminate].
  destruct (viewport_mismatch pass desc) as [[|]|];
    [cbn in Hfinal; simplify_eq; reflexivity| |discriminate].
  destruct (rtv texture (srgb_write_enable pass_info)) as [cached|].
  - cbn in Hfinal. simplify_eq. reflexivity.
  - rewrite create_next in Hfinal.
    destruct (FAILED _); cbn in Hfinal; simplify_eq; reflexivity.
Qed.

Lemma bind_render_targets_sizes pass_info ks pass c c' :
  final_state (bind_render_targets pass_info ks pass c) = Some c' ->
  sizes c' = sizes c.
Proof.
  revert pass c. induction ks as [|k ks IH]; intros pass c H; cbn in H.
  - simplify_eq. reflexivity.
  - pose proof (bind_render_target_sizes pass_info k pass c) as Hstep.
    destruct (bind_render_target pass_info k pass c) as [p1 c1|c1|]; cbn in *.
    + rewrite (IH _ _ H). apply Hstep. reflexivity.
    + simplify_eq. apply Hstep. reflexivity.
    + discriminate.
Qed.

Lemma build_pass_sizes NDEBUG pass_info c c' :
  final_state (build_pass NDEBUG pass_info c) = Some c' -> sizes c' = sizes c.
Proof.
  unfold build_pass.
  destruct (subscript (vs_entry_points c) (vs_entry_point pass_info)) as [vs m1].
  destruct (negb NDEBUG && negb (bool_decide (is_Some vs))); [discriminate|].
  destruct (subscript _ (ps_entry_point pass_info)) as [ps m2].
  destruct (negb NDEBUG && negb (bool_decide (is_Some ps))); [discriminate|].
  match goal with
  | |- context [bind_render_targets ?pi ?ks ?p ?c0] =>
      pose proof (bind_render_targets_sizes pi ks p c0) as Hloop;
      destruct (bind_render_targets pi ks p c0) as [p2 c2|c2|]; cbn in Hloop
  end.
  - rewrite (create_next c2).
    match goal with
    | |- context [create ?c3] => rewrite (create_next c3)
    end.
    cbn. intros H. simplify_eq.
    transitivity (sizes c2); [|rewrite (Hloop c2 eq_refl); reflexivity].
    repeat match goal with
           | |- context [FAILED ?hr] => destruct (FAILED hr)
           end; reflexivity.
  - cbn. intros H. simplify_eq. rewrite (Hloop _ eq_refl). reflexivity.
  - discriminate.
Qed.

Lemma build_passes_sizes NDEBUG infos built c c' :
  final_state (build_passes NDEBUG infos built c) = Some c' -> sizes c' = sizes c.
Proof.
  revert built c. induction infos as [|pass_info infos IH]; intros built c H;
    cbn in H.
  - simplify_eq. reflexivity.
  - pose proof (build_pass_sizes NDEBUG pass_info c) as Hpass.
    destruct (build_pass NDEBUG pass_info c) as [p1 c1|c1|]; cbn in *.
    + rewrite (IH _ _ H). apply Hpass. reflexivity.
    + simplify_eq. apply Hpass. reflexivity.
    + discriminate.
Qed.

Lemma visit_technique_sizes NDEBUG info c c' :
  visit_technique NDEBUG info c = Some c' -> sizes c' = sizes c.
Proof.
  unfold visit_technique, create_query. intros Hrun.
  rewrite (create_next c) in Hrun.
  set (c1 := (create c).2) in *. rewrite (create_next c1) in Hrun.
  set (c2 := (create c1).2) in *. rewrite (create_next c2) in Hrun.
  set (c3 := (create c2).2) in *.
  pose proof (build_passes_sizes NDEBUG (passes info) [] c3) as Hsizes.
  destruct (build_passes NDEBUG (passes info) [] c3) as [built c4|c4|];
    [| |discriminate]; injection Hrun as <-; cbn in Hsizes;
    specialize (Hsizes _ eq_refl);
    (transitivity (sizes c4); [reflexivity|]); rewrite Hsizes; reflexivity.
Qed.

Lemma roundto16_bounds bits size :
  4 <= bits -> 0 <= size -> size + 15 < 2 ^ bits ->
  roundto16 bits size mod 16 = 0 /\ size <= roundto16 bits size < size + 16.
Proof.
  intros Hbits Hsize Hfit. rewrite roundto16_eq by lia.
  rewrite (Z.mod_small (size + 15)) by lia.
  split; [rewrite Z.mul_comm; apply Z.mod_mul; lia|].
  pose proof (Z.mod_pos_bound (size + 15) 16 ltac:(lia)).
  pose proof (Z.div_mod (size + 15) 16 ltac:(lia)). lia.
Qed.

Lemma visit_uniform_buffers bits info l l' :
  visit_uniform bits info l = Some l' -> _constant_buffers l' = _constant_buffers l.
Proof.
  unfold visit_uniform. intros H.
  repeat match type of H with
         | (if ?b then _ else _) = _ => destruct b; [discriminate|]
         end.
  injection H as <-. reflexivity.
Qed.

Lemma visit_uniforms_arena bits base infos :
  forall l l',
    for_each (visit_uniform bits) infos l = Some l' ->
    Forall (fits_arena bits base) infos ->
    _uniform_storage_offset (state l) = base ->
    0 <= base ->
    (Z.to_nat base <= length (uniform_value_storage l))%nat ->
    0 <= _constant_buffer_size (state l) ->
    (_constant_buffer_size (state l) = 0
     \/ base + _constant_buffer_size (state l) + 15 < 2 ^ bits) ->
    _uniform_storage_offset (state l') = base
    /\ _constant_buffer_size (state l) <= _constant_buffer_size (state l')
    /\ (_constant_buffer_size (state l') = 0
        \/ base + _constant_buffer_size (state l') + 15 < 2 ^ bits)
    /\ (Z.to_nat base <= length (uniform_value_storage l'))%nat
    /\ take (Z.to_nat base) (uniform_value_storage l')
       = take (Z.to_nat base) (uniform_value_storage l)
    /\ _runtime (state l') = _runtime (state l)
    /\ _success (state l') = _success (state l)
    /\ _constant_buffers l' = _constant_buffers l
    /\ exists new, _uniforms l' = _uniforms l ++ new
                   /\ Forall2 (placed base (_constant_buffer_size (state l')))
                        infos new.
Proof.
  induction infos as [|info infos IH];
    intros l l' Hrun Hfits Hoffset Hbase Hlength Hsize Hbound; cbn [for_each] in Hrun.
  - injection Hrun as <-. repeat split; try assumption; try lia.
    exists []. rewrite app_nil_r. split; [reflexivity|constructor].
  - destruct (visit_uniform bits info l) as [l1|] eqn:Hstep; [|discriminate].
    apply Forall_cons in Hfits as [(Ho & Hs & Hfit) Hfits].
    pose proof (visit_uniform_state _ _ _ _ Hstep) as (Hsuccess1 & _ & Hruntime1 & Hoffset1).
    pose proof (visit_uniform_buffers _ _ _ _ Hstep) as Hbuffers1.
    destruct (visit_uniform_spec bits info l l1 Hstep Hs Ho)
      as (Hinside & Hlen1 & Hother & _ & _ & (u & Hu & Huo & Hus) & Hsize1).
    { lia. }
    { unfold first_byte. lia. }
    unfold first_byte in *. rewrite Hoffset in *.
    assert (Hgrown : (length (uniform_value_storage l)
                      <= length (grown_storage info l))%nat
                     /\ forall i, (i < length (uniform_value_storage l))%nat ->
                                  grown_storage info l !! i
                                  = uniform_value_storage l !! i).
    { unfold grown_storage. destruct (_ <=? _).
      - rewrite length_app. split; [lia|]. intros i Hi. apply lookup_app_l. exact Hi.
      - split; [lia|]. reflexivity. }
    destruct Hgrown as [Hgrown_length Hgrown_lookup].
    destruct (IH l1 l' Hrun Hfits) as (Ho' & Hle' & Hb' & Hl' & Htake' & Hr' & Hs' & Hc' & new & Hnew & Hplaced).
    { congruence. }
    { exact Hbase. }
    { lia. }
    { lia. }
    { rewrite Hsize1. destruct (Z.max_spec (_constant_buffer_size (state l))
                                  (uniform_offset (declared info)
                                   + uniform_size (declared info)))
        as [[_ ->] | [_ ->]]; [right; lia|exact Hbound]. }
    split; [exact Ho'|]. split; [lia|]. split; [exact Hb'|]. split; [exact Hl'|].
    split.
    { rewrite Htake'. apply list_eq. intros i.
      destruct (decide (i < Z.to_nat base)%nat) as [Hi|Hi].
      - rewrite !lookup_take_lt by exact Hi. rewrite Hother by lia.
        apply Hgrown_lookup. lia.
      - rewrite !lookup_take_ge by lia. reflexivity. }
    split; [congruence|]. split; [congruence|]. split; [congruence|].
    exists (u :: new). split; [rewrite Hnew, Hu, <- app_assoc; reflexivity|].
    constructor; [|exact Hplaced].
    split; [exact Huo|]. split; [exact Hus|]. rewrite Huo, Hus. lia.
Qed.

(** X24.  a run of the linker that returns true, for a module whose
    uniforms fit [size_t], ends with the uniforms of the module added in
    order, each at the end the storage had before plus its declared
    offset and inside the constant buffer; the size of the constant
    buffer is a multiple of 16; the bytes the storage held before are
    what they were; and if the size is not 0, the storage ends with the
    constant buffer and one buffer was created, else none. *)
Theorem run_arena (NDEBUG : bool) (SIZE_BITS : Z)
    (D3DCompile : string -> string -> bool -> HRESULT * option string)
    (d3dcompiler_47 d3dcompiler_43 : bool) (m : effect_module) (l l' : linker)
    (Hrun : run NDEBUG SIZE_BITS D3DCompile d3dcompiler_47 d3dcompiler_43 m l
            = Some (true, l'))
    (Hbits : 4 <= SIZE_BITS)
    (Hempty : _constant_buffer_size (state l) = 0)
    (Hfits : Forall (fits_arena SIZE_BITS
                       (Z.of_nat (length (uniform_value_storage l))))
               (effect_uniforms m)) :
  _uniform_storage_offset (state l') = Z.of_nat (length (uniform_value_storage l))
  /\ _constant_buffer_size (state l') mod 16 = 0
  /\ (exists new,
         _uniforms l' = _uniforms l ++ new
         /\ Forall2 (placed (Z.of_nat (length (uniform_value_storage l)))
                       (_constant_buffer_size (state l')))
              (effect_uniforms m) new)
  /\ take (length (uniform_value_storage l)) (uniform_value_storage l')
     = uniform_value_storage l
  /\ (_constant_buffer_size (state l') <> 0 ->
      Z.of_nat (length (uniform_value_storage l'))
      = Z.of_nat (length (uniform_value_storage l)) + _constant_buffer_size (state l')
      /\ exists buffer, _constant_buffers l' = _constant_buffers l ++ [buffer])
  /\ (_constant_buffer_size (state l') = 0 ->
      _constant_buffers l' = _constant_buffers l).
Proof.
  unfold run in Hrun.
  fold (compile_entry_points D3DCompile (hlsl m) (entry_points m) (state l)) in Hrun.
  set (base := Z.of_nat (length (uniform_value_storage l))) in *.
  destruct (negb d3dcompiler_47 && negb d3dcompiler_43); [discriminate|].
  pose proof (compile_entry_points_sizes D3DCompile (hlsl m) (entry_points m) (state l))
    as H1.
  set (c1 := compile_entry_points D3DCompile (hlsl m) (entry_points m) (state l)) in *.
  destruct (negb (_success c1)); [discriminate|].
  set (c2 := set_uniform_storage_offset base c1) in Hrun.
  assert (H2 : sizes c2 = (0, base)).
  { change (sizes c2) with ((sizes c1).1, base). rewrite H1. cbn [sizes fst].
    rewrite Hempty. reflexivity. }
  pose proof (fold_left_related (fun c c' => sizes c' = sizes c)
                (fun c texture => visit_texture texture c) (effect_textures m)
                (fun c => eq_refl) (fun c1 c2 c3 H12 H23 => eq_trans H23 H12)
                (fun a c => visit_texture_sizes a c) c2) as H3.
  set (c3 := fold_left _ (effect_textures m) c2) in *.
  destruct (for_each (visit_sampler SIZE_BITS) (effect_samplers m) c3) as [c4|] eqn:H4;
    [|discriminate].
  apply (for_each_related (fun c c' => sizes c' = sizes c) _ _
           (fun c => eq_refl) (fun c1 c2 c3 H12 H23 => eq_trans H23 H12)
           (visit_sampler_sizes SIZE_BITS)) in H4.
  destruct (for_each (visit_uniform SIZE_BITS) (effect_uniforms m) (set_state c4 l))
    as [l5|] eqn:H5; [|discriminate].
  assert (Hc4 : sizes c4 = (0, base)) by congruence.
  unfold sizes in Hc4. injection Hc4 as Hsize4 Hoffset4.
  apply (visit_uniforms_arena SIZE_BITS base) in H5
    as (Ho5 & Hle5 & Hb5 & Hl5 & Htake5 & _ & _ & Hc5 & new & Hnew & Hplaced);
    [|exact Hfits|exact Hoffset4|lia|cbn; lia|cbn; lia|left; exact Hsize4].
  cbn [uniform_value_storage set_state _uniforms _constant_buffers] in *.
  destruct (for_each (visit_technique NDEBUG) (effect_techniques m) (state l5))
    as [c6|] eqn:H6; [|discriminate].
  apply (for_each_related (fun c c' => sizes c' = sizes c) _ _
           (fun c => eq_refl) (fun c1 c2 c3 H12 H23 => eq_trans H23 H12)
           (visit_technique_sizes NDEBUG)) in H6.
  unfold sizes in H6. injection H6 as Hsize6 Hoffset6.
  cbn [state set_state] in Hle5. rewrite Hsize4 in Hle5.
  rewrite <- Hsize6 in Hb5, Hplaced. rewrite <- Hoffset6 in Ho5.
  assert (Hnonneg : 0 <= _constant_buffer_size c6) by (rewrite Hsize6; exact Hle5).
  injection Hrun as _ <-.
  destruct (_constant_buffer_size c6 =? 0) eqn:Hzero; cbn [negb].
  - apply Z.eqb_eq in Hzero.
    cbn [state set_state uniform_value_storage _uniforms _constant_buffers].
    rewrite Hzero in *.
    split; [exact Ho5|]. split; [reflexivity|]. split; [eauto|].
    split. { subst base. rewrite Nat2Z.id in Htake5. rewrite Htake5. apply firstn_all. }
    split; [intros H; contradiction|]. intros _. exact Hc5.
  - apply Z.eqb_neq in Hzero.
    destruct Hb5 as [Hb5|Hb5]; [contradiction|].
    destruct (roundto16_bounds SIZE_BITS (_constant_buffer_size c6))
      as (Hmul & Hround); [lia..|].
    cbn [state set_state uniform_value_storage _uniforms _constant_buffers
         add_constant_buffer set_uniform_value_storage _constant_buffer_size
         set_constant_buffer_size set_runtime _uniform_storage_offset].
    assert (Hend : Z.to_nat (size_t SIZE_BITS
                               (_uniform_storage_offset c6
                                + roundto16 SIZE_BITS (_constant_buffer_size c6)))
                   = (Z.to_nat base
                      + Z.to_nat (roundto16 SIZE_BITS (_constant_buffer_size c6)))%nat).
    { unfold size_t. rewrite Z.mod_small by lia. rewrite Ho5. lia. }
    rewrite Hend.
    split; [exact Ho5|]. split; [exact Hmul|]. split.
    { exists new. split; [exact Hnew|].
      eapply Forall2_impl; [exact Hplaced|].
      intros info u (Hu1 & Hu2 & Hu3). repeat split; try assumption. lia. }
    split.
    { rewrite resize_spec, take_app_le by (rewrite length_take; subst base; lia).
      rewrite take_take. subst base. rewrite Nat2Z.id in *.
      rewrite Nat.min_l by lia. rewrite Htake5. apply firstn_all. }
    split; [|intros H; lia].
    intros _. rewrite length_resize. split; [subst base; lia|].
    eexists. rewrite Hc5. reflexivity.
Qed.

Lemma run_arena_witness :
  exists l',
    run true 64 working_compile true false uniform_module new_linker = Some (true, l')
    /\ _constant_buffer_size (state l') mod 16 = 0
    /\ exists new, _uniforms l' = new
                   /\ Forall2 (placed 0 (_constant_buffer_size (state l')))
                        [float4_uniform] new.
Proof.
  destruct (run true 64 working_compile true false uniform_module new_linker)
    as [[[] l']|] eqn:Hrun;
    [ | exfalso; vm_compute in Hrun; discriminate Hrun
      | vm_compute in Hrun; discriminate Hrun ].
  destruct (run_arena true 64 working_compile true false uniform_module new_linker l'
              Hrun) as (_ & Hmul & (new & Hnew & Hplaced) & _).
  - lia.
  - reflexivity.
  - constructor; [|constructor]. unfold fits_arena. cbn. lia.
  - exists l'. split; [reflexivity|]. split; [exact Hmul|].
    exists new. split; [exact Hnew|exact Hplaced].
Defined.

End d3d11_props.

(** ** Properties of the HLSL code generator *)

Module hlsl_props.
Import fx hlsl.

Lemma text_assoc (a b c : string) : (a +:+ b) +:+ c = a +:+ (b +:+ c).
Proof.
  induction a as [|x a IH]; [reflexivity|].
  change (String x ((a +:+ b) +:+ c) = String x (a +:+ (b +:+ c))).
  f_equal. exact IH.
Qed.

Lemma text_nil_r (a : string) : a +:+ "" = a.
Proof.
  induction a as [|x a IH]; [reflexivity|].
  change (String x (a +:+ "") = String x a). f_equal. exact IH.
Qed.

Lemma text_not_empty (a : string) c : a +:+ String c "" <> "".
Proof. destruct a; discriminate. Qed.

Lemma back_snoc (a : string) c : back (a +:+ String c "") = Some c.
Proof.
  induction a as [|x a IH]; [reflexivity|].
  change (back (String x (a +:+ String c "")) = Some c).
  pose proof (text_not_empty a c) as Hne.
  destruct (a +:+ String c "") as [|y rest] eqn:E; [contradiction|].
  exact IH.
Qed.

Lemma pop_back_snoc (a : string) c : pop_back (a +:+ String c "") = a.
Proof.
  induction a as [|x a IH]; [reflexivity|].
  change (pop_back (String x (a +:+ String c "")) = String x a).
  pose proof (text_not_empty a c) as Hne.
  destruct (a +:+ String c "") as [|y rest] eqn:E; [contradiction|].
  cbn [pop_back]. f_equal. exact IH.
Qed.

Lemma each_followed_join sep x l :
  each_followed sep (x :: l) = join sep (x :: l) +:+ sep.
Proof.
  revert x. induction l as [|y l IH]; intros x.
  - cbn [each_followed join]. rewrite text_nil_r. reflexivity.
  - change (x +:+ sep +:+ each_followed sep (y :: l)
            = (x +:+ sep +:+ join sep (y :: l)) +:+ sep).
    rewrite IH, !text_assoc. reflexivity.
Qed.

Lemma each_followed_app sep l1 l2 :
  each_followed sep (l1 ++ l2) = each_followed sep l1 +:+ each_followed sep l2.
Proof.
  induction l1 as [|x l1 IH]; [reflexivity|].
  cbn [app each_followed]. rewrite IH, !text_assoc. reflexivity.
Qed.

Section Constants.
Variable float_to_string : Z -> string.

Lemma write_lane_text t data i :
  (i < 16)%nat ->
  write_lane float_to_string t data i = Some (lane_text float_to_string t data i).
Proof.
  intros Hi. unfold write_lane, lane_text. apply Nat.ltb_lt in Hi.
  destruct (base t); rewrite ?Hi; reflexivity.
Qed.

Lemma write_rows_text t data c rs :
  forall s,
    Forall (fun r => (c * Z.to_nat (rows t) + r < 16)%nat) rs ->
    write_rows float_to_string t data c rs s
    = Some (s +:+ each_followed ","
                    (map (fun r => lane_text float_to_string t data
                                     (c * Z.to_nat (rows t) + r)) rs)).
Proof.
  induction rs as [|r rs IH]; intros s Hrs; cbn [write_rows map each_followed].
  - rewrite text_nil_r. reflexivity.
  - apply Forall_cons in Hrs as [Hr Hrs].
    rewrite write_lane_text by exact Hr. rewrite IH by exact Hrs.
    rewrite !text_assoc. reflexivity.
Qed.

Lemma write_columns_text t data cs :
  forall s,
    Forall (fun c => (c * Z.to_nat (rows t) + Z.to_nat (rows t) <= 16)%nat) cs ->
    write_columns float_to_string t data cs s
    = Some (s +:+ each_followed ","
                    (map (lane_text float_to_string t data)
                       (flat_map (fun c => map (fun r => (c * Z.to_nat (rows t) + r)%nat)
                                             (seq 0 (Z.to_nat (rows t)))) cs))).
Proof.
  induction cs as [|c cs IH]; intros s Hcs; cbn [write_columns flat_map map each_followed].
  - rewrite text_nil_r. reflexivity.
  - apply Forall_cons in Hcs as [Hc Hcs].
    rewrite write_rows_text.
    + rewrite IH by exact Hcs. rewrite map_app, each_followed_app, map_map, text_assoc.
      reflexivity.
    + apply Forall_forall. intros r Hr. apply elem_of_seq in Hr. lia.
Qed.

Lemma lanes_in_order n m :
  flat_map (fun c => map (fun r => (c * n + r)%nat) (seq 0 n)) (seq 0 m)
  = seq 0 (m * n).
Proof.
  induction m as [|m IH]; [reflexivity|].
  rewrite seq_S, flat_map_app, IH. cbn [flat_map]. rewrite app_nil_r.
  replace (S m * n)%nat with (m * n + n)%nat by lia.
  rewrite seq_app. f_equal. cbn [Nat.add].
  transitivity (Nat.add (m * n) <$> seq 0 n); [reflexivity|].
  rewrite fmap_add_seq. f_equal. lia.
Qed.

(** X25.  [write_constant] for a type with at least one row and one
    column and at most sixteen lanes writes the lanes in the order they
    are stored, with commas between them and none after the last, in
    brackets, after the name of the type unless the type is a scalar;
    the lanes of a type that is not [int], [uint] or [float] are written
    as nothing, so that a [bool] is written as a pair of brackets. *)
Theorem write_constant_lanes (t : fx.type) (data : constant)
    (Hrows : 1 <= rows t) (Hcols : 1 <= cols t) (Hlanes : rows t * cols t <= 16) :
  write_constant float_to_string t data
  = Some ((if is_scalar t then "" else write_type t)
          +:+ "("
          +:+ join "," (map (lane_text float_to_string t data)
                          (seq 0 (Z.to_nat (rows t * cols t))))
          +:+ ")").
Proof.
  unfold write_constant.
  assert (Hcount : (Z.to_nat (cols t) * Z.to_nat (rows t))%nat
                   = Z.to_nat (rows t * cols t)) by nia.
  rewrite write_columns_text.
  2: { apply Forall_forall. intros c Hc. apply elem_of_seq in Hc. nia. }
  rewrite lanes_in_order, Hcount.
  destruct (Z.to_nat (rows t * cols t)) as [|n] eqn:Hn; [nia|].
  rewrite <- cons_seq. cbn [map]. rewrite each_followed_join.
  set (prefix := (if negb (is_scalar t) then write_type t else "") +:+ "(").
  set (lanes := join "," _).
  change "," with (String comma "") at 1 2 3.
  rewrite <- (text_assoc prefix lanes), back_snoc. rewrite bool_decide_eq_true_2 by reflexivity.
  rewrite pop_back_snoc. subst prefix. destruct (is_scalar t); cbn [negb];
    rewrite !text_assoc; reflexivity.
Qed.

End Constants.

Lemma write_constant_lanes_witness :
  write_constant (fun _ => "") int3 (Constant [1; 4294967295; 3] "" [])
  = Some "int3(1,-1,3)".
Proof.
  rewrite (write_constant_lanes (fun _ => "") int3 (Constant [1; 4294967295; 3] "" []))
    by (vm_compute; discriminate).
  vm_compute. reflexivity.
Defined.

(** *** Blocks *)
Lemma block_append_block id text cg :
  block id (append_block id text cg) = block id cg +:+ text.
Proof. unfold block at 1, append_block. cbn. rewrite lookup_insert_eq. reflexivity. Qed.

Lemma code_append_code text cg : code (append_code text cg) = code cg +:+ text.
Proof. unfold code, append_code. cbn. apply block_append_block. Qed.

Lemma lookup_append_block id text cg :
  _blocks (append_block id text cg) !! id = Some (block id cg +:+ text).
Proof. unfold append_block. cbn. apply lookup_insert_eq. Qed.

(** X26.  On a generator with no block yet and block 0 current,
    [write_result] throws, and still throws after a texture or a
    technique is defined, which write no text; after a sampler or a
    uniform is defined it returns, with the text of the declaration and
    the descriptor at the end of its list. *)
Theorem write_result_needs_text (s : module) (cg : codegen)
    (Hblock : _current_block cg = 0) (Hempty : _blocks cg = ∅) :
  write_result s cg = None
  /\ (forall info, write_result s (define_texture info cg).2 = None)
  /\ (forall info, write_result s (define_technique info cg).2 = None)
  /\ (forall loc info,
        write_result s (define_sampler loc info cg).2
        = Some {| hlsl := write_location loc +:+ "__sampler "
                          +:+ sampler_unique_name info +:+ ";" +:+ newline;
                  module_samplers := samplers cg ++ [info];
                  module_textures := textures cg;
                  module_uniforms := uniforms cg;
                  module_techniques := techniques cg |})
  /\ (forall loc info,
        write_result s (define_uniform loc info cg).2
        = Some {| hlsl := write_location loc +:+ write_type (uniform_type info) +:+ " "
                          +:+ uniform_name info +:+ ";" +:+ newline;
                  module_samplers := samplers cg;
                  module_textures := textures cg;
                  module_uniforms := uniforms cg ++ [(define_uniform loc info cg).1.2];
                  module_techniques := techniques cg |}).
Proof.
  repeat split; intros.
  - unfold write_result. rewrite Hempty. reflexivity.
  - unfold write_result, define_texture. cbn. rewrite Hempty. reflexivity.
  - unfold write_result, define_technique. cbn. rewrite Hempty. reflexivity.
  - unfold write_result, define_sampler, append_code, append_block, block. cbn.
    rewrite Hblock, Hempty. rewrite !lookup_insert_eq. cbn. reflexivity.
  - unfold write_result, define_uniform, append_code, append_block, block. cbn.
    rewrite Hblock, Hempty. rewrite !lookup_insert_eq. cbn. reflexivity.
Qed.

Lemma write_result_needs_text_witness :
  write_result (Build_module "" [] [] [] []) codegen_hlsl_new = None
  /\ write_result (Build_module "" [] [] [] [])
       (define_uniform no_location
          (Build_uniform_info "fade" (type3 t_float 1 1) 0 0 4 0) codegen_hlsl_new).2
     = Some (Build_module (String.append "float fade;" newline) [] []
               [Build_uniform_info "fade" (type3 t_float 1 1) 0 0 4 0] []).
Proof.
  pose proof (write_result_needs_text (Build_module "" [] [] [] []) codegen_hlsl_new
                eq_refl eq_refl) as (H1 & _ & _ & _ & H5).
  split; [exact H1|].
  rewrite H5. vm_compute. reflexivity.
Defined.

Lemma define_parameters_spec ps :
  forall cg ids cg',
    define_parameters ps cg = (ids, cg') ->
    code cg' = code cg +:+ each_followed "," (map parameter_text ps)
    /\ ids = seqZ (_next_id cg) (Z.of_nat (length ps))
    /\ _next_id cg' = _next_id cg + Z.of_nat (length ps)
    /\ _current_block cg' = _current_block cg
    /\ functions cg' = functions cg
    /\ (forall k, k < _next_id cg -> _names cg' !! k = _names cg !! k)
    /\ (forall i p, ps !! i = Some p ->
          _names cg' !! (_next_id cg + Z.of_nat i) = Some (member_name p.2)).
Proof.
  induction ps as [|p ps IH]; intros cg ids cg' Hrun; cbn [define_parameters] in Hrun.
  - injection Hrun as <- <-. cbn [map each_followed length]. rewrite text_nil_r.
    repeat split; try reflexivity; try lia. intros i p Hp. discriminate Hp.
  - destruct (define_parameter p.1 p.2 cg) as [id cg1] eqn:Hp.
    destruct (define_parameters ps cg1) as [ids1 cg2] eqn:Hps.
    injection Hrun as <- <-.
    apply IH in Hps as (Hcode & Hids & Hnext & Hcurrent & Hfunctions & Hold & Hnew).
    unfold define_parameter, make_id in Hp. injection Hp as <- <-.
    rewrite !code_append_code in Hcode. cbn in Hnext, Hcurrent, Hfunctions, Hold, Hnew, Hids.
    assert (Hname : forall names : gmap Z string,
               id_to_name (set_names (<[_next_id cg := member_name p.2]> names)
                             (set_next_id (_next_id cg + 1) cg)) (_next_id cg)
               = member_name p.2).
    { intros names. unfold id_to_name. cbn. rewrite lookup_insert_eq. reflexivity. }
    repeat split.
    + rewrite Hcode. cbn [map each_followed]. unfold parameter_text.
      unfold id_to_name, append_code, append_block. cbn. rewrite lookup_insert_eq.
      unfold code. cbn. rewrite !text_assoc. reflexivity.
    + cbn [length]. rewrite Nat2Z.inj_succ, seqZ_cons by lia. f_equal.
      rewrite Hids. f_equal; lia.
    + rewrite Hnext. cbn [length]. lia.
    + exact Hcurrent.
    + exact Hfunctions.
    + intros k Hk. rewrite Hold by lia. apply lookup_insert_ne. lia.
    + intros [|i] q Hq.
      * cbn in Hq. injection Hq as <-. rewrite Z.add_0_r, Hold by lia.
        apply lookup_insert_eq.
      * cbn in Hq. specialize (Hnew i q Hq). rewrite <- Hnew. f_equal. lia.
Qed.

Lemma define_function_spec info cg text c :
  code cg = text +:+ String c "" ->
  exists cg',
    define_function info cg = Some (function_definition info, cg')
    /\ code cg' = (if bool_decide (c = comma) then text else text +:+ String c "")
                  +:+ ")" +:+ newline
    /\ functions cg' = functions cg ++ [info]
    /\ _next_id cg' = _next_id cg
    /\ _names cg' = _names cg.
Proof.
  intros Hcode. unfold define_function. rewrite Hcode, back_snoc, pop_back_snoc.
  eexists. split; [reflexivity|].
  destruct (bool_decide (c = comma)); repeat split; try reflexivity.
  - unfold code, append_code, append_block, block. cbn.
    rewrite !lookup_insert_eq. reflexivity.
  - unfold code, append_code, append_block, block in *. cbn.
    rewrite lookup_insert_eq, Hcode. reflexivity.
Qed.

(** X27.  The header of a function never reads the last character of
    an empty string: it is written as the return type, the name and the
    parameters in brackets, with commas between them and none after the
    last; the parameters are given the next ids in order, under which
    their names are found afterwards, and the function is added to the
    end of the list. *)
Theorem function_header_parameters (id : Z) (ret_type : fx.type)
    (ps : list (location * struct_member_info)) (info : function_info) (cg : codegen) :
  exists cg',
    function_header id ret_type ps info cg
    = Some (seqZ (_next_id cg) (Z.of_nat (length ps)), cg')
    /\ code cg' = code cg +:+ write_type ret_type +:+ " " +:+ id_to_name cg id +:+ "("
                  +:+ join "," (map parameter_text ps) +:+ ")" +:+ newline
    /\ functions cg' = functions cg ++ [info]
    /\ _next_id cg' = _next_id cg + Z.of_nat (length ps)
    /\ (forall i p, ps !! i = Some p ->
          id_to_name cg' (_next_id cg + Z.of_nat i) = member_name p.2).
Proof.
  unfold function_header.
  destruct (define_parameters ps (enter_function id ret_type cg)) as [ids cg2] eqn:Hps.
  apply define_parameters_spec in Hps
    as (Hcode & Hids & Hnext & Hcurrent & Hfunctions & Hold & Hnew).
  assert (Henter : code (enter_function id ret_type cg)
                   = code cg +:+ write_type ret_type +:+ " " +:+ id_to_name cg id +:+ "(")
    by exact (code_append_code _ _).
  rewrite Henter in Hcode. clear Henter Hold.
  change (_next_id (enter_function id ret_type cg)) with (_next_id cg) in *.
  change (functions (enter_function id ret_type cg)) with (functions cg) in *.
  subst ids.
  pose (opening := code cg +:+ write_type ret_type +:+ " " +:+ id_to_name cg id).
  assert (Hlast : exists text c,
             code cg2 = text +:+ String c ""
             /\ (if bool_decide (c = comma) then text else text +:+ String c "")
                = opening +:+ "(" +:+ join "," (map parameter_text ps)).
  { destruct ps as [|p ps].
    - exists opening, (Ascii.ascii_of_nat 40). cbn [map each_followed join] in *.
      rewrite Hcode, text_nil_r. unfold opening. rewrite !text_assoc.
      split; [reflexivity|].
      rewrite bool_decide_eq_false_2 by discriminate. reflexivity.
    - exists (opening +:+ "(" +:+ join "," (map parameter_text (p :: ps))), comma.
      rewrite Hcode. cbn [map]. rewrite each_followed_join. unfold opening.
      rewrite !text_assoc.
      split; [reflexivity|]. rewrite bool_decide_eq_true_2 by reflexivity. reflexivity. }
  destruct Hlast as (text & c & Hcode2 & Htext).
  destruct (define_function_spec info cg2 text c Hcode2)
    as (cg3 & Hrun & Hcode3 & Hfunctions3 & Hnext3 & Hnames3).
  exists cg3. rewrite Hrun. split; [reflexivity|].
  repeat split.
  - rewrite Hcode3, Htext. unfold opening. rewrite !text_assoc. reflexivity.
  - rewrite Hfunctions3, Hfunctions. reflexivity.
  - rewrite Hnext3. exact Hnext.
  - intros i p Hp. specialize (Hnew i p Hp). unfold id_to_name.
    rewrite Hnames3, Hnew. reflexivity.
Qed.

Lemma function_header_parameters_witness :
  exists cg',
    function_header 5 (type3 t_float 4 1) main_parameters (Build_function_info 5 "main")
      main_named = Some ([1; 2], cg')
    /\ code cg' = "float4 main(" +:+ newline +:+ "float4 pos," +:+ newline
                  +:+ "float2 tex)" +:+ newline.
Proof.
  destruct (function_header_parameters 5 (type3 t_float 4 1) main_parameters
              (Build_function_info 5 "main") main_named) as (cg' & H1 & H2 & _).
  exists cg'. split; [exact H1|].
  rewrite H2. vm_compute. reflexivity.
Defined.

End hlsl_props.
